(** * lip6tui: remote job-lifecycle core, embedded in Rocq

    A shallow embedding of the Python package [lip6tui]:
    - [duration.py]      -> [Module Duration]
    - [validators.py]    -> [Module Validators]
    - [ssh.py]           -> [Module SSH]
    - [conv/commands.py] -> [Module Conv]   (SLURM adapter)
    - [hpc/commands.py]  -> [Module HPC]    (OAR adapter)
    - [*/app.py]         -> [Module Tracker] ([_connect_to]),
                            [Module Tunnel]  ([_cleanup], [action_disconnect]),
                            [Module Dashboard] ([_update_tables]) and
                            [Module HPCForms], [Module ConvForms] (the forms)
    - [config.py]        -> [Module Config]

    Python [str] values handled by the text-processing code are modelled as
    lists of characters in the range U+0000..U+00FF (Rocq's [ascii], read as
    a code point).  On that range the character classes used by the source
    ([str.isspace], [\s], [\d], [str.lower], the line boundaries of
    [str.splitlines]) are written out exactly.  Python [int] is [Z]; the
    interpreter's limit on decimal conversions ([int] of text and [str] of
    an integer raise [ValueError] beyond 4300 digits) is part of
    [Text.py_int] and [Text.py_str].  Exceptions are values of a result
    type, so that "never raises" is a statement to prove; what is outside
    [Exception] (task cancellation, interpreter exit) is not modelled.

    The file has three parts: the embedding of the source, the vocabulary
    in which the properties are stated, and the properties. *)

From Stdlib Require Import ZArith Ascii String List Bool Lia Permutation.
From Stdlib.Strings Require Import Byte.
Import ListNotations.
Local Open Scope Z_scope.

(* ================================================================== *)
(** * Part I: definitions                                              *)
(* ================================================================== *)

(** ** Exceptions and effects *)
Module Py.

(** The exceptions the modelled code can meet. *)
Inductive exn : Type :=
| ValueError          (* [int] on text that is no number; a decimal
                         conversion beyond the interpreter's limit *)
| IndexError          (* a list index out of range *)
| AttributeError.     (* an attribute of [None] *)

(** A computation that returns a value or raises. *)
Inductive result (A : Type) : Type :=
| Ok (a : A)
| Raise (e : exn).
Arguments Ok {A} a.
Arguments Raise {A} e.

Definition bind {A B} (c : result A) (k : A -> result B) : result B :=
  match c with
  | Ok a => k a
  | Raise e => Raise e
  end.

(** [l[i]] for a non-negative literal index. *)
Definition index {A} (l : list A) (i : nat) : result A :=
  match nth_error l i with
  | Some x => Ok x
  | None => Raise IndexError
  end.

(** Code that runs against the remote world: the world is threaded through
    every call of the executor. *)
Definition M (W A : Type) : Type := W -> A * W.

Definition ret {W A} (a : A) : M W A := fun w => (a, w).

Definition mbind {W A B} (c : M W A) (k : A -> M W B) : M W B :=
  fun w => let (a, w') := c w in k a w'.

End Py.

Declare Scope py_scope.
Delimit Scope py_scope with py.
Notation "x <- c ;; k" := (Py.bind c (fun x => k))
  (at level 61, c at next level, right associativity) : py_scope.
Declare Scope remote_scope.
Delimit Scope remote_scope with remote.
Notation "x <~ c ;; k" := (Py.mbind c (fun x => k))
  (at level 61, c at next level, right associativity) : remote_scope.
Notation "c ;;; k" := (Py.mbind c (fun _ => k))
  (at level 61, right associativity) : remote_scope.

(** ** Python built-ins on text *)
Module Text.
Import Py.

Definition str := list ascii.

(** A literal of the source. *)
Definition lit (s : string) : str := list_ascii_of_string s.

Definition code (c : ascii) : N := N_of_ascii c.

Definition between (lo hi : N) (c : ascii) : bool :=
  (lo <=? code c)%N && (code c <=? hi)%N.

(** [str.isspace] on one character, which is also the class [\s] of [re]:
    TAB..CR, FS..US, space, NEL (U+0085) and NBSP (U+00A0). *)
Definition is_space (c : ascii) : bool :=
  between 9 13 c || between 28 32 c || (code c =? 133)%N || (code c =? 160)%N.

(** The class [\d] of [re] below U+0100: the ten ASCII digits. *)
Definition is_digit (c : ascii) : bool := between 48 57 c.

(** Line boundaries of [str.splitlines]: LF, VT, FF, CR, FS, GS, RS, NEL. *)
Definition is_linebreak (c : ascii) : bool :=
  between 10 13 c || between 28 30 c || (code c =? 133)%N.

Definition eqc (a b : ascii) : bool := Ascii.eqb a b.

(** [str.lower] on one character: A-Z and the Latin-1 capitals (all of
    U+00C0..U+00DE but the multiplication sign) move up by 32. *)
Definition lower_char (c : ascii) : ascii :=
  if between 65 90 c || (between 192 222 c && negb (code c =? 215)%N)
  then ascii_of_N (code c + 32)
  else c.

Definition lower (s : str) : str := map lower_char s.

(** [str.lstrip()], [str.rstrip()], [str.strip()] with no argument. *)
Fixpoint lstrip (s : str) : str :=
  match s with
  | c :: s' => if is_space c then lstrip s' else s
  | [] => []
  end.

Definition rstrip (s : str) : str := rev (lstrip (rev s)).

Definition strip (s : str) : str := rstrip (lstrip s).

(** Truth value of a [str]: non-empty. *)
Definition truthy (s : str) : bool :=
  match s with [] => false | _ :: _ => true end.

(** The longest prefix of characters of a class, and what follows it: how a
    greedy [c+] or [c*] of [re] consumes input when the next item of the
    pattern cannot start with a character of the class. *)
Fixpoint span (p : ascii -> bool) (s : str) : str * str :=
  match s with
  | c :: s' =>
      if p c then let (a, b) := span p s' in (c :: a, b) else ([], s)
  | [] => ([], [])
  end.

(** [s.startswith(p)], giving the rest of [s] after [p]. *)
Fixpoint strip_prefix (p s : str) : option str :=
  match p, s with
  | [], _ => Some s
  | a :: p', b :: s' => if eqc a b then strip_prefix p' s' else None
  | _ :: _, [] => None
  end.

(** [needle in hay]. *)
Fixpoint contains (needle hay : str) : bool :=
  match strip_prefix needle hay with
  | Some _ => true
  | None => match hay with
            | [] => false
            | _ :: hay' => contains needle hay'
            end
  end.

(** [sep.join(parts)]. *)
Fixpoint join (sep : str) (parts : list str) : str :=
  match parts with
  | [] => []
  | [p] => p
  | p :: rest => p ++ sep ++ join sep rest
  end.

(** [s.split(sep)] for a one-character separator: never empty. *)
Fixpoint split (sep : ascii) (s : str) : list str :=
  match s with
  | [] => [[]]
  | c :: s' =>
      if eqc c sep then [] :: split sep s'
      else match split sep s' with
           | f :: fs => (c :: f) :: fs
           | [] => [[c]]
           end
  end.

(** [s.split(sep, 1)] for a one-character separator. *)
Fixpoint split1 (sep : ascii) (s : str) : list str :=
  match s with
  | [] => [[]]
  | c :: s' =>
      if eqc c sep then [[]; s']
      else match split1 sep s' with
           | f :: fs => (c :: f) :: fs
           | [] => [[c]]
           end
  end.

(** [s.splitlines()]: the text is cut at every line boundary, CR LF counting
    as one; a boundary at the very end opens no further line.  [cur] is the
    current line, reversed. *)
Fixpoint splitlines_from (cur : str) (s : str) : list str :=
  match s with
  | [] => match cur with [] => [] | _ :: _ => [rev cur] end
  | c :: s' =>
      if is_linebreak c then
        match s' with
        | c2 :: s'' =>
            if eqc c "013" && eqc c2 "010"
            then rev cur :: splitlines_from [] s''
            else rev cur :: splitlines_from [] s'
        | [] => [rev cur]
        end
      else splitlines_from (c :: cur) s'
  end.

Definition splitlines (s : str) : list str := splitlines_from [] s.

(** Value of a decimal digit. *)
Definition digit_val (c : ascii) : Z := Z.of_N (code c) - 48.

(** The value of a run of decimal digits, most significant first. *)
Definition int_of_digits (ds : str) : Z :=
  fold_left (fun acc c => 10 * acc + digit_val c) ds 0.

Definition digit_char (d : Z) : ascii := ascii_of_N (Z.to_N (48 + d)).

(** Decimal digits of a non-negative integer, pushed in front of [acc]. *)
Fixpoint dec_digits (fuel : nat) (n : Z) (acc : str) : str :=
  match fuel with
  | O => acc
  | S f =>
      let acc' := digit_char (n mod 10) :: acc in
      if n / 10 =? 0 then acc' else dec_digits f (n / 10) acc'
  end.

(** The binary length of [n] bounds its decimal length. *)
Definition dec_of_nonneg (n : Z) : str :=
  dec_digits (S (Z.to_nat (Z.log2 n))) n [].

(** The decimal numeral of [n], with a minus sign for a negative one. *)
Definition numeral (n : Z) : str :=
  if n <? 0 then "-"%char :: dec_of_nonneg (- n) else dec_of_nonneg n.

(** [sys.get_int_max_str_digits()]: the interpreter refuses to convert
    between [int] and decimal text when more digits than this are involved
    (the sign, white space and underscores do not count; leading zeros do)
    and raises [ValueError].  4300 is the default, and the package does
    not change it. *)
Definition max_str_digits : nat := 4300.

(** [str(n)], also the rendering of [{n}] in an f-string: the numeral of
    [n], unless it has more digits than the limit. *)
Definition py_str (n : Z) : result str :=
  if (max_str_digits <? length (dec_of_nonneg (Z.abs n)))%nat
  then Raise ValueError
  else Ok (numeral n).

(** Padding with a zero to two columns. *)
Definition pad_02 (s : str) : str :=
  if (length s <? 2)%nat then "0"%char :: s else s.

(** The format [{n:02d}]: zero-padded to two columns (the sign counts, so
    only a single digit is ever padded). *)
Definition fmt_02d (n : Z) : result str :=
  (s <- py_str n;; Ok (pad_02 s))%py.

(** The assertion [$] of [re] (no MULTILINE): at the end of the text, or
    just before a line feed that ends it. *)
Definition at_dollar (s : str) : bool :=
  match s with
  | [] => true
  | [c] => eqc c "010"
  | _ => false
  end.

(** [re.match(r"^\d+$", s)] as a truth value. *)
Definition match_all_digits (s : str) : bool :=
  let (ds, rest) := span is_digit s in
  truthy ds && at_dollar rest.

(** [a == b] on text. *)
Fixpoint eqs (a b : str) : bool :=
  match a, b with
  | [], [] => true
  | x :: a', y :: b' => eqc x y && eqs a' b'
  | _, _ => false
  end.


(** [s.split()] with no argument: the maximal runs of characters that are
    not white space.  [cur] is the current run, reversed. *)
Fixpoint words_from (cur : str) (s : str) : list str :=
  match s with
  | [] => match cur with [] => [] | _ :: _ => [rev cur] end
  | c :: s' =>
      if is_space c then
        match cur with
        | [] => words_from [] s'
        | _ :: _ => rev cur :: words_from [] s'
        end
      else words_from (c :: cur) s'
  end.

Definition words (s : str) : list str := words_from [] s.

(** The white space [int] skips around a number: TAB..CR, space, NEL and
    NBSP.  The separators FS..US, which [str.strip] removes, are not part
    of it. *)
Definition is_int_space (c : ascii) : bool :=
  between 9 13 c || (code c =? 32)%N || (code c =? 133)%N || (code c =? 160)%N.

Fixpoint drop_int_space (s : str) : str :=
  match s with
  | c :: s' => if is_int_space c then drop_int_space s' else s
  | [] => []
  end.

(** The digits of a decimal literal, in which single underscores may stand
    between digits; [prev] tells whether the character before was a
    digit. *)
Fixpoint literal_digits (prev : bool) (s : str) : option str :=
  match s with
  | [] => if prev then Some [] else None
  | c :: s' =>
      if is_digit c then
        match literal_digits true s' with
        | Some ds => Some (c :: ds)
        | None => None
        end
      else if eqc c "_" then
        if prev then literal_digits false s' else None
      else None
  end.

(** The value of the digits of a literal, unless they are more than the
    limit. *)
Definition int_of_literal (ds : str) : result Z :=
  if (max_str_digits <? length ds)%nat then Raise ValueError
  else Ok (int_of_digits ds).

(** [int(s)]: white space around the number is skipped, a sign may come
    first, and the rest has to be a decimal literal of at most
    [max_str_digits] digits; any other text raises [ValueError]. *)
Definition py_int (s : str) : result Z :=
  match rev (drop_int_space (rev (drop_int_space s))) with
  | [] => Raise ValueError
  | c :: r =>
      if eqc c "-" then
        match literal_digits false r with
        | Some ds => (n <- int_of_literal ds;; Ok (- n))%py
        | None => Raise ValueError
        end
      else if eqc c "+" then
        match literal_digits false r with
        | Some ds => int_of_literal ds
        | None => Raise ValueError
        end
      else
        match literal_digits false (c :: r) with
        | Some ds => int_of_literal ds
        | None => Raise ValueError
        end
  end.

End Text.

(** ** duration.py *)
Module Duration.
Import Text Py.
Local Open Scope py_scope.

(** [re.match(r"^(\d+):(\d+):(\d+)$", text)]: the three groups.  Each
    [\d+] is followed by a character that is no digit, so the greedy match
    is the only one. *)
Definition match_hms (text : str) : option (str * str * str) :=
  let (h, r1) := span is_digit text in
  match h, r1 with
  | _ :: _, c1 :: r2 =>
      if eqc c1 ":" then
        let (mn, r3) := span is_digit r2 in
        match mn, r3 with
        | _ :: _, c2 :: r4 =>
            if eqc c2 ":" then
              let (sec, r5) := span is_digit r4 in
              if truthy sec && at_dollar r5 then Some (h, mn, sec) else None
            else None
        | _, _ => None
        end
      else None
  | _, _ => None
  end.

Definition is_unit (c : ascii) : bool := eqc c "d" || eqc c "h" || eqc c "m".

(** One match of [(\d+)\s*(d|h|m)] at the start of [s]: the two groups and
    the text after the match.  After the longest run of digits and the
    longest run of white space the unit letter must follow; giving back
    digits or white space would put a digit or a space where the letter is
    needed, so no other attempt can succeed. *)
Definition match_token (s : str) : option (str * ascii * str) :=
  let (val, r1) := span is_digit s in
  match val with
  | [] => None
  | _ :: _ =>
      match snd (span is_space r1) with
      | u :: r2 => if is_unit u then Some (val, u, r2) else None
      | [] => None
      end
  end.

(** [re.findall(r"(\d+)\s*(d|h|m)", s)]: matches are searched from left to
    right; after a match the search resumes where it ended, otherwise one
    character further. *)
Fixpoint findall_from (fuel : nat) (s : str) : list (str * ascii) :=
  match fuel with
  | O => []
  | S f =>
      match s with
      | [] => []
      | _ :: s' =>
          match match_token s with
          | Some (val, u, rest) => (val, u) :: findall_from f rest
          | None => findall_from f s'
          end
      end
  end.

Definition findall (s : str) : list (str * ascii) :=
  findall_from (length s) s.

(** The body of the [for val, unit in ...] loop: [total] after one token. *)
Definition add_token (total : Z) (tok : str * ascii) : result Z :=
  let (val, unit) := tok in
  v <- py_int val;;
  if eqc unit "d" then Ok (total + v * 1440)
  else if eqc unit "h" then Ok (total + v * 60)
  else Ok (total + v).

(** The loop over the tokens, from the value [total] has before it. *)
Fixpoint add_tokens (total : Z) (tokens : list (str * ascii)) : result Z :=
  match tokens with
  | [] => Ok total
  | tok :: rest => total' <- add_token total tok;; add_tokens total' rest
  end.

(** [parse_to_minutes]: [Ok None] is the result [None]; an [int] that
    refuses its argument ends the call with [ValueError]. *)
Definition parse_to_minutes (text : str) : result (option Z) :=
  let text := lower (strip text) in
  if negb (truthy text) then Ok None
  else
    match match_hms text with
    | Some (g1, g2, g3) =>
        h <- py_int g1;;
        mn <- py_int g2;;
        sec <- py_int g3;;            (* converted, and not used *)
        Ok (Some (h * 60 + mn))
    | None =>
        let tokens := findall text in
        total <- add_tokens 0 tokens;;
        let matched := match tokens with [] => false | _ :: _ => true end in
        if matched then Ok (Some total)
        else if match_all_digits text then
          n <- py_int text;; Ok (Some (n * 60))
        else Ok None
    end.

(** OAR wall time, [H:M:0]. *)
Definition minutes_to_hms (total_minutes : Z) : result str :=
  let h := total_minutes / 60 in
  let m := total_minutes mod 60 in
  sh <- py_str h;;
  sm <- py_str m;;
  Ok (sh ++ lit ":" ++ sm ++ lit ":0").

(** SLURM wall time, [HH:MM:00] or [D-HH:MM:00]. *)
Definition minutes_to_slurm (total_minutes : Z) : result str :=
  let total_h := total_minutes / 60 in
  let m := total_minutes mod 60 in
  if total_h >=? 24 then
    let d := total_h / 24 in
    let rem_h := total_h mod 24 in
    sd <- py_str d;;
    sh <- fmt_02d rem_h;;
    sm <- fmt_02d m;;
    Ok (sd ++ lit "-" ++ sh ++ lit ":" ++ sm ++ lit ":00")
  else
    sh <- fmt_02d total_h;;
    sm <- fmt_02d m;;
    Ok (sh ++ lit ":" ++ sm ++ lit ":00").

(** [parts.append(f"{n}" + unit)] under [if n:], as the items added. *)
Definition part (n : Z) (unit : str) : result (list str) :=
  if n =? 0 then Ok [] else s <- py_str n;; Ok [s ++ unit].

Definition minutes_to_human (total_minutes : Z) : result str :=
  if total_minutes <=? 0 then Ok (lit "0m")
  else
    let d := total_minutes / 1440 in
    let h := (total_minutes mod 1440) / 60 in
    let m := total_minutes mod 60 in
    pd <- part d (lit "d");;
    ph <- part h (lit "h");;
    pm <- part m (lit "m");;
    let parts := pd ++ ph ++ pm in
    match parts with
    | [] => Ok (lit "0m")
    | _ :: _ => Ok (join (lit " ") parts)
    end.

Definition format_elapsed (seconds : Z) : result str :=
  if seconds <? 0 then Ok (lit "N/A")
  else minutes_to_human (seconds / 60).

End Duration.

(** ** ssh.py: the Remote Executor

    Output of the ssh process is bytes; decoding can yield any Unicode
    scalar value, so text in this module is a list of code points.  The
    locale's encoding, which [subprocess.run(text=True)] uses, is taken to
    be UTF-8. *)
Module SSH.

Definition text := list N.
Definition bytes := list byte.

Definition of_str (s : Text.str) : text := map Text.code s.

(** *** The UTF-8 codec *)

Inductive reason : Type :=
| InvalidStart          (* "invalid start byte" *)
| InvalidContinuation   (* "invalid continuation byte" *)
| UnexpectedEnd.        (* "unexpected end of data" *)

(** The decoder at the start of a non-empty input: a scalar value and the
    input after it, or the number of bytes at fault and why. *)
Inductive decoded : Type :=
| Scalar (cp : N) (rest : bytes)
| Malformed (len : nat) (why : reason).

Definition is_cont (b : byte) : bool :=
  ((128 <=? Byte.to_N b) && (Byte.to_N b <=? 191))%N.

Definition low6 (b : byte) : N := N.land (Byte.to_N b) 63.

Definition utf8_step (b0 : byte) (rest : bytes) : decoded :=
  let c := Byte.to_N b0 in
  (if c <? 128 then Scalar c rest
   else if c <? 194 then Malformed 1 InvalidStart
   else if c <? 224 then
     match rest with
     | [] => Malformed 1 UnexpectedEnd
     | b1 :: r1 =>
         if is_cont b1
         then Scalar (N.lor (N.shiftl (N.land c 31) 6) (low6 b1)) r1
         else Malformed 1 InvalidContinuation
     end
   else if c <? 240 then
     match rest with
     | [] => Malformed 1 UnexpectedEnd
     | b1 :: r1 =>
         if negb (is_cont b1)
            || (if Byte.to_N b1 <? 160 then c =? 224 else c =? 237)
         then Malformed 1 InvalidContinuation
         else
           match r1 with
           | [] => Malformed 2 UnexpectedEnd
           | b2 :: r2 =>
               if is_cont b2
               then Scalar (N.lor (N.shiftl (N.land c 15) 12)
                              (N.lor (N.shiftl (low6 b1) 6) (low6 b2))) r2
               else Malformed 2 InvalidContinuation
           end
     end
   else if c <? 245 then
     match rest with
     | [] => Malformed 1 UnexpectedEnd
     | b1 :: r1 =>
         if negb (is_cont b1)
            || (if Byte.to_N b1 <? 144 then c =? 240 else c =? 244)
         then Malformed 1 InvalidContinuation
         else
           match r1 with
           | [] => Malformed 2 UnexpectedEnd
           | b2 :: r2 =>
               if negb (is_cont b2) then Malformed 2 InvalidContinuation
               else
                 match r2 with
                 | [] => Malformed 3 UnexpectedEnd
                 | b3 :: r3 =>
                     if is_cont b3
                     then Scalar (N.lor (N.shiftl (N.land c 7) 18)
                                    (N.lor (N.shiftl (low6 b1) 12)
                                       (N.lor (N.shiftl (low6 b2) 6) (low6 b3)))) r3
                     else Malformed 3 InvalidContinuation
                 end
           end
     end
   else Malformed 1 InvalidStart)%N.

(** [UnicodeDecodeError]: the input, the faulty range [start, stop) and the
    reason. *)
Record decode_error : Type := mkDecodeError {
  de_object : bytes;
  de_start : nat;
  de_stop : nat;
  de_reason : reason
}.

(** [data.decode("utf-8", errors)], [pos] bytes into [whole].  With
    [errors="replace"] ([replace = true]) a faulty range becomes U+FFFD;
    with [errors="strict"] it raises. *)
Fixpoint decode_from (fuel : nat) (replace : bool) (whole : bytes) (pos : nat)
  (data : bytes) : decode_error + text :=
  match fuel with
  | O => inr []
  | S f =>
      match data with
      | [] => inr []
      | b0 :: rest =>
          match utf8_step b0 rest with
          | Scalar cp rest' =>
              match decode_from f replace whole
                      (pos + (length data - length rest')) rest' with
              | inr t => inr (cp :: t)
              | inl e => inl e
              end
          | Malformed len why =>
              if replace then
                match decode_from f replace whole (pos + len) (skipn len data) with
                | inr t => inr (65533%N :: t)
                | inl e => inl e
                end
              else inl (mkDecodeError whole pos (pos + len) why)
          end
      end
  end.

Definition decode_replace (data : bytes) : text :=
  match decode_from (length data) true data 0 data with
  | inr t => t
  | inl _ => []
  end.

Definition decode_strict (data : bytes) : decode_error + text :=
  decode_from (length data) false data 0 data.

Definition hex_digit (n : N) : ascii :=
  if (n <? 10)%N then ascii_of_N (48 + n) else ascii_of_N (87 + n).

(** [str(e)] for a [UnicodeDecodeError]; the positions are written by the
    interpreter's own formatting of a C integer, which knows no limit. *)
Definition decode_error_str (e : decode_error) : text :=
  let why :=
    match de_reason e with
    | InvalidStart => Text.lit "invalid start byte"
    | InvalidContinuation => Text.lit "invalid continuation byte"
    | UnexpectedEnd => Text.lit "unexpected end of data"
    end in
  of_str
    (if (de_stop e =? S (de_start e))%nat then
       let b := Byte.to_N (nth (de_start e) (de_object e) x00) in
       Text.lit "'utf-8' codec can't decode byte 0x" ++
       [hex_digit (b / 16); hex_digit (b mod 16)] ++
       Text.lit " in position " ++ Text.numeral (Z.of_nat (de_start e)) ++
       Text.lit ": " ++ why
     else
       Text.lit "'utf-8' codec can't decode bytes in position " ++
       Text.numeral (Z.of_nat (de_start e)) ++ Text.lit "-" ++
       Text.numeral (Z.of_nat (de_stop e) - 1) ++ Text.lit ": " ++ why).

(** [data.replace("\r\n", "\n")] and [data.replace("\r", "\n")]. *)
Fixpoint replace_crlf (s : text) : text :=
  match s with
  | [] => []
  | c :: r =>
      match r with
      | c2 :: r2 =>
          if ((c =? 13) && (c2 =? 10))%N then 10%N :: replace_crlf r2
          else c :: replace_crlf r
      | [] => [c]
      end
  end.

Definition replace_cr (s : text) : text :=
  map (fun c => if (c =? 13)%N then 10%N else c) s.

(** [Popen._translate_newlines(data, "utf-8", "strict")], what text mode
    does to each captured stream. *)
Definition translate_newlines (data : bytes) : decode_error + text :=
  match decode_strict data with
  | inr t => inr (replace_cr (replace_crlf t))
  | inl e => inl e
  end.

(** *** The ssh process and the two library calls *)

(** What the local [ssh] process does for one call. *)
Inductive behaviour : Type :=
| Exits (stdout stderr : bytes) (returncode : Z)
| Hangs                     (* still running when the timeout expires *)
| FailsToStart (msg : text). (* the process cannot be started; [msg] is
                                the text of the exception raised *)

Inductive exn : Type :=
| TimeoutExpired                       (* subprocess.TimeoutExpired *)
| AsyncTimeoutError                    (* asyncio.TimeoutError *)
| UnicodeDecodeError (e : decode_error)
| OSError (msg : text).

(** [str(e)] in the clause [except Exception as e].  The two timeout
    exceptions are caught by the clauses before it and never get there
    ([str] of an [asyncio.TimeoutError] is empty). *)
Definition exn_str (e : exn) : text :=
  match e with
  | TimeoutExpired | AsyncTimeoutError => []
  | UnicodeDecodeError d => decode_error_str d
  | OSError msg => msg
  end.

Inductive result (A : Type) : Type :=
| Ok (a : A)
| Raise (e : exn).
Arguments Ok {A} a.
Arguments Raise {A} e.

(** What happens to operating-system processes during a call. *)
Inductive os_event : Type :=
| Spawned
| Killed.

Definition triple : Type := text * text * Z.

Definition timed_out : triple := ([], of_str (Text.lit "SSH command timed out"), 1).

(** [subprocess.run([...], capture_output=True, text=True, timeout=...)]:
    on expiry the child is killed and [TimeoutExpired] raised; the captured
    streams are decoded, standard output first. *)
Definition subprocess_run (b : behaviour) : result triple * list os_event :=
  match b with
  | FailsToStart msg => (Raise (OSError msg), [])
  | Hangs => (Raise TimeoutExpired, [Spawned; Killed])
  | Exits out err rc =>
      match translate_newlines out with
      | inl e => (Raise (UnicodeDecodeError e), [Spawned])
      | inr o =>
          match translate_newlines err with
          | inl e => (Raise (UnicodeDecodeError e), [Spawned])
          | inr e => (Ok (o, e, rc), [Spawned])
          end
      end
  end.

(** A started [asyncio] subprocess: what [communicate()] yields within the
    timeout, if anything, and the [returncode] attribute afterwards. *)
Record process : Type := mkProcess {
  communicate : option (bytes * bytes);
  returncode : option Z
}.

(** [asyncio.create_subprocess_exec(...)]. *)
Definition create_subprocess_exec (b : behaviour) : result process * list os_event :=
  match b with
  | FailsToStart msg => (Raise (OSError msg), [])
  | Hangs => (Ok (mkProcess None None), [Spawned])
  | Exits out err rc => (Ok (mkProcess (Some (out, err)) (Some rc)), [Spawned])
  end.

(** [asyncio.wait_for(proc.communicate(), timeout)]. *)
Definition wait_for_communicate (p : process) : result (bytes * bytes) :=
  match communicate p with
  | Some io => Ok io
  | None => Raise AsyncTimeoutError
  end.

(** [x or 0] for an optional integer. *)
Definition or_zero (x : option Z) : Z :=
  match x with
  | Some v => if v =? 0 then 0 else v
  | None => 0
  end.

Section Client.
(** The environment: what ssh does for a host, a command and a timeout. *)
Variable ssh : Text.str -> Text.str -> Z -> behaviour.
Variable host : Text.str.

(** [SSHClient.run_sync]. *)
Definition run_sync (command : Text.str) (timeout : Z)
  : result triple * list os_event :=
  match subprocess_run (ssh host command timeout) with
  | (Ok (stdout, stderr, rc), evs) => (Ok (stdout, stderr, rc), evs)
  | (Raise TimeoutExpired, evs) => (Ok timed_out, evs)
  | (Raise e, evs) => (Ok ([], exn_str e, 1), evs)
  end.

(** [SSHClient.run]. *)
Definition run (command : Text.str) (timeout : Z)
  : result triple * list os_event :=
  match create_subprocess_exec (ssh host command timeout) with
  | (Ok proc, evs) =>
      match wait_for_communicate proc with
      | Ok (stdout_b, stderr_b) =>
          (Ok (decode_replace stdout_b, decode_replace stderr_b,
               or_zero (returncode proc)), evs)
      | Raise AsyncTimeoutError =>
          (* proc.kill() *)
          (Ok timed_out, evs ++ [Killed])
      | Raise e => (Ok ([], exn_str e, 1), evs)
      end
  | (Raise e, evs) => (Ok ([], exn_str e, 1), evs)
  end.

End Client.
End SSH.

(** ** validators.py *)
Module Validators.
Import Text.

(** The class [[a-zA-Z0-9_.-]]. *)
Definition is_name_char (c : ascii) : bool :=
  between 97 122 c || between 65 90 c || between 48 57 c ||
  eqc c "_" || eqc c "." || eqc c "-".

(** [re.match(r"^\d+$", value.strip())]. *)
Definition is_int (value : str) : bool := match_all_digits (strip value).

(** [re.match(r"^[a-zA-Z0-9_.-]+$", value.strip())]. *)
Definition is_name (value : str) : bool :=
  let (run, rest) := span is_name_char (strip value) in
  truthy run && at_dollar rest.

(** The class [[a-zA-Z0-9_.~/ -]]. *)
Definition is_path_char (c : ascii) : bool :=
  between 97 122 c || between 65 90 c || between 48 57 c ||
  eqc c "_" || eqc c "." || eqc c "~" || eqc c "/" || eqc c " " || eqc c "-".

(** [re.match(r"^[a-zA-Z0-9_.~/ -]+$", value.strip())]. *)
Definition is_path (value : str) : bool :=
  let (run, rest) := span is_path_char (strip value) in
  truthy run && at_dollar rest.

(** [re.match(r"^\d+:\d+:\d+$", value.strip())]: the pattern of
    [Duration.match_hms] without its groups. *)
Definition is_walltime (value : str) : bool :=
  match Duration.match_hms (strip value) with
  | Some _ => true
  | None => false
  end.

End Validators.

(** The result of one remote command: [(stdout, stderr, returncode)]. *)
Definition RemoteCommandResult : Type := Text.str * Text.str * Z.

(** The outcome of a submission: [(job_id, error_msg)].  The last three
    lines of the four submit functions are the same; they are written once
    here.  [stdout] and [stderr] are what [ssh.run] returned. *)
Definition job_id_or_error (stdout stderr : Text.str) : Text.str * Text.str :=
  let job_id := Text.strip stdout in
  if negb (Text.truthy job_id) || negb (Text.match_all_digits job_id) then
    ([], if Text.truthy (Text.strip stderr) then Text.strip stderr
         else Text.lit "Failed to submit job")
  else (job_id, []).

(** [stderr.strip() if rc != 0 else ""], the result of both cancel forms. *)
Definition error_unless_zero (stderr : Text.str) (rc : Z) : Text.str :=
  if negb (rc =? 0) then Text.strip stderr else [].

(** ** conv/commands.py: the SLURM adapter *)
Module Conv.
Import Text Py.

Record SLURMJob : Type := mkSLURMJob {
  job_id : str;
  name : str;
  state : str;
  node : str;
  elapsed : str;
  time_limit : str;
  time_left : str;
  reason : str
}.

Definition nl : str := ["010"%char].
Definition dquote : str := ["034"%char].

Definition fetch_jobs_command (username : str) : str :=
  lit "squeue -u " ++ username ++
  lit " -h -o '%i|%j|%T|%N|%M|%l|%L|%R' 2>/dev/null".

(** The body of the loop over the lines of [squeue]: the records the line
    adds to [jobs]. *)
Definition parse_line (line : str) : result (list SLURMJob) :=
  let parts := split "|" (strip line) in
  if (8 <=? length parts)%nat then
    (p0 <- index parts 0;; p1 <- index parts 1;; p2 <- index parts 2;;
     p3 <- index parts 3;; p4 <- index parts 4;; p5 <- index parts 5;;
     p6 <- index parts 6;; p7 <- index parts 7;;
     Ok [mkSLURMJob p0 p1 p2 p3 p4 p5 p6 p7])%py
  else if (4 <=? length parts)%nat then
    (p0 <- index parts 0;; p1 <- index parts 1;; p2 <- index parts 2;;
     p3 <- (if (3 <? length parts)%nat then index parts 3 else Ok []);;
     Ok [mkSLURMJob p0 p1 p2 p3 [] [] [] []])%py
  else Ok [].

Fixpoint parse_lines (jobs : list SLURMJob) (lines : list str)
  : result (list SLURMJob) :=
  match lines with
  | [] => Ok jobs
  | line :: rest =>
      (added <- parse_line line;; parse_lines (jobs ++ added) rest)%py
  end.

(** What [fetch_jobs] makes of the result of its command. *)
Definition parse_squeue (r : RemoteCommandResult) : result (list SLURMJob) :=
  let '(stdout, _, rc) := r in
  if negb (rc =? 0) || negb (truthy (strip stdout)) then Ok []
  else parse_lines [] (splitlines (strip stdout)).

(** The scripts and commands of the submissions.  The integers written
    into them ([{num_gpus}], [{port}]) are those the applications pass: made
    by [int] from the text of a form, or literals of the source.  Such an
    integer has at most [max_str_digits] digits, so that its rendering is
    its numeral. *)
Definition jupyter_script (gpu_type : str) (num_gpus : Z) (walltime : str)
  (port : Z) (job_name email : str) : str :=
  lit "cat > ~/._conv_jupyter.sh << 'JOBSCRIPT'" ++ nl ++
  lit "#!/bin/bash" ++ nl ++
  lit "#SBATCH --job-name=" ++ job_name ++ nl ++
  lit "#SBATCH --nodes=1" ++ nl ++
  lit "#SBATCH --gpus-per-node=" ++ gpu_type ++ lit ":" ++ numeral num_gpus ++ nl ++
  lit "#SBATCH --time=" ++ walltime ++ nl ++
  lit "#SBATCH --mail-type=ALL" ++ nl ++
  lit "#SBATCH --mail-user=" ++ email ++ nl ++
  lit "#SBATCH --output=%x-%j.out" ++ nl ++
  lit "#SBATCH --error=%x-%j.err" ++ nl ++
  nl ++
  lit "source /etc/profile.d/modules.sh" ++ nl ++
  lit "module purge" ++ nl ++
  lit "module load python/anaconda3" ++ nl ++
  lit "eval " ++ dquote ++ lit "$(conda shell.bash hook)" ++ dquote ++ nl ++
  nl ++
  lit "jupyter lab --ip=0.0.0.0 --no-browser --port=" ++ numeral port ++ nl ++
  lit "JOBSCRIPT" ++ nl ++
  lit "sbatch ~/._conv_jupyter.sh 2>&1 | grep -oP 'Submitted batch job \K[0-9]+'".

Definition custom_command (gpu_type : str) (num_gpus : Z) (walltime : str)
  (job_name email script_path : str) : str :=
  lit "sbatch --job-name='" ++ job_name ++ lit "' --nodes=1 " ++
  lit "--gpus-per-node='" ++ gpu_type ++ lit ":" ++ numeral num_gpus ++
  lit "' --time='" ++ walltime ++ lit "' " ++
  lit "--mail-type=ALL --mail-user=" ++ email ++ lit " " ++
  lit "--output=%x-%j.out --error=%x-%j.err " ++
  lit "'" ++ script_path ++ lit "' 2>&1 | grep -oP 'Submitted batch job \K[0-9]+'".

Definition cancel_job_command (job_id : str) : str :=
  lit "scancel " ++ job_id ++ lit " 2>/dev/null".

Definition cancel_all_jobs_command (username : str) : str :=
  lit "scancel -u " ++ username ++ lit " 2>/dev/null".

Definition get_job_state_command (job_id : str) : str :=
  lit "squeue -j " ++ job_id ++ lit " -h -o '%T' 2>/dev/null".

Definition get_job_state_sacct_command (job_id : str) : str :=
  lit "sacct -j " ++ job_id ++
  lit " --format=State -X --noheader 2>/dev/null | tr -d ' '".

Definition get_job_node_command (job_id : str) : str :=
  lit "squeue -j " ++ job_id ++ lit " -h -o '%N' 2>/dev/null".

Definition get_jupyter_url_command (job_id : str) : str :=
  lit "grep -o 'http://[^ ]*' ~/*-" ++ job_id ++
  lit ".err 2>/dev/null | tail -1".

Section Adapter.
Context {W : Type}.
(** [ssh.run(command, timeout)]; the default timeout is 30. *)
Variable run : str -> Z -> M W RemoteCommandResult.
Local Open Scope remote_scope.

Definition fetch_jobs (username : str) : M W (result (list SLURMJob)) :=
  r <~ run (fetch_jobs_command username) 30;;
  ret (parse_squeue r).

Definition submit_jupyter_job (gpu_type : str) (num_gpus : Z) (walltime : str)
  (port : Z) (job_name email : str) : M W (str * str) :=
  r <~ run (jupyter_script gpu_type num_gpus walltime port job_name email) 30;;
  let '(stdout, stderr, rc) := r in
  ret (job_id_or_error stdout stderr).

Definition submit_custom_job (gpu_type : str) (num_gpus : Z) (walltime : str)
  (job_name email script_path : str) : M W (str * str) :=
  r <~ run (custom_command gpu_type num_gpus walltime job_name email script_path) 30;;
  let '(stdout, stderr, rc) := r in
  ret (job_id_or_error stdout stderr).

Definition cancel_job (job_id : str) : M W str :=
  r <~ run (cancel_job_command job_id) 30;;
  let '(_, stderr, rc) := r in
  ret (error_unless_zero stderr rc).

Definition cancel_all_jobs (username : str) : M W str :=
  r <~ run (cancel_all_jobs_command username) 30;;
  let '(_, stderr, rc) := r in
  ret (error_unless_zero stderr rc).

Definition get_job_state (job_id : str) : M W str :=
  r <~ run (get_job_state_command job_id) 30;;
  let '(stdout, _, _) := r in
  let state := strip stdout in
  if negb (truthy state) then
    r2 <~ run (get_job_state_sacct_command job_id) 30;;
    let '(stdout2, _, _) := r2 in
    ret (strip stdout2)
  else ret state.

Definition get_job_node (job_id : str) : M W str :=
  r <~ run (get_job_node_command job_id) 30;;
  let '(stdout, _, _) := r in
  ret (strip stdout).

Definition get_jupyter_url (job_id : str) : M W str :=
  r <~ run (get_jupyter_url_command job_id) 30;;
  let '(stdout, _, _) := r in
  ret (strip stdout).

End Adapter.
End Conv.

(** ** hpc/commands.py: the OAR adapter *)
Module HPC.
Import Text Py.

Record OARJob : Type := mkOARJob {
  job_id : str;
  name : str;
  state : str;
  walltime : str;
  start_time : str;
  node : str;
  cores : str
}.

(** [OARJob(job_id=...)]: the other fields at their default [""]. *)
Definition new_job (id : str) : OARJob := mkOARJob id [] [] [] [] [] [].

Definition set_name (j : OARJob) (v : str) : OARJob :=
  mkOARJob (job_id j) v (state j) (walltime j) (start_time j) (node j) (cores j).
Definition set_state (j : OARJob) (v : str) : OARJob :=
  mkOARJob (job_id j) (name j) v (walltime j) (start_time j) (node j) (cores j).
Definition set_walltime (j : OARJob) (v : str) : OARJob :=
  mkOARJob (job_id j) (name j) (state j) v (start_time j) (node j) (cores j).
Definition set_start_time (j : OARJob) (v : str) : OARJob :=
  mkOARJob (job_id j) (name j) (state j) (walltime j) v (node j) (cores j).
Definition set_node (j : OARJob) (v : str) : OARJob :=
  mkOARJob (job_id j) (name j) (state j) (walltime j) (start_time j) v (cores j).
Definition set_cores (j : OARJob) (v : str) : OARJob :=
  mkOARJob (job_id j) (name j) (state j) (walltime j) (start_time j) (node j) v.

(** [re.match(r"Job_Id\s*:\s*(\d+)", line)]: group 1 when the line starts
    with a job header.  White space, the colon and digits are disjoint
    classes, so each greedy run is the only choice. *)
Definition match_job_id (line : str) : option str :=
  match strip_prefix (lit "Job_Id") line with
  | Some r1 =>
      match snd (span is_space r1) with
      | c :: r2 =>
          if eqc c ":" then
            let (ds, _) := span is_digit (snd (span is_space r2)) in
            if truthy ds then Some ds else None
          else None
      | [] => None
      end
  | None => None
  end.

(** [re.search(r"core=(\d+)", line)]: group 1 of the leftmost match. *)
Fixpoint search_core (line : str) : option str :=
  let here :=
    match strip_prefix (lit "core=") line with
    | Some r => let (ds, _) := span is_digit r in
                if truthy ds then Some ds else None
    | None => None
    end in
  match here with
  | Some ds => Some ds
  | None => match line with
            | [] => None
            | _ :: line' => search_core line'
            end
  end.

(** [line.split("=", 1)[1].strip()]. *)
Definition value_of (line : str) : result str :=
  (v <- index (split1 "=" line) 1;; Ok (strip v))%py.

(** The [if]/[elif] chain that stores one [key = value] line in the
    current record. *)
Definition store_line (current : OARJob) (line : str) : result OARJob :=
  if contains (lit "name =") line then
    (v <- value_of line;; Ok (set_name current v))%py
  else if contains (lit "state =") line then
    (v <- value_of line;; Ok (set_state current v))%py
  else if contains (lit "walltime =") line then
    (v <- value_of line;; Ok (set_walltime current v))%py
  else if contains (lit "startTime =") line then
    (v <- value_of line;; Ok (set_start_time current v))%py
  else if contains (lit "assigned_hostnames =") line then
    (v <- value_of line;; Ok (set_node current v))%py
  else if contains (lit "wanted_resources =") line then
    match search_core line with
    | Some ds => Ok (set_cores current ds)
    | None => Ok current
    end
  else Ok current.

(** [jobs] after [if current and current.job_id: jobs.append(current)]. *)
Definition flush (jobs : list OARJob) (current : option OARJob) : list OARJob :=
  match current with
  | Some c => if truthy (job_id c) then jobs ++ [c] else jobs
  | None => jobs
  end.

(** One turn of the loop over the lines, on the variables [jobs] and
    [current]. *)
Definition loop_body (st : list OARJob * option OARJob) (line : str)
  : result (list OARJob * option OARJob) :=
  let (jobs, current) := st in
  match match_job_id line with
  | Some id => Ok (flush jobs current, Some (new_job id))
  | None =>
      match current with
      | None => Ok st
      | Some c => (c' <- store_line c line;; Ok (jobs, Some c'))%py
      end
  end.

Fixpoint loop (st : list OARJob * option OARJob) (lines : list str)
  : result (list OARJob * option OARJob) :=
  match lines with
  | [] => Ok st
  | line :: rest => (st' <- loop_body st line;; loop st' rest)%py
  end.

Definition parse_oarstat_full (text : str) : result (list OARJob) :=
  (st <- loop ([], None) (splitlines text);;
   Ok (flush (fst st) (snd st)))%py.

(** [OARJob.elapsed_minutes]; [now] is the clock in whole seconds,
    [int(time.time())]. *)
Definition elapsed_minutes (now : Z) (j : OARJob) : option Z :=
  if negb (truthy (start_time j)) then None
  else
    match py_int (start_time j) with
    | Raise _ => None                                (* except ValueError *)
    | Ok ts =>
        if ts <=? 0 then None
        else Some (Z.max 0 ((now - ts) / 60))
    end.

(** [OARJob.wall_minutes]: the first two fields of the wall time. *)
Definition wall_minutes (j : OARJob) : option Z :=
  if negb (truthy (walltime j)) then None
  else
    match split ":" (walltime j) with
    | p0 :: p1 :: _ =>
        match py_int p0 with
        | Raise _ => None                            (* except ValueError *)
        | Ok h =>
            match py_int p1 with
            | Raise _ => None                        (* except ValueError *)
            | Ok m => Some (h * 60 + m)
            end
        end
    | _ => None                                      (* len(parts) < 2 *)
    end.

(** [OARJob.remaining_minutes]. *)
Definition remaining_minutes (now : Z) (j : OARJob) : option Z :=
  match elapsed_minutes now j, wall_minutes j with
  | Some e, Some w => Some (Z.max 0 (w - e))
  | _, _ => None
  end.

Definition nl : str := ["010"%char].
Definition dquote : str := ["034"%char].

Definition fetch_jobs_command (username : str) : str :=
  lit "oarstat -u " ++ username ++ lit " -f 2>/dev/null".

(** The scripts and commands of the submissions; the integers [{cores}]
    and [{port}] are rendered as in [Conv.jupyter_script]. *)
Definition jupyter_script (cores : Z) (walltime : str) (port : Z) (email : str)
  : str :=
  lit "cat > ~/._jupyter_job.sh << 'JOBSCRIPT'" ++ nl ++
  lit "#!/bin/bash" ++ nl ++
  lit "#OAR -l {host like 'big%'}/nodes=1/core=" ++ numeral cores ++
  lit ",walltime=" ++ walltime ++ nl ++
  lit "#OAR --notify mail:" ++ email ++ nl ++
  nl ++
  lit "source /etc/profile.d/modules.sh" ++ nl ++
  lit "module purge" ++ nl ++
  lit "module load python/anaconda3" ++ nl ++
  lit "eval " ++ dquote ++ lit "$(conda shell.bash hook)" ++ dquote ++ nl ++
  nl ++
  lit "jupyter lab --ip=0.0.0.0 --no-browser --port=" ++ numeral port ++ nl ++
  lit "JOBSCRIPT" ++ nl ++
  lit "chmod +x ~/._jupyter_job.sh" ++ nl ++
  lit "oarsub -S ~/._jupyter_job.sh 2>&1 | grep -oP 'OAR_JOB_ID=\K[0-9]+'".

Definition custom_command (cores : Z) (walltime script_path : str) : str :=
  lit "oarsub -l /nodes=1/core=" ++ numeral cores ++ lit ",walltime=" ++
  walltime ++ lit " " ++
  lit "-p " ++ dquote ++ lit "host like 'big%'" ++ dquote ++ lit " -S '" ++
  script_path ++ lit "' 2>&1 " ++
  lit "| grep -oP 'OAR_JOB_ID=\K[0-9]+'".

Definition cancel_job_command (job_id : str) : str :=
  lit "oardel " ++ job_id.

Definition cancel_all_jobs_command (username : str) : str :=
  lit "for jid in $(oarstat -u " ++ username ++ lit " 2>/dev/null | " ++
  lit "awk '/^[0-9]/{print $1}'); do oardel $jid; done".

Definition get_job_node_command (job_id : str) : str :=
  lit "oarstat -f -j " ++ job_id ++
  lit " 2>/dev/null | grep 'assigned_hostnames' | awk '{print $3}'".

Definition get_jupyter_url_command (job_id : str) : str :=
  lit "grep -o 'http://[^ ]*' ~/OAR." ++ job_id ++
  lit ".stderr 2>/dev/null | tail -1".

Definition get_job_state_command (job_id : str) : str :=
  lit "oarstat -f -j " ++ job_id ++
  lit " 2>/dev/null | grep 'state =' | head -1 | awk -F= '{print $2}' | tr -d ' '".

Section Adapter.
Context {W : Type}.
(** [ssh.run(command, timeout)]; the default timeout is 30. *)
Variable run : str -> Z -> M W RemoteCommandResult.
Local Open Scope remote_scope.

Definition fetch_jobs (username : str) : M W (result (list OARJob)) :=
  r <~ run (fetch_jobs_command username) 30;;
  let '(stdout, _, rc) := r in
  if negb (rc =? 0) || negb (truthy (strip stdout)) then ret (Ok [])
  else ret (parse_oarstat_full stdout).

Definition submit_jupyter_job (cores : Z) (walltime : str) (port : Z)
  (email : str) : M W (str * str) :=
  r <~ run (jupyter_script cores walltime port email) 30;;
  let '(stdout, stderr, rc) := r in
  ret (job_id_or_error stdout stderr).

Definition submit_custom_job (cores : Z) (walltime script_path : str)
  : M W (str * str) :=
  r <~ run (custom_command cores walltime script_path) 30;;
  let '(stdout, stderr, rc) := r in
  ret (job_id_or_error stdout stderr).

Definition cancel_job (job_id : str) : M W str :=
  r <~ run (cancel_job_command job_id) 30;;
  let '(_, stderr, rc) := r in
  ret (error_unless_zero stderr rc).

Definition cancel_all_jobs (username : str) : M W str :=
  r <~ run (cancel_all_jobs_command username) 30;;
  let '(_, stderr, rc) := r in
  ret (error_unless_zero stderr rc).

Definition get_job_node (job_id : str) : M W str :=
  r <~ run (get_job_node_command job_id) 30;;
  let '(stdout, _, _) := r in
  ret (strip stdout).

Definition get_jupyter_url (job_id : str) : M W str :=
  r <~ run (get_jupyter_url_command job_id) 30;;
  let '(stdout, _, _) := r in
  ret (strip stdout).

Definition get_job_state (job_id : str) : M W str :=
  r <~ run (get_job_state_command job_id) 30;;
  let '(stdout, _, _) := r in
  ret (strip stdout).

End Adapter.
End HPC.

(** ** hpc/app.py and conv/app.py: endpoint resolution *)
Module Tracker.
Import Text Py.

(** The two applications: [HPCApp] talks to OAR, [ConvApp] to SLURM. *)
Inductive scheduler : Type := OAR | SLURM.

Inductive severity : Type := Information | Warning | Error.

(** The arguments of [SessionScreen(job_id, node, url, local_url, port)]. *)
Record session_screen : Type := mkSessionScreen {
  ss_job_id : str;
  ss_node : str;
  ss_url : str;
  ss_local_url : str;
  ss_port : Z
}.

(** What the application does, in order. *)
Inductive event : Type :=
| Ran (command : str) (timeout : Z) (r : RemoteCommandResult)  (* ssh.run *)
| Slept (seconds : Z)                                       (* asyncio.sleep *)
| Notified (message : str) (sev : severity)                 (* self.notify *)
| Pushed (screen : session_screen).                         (* push_screen *)

(** [re.search(r":(\d+)(?=/)", url)]: group 1 of the leftmost match. *)
Fixpoint search_port (url : str) : option str :=
  let here :=
    match url with
    | c :: r =>
        if eqc c ":" then
          let (ds, r') := span is_digit r in
          match ds, r' with
          | _ :: _, c' :: _ => if eqc c' "/" then Some ds else None
          | _, _ => None
          end
        else None
    | [] => None
    end in
  match here with
  | Some ds => Some ds
  | None => match url with
            | [] => None
            | _ :: url' => search_port url'
            end
  end.

(** [re.sub(r"http://[^:]*:", "http://localhost:", url, count=1)]. *)
Fixpoint sub_localhost (url : str) : str :=
  let here :=
    match strip_prefix (lit "http://") url with
    | Some r =>
        match snd (span (fun c => negb (eqc c ":")) r) with
        | _ :: r' => Some (lit "http://localhost:" ++ r')
        | [] => None
        end
    | None => None
    end in
  match here with
  | Some out => out
  | None => match url with
            | [] => []
            | c :: url' => c :: sub_localhost url'
            end
  end.

Definition default_port (s : scheduler) : Z :=
  match s with OAR => 8888 | SLURM => 9888 end.

Section App.
Context {W : Type}.
(** [SSHClient.run] against the remote world. *)
Variable run : str -> Z -> M W RemoteCommandResult.
Variable sched : scheduler.

(** The application's state: the remote world and the events so far. *)
Definition app := (W * list event)%type.

Definition emit (e : event) : M app unit :=
  fun st => (tt, (fst st, snd st ++ [e])).

(** [self._ssh.run], recorded. *)
Definition ssh_run (command : str) (timeout : Z) : M app RemoteCommandResult :=
  fun st =>
    let (r, w') := run command timeout (fst st) in
    (r, (w', snd st ++ [Ran command timeout r])).

Definition get_job_node (job_id : str) : M app str :=
  match sched with
  | OAR => HPC.get_job_node ssh_run job_id
  | SLURM => Conv.get_job_node ssh_run job_id
  end.

Definition get_jupyter_url (job_id : str) : M app str :=
  match sched with
  | OAR => HPC.get_jupyter_url ssh_run job_id
  | SLURM => Conv.get_jupyter_url ssh_run job_id
  end.

Local Open Scope remote_scope.

(** [for _ in range(n): url = await get_jupyter_url(...); if url: break;
    await asyncio.sleep(2)], from the value [url] has before the loop. *)
Fixpoint poll_url (n : nat) (job_id : str) (url : str) : M app str :=
  match n with
  | O => ret url
  | S n' =>
      url' <~ get_jupyter_url job_id;;
      if truthy url' then ret url'
      else emit (Slept 2);;; poll_url n' job_id url'
  end.

(** [int(port_match.group(1)) if port_match else 8888] (9888 in
    [ConvApp]). *)
Definition port_of (url : str) : result Z :=
  match search_port url with
  | Some ds => py_int ds
  | None => Ok (default_port sched)
  end.

(** [_connect_to(job_id)]; the worker ends by returning, or with the
    [ValueError] of [int] on a port of too many digits. *)
Definition _connect_to (job_id : str) : M app (result unit) :=
  node <~ get_job_node job_id;;
  if negb (truthy node) || negb (Validators.is_name node) then
    emit (Notified (lit "Could not find node for job " ++ job_id) Error);;;
    ret (Ok tt)
  else
    emit (Notified (lit "Waiting for Jupyter on " ++ node ++ lit "...") Information);;;
    url <~ poll_url 30 job_id [];;
    if negb (truthy url) then
      emit (Notified (lit "Jupyter didn't start. Check job logs.") Error);;;
      ret (Ok tt)
    else
      match port_of url with
      | Raise e => ret (Raise e)
      | Ok port =>
          let local_url := sub_localhost url in
          emit (Pushed (mkSessionScreen job_id node url local_url port));;;
          ret (Ok tt)
      end.

(** The events of one [_connect_to], started in world [w]. *)
Definition connect_trace (job_id : str) (w : W) : list event :=
  snd (snd (_connect_to job_id (w, []))).

End App.
End Tracker.

(** ** hpc/app.py and conv/app.py: the tunnel of a session *)
Module Tunnel.
Import Py.

(** A [subprocess.Popen] object together with the process it stands for. *)
Record popen : Type := mkPopen {
  running : bool;            (* the process has not exited *)
  exit_status : Z;           (* its status once it has *)
  returncode : option Z;     (* the attribute [returncode] *)
  sigterms : nat             (* SIGTERM signals sent to the process so far *)
}.

(** [Popen.poll()]: the status is collected once the process has exited. *)
Definition poll (p : popen) : option Z * popen :=
  match returncode p with
  | Some rc => (Some rc, p)
  | None =>
      if running p then (None, p)
      else (Some (exit_status p),
            mkPopen false (exit_status p) (Some (exit_status p)) (sigterms p))
  end.

(** [Popen.terminate()]: polls, and signals only a process not known to
    have exited. *)
Definition terminate (p : popen) : popen :=
  let (rc, p') := poll p in
  match rc with
  | Some _ => p'
  | None => mkPopen (running p') (exit_status p') (returncode p') (S (sigterms p'))
  end.

(** The attribute [self._tunnel]: [None] until a tunnel was started. *)
Definition handle : Type := option popen.

(** [self._tunnel.poll()] and [self._tunnel.terminate()] as attribute
    accesses, which fail on [None]. *)
Definition handle_poll (t : handle) : result (option Z * handle) :=
  match t with
  | Some p => let (rc, p') := poll p in Ok (rc, Some p')
  | None => Raise AttributeError
  end.

Definition handle_terminate (t : handle) : result handle :=
  match t with
  | Some p => Ok (Some (terminate p))
  | None => Raise AttributeError
  end.

(** Closing the tunnel: [SessionScreen._cleanup] of hpc/app.py, and the
    same two lines at the start of [action_disconnect] of conv/app.py:
    [if self._tunnel and self._tunnel.poll() is None:
         self._tunnel.terminate()]. *)
Definition _cleanup (t : handle) : result handle :=
  match t with
  | None => Ok t                      (* [self._tunnel] is falsy *)
  | Some _ =>
      (polled <- handle_poll t;;
       match fst polled with
       | None => handle_terminate (snd polled)
       | Some _ => Ok (snd polled)
       end)%py
  end.

(** What can happen to a session's tunnel: the session closes it, or the
    forwarding process exits (on its own or after a signal). *)
Inductive action : Type :=
| Close
| ProcessExits (status : Z).

Definition process_exits (status : Z) (t : handle) : handle :=
  match t with
  | Some p =>
      if running p
      then Some (mkPopen false status (returncode p) (sigterms p))
      else t
  | None => None
  end.

Fixpoint run_actions (acts : list action) (t : handle) : result handle :=
  match acts with
  | [] => Ok t
  | Close :: rest => (t' <- _cleanup t;; run_actions rest t')%py
  | ProcessExits status :: rest => run_actions rest (process_exits status t)
  end.

(** Signals sent to the process of a handle. *)
Definition signals (t : handle) : nat :=
  match t with
  | Some p => sigterms p
  | None => 0
  end.

(** [SSHClient.start_tunnel] just returned: a live process, never
    signalled. *)
Definition fresh : handle := Some (mkPopen true 0 None 0).

End Tunnel.

(** ** hpc/app.py and conv/app.py: the two tables of the dashboard *)
Module Dashboard.
Import Text Py.










End Dashboard.

(** ** hpc/app.py and conv/app.py: the launch forms

    What a handler of a form does is the list of its calls on the
    application, in order, and the exception that ended it, if any. *)
Module Forms.
Import Text.

Definition modes : list str := [lit "jupyter"; lit "terminal"; lit "custom"].

(** [modes[idx] if idx >= 0 else "jupyter"]; [None] stands for
    [IndexError].  [idx] is [RadioSet.pressed_index], which is -1 when no
    button is pressed. *)
Definition mode_of (idx : Z) : option str :=
  if idx >=? 0 then nth_error modes (Z.to_nat idx) else Some (lit "jupyter").

End Forms.

Module HPCForms.
Import Text Py Forms.

Inductive action : Type :=
| Notify (message : str) (sev : Tracker.severity)        (* self.notify *)
| PopScreen                                              (* self.app.pop_screen *)
| PushCustomScriptScreen (cores : Z) (walltime : str)    (* self.app.push_screen *)
| LaunchJob (cores : Z) (walltime mode : str)            (* self.app.launch_job *)
| SubmitCustom (cores : Z) (walltime script_path : str). (* self.app.submit_custom *)

(** [LaunchScreen._submit]; the arguments are the values of the two inputs
    and the index of the pressed mode. *)
Definition LaunchScreen_submit (cores_value duration_value : str) (idx : Z)
  : list action * option exn :=
  let cores := strip cores_value in
  let duration := strip duration_value in
  if negb (Validators.is_int cores) then
    ([Notify (lit "Cores must be a number") Tracker.Error], None)
  else
    match Duration.parse_to_minutes duration with
    | Raise e => ([], Some e)
    | Ok None =>
        ([Notify (lit "Invalid duration (e.g. 8h, 3d, 1d 6h 30m)") Tracker.Error],
         None)
    | Ok (Some minutes) =>
        match mode_of idx with
        | None => ([], Some IndexError)
        | Some mode =>
            (* the arguments [int(cores), minutes_to_hms(minutes)] *)
            let arguments :=
              (n <- py_int cores;;
               walltime <- Duration.minutes_to_hms minutes;;
               Ok (n, walltime))%py in
            if eqs mode (lit "custom") then
              match arguments with
              | Raise e => ([], Some e)
              | Ok (n, walltime) => ([PushCustomScriptScreen n walltime], None)
              end
            else
              (* pop_screen() comes before the arguments of launch_job *)
              match arguments with
              | Raise e => ([PopScreen], Some e)
              | Ok (n, walltime) => ([PopScreen; LaunchJob n walltime mode], None)
              end
        end
    end.

(** The submit branch of [CustomScriptScreen.on_button_pressed]. *)
Definition CustomScriptScreen_submit (cores : Z) (walltime path_value : str)
  : list action :=
  let path := strip path_value in
  if negb (truthy path) || negb (Validators.is_path path) then
    [Notify (lit "Invalid script path") Tracker.Error]
  else [PopScreen; PopScreen; SubmitCustom cores walltime path].

End HPCForms.

Module ConvForms.
Import Text Py Forms.

Definition GPU_TYPES : list (str * str) :=
  [(lit "a100_7g.80gb", lit "A100 80GB full (node01-06)");
   (lit "a100_3g.40gb", lit "A100 40GB MIG (node07-10)")].

Inductive action : Type :=
| Notify (message : str) (sev : Tracker.severity)
| PopScreen
| PushCustomScriptScreen (gpu_type : str) (num_gpus : Z) (walltime job_name : str)
| LaunchJob (gpu_type : str) (num_gpus : Z) (walltime job_name mode : str)
| SubmitCustom (gpu_type : str) (num_gpus : Z)
    (walltime job_name script_path : str).

(** [GPU_TYPES[gpu_idx][0] if 0 <= gpu_idx < len(GPU_TYPES)
     else GPU_TYPES[0][0]]. *)
Definition gpu_type_of (gpu_idx : Z) : option str :=
  option_map fst
    (if (0 <=? gpu_idx) && (gpu_idx <? Z.of_nat (length GPU_TYPES))
     then nth_error GPU_TYPES (Z.to_nat gpu_idx)
     else nth_error GPU_TYPES 0).

(** [LaunchScreen._submit]. *)
Definition LaunchScreen_submit (gpu_idx : Z)
  (gpu_count_value duration_value name_value : str) (mode_idx : Z)
  : list action * option exn :=
  match gpu_type_of gpu_idx with
  | None => ([], Some IndexError)
  | Some gpu_type =>
      let gpu_count := strip gpu_count_value in
      let duration := strip duration_value in
      let job_name := strip name_value in
      if negb (Validators.is_int gpu_count) then
        ([Notify (lit "GPU count must be a number") Tracker.Error], None)
      else
        match Duration.parse_to_minutes duration with
        | Raise e => ([], Some e)
        | Ok None =>
            ([Notify (lit "Invalid duration (e.g. 8h, 3d, 1d 6h 30m)")
                Tracker.Error], None)
        | Ok (Some minutes) =>
            if negb (Validators.is_name job_name) then
              ([Notify (lit "Invalid job name") Tracker.Error], None)
            else
              match mode_of mode_idx with
              | None => ([], Some IndexError)
              | Some mode =>
                  match Duration.minutes_to_slurm minutes with
                  | Raise e => ([], Some e)
                  | Ok walltime =>
                      if eqs mode (lit "custom") then
                        match py_int gpu_count with
                        | Raise e => ([], Some e)
                        | Ok n =>
                            ([PushCustomScriptScreen gpu_type n walltime job_name],
                             None)
                        end
                      else
                        match py_int gpu_count with
                        | Raise e => ([PopScreen], Some e)
                        | Ok n =>
                            ([PopScreen;
                              LaunchJob gpu_type n walltime job_name mode], None)
                        end
                  end
              end
        end
  end.

(** The submit branch of [CustomScriptScreen.on_button_pressed]. *)
Definition CustomScriptScreen_submit (gpu_type : str) (num_gpus : Z)
  (walltime job_name path_value : str) : list action :=
  let path := strip path_value in
  if negb (truthy path) || negb (Validators.is_path path) then
    [Notify (lit "Invalid script path") Tracker.Error]
  else [PopScreen; PopScreen;
        SubmitCustom gpu_type num_gpus walltime job_name path].

End ConvForms.

(** ** config.py

    The file [~/.lip6/config.toml] is its text, or [None] when it does not
    exist; a file that cannot be read or decoded is not modelled. *)
Module Config.
Import Text Py.

(** The class [\w] of [re] below U+0100: the ASCII letters, digits and
    underscore, and the Latin-1 letters and numeric signs. *)
Definition is_word (c : ascii) : bool :=
  between 48 57 c || between 65 90 c || eqc c "_" || between 97 122 c ||
  (code c =? 170)%N || between 178 179 c || (code c =? 181)%N ||
  between 185 186 c || between 188 190 c ||
  between 192 214 c || between 216 246 c || between 248 255 c.

(** What [.] of [re] matches: all but the line feed. *)
Definition not_lf (c : ascii) : bool := negb (eqc c "010").

(** A value of the file: a string, a boolean or an integer. *)
Inductive scalar : Type :=
| Str (s : str)
| Bool (b : bool)
| Int (n : Z).

(** A [dict] with text keys, in insertion order. *)
Definition table (A : Type) : Type := list (str * A).

(** [d.get(key)]. *)
Fixpoint dict_get {A : Type} (key : str) (d : table A) : option A :=
  match d with
  | [] => None
  | (k, v) :: d' => if eqs k key then Some v else dict_get key d'
  end.

(** [d[key] = v]: the value of an existing key is replaced where it
    stands, a new key goes to the end. *)
Fixpoint dict_set {A : Type} (key : str) (v : A) (d : table A) : table A :=
  match d with
  | [] => [(key, v)]
  | (k, v') :: d' =>
      if eqs k key then (key, v) :: d' else (k, v') :: dict_set key v d'
  end.

(** What the top-level dictionary holds under a key: a value assigned
    before the first section, or the dictionary of a section. *)
Inductive entry : Type :=
| Value (v : scalar)
| Table (d : table scalar).

(** [re.match(r"^\[(.+)]$", line)]: group 1.  The closing bracket has to
    be the last character that [.] can match, and [$] has to hold after
    it. *)
Definition match_section (line : str) : option str :=
  match line with
  | c :: r =>
      if eqc c "[" then
        let (a, rest) := span not_lf r in
        match rev a with
        | c' :: xr =>
            if eqc c' "]" && truthy xr && at_dollar rest
            then Some (rev xr) else None
        | [] => None
        end
      else None
  | [] => None
  end.

(** The common start [^(\w+)\s*=\s*] of the three assignment patterns:
    group 1 and the text after the match.  Word characters, white space
    and the equals sign are disjoint, and what follows in each pattern
    starts with no white space, so each greedy run is the only choice. *)
Definition match_key (line : str) : option (str * str) :=
  let (k, r1) := span is_word line in
  match k with
  | [] => None
  | _ :: _ =>
      match snd (span is_space r1) with
      | c :: r2 => if eqc c "=" then Some (k, snd (span is_space r2)) else None
      | [] => None
      end
  end.

(** The pattern of a string assignment: the common start, a double quote,
    the group [.*], a double quote and [\s*$]; the two groups.  Only white
    space may follow the closing quote, so it is the last character that
    is no white space; group 2 is what stands between the quotes and holds
    no line feed. *)
Definition match_string (line : str) : option (str * str) :=
  match match_key line with
  | Some (k, c :: r) =>
      if eqc c "034" then
        match rev (rstrip r) with
        | q :: xr =>
            if eqc q "034" && forallb not_lf xr then Some (k, rev xr) else None
        | [] => None
        end
      else None
  | _ => None
  end.

(** [re.match(r"^(\w+)\s*=\s*(true|false)\s*$", line, re.IGNORECASE)]:
    group 1 and [group(2).lower() == "true"]. *)
Definition match_bool (line : str) : option (str * bool) :=
  match match_key line with
  | Some (k, r) =>
      if eqs (lower (firstn 4 r)) (lit "true") && forallb is_space (skipn 4 r)
      then Some (k, true)
      else if eqs (lower (firstn 5 r)) (lit "false")
              && forallb is_space (skipn 5 r)
      then Some (k, false)
      else None
  | None => None
  end.

(** [re.match(r"^(\w+)\s*=\s*(\d+)\s*$", line)]: the two groups. *)
Definition match_int (line : str) : option (str * str) :=
  match match_key line with
  | Some (k, r) =>
      let (ds, rest) := span is_digit r in
      if truthy ds && forallb is_space rest then Some (k, ds) else None
  | None => None
  end.

(** The variables of the loop: [result], and [current], which is [result]
    itself ([None]) or the dictionary [result[section]] of the section
    opened last ([Some section]). *)
Record state : Type := mkState {
  result : table entry;
  current : option str
}.

(** [current[key] = v], seen from [result]. *)
Definition assign (st : state) (key : str) (v : scalar) : state :=
  match current st with
  | None => mkState (dict_set key (Value v) (result st)) None
  | Some section =>
      let d := match dict_get section (result st) with
               | Some (Table d) => d
               | _ => []        (* not met: [current] is a section of [result] *)
               end in
      mkState (dict_set section (Table (dict_set key v d)) (result st))
              (Some section)
  end.

(** The body of the loop over the lines; [int] of the last pattern can
    end the whole call with [ValueError]. *)
Definition parse_line (st : state) (raw : str) : Py.result state :=
  let line := strip raw in
  if negb (truthy line)
     || match line with c :: _ => eqc c "#" | [] => false end
  then Ok st
  else
    match match_section line with
    | Some x =>
        let section := strip x in
        Ok (mkState (dict_set section (Table []) (result st)) (Some section))
    | None =>
        match match_string line with
        | Some (k, v) => Ok (assign st k (Str v))
        | None =>
            match match_bool line with
            | Some (k, b) => Ok (assign st k (Bool b))
            | None =>
                match match_int line with
                | Some (k, ds) => (n <- py_int ds;; Ok (assign st k (Int n)))%py
                | None => Ok st
                end
            end
        end
    end.

Fixpoint parse_lines (st : state) (lines : list str) : Py.result state :=
  match lines with
  | [] => Ok st
  | raw :: rest => (st' <- parse_line st raw;; parse_lines st' rest)%py
  end.

Definition _parse_toml_simple (text : str) : Py.result (table entry) :=
  (st <- parse_lines (mkState [] None) (splitlines text);; Ok (result st))%py.

(** The attributes of a [Config]; the file decides the type of each. *)
Record Config : Type := mkConfig {
  username : scalar;
  email : scalar;
  gateway : scalar;
  hpc_enabled : scalar;
  conv_enabled : scalar;
  hpc_storage : scalar
}.

(** The attributes [__init__] sets before [_load]. *)
Definition defaults : Config :=
  mkConfig (Str []) (Str []) (Str (lit "ssh.lip6.fr")) (Bool true) (Bool true)
           (Str []).

(** [data.get(name, {})] as the receiver of [.get]: a value assigned at
    top level under [name] has no such method. *)
Definition section_of (name : str) (data : table entry)
  : Py.result (table scalar) :=
  match dict_get name data with
  | None => Ok []
  | Some (Table d) => Ok d
  | Some (Value _) => Raise AttributeError
  end.

(** [d.get(key, default)]. *)
Definition get_or (key : str) (default : scalar) (d : table scalar) : scalar :=
  match dict_get key d with
  | Some v => v
  | None => default
  end.

(** [Config._load], on the attributes set so far. *)
Definition _load (file : option str) (self : Config) : Py.result Config :=
  match file with
  | None => Ok self
  | Some text =>
      (data <- _parse_toml_simple text;;
       user <- section_of (lit "user") data;;
       clusters <- section_of (lit "clusters") data;;
       Ok (mkConfig
             (get_or (lit "username") (username self) user)
             (get_or (lit "email") (email self) user)
             (get_or (lit "gateway") (gateway self) clusters)
             (get_or (lit "hpc_enabled") (hpc_enabled self) clusters)
             (get_or (lit "conv_enabled") (conv_enabled self) clusters)
             (get_or (lit "hpc_storage") (hpc_storage self) clusters)))%py
  end.

(** [load_config()], that is [Config()]. *)
Definition load_config (file : option str) : Py.result Config :=
  _load file defaults.

End Config.

(** ** conv/commands.py and conv/app.py: the state of the cluster *)
Module ClusterStatus.
Import Text Py.

Record NodeInfo : Type := mkNodeInfo {
  node : str;
  cpus_state : str;
  memory : str;
  alloc_mem : str;
  gres : str;
  gres_used : str;
  state : str
}.

Definition fetch_cluster_status_command : str :=
  lit "sinfo -p convergence --Node -O " ++
  lit "'nodelist:10,cpusstate:16,memory:10,allocmem:10,gres:35,gresused:35,statelong:12' 2>/dev/null".

(** The body of the loop over the lines of [sinfo]: the records the line
    adds to [nodes]. *)
Definition parse_line (line : str) : result (list NodeInfo) :=
  let parts := words line in
  if (7 <=? length parts)%nat then
    (p0 <- index parts 0;; p1 <- index parts 1;; p2 <- index parts 2;;
     p3 <- index parts 3;; p4 <- index parts 4;; p5 <- index parts 5;;
     p6 <- index parts 6;;
     Ok [mkNodeInfo p0 p1 p2 p3 p4 p5 p6])%py
  else Ok [].

Fixpoint parse_lines (nodes : list NodeInfo) (lines : list str)
  : result (list NodeInfo) :=
  match lines with
  | [] => Ok nodes
  | line :: rest =>
      (added <- parse_line line;; parse_lines (nodes ++ added) rest)%py
  end.

(** What [fetch_cluster_status] makes of the result of its command; the
    loop runs over [lines[1:]]. *)
Definition parse_sinfo (r : RemoteCommandResult) : result (list NodeInfo) :=
  let '(stdout, _, rc) := r in
  if negb (rc =? 0) || negb (truthy (strip stdout)) then Ok []
  else parse_lines [] (tl (splitlines (strip stdout))).

Section Adapter.
Context {W : Type}.
Variable run : str -> Z -> M W RemoteCommandResult.
Local Open Scope remote_scope.

Definition fetch_cluster_status : M W (result (list NodeInfo)) :=
  r <~ run fetch_cluster_status_command 30;;
  ret (parse_sinfo r).

End Adapter.

(** [needle in n.state.lower()]. *)
Definition state_has (needle : str) (n : NodeInfo) : bool :=
  contains needle (lower (state n)).

(** [sum(1 for n in nodes if p(n))]. *)
Definition count (p : NodeInfo -> bool) (nodes : list NodeInfo) : Z :=
  Z.of_nat (length (filter p nodes)).

(** The five numbers [ClusterStatusScreen._load_status] puts in the
    summary: total, idle, mixed, allocated, down or draining. *)
Definition summary (nodes : list NodeInfo) : Z * Z * Z * Z * Z :=
  (Z.of_nat (length nodes),
   count (state_has (lit "idle")) nodes,
   count (state_has (lit "mix")) nodes,
   count (fun n => state_has (lit "alloc") n && negb (state_has (lit "mix") n)) nodes,
   count (fun n => state_has (lit "down") n || state_has (lit "drain") n) nodes).

(** The rows of the node table. *)
Definition node_row (n : NodeInfo) : list str :=
  [node n; cpus_state n; memory n; alloc_mem n; gres n; gres_used n; state n].

End ClusterStatus.

(** ** hpc/app.py and conv/app.py: launching and cancelling jobs *)
Module Jobs.
Import Text Py.

(** What these operations do, in order. *)
Inductive event : Type :=
| Ran (command : str) (timeout : Z) (r : RemoteCommandResult)  (* self._ssh.run *)
| Notified (message : str) (sev : Tracker.severity)            (* self.notify *)
| System (command : str)     (* suspend(); os.system(command); resume() *)
| Refreshed                  (* self.refresh_jobs() *)
| PushedWaiting (job_id : str) (job_name : option str).
                             (* push_screen(WaitingScreen(...)) *)

Definition dquote : str := ["034"%char].

(** The command of the terminal mode of [HPCApp.launch_job]; [cores] is
    the integer the launch form made with [int], rendered by its numeral
    here and in the messages below. *)
Definition hpc_terminal_command (cores : Z) (walltime : str) : str :=
  lit "ssh -t hpc " ++ dquote ++ lit "oarsub -l /nodes=1/core=" ++ numeral cores ++
  lit ",walltime=" ++ walltime ++
  lit " -p \" ++ dquote ++ lit "host like 'big%'\" ++ dquote ++ lit " -I" ++ dquote.

(** The command of the terminal mode of [ConvApp.launch_job]. *)
Definition conv_terminal_command (gpu_type : str) (num_gpus : Z)
  (walltime job_name : str) : str :=
  lit "ssh -t conv " ++ dquote ++ lit "salloc --job-name='" ++ job_name ++
  lit "' --nodes=1 " ++
  lit "--gpus-per-node='" ++ gpu_type ++ lit ":" ++ numeral num_gpus ++
  lit "' --time='" ++ walltime ++ lit "'" ++ dquote.

Section App.
Context {W : Type}.
(** [SSHClient.run] against the remote world. *)
Variable run : str -> Z -> M W RemoteCommandResult.
(** [self._config.email] and [self._config.username]. *)
Variable email username : str.

Definition app := (W * list event)%type.

Definition emit (e : event) : M app unit :=
  fun st => (tt, (fst st, snd st ++ [e])).

(** [self._ssh.run], recorded. *)
Definition ssh_run (command : str) (timeout : Z) : M app RemoteCommandResult :=
  fun st =>
    let (r, w') := run command timeout (fst st) in
    (r, (w', snd st ++ [Ran command timeout r])).

Local Open Scope remote_scope.

(** [HPCApp.launch_job]. *)
Definition hpc_launch_job (cores : Z) (walltime mode : str) : M app unit :=
  if eqs mode (lit "terminal") then
    emit (System (hpc_terminal_command cores walltime));;;
    emit Refreshed
  else
    emit (Notified (lit "Submitting job: " ++ numeral cores ++ lit " cores, " ++
                    walltime ++ lit "...") Tracker.Information);;;
    r <~ HPC.submit_jupyter_job ssh_run cores walltime 8888 email;;
    let (job_id, error) := r in
    if truthy error then
      emit (Notified (lit "Submit failed: " ++ error) Tracker.Error)
    else
      emit (Notified (lit "Job " ++ job_id ++ lit " submitted!") Tracker.Information);;;
      emit (PushedWaiting job_id None).

(** [ConvApp.launch_job]. *)
Definition conv_launch_job (gpu_type : str) (num_gpus : Z)
  (walltime job_name mode : str) : M app unit :=
  if eqs mode (lit "terminal") then
    emit (System (conv_terminal_command gpu_type num_gpus walltime job_name));;;
    emit Refreshed
  else
    emit (Notified (lit "Submitting " ++ numeral num_gpus ++ lit "x " ++ gpu_type ++
                    lit ", " ++ walltime ++ lit "...") Tracker.Information);;;
    r <~ Conv.submit_jupyter_job ssh_run gpu_type num_gpus walltime 9888 job_name email;;
    let (job_id, error) := r in
    if truthy error then
      emit (Notified (lit "Submit failed: " ++ error) Tracker.Error)
    else
      emit (Notified (lit "Job " ++ job_id ++ lit " submitted!") Tracker.Information);;;
      emit (PushedWaiting job_id (Some job_name)).

(** What [submit_custom] of both applications does with the outcome of
    the submission. *)
Definition report_custom (script_path : str) (submit : M app (str * str))
  : M app unit :=
  emit (Notified (lit "Submitting " ++ script_path ++ lit "...") Tracker.Information);;;
  r <~ submit;;
  let (job_id, error) := r in
  (if truthy error then
     emit (Notified (lit "Submit failed: " ++ error) Tracker.Error)
   else
     emit (Notified (lit "Job " ++ job_id ++ lit " submitted!") Tracker.Information));;;
  emit Refreshed.

(** [HPCApp.submit_custom] and [ConvApp.submit_custom]. *)
Definition hpc_submit_custom (cores : Z) (walltime script_path : str) : M app unit :=
  report_custom script_path (HPC.submit_custom_job ssh_run cores walltime script_path).

Definition conv_submit_custom (gpu_type : str) (num_gpus : Z)
  (walltime job_name script_path : str) : M app unit :=
  report_custom script_path
    (Conv.submit_custom_job ssh_run gpu_type num_gpus walltime job_name email
       script_path).

(** What [_kill_job] and [_kill_all] of both applications do with the
    outcome of the cancellation; [done] is the message of success. *)
Definition report_cancel (done : str) (cancel : M app str) : M app unit :=
  error <~ cancel;;
  (if truthy error then
     emit (Notified (lit "Cancel failed: " ++ error) Tracker.Error)
   else emit (Notified done Tracker.Information));;;
  emit Refreshed.

(** [_kill_job] and [_kill_all], for either scheduler. *)
Definition _kill_job (sched : Tracker.scheduler) (job_id : str) : M app unit :=
  report_cancel (lit "Job " ++ job_id ++ lit " cancelled")
    (match sched with
     | Tracker.OAR => HPC.cancel_job ssh_run job_id
     | Tracker.SLURM => Conv.cancel_job ssh_run job_id
     end).

Definition _kill_all (sched : Tracker.scheduler) : M app unit :=
  report_cancel (lit "All jobs cancelled")
    (match sched with
     | Tracker.OAR => HPC.cancel_all_jobs ssh_run username
     | Tracker.SLURM => Conv.cancel_all_jobs ssh_run username
     end).

(** The events of an operation started in world [w]. *)
Definition trace (op : M app unit) (w : W) : list event :=
  snd (snd (op (w, []))).

End App.
End Jobs.

(* ================================================================== *)
(** * Part II: the vocabulary of the properties                        *)
(* ================================================================== *)

Section TextTerms.
Import Text.

Definition all_space (s : str) : Prop := Forall (fun c => is_space c = true) s.

Definition one_line (s : str) : Prop := Forall (fun c => is_linebreak c = false) s.

End TextTerms.

(** The least integer that has more decimal digits than the interpreter
    converts: [10 ^ 4300]. *)
Definition int_limit : Z := 10 ^ Z.of_nat Text.max_str_digits.

(** The codec of [duration.py] over unbounded integers: what its functions
    compute as long as no conversion meets the interpreter's limit.  The
    properties of [Module Duration] are derived from those of these
    functions, through the lemmas that relate the two. *)
Module Unbounded.
Import Text Duration.

Definition py_int (s : str) : Z := int_of_digits (strip s).

Definition fmt_02d (n : Z) : str := pad_02 (numeral n).

Definition add_token (total : Z) (tok : str * ascii) : Z :=
  let (val, unit) := tok in
  let v := py_int val in
  if eqc unit "d" then total + v * 1440
  else if eqc unit "h" then total + v * 60
  else total + v.

Definition parse_to_minutes (text : str) : option Z :=
  let text := lower (strip text) in
  if negb (truthy text) then None
  else
    match match_hms text with
    | Some (h, mn, _) => Some (py_int h * 60 + py_int mn)
    | None =>
        let tokens := findall text in
        let total := fold_left add_token tokens 0 in
        let matched := match tokens with [] => false | _ :: _ => true end in
        if matched then Some total
        else if match_all_digits text then Some (py_int text * 60)
        else None
    end.

Definition minutes_to_hms (total_minutes : Z) : str :=
  let h := total_minutes / 60 in
  let m := total_minutes mod 60 in
  numeral h ++ lit ":" ++ numeral m ++ lit ":0".

Definition minutes_to_slurm (total_minutes : Z) : str :=
  let total_h := total_minutes / 60 in
  let m := total_minutes mod 60 in
  if total_h >=? 24 then
    let d := total_h / 24 in
    let rem_h := total_h mod 24 in
    numeral d ++ lit "-" ++ fmt_02d rem_h ++ lit ":" ++ fmt_02d m ++ lit ":00"
  else fmt_02d total_h ++ lit ":" ++ fmt_02d m ++ lit ":00".

Definition minutes_to_human (total_minutes : Z) : str :=
  if total_minutes <=? 0 then lit "0m"
  else
    let d := total_minutes / 1440 in
    let h := (total_minutes mod 1440) / 60 in
    let m := total_minutes mod 60 in
    let parts :=
      (if d =? 0 then [] else [numeral d ++ lit "d"]) ++
      (if h =? 0 then [] else [numeral h ++ lit "h"]) ++
      (if m =? 0 then [] else [numeral m ++ lit "m"]) in
    match parts with
    | [] => lit "0m"
    | _ :: _ => join (lit " ") parts
    end.

Definition format_elapsed (seconds : Z) : str :=
  if seconds <? 0 then lit "N/A"
  else minutes_to_human (seconds / 60).

End Unbounded.

Section DurationTerms.
Import Text Duration.

Definition digits (ds : str) : Prop :=
  ds <> [] /\ Forall (fun c => is_digit c = true) ds.

(** A run of digits that [int] converts. *)
Definition short (ds : str) : Prop := (length ds <= max_str_digits)%nat.

(** The integers [str] renders. *)
Definition renders (n : Z) : Prop := Z.abs n < int_limit.

(** The canonical composite form: [<int><unit>] items joined by one space. *)
Definition item : Type := Z * ascii.

Definition render_item (it : item) : str := numeral (fst it) ++ [snd it].

Definition weight (u : ascii) : Z :=
  if eqc u "d" then 1440 else if eqc u "h" then 60 else 1.

Definition item_minutes (it : item) : Z := fst it * weight (snd it).

Definition good_item (it : item) : Prop := 0 <= fst it /\ is_unit (snd it) = true.

(** [minutes_to_human] writes the canonical composite form of the non-zero
    items among days, hours and minutes. *)
Definition human_items (m : Z) : list item :=
  filter (fun it => negb (fst it =? 0))
         [(m / 1440, "d"%char); ((m mod 1440) / 60, "h"%char); (m mod 60, "m"%char)].

Definition token_minutes (tok : str * ascii) : Z :=
  int_of_digits (fst tok) * weight (snd tok).

(** The runs of digits that [parse_to_minutes] hands to [int]: the three
    groups of [H:M:S], or else the numbers of the tokens, or else the whole
    text when it is a bare number. *)
Definition converted (text : str) : list str :=
  let t := lower (strip text) in
  match match_hms t with
  | Some (h, mn, sec) => [h; mn; sec]
  | None =>
      match findall t with
      | [] => if match_all_digits t then [t] else []
      | tok :: toks => map fst (tok :: toks)
      end
  end.


End DurationTerms.

Section ConvTerms.
Import Text Py Conv.

(** The fields of a listing line, as [parse_line] cuts them. *)
Definition fields (line : str) : list str := split "|" (strip line).

(** The record of a line with all eight fields, and of a line cut short
    after at least four. *)
Definition full_record (parts : list str) : SLURMJob :=
  mkSLURMJob (nth 0 parts []) (nth 1 parts []) (nth 2 parts []) (nth 3 parts [])
             (nth 4 parts []) (nth 5 parts []) (nth 6 parts []) (nth 7 parts []).

Definition partial_record (parts : list str) : SLURMJob :=
  mkSLURMJob (nth 0 parts []) (nth 1 parts []) (nth 2 parts []) (nth 3 parts [])
             [] [] [] [].

Definition line_jobs (line : str) : list SLURMJob :=
  if (8 <=? length (fields line))%nat then [full_record (fields line)]
  else if (4 <=? length (fields line))%nat then [partial_record (fields line)]
  else [].

End ConvTerms.

(** A constant executor over a world with nothing in it, for examples. *)
Definition always (r : RemoteCommandResult)
  : Text.str -> Z -> Py.M unit RemoteCommandResult :=
  fun _ _ w => (r, w).

(** An executor for examples: the job has a node, [big12], and its log
    never shows a URL. *)
Definition silent_service : Text.str -> Z -> Py.M unit RemoteCommandResult :=
  fun command _ w =>
    if Text.contains (Text.lit "assigned_hostnames") command
    then ((Text.lit "big12" ++ HPC.nl, [], 0), w)
    else (([], [], 0), w).

Section HPCTerms.
Import Text Py HPC.

(** The current record after a line, failure apart. *)
Definition apply_line (current : OARJob) (line : str) : OARJob :=
  match store_line current line with
  | Ok c => c
  | Raise _ => current
  end.

(** The listing as the spec describes it: a header line opens a record,
    and the lines up to the next header are its body. *)
Fixpoint body (lines : list str) : list str :=
  match lines with
  | [] => []
  | line :: rest =>
      match match_job_id line with
      | Some _ => []
      | None => line :: body rest
      end
  end.

Fixpoint blocks (lines : list str) : list (str * list str) :=
  match lines with
  | [] => []
  | line :: rest =>
      match match_job_id line with
      | Some id => (id, body rest) :: blocks rest
      | None => blocks rest
      end
  end.

Definition record_of_block (b : str * list str) : OARJob :=
  fold_left apply_line (snd b) (new_job (fst b)).

(** The numeric ids of the header lines, in order. *)
Definition header_ids (lines : list str) : list str :=
  flat_map (fun line => match match_job_id line with
                        | Some id => [id]
                        | None => []
                        end) lines.

(** The record being filled when the loop reaches [lines], once flushed. *)
Definition open_block (current : option OARJob) (lines : list str) : list OARJob :=
  match current with
  | None => []
  | Some c => [fold_left apply_line (body lines) c]
  end.

(** The record of a block, told field by field.  A line of the body speaks
    of one field at most: the first of the six keys, in this order, that
    occurs in it. *)
Inductive field : Type := Name | State | Walltime | StartTime | Node | Cores.

Definition key (f : field) : str :=
  match f with
  | Name => lit "name ="
  | State => lit "state ="
  | Walltime => lit "walltime ="
  | StartTime => lit "startTime ="
  | Node => lit "assigned_hostnames ="
  | Cores => lit "wanted_resources ="
  end.

Definition field_of (line : str) : option field :=
  find (fun f => contains (key f) line) [Name; State; Walltime; StartTime; Node; Cores].

(** What follows the first occurrence of a character. *)
Fixpoint after_first (sep : ascii) (s : str) : str :=
  match s with
  | [] => []
  | c :: r => if eqc c sep then r else after_first sep r
  end.

(** The text a line gives to a field, if it gives one: what follows its
    first equals sign, without the white space around it; for the cores,
    the digits of the first [core=<digits>], if there is one. *)
Definition text_for (f : field) (line : str) : option str :=
  match field_of line, f with
  | Some Name, Name | Some State, State | Some Walltime, Walltime
  | Some StartTime, StartTime | Some Node, Node =>
      Some (strip (after_first "=" line))
  | Some Cores, Cores => search_core line
  | _, _ => None
  end.

(** The text a field holds after one more line. *)
Definition told (f : field) (line value : str) : str :=
  match text_for f line with
  | Some v => v
  | None => value
  end.

(** The field after the lines of a body: the text of the last line that
    gives one, or the empty text. *)
Definition last_text (f : field) (lines : list str) : str :=
  fold_left (fun value line => told f line value) lines [].

Definition described (b : str * list str) : OARJob :=
  mkOARJob (fst b) (last_text Name (snd b)) (last_text State (snd b))
           (last_text Walltime (snd b)) (last_text StartTime (snd b))
           (last_text Node (snd b)) (last_text Cores (snd b)).

End HPCTerms.

Section SubmitTerms.
Import Text Py.

(** A non-empty run of decimal digits: the scheduler's job id. *)
Definition numeric_id (s : str) : Prop :=
  s <> [] /\ Forall (fun c => is_digit c = true) s.

(** The error text of a failed submission: the captured [stderr] without
    the white space around it, or the default message when nothing is
    left. *)
Definition submission_error (stderr : str) : str :=
  match strip stderr with
  | [] => lit "Failed to submit job"
  | _ :: _ => strip stderr
  end.

(** What a submission returns, given the result of its remote command. *)
Definition submission_outcome (r : RemoteCommandResult) (out : str * str) : Prop :=
  let '(stdout, stderr, _) := r in
  (numeric_id (strip stdout) -> out = (strip stdout, [])) /\
  (~ numeric_id (strip stdout) -> out = ([], submission_error stderr)) /\
  (snd out <> [] <-> ~ numeric_id (strip stdout)).

End SubmitTerms.

Section SSHTerms.
Import SSH.

Definition ascii_bytes (data : bytes) : Prop :=
  Forall (fun b => (Byte.to_N b < 128)%N) data.

Definition no_cr (data : bytes) : Prop :=
  Forall (fun b => Byte.to_N b <> 13%N) data.

End SSHTerms.

Section TrackerTerms.
Import Text Py Tracker.

Definition stdout_of (r : RemoteCommandResult) : str := fst (fst r).

(** The commands behind [query_node] and [query_service_url]. *)
Definition node_command (s : scheduler) (job_id : str) : str :=
  match s with
  | OAR => HPC.get_job_node_command job_id
  | SLURM => Conv.get_job_node_command job_id
  end.

Definition url_command (s : scheduler) (job_id : str) : str :=
  match s with
  | OAR => HPC.get_jupyter_url_command job_id
  | SLURM => Conv.get_jupyter_url_command job_id
  end.

(** The commands that cancel jobs. *)
Definition cancels (command : str) : Prop :=
  exists x, command = HPC.cancel_job_command x \/
            command = HPC.cancel_all_jobs_command x \/
            command = Conv.cancel_job_command x \/
            command = Conv.cancel_all_jobs_command x.

Definition is_sleep (e : event) : bool :=
  match e with Slept _ => true | _ => false end.

Definition is_run (e : event) : bool :=
  match e with Ran _ _ _ => true | _ => false end.

(** The events of a polling loop that asks [command] up to some number of
    times: [polled command n evs url] when [evs] are [n] attempts, each
    failed attempt followed by a sleep of two seconds, ending with the
    first attempt that yields a URL, if any; [url] is the result. *)
Inductive polled (command : str) : nat -> list event -> str -> Prop :=
| polled_none : polled command 0 [] []
| polled_hit (r : RemoteCommandResult) :
    truthy (strip (stdout_of r)) = true ->
    polled command 1 [Ran command 30 r] (strip (stdout_of r))
| polled_miss (r : RemoteCommandResult) (n : nat) (evs : list event) (url : str) :
    truthy (strip (stdout_of r)) = false ->
    polled command n evs url ->
    polled command (S n) (Ran command 30 r :: Slept 2 :: evs) url.

Definition str_eq_dec : forall a b : str, {a = b} + {a <> b} :=
  list_eq_dec ascii_dec.

(** The event is a run of [command]. *)
Definition is_query (command : str) (e : event) : bool :=
  match e with
  | Ran c _ _ => if str_eq_dec c command then true else false
  | _ => false
  end.

Definition queries (command : str) (tr : list event) : nat :=
  length (filter (is_query command) tr).

Definition sleeps (tr : list event) : nat := length (filter is_sleep tr).

(** The node name passes the check of [_connect_to]. *)
Definition node_found (node : str) : Prop :=
  negb (truthy node) || negb (Validators.is_name node) = false.

(** What [_connect_to] does once the polling has ended with [url]: the
    error when there is none, and otherwise the session screen, unless the
    port cannot be converted. *)
Definition finish (s : scheduler) (job_id node url : str) : list event :=
  if truthy url then
    match port_of s url with
    | Ok port => [Pushed (mkSessionScreen job_id node url (sub_localhost url) port)]
    | Raise _ => []
    end
  else [Notified (lit "Jupyter didn't start. Check job logs.") Error].

End TrackerTerms.

Section TunnelTerms.
Import Py Tunnel.

(** [poll()] on the handle would return [None]: there is a process and it
    has not exited. *)
Definition still_running (t : handle) : bool :=
  match t with
  | Some p => match returncode p with
              | None => running p
              | Some _ => false
              end
  | None => false
  end.

(** The closes of a schedule that come before the process exits. *)
Fixpoint closes_before_exit (acts : list action) : nat :=
  match acts with
  | Close :: rest => S (closes_before_exit rest)
  | ProcessExits _ :: _ => 0
  | [] => 0
  end.

End TunnelTerms.

Section DashboardTerms.
Import Text.


(** The cell of a column, and the ids shown in a table. *)
Definition cell (column : nat) (row : list str) : str := nth column row [].


End DashboardTerms.

Section FormTerms.
Import Text.

(** Characters that mean nothing to a shell, inside or outside quotes:
    those of a name, and the colon. *)
Definition inert (c : ascii) : bool := Validators.is_name_char c || eqc c ":".

Definition inert_text (s : str) : Prop := Forall (fun c => inert c = true) s.

(** What an HPC form asks the application to run: the requests to launch
    with a mode, and the requests handed on to the script form. *)
Definition hpc_request (a : HPCForms.action) : option (Z * str) :=
  match a with
  | HPCForms.PushCustomScriptScreen n w => Some (n, w)
  | HPCForms.LaunchJob n w _ => Some (n, w)
  | _ => None
  end.

Definition conv_request (a : ConvForms.action) : option (str * Z * str * str) :=
  match a with
  | ConvForms.PushCustomScriptScreen g n w name => Some (g, n, w, name)
  | ConvForms.LaunchJob g n w name _ => Some (g, n, w, name)
  | _ => None
  end.

End FormTerms.

Section ConfigTerms.
Import Text Config.

(** A line the parser passes over: blank, or a comment. *)
Definition skipped (line : str) : Prop :=
  strip line = [] \/ exists r, strip line = "#"%char :: r.

(** A line that opens a section. *)
Definition header (line : str) : Prop := match_section (strip line) <> None.

(** One turn of the loop of [_parse_toml_simple] as long as [int] raises
    nothing: an integer is the value of its digits. *)
Definition step (st : state) (raw : str) : state :=
  let line := strip raw in
  if negb (truthy line)
     || match line with c :: _ => eqc c "#" | [] => false end
  then st
  else
    match match_section line with
    | Some x =>
        let section := strip x in
        mkState (dict_set section (Table []) (result st)) (Some section)
    | None =>
        match match_string line with
        | Some (k, v) => assign st k (Str v)
        | None =>
            match match_bool line with
            | Some (k, b) => assign st k (Bool b)
            | None =>
                match match_int line with
                | Some (k, ds) => assign st k (Int (int_of_digits ds))
                | None => st
                end
            end
        end
    end.

(** The assignment a line makes, if any; an integer is the value of its
    digits. *)
Definition assignment_of (raw : str) : option (str * scalar) :=
  let line := strip raw in
  if negb (truthy line)
     || match line with c :: _ => eqc c "#" | [] => false end
  then None
  else
    match match_string line with
    | Some (k, v) => Some (k, Str v)
    | None =>
        match match_bool line with
        | Some (k, b) => Some (k, Bool b)
        | None =>
            match match_int line with
            | Some (k, ds) => Some (k, Int (int_of_digits ds))
            | None => None
            end
        end
    end.

(** The digits of the integer a line assigns, if it assigns one. *)
Definition integer_of (raw : str) : option str :=
  let line := strip raw in
  if negb (truthy line)
     || match line with c :: _ => eqc c "#" | [] => false end
  then None
  else
    match match_section line, match_string line, match_bool line with
    | None, None, None => option_map snd (match_int line)
    | _, _, _ => None
    end.

(** No integer of the line has more digits than [int] converts. *)
Definition within_limit (raw : str) : Prop :=
  match integer_of raw with
  | Some ds => short ds
  | None => True
  end.

(** The dictionary the assignments of some lines build, in order. *)
Definition add_assignment (d : table scalar) (line : str) : table scalar :=
  match assignment_of line with
  | Some (k, v) => dict_set k v d
  | None => d
  end.

Definition assignments (lines : list str) : table scalar :=
  fold_left add_assignment lines [].

(** A top-level dictionary that holds sections only. *)
Definition sections_only (R : table entry) : Prop :=
  Forall (fun kv => exists d, snd kv = Table d) R.

(** The file starts in a section: nothing but blank lines and comments
    comes before the first header. *)
Definition starts_in_a_section (lines : list str) : Prop :=
  Forall skipped lines \/
  exists pre hdr rest,
    lines = pre ++ hdr :: rest /\ Forall skipped pre /\ header hdr.

(** The lines of a configuration file. *)
Definition header_line (name : str) : str := "["%char :: name ++ ["]"%char].

Definition string_line (key v : str) : str :=
  key ++ lit " = " ++ "034"%char :: v ++ ["034"%char].

Definition bool_line (key : str) (b : bool) : str :=
  key ++ lit " = " ++ (if b then lit "true" else lit "false").

(** A configuration file with all six settings. *)
Definition render_config (c_username c_email c_gateway : str)
  (c_hpc c_conv : bool) (c_storage : str) : str :=
  join ["010"%char]
    [header_line (lit "user");
     string_line (lit "username") c_username;
     string_line (lit "email") c_email;
     [];
     header_line (lit "clusters");
     string_line (lit "gateway") c_gateway;
     bool_line (lit "hpc_enabled") c_hpc;
     bool_line (lit "conv_enabled") c_conv;
     string_line (lit "hpc_storage") c_storage].

End ConfigTerms.

Section ClusterStatusTerms.
Import Text ClusterStatus.

(** A column of the listing: not empty, and without white space. *)
Definition column (s : str) : Prop :=
  s <> [] /\ Forall (fun c => is_space c = false) s.

(** The record of a line of at least seven columns. *)
Definition node_record (parts : list str) : NodeInfo :=
  mkNodeInfo (nth 0 parts []) (nth 1 parts []) (nth 2 parts []) (nth 3 parts [])
             (nth 4 parts []) (nth 5 parts []) (nth 6 parts []).

Definition line_nodes (line : str) : list NodeInfo :=
  if (7 <=? length (words line))%nat then [node_record (words line)] else [].

End ClusterStatusTerms.

Section JobsTerms.
Import Text Jobs.

(** The remote commands of a trace. *)
Definition commands_run (tr : list event) : list str :=
  flat_map (fun e => match e with Ran c _ _ => [c] | _ => [] end) tr.

(** The error notifications of a trace. *)
Definition errors_shown (tr : list event) : list str :=
  flat_map (fun e => match e with
                     | Notified m Tracker.Error => [m]
                     | _ => []
                     end) tr.

(** The waiting screens of a trace. *)
Definition waiting_for (tr : list event) : list (str * option str) :=
  flat_map (fun e => match e with
                     | PushedWaiting id name => [(id, name)]
                     | _ => []
                     end) tr.

(** The command that cancels one job, and the one that cancels all. *)
Definition cancel_command (s : Tracker.scheduler) (job_id : str) : str :=
  match s with
  | Tracker.OAR => HPC.cancel_job_command job_id
  | Tracker.SLURM => Conv.cancel_job_command job_id
  end.

Definition cancel_all_command (s : Tracker.scheduler) (username : str) : str :=
  match s with
  | Tracker.OAR => HPC.cancel_all_jobs_command username
  | Tracker.SLURM => Conv.cancel_all_jobs_command username
  end.

(** A submission made by [script], reported to the user: one command is
    run; its stripped output, when it is a job id, is announced, and
    otherwise the error is shown.  [waiting] is the waiting screen a
    successful submission opens, if the operation opens one. *)
Definition submission_reported (script : str)
  (waiting : str -> list (str * option str)) (tr : list event) : Prop :=
  commands_run tr = [script] /\
  exists r,
    In (Ran script 30 r) tr /\
    ((numeric_id (strip (stdout_of r)) /\
      waiting_for tr = waiting (strip (stdout_of r)) /\
      errors_shown tr = [])
     \/
     (~ numeric_id (strip (stdout_of r)) /\
      waiting_for tr = [] /\
      errors_shown tr
        = [lit "Submit failed: " ++ submission_error (snd (fst r))])).

(** The terminal mode: one local command, and nothing else but a
    refresh. *)
Definition terminal_opened (command : str) (tr : list event) : Prop :=
  tr = [System command; Refreshed].

(** A cancellation made by [command], reported to the user. *)
Definition cancellation_reported (command done : str) (tr : list event) : Prop :=
  exists r,
    let '(_, stderr, rc) := r in
    tr = [Ran command 30 r;
          if (rc =? 0) || negb (truthy (strip stderr))
          then Notified done Tracker.Information
          else Notified (lit "Cancel failed: " ++ strip stderr) Tracker.Error;
          Refreshed].

End JobsTerms.

(* ================================================================== *)
(** * Part III: properties                                             *)
(* ================================================================== *)

Import Text.

(** Lists written with [++] and [::], put in right-nested form. *)
Ltac norm_app := repeat (rewrite <- app_assoc || rewrite <- app_comm_cons).

(** ** Facts about the text built-ins *)
Section TextFacts.
Import Text Unbounded.

Lemma span_fst_snd (p : ascii -> bool) (s : str) :
  fst (span p s) ++ snd (span p s) = s.
Proof.
  induction s as [|c s IH]; simpl; [reflexivity|].
  destruct (p c); [|reflexivity].
  destruct (span p s) as [a b]; simpl in *. now rewrite IH.
Qed.

Lemma span_fst_all (p : ascii -> bool) (s : str) :
  Forall (fun c => p c = true) (fst (span p s)).
Proof.
  induction s as [|c s IH]; simpl; [constructor|].
  destruct (p c) eqn:E; [|constructor].
  destruct (span p s) as [a b]; simpl in *. now constructor.
Qed.

Lemma span_snd_head (p : ascii -> bool) (s : str) c r :
  snd (span p s) = c :: r -> p c = false.
Proof.
  induction s as [|x s IH]; simpl; [discriminate|].
  destruct (p x) eqn:E.
  - destruct (span p s) as [a b]; simpl in *. exact IH.
  - simpl. intros [= <- _]. exact E.
Qed.

Lemma span_snd_incl (p : ascii -> bool) (s : str) c :
  In c (snd (span p s)) -> In c s.
Proof.
  induction s as [|x s IH]; simpl; [tauto|].
  destruct (p x).
  - destruct (span p s) as [a b]; simpl in *. auto.
  - simpl. tauto.
Qed.

Lemma span_snd_length (p : ascii -> bool) (s : str) :
  (length (snd (span p s)) <= length s)%nat.
Proof.
  rewrite <- (span_fst_snd p s) at 2. rewrite length_app. lia.
Qed.

(** A run of characters of the class, followed by something that does not
    start with one, is exactly what [span] takes. *)
Lemma span_app (p : ascii -> bool) (a b : str) :
  Forall (fun c => p c = true) a ->
  match b with [] => True | c :: _ => p c = false end ->
  span p (a ++ b) = (a, b).
Proof.
  intros Ha Hb. induction Ha as [|x a Hx _ IH]; simpl.
  - destruct b as [|c b]; simpl; [reflexivity|]. now rewrite Hb.
  - now rewrite Hx, IH.
Qed.

Lemma span_all (p : ascii -> bool) (a : str) :
  Forall (fun c => p c = true) a -> span p a = (a, []).
Proof.
  intros Ha. rewrite <- (app_nil_r a) at 1. now apply span_app.
Qed.

Lemma span_none (p : ascii -> bool) (s : str) :
  match s with [] => True | c :: _ => p c = false end -> span p s = ([], s).
Proof. intros H. now apply (span_app p []). Qed.

Lemma lstrip_app (x y : str) :
  lstrip x <> [] -> lstrip (x ++ y) = lstrip x ++ y.
Proof.
  induction x as [|c x IH]; simpl; [congruence|].
  destruct (is_space c); auto.
Qed.

Lemma lstrip_all_space (x y : str) :
  lstrip x = [] -> lstrip (x ++ y) = lstrip y.
Proof.
  induction x as [|c x IH]; simpl; [reflexivity|].
  destruct (is_space c); [auto | discriminate].
Qed.

Lemma lstrip_idem (s : str) : lstrip (lstrip s) = lstrip s.
Proof.
  induction s as [|c s IH]; simpl; [reflexivity|].
  destruct (is_space c) eqn:E; [exact IH | simpl; now rewrite E].
Qed.

Lemma lstrip_head (c : ascii) (s : str) :
  is_space c = false -> lstrip (c :: s) = c :: s.
Proof. intros H; simpl; now rewrite H. Qed.

Lemma lstrip_suffix (s : str) : exists w, s = w ++ lstrip s /\ lstrip w = [].
Proof.
  induction s as [|c s (w & E & W)]; simpl.
  - now exists [].
  - destruct (is_space c) eqn:Ec.
    + exists (c :: w); simpl. rewrite Ec. split; [now f_equal | exact W].
    + now exists [].
Qed.

Lemma lstrip_result_head (s : str) c r :
  lstrip s = c :: r -> is_space c = false.
Proof.
  induction s as [|x s IH]; simpl; [discriminate|].
  destruct (is_space x) eqn:E; [exact IH | now intros [= <- _]].
Qed.

Lemma rstrip_app (a b : str) :
  rstrip b <> [] -> rstrip (a ++ b) = a ++ rstrip b.
Proof.
  unfold rstrip. intros H. rewrite rev_app_distr, lstrip_app.
  - now rewrite rev_app_distr, rev_involutive.
  - intros E. apply H. now rewrite E.
Qed.

Lemma rstrip_all_space (a b : str) :
  rstrip b = [] -> rstrip (a ++ b) = rstrip a.
Proof.
  unfold rstrip. intros H. rewrite rev_app_distr, lstrip_all_space; [reflexivity|].
  rewrite <- (rev_involutive (lstrip (rev b))), H. reflexivity.
Qed.

Lemma rstrip_last (s : str) (c : ascii) :
  is_space c = false -> rstrip (s ++ [c]) = s ++ [c].
Proof.
  intros H. rewrite rstrip_app; unfold rstrip; simpl; rewrite H; [reflexivity | discriminate].
Qed.

Lemma rstrip_nil : rstrip [] = [].
Proof. reflexivity. Qed.

(** [strip] leaves alone a text that neither starts nor ends with white
    space. *)
Lemma strip_fixed (c1 c2 : ascii) (s : str) :
  is_space c1 = false -> is_space c2 = false ->
  strip (c1 :: s ++ [c2]) = c1 :: s ++ [c2].
Proof.
  intros H1 H2. unfold strip. rewrite lstrip_head by assumption.
  now apply (rstrip_last (c1 :: s)).
Qed.

Lemma strip_no_space (s : str) :
  Forall (fun c => is_space c = false) s -> strip s = s.
Proof.
  intros H. destruct s as [|c s]; [reflexivity|].
  destruct (exists_last (l := c :: s)) as (s' & c' & E); [discriminate|].
  unfold strip. rewrite lstrip_head by now inversion H.
  rewrite E in *. apply rstrip_last.
  rewrite Forall_app in H. destruct H as [_ H]. now inversion H.
Qed.

Lemma digit_not_space (c : ascii) : is_digit c = true -> is_space c = false.
Proof.
  destruct c as [[] [] [] [] [] [] [] []]; vm_compute; congruence.
Qed.

Lemma digit_lower (c : ascii) : is_digit c = true -> lower_char c = c.
Proof.
  destruct c as [[] [] [] [] [] [] [] []]; vm_compute; congruence.
Qed.

Lemma lower_digit (c : ascii) : is_digit (lower_char c) = is_digit c.
Proof.
  destruct c as [[] [] [] [] [] [] [] []]; vm_compute; congruence.
Qed.

Lemma lower_space (c : ascii) : is_space (lower_char c) = is_space c.
Proof.
  destruct c as [[] [] [] [] [] [] [] []]; vm_compute; congruence.
Qed.

Lemma digits_no_space (ds : str) :
  Forall (fun c => is_digit c = true) ds ->
  Forall (fun c => is_space c = false) ds.
Proof. apply Forall_impl. exact digit_not_space. Qed.

Lemma py_int_digits (ds : str) :
  Forall (fun c => is_digit c = true) ds -> py_int ds = int_of_digits ds.
Proof.
  intros H. unfold py_int. now rewrite strip_no_space by now apply digits_no_space.
Qed.

Lemma int_of_digits_snoc (ds : str) (c : ascii) :
  int_of_digits (ds ++ [c]) = 10 * int_of_digits ds + digit_val c.
Proof. unfold int_of_digits. now rewrite fold_left_app. Qed.

Lemma digit_val_range (c : ascii) : is_digit c = true -> 0 <= digit_val c <= 9.
Proof.
  destruct c as [[] [] [] [] [] [] [] []]; vm_compute; intuition congruence.
Qed.

Lemma int_of_digits_nonneg (ds : str) :
  Forall (fun c => is_digit c = true) ds -> 0 <= int_of_digits ds.
Proof.
  induction ds as [|c ds IH] using rev_ind; intros H.
  - vm_compute. congruence.
  - rewrite int_of_digits_snoc. apply Forall_app in H as [H1 H2].
    inversion H2; subst. pose proof (digit_val_range c H3). specialize (IH H1). lia.
Qed.

Lemma digit_char_spec (d : Z) :
  0 <= d <= 9 -> is_digit (digit_char d) = true /\ digit_val (digit_char d) = d.
Proof.
  intros H.
  assert (d = 0 \/ d = 1 \/ d = 2 \/ d = 3 \/ d = 4 \/ d = 5 \/ d = 6 \/
          d = 7 \/ d = 8 \/ d = 9) as C by lia.
  repeat (destruct C as [-> | C]; [split; reflexivity|]). subst; split; reflexivity.
Qed.

Lemma dec_digits_S (f : nat) (n : Z) (acc : str) :
  dec_digits (S f) n acc =
  if n / 10 =? 0 then digit_char (n mod 10) :: acc
  else dec_digits f (n / 10) (digit_char (n mod 10) :: acc).
Proof. reflexivity. Qed.

(** The digit loop, given enough fuel, writes a non-empty run of digits
    whose value is the number. *)
Lemma dec_digits_spec (f : nat) :
  forall n acc, 0 <= n < 2 ^ Z.of_nat (S f) ->
  exists ds, dec_digits (S f) n acc = ds ++ acc /\
             Forall (fun c => is_digit c = true) ds /\
             ds <> [] /\ int_of_digits ds = n.
Proof.
  induction f as [|f IH]; intros n acc Hn.
  - assert (n / 10 = 0) as E by (apply Z.div_small; change (2 ^ Z.of_nat 1) with 2 in Hn; lia).
    simpl. rewrite E. simpl.
    assert (0 <= n mod 10 <= 9) as R by (pose proof (Z.mod_pos_bound n 10); lia).
    destruct (digit_char_spec _ R) as [D V].
    exists [digit_char (n mod 10)]. repeat split; auto; try discriminate.
    unfold int_of_digits; simpl. rewrite V. rewrite Z.mod_small; lia.
  - rewrite dec_digits_S.
    assert (0 <= n mod 10 <= 9) as R by (pose proof (Z.mod_pos_bound n 10); lia).
    destruct (digit_char_spec _ R) as [D V].
    destruct (n / 10 =? 0) eqn:E.
    + apply Z.eqb_eq in E.
      exists [digit_char (n mod 10)]. repeat split; auto; try discriminate.
      unfold int_of_digits; simpl. rewrite V.
      pose proof (Z.div_mod n 10). lia.
    + apply Z.eqb_neq in E.
      assert (0 <= n / 10 < 2 ^ Z.of_nat (S f)) as B.
      { split; [apply Z.div_pos; lia|].
        apply Z.div_lt_upper_bound; [lia|].
        replace (Z.of_nat (S (S f))) with (1 + Z.of_nat (S f)) in Hn by lia.
        rewrite Z.pow_add_r in Hn by lia. change (2 ^ 1) with 2 in Hn. lia. }
      destruct (IH (n / 10) (digit_char (n mod 10) :: acc) B) as (ds & E1 & F & NE & V1).
      exists (ds ++ [digit_char (n mod 10)]). repeat split.
      * rewrite E1, <- app_assoc. reflexivity.
      * apply Forall_app. split; auto.
      * destruct ds; discriminate.
      * rewrite int_of_digits_snoc, V1, V. pose proof (Z.div_mod n 10). lia.
Qed.

Lemma dec_of_nonneg_spec (n : Z) :
  0 <= n ->
  Forall (fun c => is_digit c = true) (dec_of_nonneg n) /\
  dec_of_nonneg n <> [] /\ int_of_digits (dec_of_nonneg n) = n.
Proof.
  intros Hn. unfold dec_of_nonneg.
  destruct (dec_digits_spec (Z.to_nat (Z.log2 n)) n []) as (ds & E & F & NE & V).
  - split; [exact Hn|].
    rewrite Nat2Z.inj_succ, Z2Nat.id by apply Z.log2_nonneg.
    destruct (Z.eq_dec n 0) as [->|]; [reflexivity|].
    apply Z.log2_spec. lia.
  - rewrite E, app_nil_r. auto.
Qed.

Lemma numeral_nonneg (n : Z) : 0 <= n -> numeral n = dec_of_nonneg n.
Proof. intros H. unfold numeral. destruct (Z.ltb_spec n 0); [lia | reflexivity]. Qed.

Lemma numeral_spec (n : Z) :
  0 <= n ->
  Forall (fun c => is_digit c = true) (numeral n) /\
  numeral n <> [] /\ int_of_digits (numeral n) = n.
Proof. intros H. rewrite numeral_nonneg by exact H. now apply dec_of_nonneg_spec. Qed.

Lemma fmt_02d_spec (n : Z) :
  0 <= n ->
  Forall (fun c => is_digit c = true) (fmt_02d n) /\
  fmt_02d n <> [] /\ int_of_digits (fmt_02d n) = n.
Proof.
  intros H. destruct (numeral_spec n H) as (F & NE & V). unfold fmt_02d, pad_02.
  destruct (length (numeral n) <? 2)%nat; [|auto].
  repeat split; [constructor; [reflexivity | exact F] | discriminate |].
  change ("0"%char :: numeral n) with ([ "0"%char ] ++ numeral n).
  unfold int_of_digits in *. rewrite fold_left_app. simpl. exact V.
Qed.

(** *** More on [strip] *)

Lemma lstrip_nil_iff (s : str) : lstrip s = [] <-> all_space s.
Proof.
  unfold all_space. induction s as [|c s IH]; simpl.
  - split; [constructor | reflexivity].
  - destruct (is_space c) eqn:E.
    + rewrite IH. split; [now constructor | now inversion 1].
    + split; [discriminate | inversion 1; congruence].
Qed.

Lemma rstrip_nil_iff (s : str) : rstrip s = [] <-> all_space s.
Proof.
  unfold rstrip. split.
  - intros H. assert (lstrip (rev s) = []) as H'.
    { rewrite <- (rev_involutive (lstrip (rev s))), H. reflexivity. }
    apply lstrip_nil_iff in H'. unfold all_space in *.
    rewrite <- (rev_involutive s). now apply Forall_rev.
  - intros H. assert (lstrip (rev s) = []) as ->; [|reflexivity].
    apply lstrip_nil_iff. now apply Forall_rev.
Qed.

Lemma rstrip_prefix (s : str) : exists w, s = rstrip s ++ w /\ all_space w.
Proof.
  destruct (lstrip_suffix (rev s)) as (w & E & Hw).
  exists (rev w). split.
  - unfold rstrip. rewrite <- rev_app_distr, <- E. now rewrite rev_involutive.
  - apply lstrip_nil_iff in Hw. now apply Forall_rev.
Qed.

Lemma rstrip_result_last (s r : str) (c : ascii) :
  rstrip s = r ++ [c] -> is_space c = false.
Proof.
  unfold rstrip. intros H.
  apply (f_equal (@rev ascii)) in H. rewrite rev_involutive, rev_app_distr in H.
  simpl in H. now apply lstrip_result_head in H.
Qed.

Lemma rstrip_idem (s : str) : rstrip (rstrip s) = rstrip s.
Proof. unfold rstrip. now rewrite rev_involutive, lstrip_idem. Qed.

Lemma lstrip_rstrip (s : str) : lstrip (rstrip s) = rstrip (lstrip s).
Proof.
  destruct (lstrip_suffix s) as (w & E & Hw).
  destruct (lstrip s) as [|c t] eqn:L.
  - rewrite app_nil_r in E. subst w.
    apply lstrip_nil_iff in Hw. apply rstrip_nil_iff in Hw. now rewrite Hw.
  - pose proof (lstrip_result_head s c t L) as Hc.
    assert (rstrip (c :: t) <> []) as NE.
    { intros A. apply rstrip_nil_iff in A. inversion A; congruence. }
    rewrite E at 1. rewrite rstrip_app by exact NE.
    rewrite lstrip_all_space by exact Hw.
    destruct (rstrip_prefix (c :: t)) as (w' & E' & _).
    destruct (rstrip (c :: t)) as [|c' t'] eqn:R; [congruence|].
    simpl in E'. injection E' as <- _. now apply lstrip_head.
Qed.

Lemma strip_idem (s : str) : strip (strip s) = strip s.
Proof.
  unfold strip. now rewrite lstrip_rstrip, lstrip_idem, rstrip_idem.
Qed.

Lemma strip_lstrip (s : str) : strip (lstrip s) = strip s.
Proof. unfold strip. now rewrite lstrip_idem. Qed.

Lemma strip_rstrip (s : str) : strip (rstrip s) = strip s.
Proof. unfold strip. now rewrite lstrip_rstrip, rstrip_idem. Qed.

Lemma strip_nil_iff (s : str) : strip s = [] <-> all_space s.
Proof.
  unfold strip. rewrite <- lstrip_rstrip, lstrip_nil_iff.
  split; intros H.
  - destruct (rstrip_prefix s) as (w & E & Hw). rewrite E.
    apply Forall_app. now split.
  - apply rstrip_nil_iff in H. rewrite H. constructor.
Qed.

(** A stripped text does not end in white space: in particular not in the
    line feed that [$] would tolerate. *)
Lemma strip_result_last (s r : str) (c : ascii) :
  strip s = r ++ [c] -> is_space c = false.
Proof. apply rstrip_result_last. Qed.

Lemma strip_result_head (s r : str) (c : ascii) :
  strip s = c :: r -> is_space c = false.
Proof.
  unfold strip. rewrite <- lstrip_rstrip. apply lstrip_result_head.
Qed.

Lemma rstrip_cons_space (c : ascii) (s : str) :
  rstrip (c :: s) = if existsb (fun x => negb (is_space x)) (c :: s)
                    then c :: rstrip s else [].
Proof.
  destruct (existsb (fun x => negb (is_space x)) (c :: s)) eqn:E.
  - simpl in E. destruct (rstrip s) as [|x t] eqn:R.
    + apply rstrip_nil_iff in R.
      assert (existsb (fun x => negb (is_space x)) s = false) as E'.
      { clear -R. induction R as [|y s Hy _ IH]; simpl; [reflexivity|].
        now rewrite Hy, IH. }
      rewrite E', orb_false_r in E. apply negb_true_iff in E.
      change (c :: s) with ([c] ++ s). rewrite rstrip_all_space by now apply rstrip_nil_iff.
      unfold rstrip; simpl. now rewrite E.
    + change (c :: s) with ([c] ++ s). rewrite rstrip_app by congruence.
      now rewrite R.
  - apply rstrip_nil_iff. simpl in E. apply orb_false_iff in E as [E1 E2].
    apply negb_false_iff in E1. constructor; [exact E1|].
    clear -E2. induction s as [|y s IH]; [constructor|].
    simpl in E2. apply orb_false_iff in E2 as [A B]. apply negb_false_iff in A.
    constructor; auto.
Qed.

(** *** [splitlines] *)

Lemma linebreak_is_space (c : ascii) : is_linebreak c = true -> is_space c = true.
Proof.
  destruct c as [[] [] [] [] [] [] [] []]; vm_compute; congruence.
Qed.

Lemma splitlines_from_one_line (a cur : str) :
  one_line a ->
  splitlines_from cur a =
  match rev cur ++ a with [] => [] | _ :: _ => [rev cur ++ a] end.
Proof.
  intros H. revert cur. induction H as [|c a Hc _ IH]; intros cur; simpl.
  - rewrite app_nil_r. destruct cur as [|x cur]; [reflexivity|].
    simpl. destruct (rev cur ++ [x]) eqn:E; [|reflexivity].
    now destruct (rev cur).
  - rewrite Hc, IH. simpl. rewrite <- app_assoc. simpl.
    destruct (rev cur ++ c :: a) eqn:E; [|reflexivity].
    now destruct (rev cur).
Qed.

Lemma splitlines_from_cut (a b cur : str) :
  one_line a ->
  splitlines_from cur (a ++ "010"%char :: b) = (rev cur ++ a) :: splitlines b.
Proof.
  intros H. revert cur. induction H as [|c a Hc _ IH]; intros cur; simpl.
  - rewrite app_nil_r. destruct b; reflexivity.
  - rewrite Hc, IH. simpl. now rewrite <- app_assoc.
Qed.

Lemma splitlines_one_line (a : str) :
  one_line a -> a <> [] -> splitlines a = [a].
Proof.
  intros H NE. unfold splitlines. rewrite splitlines_from_one_line by exact H.
  destruct a; [congruence | reflexivity].
Qed.

Lemma splitlines_two_lines (a b : str) :
  one_line a -> one_line b -> b <> [] ->
  splitlines (a ++ "010"%char :: b) = [a; b].
Proof.
  intros Ha Hb NE. unfold splitlines at 1.
  rewrite splitlines_from_cut by exact Ha. simpl.
  now rewrite splitlines_one_line.
Qed.

Lemma one_line_lstrip (s : str) : one_line s -> one_line (lstrip s).
Proof.
  intros H. destruct (lstrip_suffix s) as (w & E & _).
  unfold one_line in *. rewrite E in H. now apply Forall_app in H.
Qed.

Lemma one_line_rstrip (s : str) : one_line s -> one_line (rstrip s).
Proof.
  intros H. destruct (rstrip_prefix s) as (w & E & _).
  unfold one_line in *. rewrite E in H. now apply Forall_app in H.
Qed.

(** Stripping a text of two lines, the first of which is not blank: the
    second line goes when it is blank, and otherwise each line loses its
    outer white space. *)
Lemma strip_two_lines (a b : str) :
  strip a <> [] ->
  strip (a ++ "010"%char :: b) =
  match rstrip b with
  | [] => strip a
  | _ :: _ => lstrip a ++ "010"%char :: rstrip b
  end.
Proof.
  intros NE. unfold strip at 1.
  assert (lstrip a <> []) as La.
  { intros A. apply NE. apply strip_nil_iff. now apply lstrip_nil_iff. }
  rewrite lstrip_app by exact La.
  destruct (rstrip b) as [|x t] eqn:R.
  - rewrite rstrip_all_space; [reflexivity|].
    apply rstrip_nil_iff. apply rstrip_nil_iff in R. now constructor.
  - rewrite rstrip_app.
    + change ("010"%char :: b) with (["010"%char] ++ b).
      rewrite rstrip_app by congruence. now rewrite R.
    + change ("010"%char :: b) with (["010"%char] ++ b).
      rewrite rstrip_app by congruence. discriminate.
Qed.

End TextFacts.

(** ** duration.py: the token scanner *)
Section DurationFacts.
Import Text Duration Unbounded.

Lemma unit_not_digit (u : ascii) : is_unit u = true -> is_digit u = false.
Proof.
  destruct u as [[] [] [] [] [] [] [] []]; vm_compute; congruence.
Qed.

Lemma unit_not_space (u : ascii) : is_unit u = true -> is_space u = false.
Proof.
  destruct u as [[] [] [] [] [] [] [] []]; vm_compute; congruence.
Qed.

Lemma unit_not_colon (u : ascii) : is_unit u = true -> eqc u ":" = false.
Proof.
  destruct u as [[] [] [] [] [] [] [] []]; vm_compute; congruence.
Qed.

Lemma unit_lower (u : ascii) : is_unit u = true -> lower_char u = u.
Proof.
  destruct u as [[] [] [] [] [] [] [] []]; vm_compute; congruence.
Qed.

(** What the regular expression [(\d+)\s*(d|h|m)] asks of a match at the
    start of a text: digits, white space, a unit letter.  [match_token]
    finds it. *)
Lemma match_token_intro (val ws rest : str) (u : ascii) :
  val <> [] ->
  Forall (fun c => is_digit c = true) val ->
  Forall (fun c => is_space c = true) ws ->
  is_unit u = true ->
  match_token (val ++ ws ++ u :: rest) = Some (val, u, rest).
Proof.
  intros NE Hd Hw Hu. unfold match_token.
  rewrite (span_app is_digit val (ws ++ u :: rest) Hd).
  - destruct val as [|c val]; [congruence|].
    rewrite (span_app is_space ws (u :: rest) Hw) by now apply unit_not_space.
    simpl. now rewrite Hu.
  - destruct ws as [|w ws]; simpl; [now apply unit_not_digit|].
    inversion Hw; subst.
    destruct (is_digit w) eqn:E; [|reflexivity].
    apply digit_not_space in E. congruence.
Qed.

(** Conversely every match has that shape. *)
Lemma match_token_elim (s val rest : str) (u : ascii) :
  match_token s = Some (val, u, rest) ->
  exists ws, s = val ++ ws ++ u :: rest /\ val <> [] /\
             Forall (fun c => is_digit c = true) val /\
             Forall (fun c => is_space c = true) ws /\ is_unit u = true.
Proof.
  unfold match_token. intros H.
  pose proof (span_fst_snd is_digit s) as E1.
  pose proof (span_fst_all is_digit s) as F1.
  destruct (span is_digit s) as [v r1]; simpl in *.
  destruct v as [|c v]; [discriminate|].
  pose proof (span_fst_snd is_space r1) as E2.
  pose proof (span_fst_all is_space r1) as F2.
  destruct (span is_space r1) as [ws r2]; simpl in *.
  destruct r2 as [|u' r2]; [discriminate|].
  destruct (is_unit u') eqn:Hu; [|discriminate].
  injection H as <- <- <-. exists ws. subst. repeat split; auto. discriminate.
Qed.

Lemma match_token_shorter (s val rest : str) (u : ascii) :
  match_token s = Some (val, u, rest) -> (length rest < length s)%nat.
Proof.
  intros H. apply match_token_elim in H as (ws & -> & _).
  rewrite !length_app. simpl. lia.
Qed.

Lemma match_token_no_digit (c : ascii) (s : str) :
  is_digit c = false -> match_token (c :: s) = None.
Proof. intros H. unfold match_token. simpl. now rewrite H. Qed.

Lemma findall_from_fuel (f1 : nat) :
  forall f2 s, (length s <= f1)%nat -> (length s <= f2)%nat ->
  findall_from f1 s = findall_from f2 s.
Proof.
  induction f1 as [|f1 IH]; intros f2 s H1 H2.
  - destruct s; [|simpl in H1; lia]. now destruct f2.
  - destruct s as [|c s]; [now destruct f2|].
    destruct f2 as [|f2]; [simpl in H2; lia|].
    cbn [findall_from].
    destruct (match_token (c :: s)) as [[[v u] rest]|] eqn:M.
    + apply match_token_shorter in M. simpl in *.
      f_equal. apply IH; lia.
    + simpl in *. apply IH; lia.
Qed.

(** The search of [re.findall], one step at a time. *)
Lemma findall_step (c : ascii) (s : str) :
  findall (c :: s) =
  match match_token (c :: s) with
  | Some (val, u, rest) => (val, u) :: findall rest
  | None => findall s
  end.
Proof.
  unfold findall. cbn [length findall_from].
  destruct (match_token (c :: s)) as [[[v u] rest]|] eqn:M.
  - apply match_token_shorter in M. simpl in M.
    f_equal. apply findall_from_fuel; lia.
  - reflexivity.
Qed.

Lemma findall_nil : findall [] = [].
Proof. reflexivity. Qed.

Lemma findall_token (val rest : str) (u : ascii) :
  val <> [] -> Forall (fun c => is_digit c = true) val -> is_unit u = true ->
  findall (val ++ u :: rest) = (val, u) :: findall rest.
Proof.
  intros NE Hd Hu.
  pose proof (match_token_intro val [] rest u NE Hd (Forall_nil _) Hu) as M.
  simpl in M. destruct val as [|c val]; [congruence|].
  simpl in *. now rewrite findall_step, M.
Qed.

Lemma findall_skip (c : ascii) (s : str) :
  is_digit c = false -> findall (c :: s) = findall s.
Proof. intros H. now rewrite findall_step, match_token_no_digit. Qed.

Lemma findall_no_digit (s : str) :
  Forall (fun c => is_digit c = false) s -> findall s = [].
Proof.
  induction 1 as [|c s Hc _ IH]; [reflexivity|]. now rewrite findall_skip.
Qed.

Lemma findall_skip_prefix (p s : str) :
  Forall (fun c => is_digit c = false) p -> findall (p ++ s) = findall s.
Proof.
  induction 1 as [|c p Hc _ IH]; [reflexivity|]. simpl. now rewrite findall_skip.
Qed.

(** No unit letter, no token. *)
Lemma findall_no_unit (s : str) :
  Forall (fun c => is_unit c = false) s -> findall s = [].
Proof.
  induction 1 as [|c s Hc Hs IH]; [reflexivity|].
  rewrite findall_step.
  destruct (match_token (c :: s)) as [[[v u] rest]|] eqn:M; [|exact IH].
  apply match_token_elim in M as (ws & E & _ & _ & _ & Hu).
  assert (In u (c :: s)) as I by (rewrite E, !in_app_iff; simpl; tauto).
  assert (Forall (fun c => is_unit c = false) (c :: s)) as F by now constructor.
  rewrite Forall_forall in F. apply F in I. congruence.
Qed.

(** *** Parsing what the renderers write *)

Lemma digits_numeral (n : Z) : 0 <= n -> digits (numeral n).
Proof. intros H. destruct (numeral_spec n H) as (F & NE & _). now split. Qed.

Lemma digits_fmt_02d (n : Z) : 0 <= n -> digits (fmt_02d n).
Proof. intros H. destruct (fmt_02d_spec n H) as (F & NE & _). now split. Qed.

Lemma digits_head (ds : str) :
  digits ds -> exists c r, ds = c :: r /\ is_digit c = true.
Proof.
  intros [NE F]. destruct ds as [|c r]; [congruence|].
  exists c, r. split; [reflexivity | now inversion F].
Qed.

Lemma digits_last (ds : str) :
  digits ds -> exists r c, ds = r ++ [c] /\ is_digit c = true.
Proof.
  intros [NE F]. destruct (exists_last NE) as (r & c & ->).
  exists r, c. split; [reflexivity|].
  apply Forall_app in F as [_ F]. now inversion F.
Qed.

Lemma lower_fixed (s : str) :
  Forall (fun c => lower_char c = c) s -> lower s = s.
Proof. induction 1; simpl; congruence. Qed.

Lemma lower_digits (ds : str) :
  Forall (fun c => is_digit c = true) ds -> lower ds = ds.
Proof.
  intros H. apply lower_fixed. revert H. apply Forall_impl. exact digit_lower.
Qed.

Lemma lower_app (a b : str) : lower (a ++ b) = lower a ++ lower b.
Proof. apply map_app. Qed.

(** A text that starts with a digit and ends with a character that is no
    white space is not touched by [strip]. *)
Lemma strip_digits_first (ds rest : str) (c : ascii) :
  digits ds -> is_space c = false ->
  strip (ds ++ rest ++ [c]) = ds ++ rest ++ [c].
Proof.
  intros D Hc. destruct (digits_head ds D) as (x & r & -> & Hx).
  simpl. rewrite app_assoc. apply strip_fixed; [now apply digit_not_space | exact Hc].
Qed.

(** The legacy form: three runs of digits with colons between them. *)
Lemma match_hms_intro (h mn sec : str) :
  digits h -> digits mn -> digits sec ->
  match_hms (h ++ ":"%char :: mn ++ ":"%char :: sec) = Some (h, mn, sec).
Proof.
  intros [Nh Fh] [Nm Fm] [Ns Fs]. unfold match_hms.
  rewrite (span_app is_digit h _ Fh) by reflexivity.
  destruct h as [|c h]; [congruence|].
  change (eqc ":" ":") with true. cbv iota.
  rewrite (span_app is_digit mn _ Fm) by reflexivity.
  destruct mn as [|c' mn]; [congruence|].
  change (eqc ":" ":") with true. cbv iota.
  rewrite (span_all is_digit sec Fs).
  destruct sec; [congruence | reflexivity].
Qed.

Lemma parse_hms_form (h mn sec : str) :
  digits h -> digits mn -> digits sec ->
  parse_to_minutes (h ++ ":"%char :: mn ++ ":"%char :: sec) =
  Some (int_of_digits h * 60 + int_of_digits mn).
Proof.
  intros Dh Dm Ds. unfold parse_to_minutes.
  destruct (digits_last sec Ds) as (r & c & E & Hc).
  assert (strip (h ++ ":"%char :: mn ++ ":"%char :: sec)
          = h ++ ":"%char :: mn ++ ":"%char :: sec) as St.
  { rewrite E.
    replace (h ++ ":"%char :: mn ++ ":"%char :: r ++ [c])
      with (h ++ (":"%char :: mn ++ ":"%char :: r) ++ [c])
      by (simpl; now rewrite <- app_assoc).
    apply strip_digits_first; [exact Dh | now apply digit_not_space]. }
  rewrite St.
  assert (lower (h ++ ":"%char :: mn ++ ":"%char :: sec)
          = h ++ ":"%char :: mn ++ ":"%char :: sec) as Lo.
  { apply lower_fixed. destruct Dh as [_ Fh], Dm as [_ Fm], Ds as [_ Fs].
    rewrite Forall_app; split; [revert Fh; apply Forall_impl, digit_lower|].
    constructor; [reflexivity|].
    rewrite Forall_app; split; [revert Fm; apply Forall_impl, digit_lower|].
    constructor; [reflexivity|]. revert Fs; apply Forall_impl, digit_lower. }
  rewrite Lo, match_hms_intro by assumption.
  destruct (digits_head h Dh) as (x & t & -> & _). simpl.
  destruct Dh as [_ Fh], Dm as [_ Fm].
  now rewrite !py_int_digits.
Qed.

Lemma join_cons_cons (sep p q : str) (r : list str) :
  join sep (p :: q :: r) = p ++ sep ++ join sep (q :: r).
Proof. reflexivity. Qed.

Lemma findall_items (its : list item) :
  Forall good_item its ->
  findall (join (lit " ") (map render_item its)) =
  map (fun it => (numeral (fst it), snd it)) its.
Proof.
  induction 1 as [|[v u] its [Hv Hu] Hits IH]; [reflexivity|].
  simpl in Hv, Hu. destruct (digits_numeral v Hv) as [NE F].
  destruct its as [|it2 its].
  - simpl. unfold render_item; simpl. now rewrite findall_token.
  - cbn [map] in *. rewrite join_cons_cons.
    set (J := join _ (render_item it2 :: _)) in *.
    unfold render_item; cbn [fst snd]. rewrite <- app_assoc.
    change ([u] ++ lit " " ++ J) with (u :: " "%char :: J).
    rewrite findall_token by assumption.
    rewrite findall_skip by reflexivity.
    now rewrite IH.
Qed.

Lemma add_token_item (total : Z) (it : item) :
  good_item it ->
  add_token total (numeral (fst it), snd it) = total + item_minutes it.
Proof.
  intros [Hv Hu]. destruct it as [v u]; simpl in *.
  destruct (numeral_spec v Hv) as (F & _ & V).
  unfold add_token, item_minutes, weight; simpl.
  rewrite py_int_digits, V by exact F.
  destruct (eqc u "d"); [reflexivity|]. destruct (eqc u "h"); [reflexivity | lia].
Qed.

Lemma fold_add_token_items (its : list item) :
  Forall good_item its ->
  forall total,
  fold_left add_token (map (fun it => (numeral (fst it), snd it)) its) total =
  total + fold_right Z.add 0 (map item_minutes its).
Proof.
  induction 1 as [|it its Hit _ IH]; intros total; cbn [map fold_left fold_right]; [lia|].
  rewrite add_token_item by exact Hit. rewrite IH. lia.
Qed.

Lemma join_items_shape (its : list item) :
  Forall good_item its -> its <> [] ->
  exists ds rest u,
    join (lit " ") (map render_item its) = ds ++ rest ++ [u] /\
    digits ds /\ is_unit u = true /\
    match rest with [] => True | c :: _ => is_digit c = false end /\
    Forall (fun c => lower_char c = c) (ds ++ rest ++ [u]).
Proof.
  induction 1 as [|[v u] its [Hv Hu] Hits IH]; [congruence|]. intros _.
  simpl in Hv, Hu. pose proof (digits_numeral v Hv) as D.
  destruct its as [|it2 its].
  - exists (numeral v), [], u. simpl. unfold render_item; simpl.
    repeat split; auto; try apply D.
    apply Forall_app; split.
    + destruct D as [_ F]. revert F. apply Forall_impl, digit_lower.
    + constructor; [now apply unit_lower | constructor].
  - destruct IH as (ds & rest & u' & E & D' & Hu' & _ & Fl); [discriminate|].
    exists (numeral v), (u :: " "%char :: ds ++ rest), u'.
    cbn [map] in *. rewrite join_cons_cons, E.
    unfold render_item; cbn [fst snd].
    repeat split; auto; try apply D.
    + unfold lit; simpl. rewrite <- !app_assoc. reflexivity.
    + now apply unit_not_digit.
    + apply Forall_app; split.
      * destruct D as [_ F]. revert F. apply Forall_impl, digit_lower.
      * simpl. constructor; [now apply unit_lower|].
        constructor; [reflexivity|]. now rewrite <- app_assoc.
Qed.

Lemma match_hms_not_colon (ds rest : str) :
  digits ds ->
  match rest with [] => True | c :: _ => is_digit c = false /\ eqc c ":" = false end ->
  match_hms (ds ++ rest) = None.
Proof.
  intros [NE F] H. unfold match_hms.
  rewrite (span_app is_digit ds rest F) by (destruct rest; tauto).
  destruct ds; [congruence|]. destruct rest as [|c rest]; [reflexivity|].
  destruct H as [_ ->]. reflexivity.
Qed.

(** Every canonical composite text parses to the sum of its items. *)
Lemma parse_items (its : list item) :
  Forall good_item its -> its <> [] ->
  parse_to_minutes (join (lit " ") (map render_item its)) =
  Some (fold_right Z.add 0 (map item_minutes its)).
Proof.
  intros G NE.
  destruct (join_items_shape its G NE) as (ds & rest & u & E & D & Hu & _ & Fl).
  unfold parse_to_minutes.
  assert (strip (join (lit " ") (map render_item its))
          = join (lit " ") (map render_item its)) as St.
  { rewrite E. apply strip_digits_first; [exact D | now apply unit_not_space]. }
  rewrite St.
  assert (lower (join (lit " ") (map render_item its))
          = join (lit " ") (map render_item its)) as Lo.
  { rewrite E. now apply lower_fixed. }
  rewrite Lo.
  assert (match_hms (join (lit " ") (map render_item its)) = None) as Hm.
  { destruct its as [|[v w] its]; [congruence|].
    inversion G as [|? ? [Hv Hw] G']; subst. simpl in Hv, Hw.
    destruct its as [|it2 its].
    - simpl. unfold render_item; simpl.
      apply match_hms_not_colon; [now apply digits_numeral|].
      split; [now apply unit_not_digit | now apply unit_not_colon].
    - cbn [map]. rewrite join_cons_cons.
      set (J := join _ (render_item it2 :: _)).
      unfold render_item; cbn [fst snd]. rewrite <- app_assoc.
      apply match_hms_not_colon; [now apply digits_numeral|].
      split; [now apply unit_not_digit | now apply unit_not_colon]. }
  rewrite Hm, findall_items by exact G.
  rewrite fold_add_token_items by exact G.
  destruct (digits_head ds D) as (x & t & Ex & _).
  rewrite E, Ex. simpl.
  destruct its; [congruence | reflexivity].
Qed.

Lemma mod_1440_60 (m : Z) : (m mod 1440) mod 60 = m mod 60.
Proof.
  rewrite (Z.mod_eq m 1440) by lia.
  replace (m - 1440 * (m / 1440)) with (m + (- 24 * (m / 1440)) * 60) by lia.
  apply Z.mod_add. lia.
Qed.

Lemma minutes_to_human_items (m : Z) :
  0 < m -> minutes_to_human m = join (lit " ") (map render_item (human_items m)).
Proof.
  intros Hm. unfold minutes_to_human, human_items.
  destruct (Z.leb_spec m 0); [lia|]. simpl filter.
  assert (m / 1440 <> 0 \/ m mod 1440 / 60 <> 0 \/ m mod 60 <> 0) as NZ.
  { pose proof (Z.div_mod m 1440). pose proof (Z.div_mod (m mod 1440) 60).
    pose proof (Z.mod_pos_bound m 1440). pose proof (Z.mod_pos_bound m 60).
    pose proof (mod_1440_60 m). lia. }
  destruct (m / 1440 =? 0) eqn:Ed, (m mod 1440 / 60 =? 0) eqn:Eh, (m mod 60 =? 0) eqn:Em;
    simpl; try reflexivity.
  apply Z.eqb_eq in Ed, Eh, Em. lia.
Qed.

Lemma human_items_good (m : Z) : 0 <= m -> Forall good_item (human_items m).
Proof.
  intros Hm. unfold human_items. apply Forall_forall. intros it Hin.
  apply filter_In in Hin as [Hin _].
  pose proof (Z.mod_pos_bound m 1440). pose proof (Z.mod_pos_bound m 60).
  simpl in Hin. destruct Hin as [<-|[<-|[<-|[]]]]; split; simpl; try reflexivity.
  - apply Z.div_pos; lia.
  - apply Z.div_pos; lia.
  - lia.
Qed.

Lemma human_items_sum (m : Z) :
  fold_right Z.add 0 (map item_minutes (human_items m)) = m.
Proof.
  unfold human_items. simpl filter.
  pose proof (Z.div_mod m 1440). pose proof (Z.div_mod (m mod 1440) 60).
  pose proof (mod_1440_60 m) as E.
  destruct (m / 1440 =? 0) eqn:Ed, (m mod 1440 / 60 =? 0) eqn:Eh, (m mod 60 =? 0) eqn:Em;
    simpl; unfold item_minutes, weight; simpl;
    rewrite ?Z.eqb_eq, ?Z.eqb_neq in *; lia.
Qed.

Lemma human_items_nonempty (m : Z) : 0 < m -> human_items m <> [].
Proof.
  intros Hm E. pose proof (human_items_sum m) as S. rewrite E in S. simpl in S. lia.
Qed.

Lemma parse_human (m : Z) :
  0 <= m -> parse_to_minutes (minutes_to_human m) = Some m.
Proof.
  intros Hm. destruct (Z.eq_dec m 0) as [->|NZ]; [reflexivity|].
  rewrite minutes_to_human_items by lia.
  rewrite parse_items.
  - now rewrite human_items_sum.
  - now apply human_items_good.
  - apply human_items_nonempty. lia.
Qed.

Lemma parse_hms (m : Z) :
  0 <= m -> parse_to_minutes (minutes_to_hms m) = Some m.
Proof.
  intros Hm. unfold minutes_to_hms.
  pose proof (Z.mod_pos_bound m 60). pose proof (Z.div_mod m 60).
  assert (0 <= m / 60) as Hh by (apply Z.div_pos; lia).
  assert (0 <= m mod 60) as Hr by lia.
  change (numeral (m / 60) ++ lit ":" ++ numeral (m mod 60) ++ lit ":0")
    with (numeral (m / 60) ++ ":"%char :: numeral (m mod 60) ++ ":"%char :: ["0"%char]).
  rewrite parse_hms_form; try now apply digits_numeral.
  - destruct (numeral_spec _ Hh) as (_ & _ & ->).
    destruct (numeral_spec _ Hr) as (_ & _ & ->). f_equal. lia.
  - split; [discriminate | repeat constructor].
Qed.

Lemma parse_slurm_short (m : Z) :
  0 <= m < 1440 -> parse_to_minutes (minutes_to_slurm m) = Some m.
Proof.
  intros Hm. unfold minutes_to_slurm.
  pose proof (Z.mod_pos_bound m 60). pose proof (Z.div_mod m 60).
  assert (0 <= m / 60) as Hh by (apply Z.div_pos; lia).
  assert (0 <= m mod 60) as Hr by lia.
  assert (m / 60 < 24) by (apply Z.div_lt_upper_bound; lia).
  destruct (Z.geb_spec (m / 60) 24); [lia|].
  change (fmt_02d (m / 60) ++ lit ":" ++ fmt_02d (m mod 60) ++ lit ":00")
    with (fmt_02d (m / 60) ++ ":"%char :: fmt_02d (m mod 60) ++ ":"%char :: lit "00").
  rewrite parse_hms_form; try now apply digits_fmt_02d.
  - destruct (fmt_02d_spec _ Hh) as (_ & _ & ->).
    destruct (fmt_02d_spec _ Hr) as (_ & _ & ->). f_equal. lia.
  - split; [discriminate | repeat constructor].
Qed.

(** The day form [D-HH:MM:SS] is none of the accepted grammars. *)
Lemma parse_day_form (d h mn sec : str) :
  digits d -> digits h -> digits mn -> digits sec ->
  parse_to_minutes (d ++ "-"%char :: h ++ ":"%char :: mn ++ ":"%char :: sec) = None.
Proof.
  intros Dd Dh Dm Ds. unfold parse_to_minutes.
  set (t := d ++ "-"%char :: h ++ ":"%char :: mn ++ ":"%char :: sec).
  assert (Forall (fun c => is_digit c = true \/ c = "-"%char \/ c = ":"%char) t) as Ft.
  { destruct Dd as [_ Fd], Dh as [_ Fh], Dm as [_ Fm], Ds as [_ Fs]. unfold t.
    repeat (first [ apply Forall_app; split | constructor; [tauto|] ]);
      (eapply Forall_impl; [|eassumption]); simpl; tauto. }
  assert (strip t = t) as St.
  { destruct (digits_last sec Ds) as (r & c & E & Hc). unfold t. rewrite E.
    replace (d ++ "-"%char :: h ++ ":"%char :: mn ++ ":"%char :: r ++ [c])
      with (d ++ ("-"%char :: h ++ ":"%char :: mn ++ ":"%char :: r) ++ [c])
      by (norm_app; reflexivity).
    apply strip_digits_first; [exact Dd | now apply digit_not_space]. }
  assert (lower t = t) as Lo.
  { apply lower_fixed. revert Ft. apply Forall_impl.
    intros c [H|[->| ->]]; [now apply digit_lower | reflexivity | reflexivity]. }
  rewrite St, Lo.
  assert (truthy t = true) as Tr.
  { destruct (digits_head d Dd) as (x & r & E & _). unfold t. now rewrite E. }
  rewrite Tr. cbn [negb].
  assert (match_hms t = None) as ->.
  { apply match_hms_not_colon; [exact Dd | split; reflexivity]. }
  assert (findall t = []) as ->.
  { apply findall_no_unit. revert Ft. apply Forall_impl.
    intros c [H|[->| ->]]; [|reflexivity|reflexivity].
    destruct (is_unit c) eqn:U; [|reflexivity].
    apply unit_not_digit in U. congruence. }
  assert (match_all_digits t = false) as ->; [|reflexivity].
  unfold match_all_digits, t. destruct Dd as [Nd Fd].
  rewrite (span_app is_digit d _ Fd) by reflexivity.
  destruct (digits_head h Dh) as (x & r & -> & _).
  destruct d; [congruence | reflexivity].
Qed.

Lemma parse_slurm_long (m : Z) :
  1440 <= m -> parse_to_minutes (minutes_to_slurm m) = None.
Proof.
  intros Hm. unfold minutes_to_slurm.
  pose proof (Z.mod_pos_bound m 60). pose proof (Z.div_mod m 60).
  assert (24 <= m / 60) as Hh by (apply Z.div_le_lower_bound; lia).
  destruct (Z.geb_spec (m / 60) 24); [|lia].
  pose proof (Z.mod_pos_bound (m / 60) 24).
  assert (0 <= m / 60 / 24) by (apply Z.div_pos; lia).
  change (numeral (m / 60 / 24) ++ lit "-" ++ fmt_02d ((m / 60) mod 24) ++ lit ":" ++
          fmt_02d (m mod 60) ++ lit ":00")
    with (numeral (m / 60 / 24) ++ "-"%char :: fmt_02d ((m / 60) mod 24) ++ ":"%char ::
          fmt_02d (m mod 60) ++ ":"%char :: lit "00").
  apply parse_day_form.
  - apply digits_numeral; lia.
  - apply digits_fmt_02d; lia.
  - apply digits_fmt_02d; lia.
  - split; [discriminate | repeat constructor].
Qed.

(** *** What [parse_to_minutes] returns *)

Lemma match_hms_groups (t h mn sec : str) :
  match_hms t = Some (h, mn, sec) ->
  Forall (fun c => is_digit c = true) h /\ Forall (fun c => is_digit c = true) mn.
Proof.
  unfold match_hms. intros H.
  pose proof (span_fst_all is_digit t) as F1.
  destruct (span is_digit t) as [h' r1]; simpl in F1.
  destruct h' as [|x h']; [discriminate|]. destruct r1 as [|c1 r2]; [discriminate|].
  destruct (eqc c1 ":"); [|discriminate].
  pose proof (span_fst_all is_digit r2) as F2.
  destruct (span is_digit r2) as [mn' r3]; simpl in F2.
  destruct mn' as [|y mn']; [discriminate|]. destruct r3 as [|c2 r4]; [discriminate|].
  destruct (eqc c2 ":"); [|discriminate].
  destruct (span is_digit r4) as [sec' r5].
  destruct (truthy sec' && at_dollar r5); [|discriminate].
  injection H as <- <- <-. now split.
Qed.

Lemma findall_from_tokens (f : nat) :
  forall s val u, In (val, u) (findall_from f s) ->
  Forall (fun c => is_digit c = true) val /\ is_unit u = true.
Proof.
  induction f as [|f IH]; intros s val u; simpl; [tauto|].
  destruct s as [|c s]; [simpl; tauto|].
  destruct (match_token (c :: s)) as [[[v w] rest]|] eqn:M.
  - intros [E|I]; [|now apply (IH rest)].
    injection E as -> ->.
    apply match_token_elim in M as (ws & _ & _ & F & _ & U). now split.
  - apply IH.
Qed.

Lemma add_token_weight (total : Z) (val : str) (u : ascii) :
  Forall (fun c => is_digit c = true) val ->
  add_token total (val, u) = total + token_minutes (val, u).
Proof.
  intros F. unfold add_token, token_minutes, weight; simpl.
  rewrite py_int_digits by exact F.
  destruct (eqc u "d"); [reflexivity|]. destruct (eqc u "h"); [reflexivity | lia].
Qed.

Lemma fold_add_token (toks : list (str * ascii)) :
  Forall (fun tok => Forall (fun c => is_digit c = true) (fst tok)) toks ->
  forall total,
  fold_left add_token toks total = total + fold_right Z.add 0 (map token_minutes toks).
Proof.
  induction 1 as [|[v u] toks Hv _ IH]; intros total; cbn [map fold_left fold_right]; [lia|].
  rewrite add_token_weight by exact Hv. rewrite IH. symmetry. apply Z.add_assoc.
Qed.

Lemma findall_digit_vals (s : str) :
  Forall (fun tok => Forall (fun c => is_digit c = true) (fst tok)) (findall s).
Proof.
  apply Forall_forall. intros [v u] I.
  now apply findall_from_tokens in I.
Qed.

Lemma weight_pos (u : ascii) : 0 < weight u.
Proof. unfold weight. destruct (eqc u "d"); [lia|]. destruct (eqc u "h"); lia. Qed.

Lemma tokens_minutes_nonneg (toks : list (str * ascii)) :
  Forall (fun tok => Forall (fun c => is_digit c = true) (fst tok)) toks ->
  0 <= fold_right Z.add 0 (map token_minutes toks).
Proof.
  induction 1 as [|[v u] toks Hv _ IH]; simpl; [lia|].
  unfold token_minutes at 1; simpl.
  pose proof (int_of_digits_nonneg v Hv). pose proof (weight_pos u). nia.
Qed.

Lemma py_int_bare (t : str) :
  match_all_digits t = true -> 0 <= py_int t.
Proof.
  unfold match_all_digits. intros H.
  pose proof (span_fst_snd is_digit t) as E. pose proof (span_fst_all is_digit t) as F.
  destruct (span is_digit t) as [ds rest]; simpl in *.
  apply andb_true_iff in H as [_ H]. unfold py_int.
  destruct rest as [|c [|c' rest]]; try discriminate; subst t.
  - rewrite app_nil_r, strip_no_space by now apply digits_no_space.
    now apply int_of_digits_nonneg.
  - simpl in H. apply Ascii.eqb_eq in H as ->.
    assert (strip (ds ++ ["010"%char]) = ds) as ->; [|now apply int_of_digits_nonneg].
    destruct ds as [|x ds]; [reflexivity|].
    unfold strip. rewrite <- app_comm_cons.
    rewrite lstrip_head by (inversion F; now apply digit_not_space).
    rewrite app_comm_cons, rstrip_all_space by reflexivity.
    destruct (exists_last (l := x :: ds)) as (r & y & E); [discriminate|].
    rewrite E in *. apply rstrip_last.
    apply Forall_app in F as [_ F]. inversion F; now apply digit_not_space.
Qed.

Lemma parse_to_minutes_nonneg (text : str) (m : Z) :
  parse_to_minutes text = Some m -> 0 <= m.
Proof.
  unfold parse_to_minutes. set (t := lower (strip text)).
  destruct (negb (truthy t)); [discriminate|].
  destruct (match_hms t) as [[[h mn] sec]|] eqn:M.
  - apply match_hms_groups in M as [Fh Fm]. intros [= <-].
    rewrite !py_int_digits by assumption.
    pose proof (int_of_digits_nonneg h Fh). pose proof (int_of_digits_nonneg mn Fm). lia.
  - destruct (findall t) as [|tok toks] eqn:T.
    + destruct (match_all_digits t) eqn:B; [|discriminate].
      intros [= <-]. pose proof (py_int_bare t B). lia.
    + pose proof (findall_digit_vals t) as Fd. rewrite T in Fd.
      pose proof (tokens_minutes_nonneg (tok :: toks) Fd).
      pose proof (fold_add_token (tok :: toks) Fd 0) as E.
      intros [= <-]. change (0 <= fold_left add_token (tok :: toks) 0). rewrite E. lia.
Qed.

(** *** A token inside unrelated text *)

Lemma lstrip_app_head (p x : str) (c : ascii) :
  is_space c = false -> lstrip (p ++ c :: x) = lstrip p ++ c :: x.
Proof.
  intros Hc. induction p as [|a p IH]; simpl.
  - now rewrite Hc.
  - destruct (is_space a); [exact IH | reflexivity].
Qed.

Lemma rstrip_cons_head (c : ascii) (q : str) :
  is_space c = false -> rstrip (c :: q) = c :: rstrip q.
Proof.
  intros Hc. rewrite rstrip_cons_space. simpl. now rewrite Hc.
Qed.

Lemma no_digit_lstrip (p : str) :
  Forall (fun c => is_digit c = false) p ->
  Forall (fun c => is_digit c = false) (lstrip p).
Proof.
  intros H. destruct (lstrip_suffix p) as (w & E & _).
  rewrite E in H. now apply Forall_app in H.
Qed.

Lemma no_digit_rstrip (q : str) :
  Forall (fun c => is_digit c = false) q ->
  Forall (fun c => is_digit c = false) (rstrip q).
Proof.
  intros H. destruct (rstrip_prefix q) as (w & E & _).
  rewrite E in H. now apply Forall_app in H.
Qed.

Lemma no_digit_lower (p : str) :
  Forall (fun c => is_digit c = false) p ->
  Forall (fun c => is_digit c = false) (lower p).
Proof.
  induction 1 as [|c p Hc _ IH]; simpl; constructor; [|exact IH].
  now rewrite lower_digit.
Qed.

Lemma lower_unit_not_space (u : ascii) :
  is_unit (lower_char u) = true -> is_space u = false.
Proof.
  intros H. rewrite <- lower_space. now apply unit_not_space.
Qed.

Lemma strip_around_token (p q val : str) (u : ascii) :
  digits val -> is_space u = false ->
  strip (p ++ val ++ u :: q) = lstrip p ++ val ++ u :: rstrip q.
Proof.
  intros D Hu. destruct (digits_head val D) as (c & r & -> & Hc).
  unfold strip. cbn [app].
  rewrite lstrip_app_head by now apply digit_not_space.
  replace (lstrip p ++ c :: r ++ u :: q) with ((lstrip p ++ c :: r) ++ u :: q)
    by (norm_app; reflexivity).
  rewrite rstrip_app.
  - rewrite rstrip_cons_head by exact Hu. norm_app. reflexivity.
  - rewrite rstrip_cons_head by exact Hu. discriminate.
Qed.

End DurationFacts.

(** ** Conversions between integers and text *)
Section MoreTextFacts.
Import Text Py.

Lemma eqs_refl (a : str) : eqs a a = true.
Proof.
  induction a as [|c a IH]; [reflexivity|].
  cbn [eqs]. unfold eqc. now rewrite Ascii.eqb_refl.
Qed.



Lemma digit_not_int_space (c : ascii) : is_digit c = true -> is_int_space c = false.
Proof.
  destruct c as [[] [] [] [] [] [] [] []]; vm_compute; congruence.
Qed.

Lemma literal_digits_all (ds : str) (prev : bool) :
  Forall (fun c => is_digit c = true) ds ->
  ds <> [] \/ prev = true ->
  literal_digits prev ds = Some ds.
Proof.
  intros F. revert prev. induction F as [|c ds Hc F IH]; intros prev Hp.
  - destruct Hp as [Hp| ->]; [congruence | reflexivity].
  - cbn [literal_digits]. rewrite Hc. rewrite IH by now right. reflexivity.
Qed.

Lemma drop_int_space_head (c : ascii) (s : str) :
  is_int_space c = false -> drop_int_space (c :: s) = c :: s.
Proof. intros H. cbn [drop_int_space]. now rewrite H. Qed.

(** [int] reads a run of digits as a literal. *)
Lemma py_int_digits_literal (ds : str) :
  digits ds -> py_int ds = int_of_literal ds.
Proof.
  intros D. unfold py_int.
  destruct (digits_head ds D) as (c & r & E & Hc).
  destruct (digits_last ds D) as (r' & c' & E' & Hc').
  assert (drop_int_space ds = ds) as ->
    by (rewrite E; now apply drop_int_space_head, digit_not_int_space).
  assert (drop_int_space (rev ds) = rev ds) as ->.
  { rewrite E', rev_app_distr. cbn [rev app].
    now apply drop_int_space_head, digit_not_int_space. }
  rewrite rev_involutive. rewrite E at 1.
  assert (eqc c "-" = false) as ->
    by (destruct c as [[] [] [] [] [] [] [] []]; vm_compute in Hc |- *; congruence).
  assert (eqc c "+" = false) as ->
    by (destruct c as [[] [] [] [] [] [] [] []]; vm_compute in Hc |- *; congruence).
  rewrite <- E. rewrite literal_digits_all; [reflexivity | apply D | left; apply D].
Qed.

Lemma int_of_literal_short (ds : str) :
  short ds -> int_of_literal ds = Ok (int_of_digits ds).
Proof.
  unfold short, int_of_literal. intros H.
  destruct (Nat.ltb_spec max_str_digits (length ds)); [lia | reflexivity].
Qed.

Lemma int_of_literal_long (ds : str) :
  ~ short ds -> int_of_literal ds = Raise ValueError.
Proof.
  unfold short, int_of_literal. intros H.
  destruct (Nat.ltb_spec max_str_digits (length ds)); [reflexivity | lia].
Qed.

(** [int] on a run of digits: their value, within the limit. *)
Lemma int_short (ds : str) :
  digits ds -> short ds -> py_int ds = Ok (int_of_digits ds).
Proof. intros D S. now rewrite py_int_digits_literal, int_of_literal_short. Qed.

Lemma int_long (ds : str) :
  digits ds -> ~ short ds -> py_int ds = Raise ValueError.
Proof. intros D S. now rewrite py_int_digits_literal, int_of_literal_long. Qed.

Lemma short_dec (ds : str) : {short ds} + {~ short ds}.
Proof. unfold short. destruct (le_dec (length ds) max_str_digits); auto. Qed.

(** *** The size of numerals *)


Lemma pow10_ge_10 (k : nat) : (1 <= k)%nat -> 10 <= 10 ^ Z.of_nat k.
Proof.
  intros H. change 10 with (10 ^ 1) at 1. apply Z.pow_le_mono_r; lia.
Qed.

Lemma pow10_S (k : nat) : 10 ^ Z.of_nat (S k) = 10 * 10 ^ Z.of_nat k.
Proof. rewrite Nat2Z.inj_succ. apply Z.pow_succ_r. lia. Qed.

Lemma dec_digits_length (f : nat) :
  forall n acc k, 0 <= n < 2 ^ Z.of_nat (S f) -> (1 <= k)%nat ->
  (length (dec_digits (S f) n acc) <= k + length acc)%nat <-> n < 10 ^ Z.of_nat k.
Proof.
  induction f as [|f IH]; intros n acc k Hn Hk.
  - assert (n / 10 = 0) as E
      by (apply Z.div_small; change (2 ^ Z.of_nat 1) with 2 in Hn; lia).
    cbn [dec_digits]. rewrite E. cbn [Z.eqb length].
    pose proof (pow10_ge_10 k Hk). change (2 ^ Z.of_nat 1) with 2 in Hn.
    split; intros _; lia.
  - rewrite dec_digits_S. destruct (n / 10 =? 0) eqn:E.
    + apply Z.eqb_eq in E. cbn [length]. pose proof (pow10_ge_10 k Hk).
      pose proof (Z.div_mod n 10). pose proof (Z.mod_pos_bound n 10).
      split; intros _; lia.
    + apply Z.eqb_neq in E.
      assert (0 <= n / 10 < 2 ^ Z.of_nat (S f)) as B.
      { split; [apply Z.div_pos; lia|].
        apply Z.div_lt_upper_bound; [lia|].
        replace (Z.of_nat (S (S f))) with (1 + Z.of_nat (S f)) in Hn by lia.
        rewrite Z.pow_add_r in Hn by lia. change (2 ^ 1) with 2 in Hn. lia. }
      pose proof (Z.div_mod n 10). pose proof (Z.mod_pos_bound n 10).
      destruct k as [|[|k]]; [lia| |].
      * destruct (dec_digits_spec f (n / 10) (digit_char (n mod 10) :: acc) B)
          as (ds & -> & _ & NE & _).
        rewrite length_app. cbn [length]. destruct ds; [congruence|]. cbn [length].
        change (10 ^ Z.of_nat 1) with 10. split; intros; lia.
      * pose proof (IH (n / 10) (digit_char (n mod 10) :: acc) (S k) B
                      ltac:(lia)) as I.
        cbn [length] in I. rewrite (pow10_S (S k)). split; intros G.
        -- assert (n / 10 < 10 ^ Z.of_nat (S k)) by (apply I; lia). lia.
        -- assert (n / 10 < 10 ^ Z.of_nat (S k)) as G' by lia.
           apply I in G'. lia.
Qed.

(** The numeral of a non-negative integer has at most [k] digits exactly
    when the integer is below [10 ^ k]. *)
Lemma dec_of_nonneg_length (n : Z) (k : nat) :
  0 <= n -> (1 <= k)%nat ->
  (length (dec_of_nonneg n) <= k)%nat <-> n < 10 ^ Z.of_nat k.
Proof.
  intros Hn Hk. unfold dec_of_nonneg.
  rewrite <- (dec_digits_length (Z.to_nat (Z.log2 n)) n [] k); [cbn [length]; lia | | exact Hk].
  split; [exact Hn|].
  rewrite Nat2Z.inj_succ, Z2Nat.id by apply Z.log2_nonneg.
  destruct (Z.eq_dec n 0) as [->|]; [reflexivity|].
  apply Z.log2_spec. lia.
Qed.

Lemma max_str_digits_pos : (1 <= max_str_digits)%nat.
Proof. unfold max_str_digits. lia. Qed.

(** [str] renders the integers of at most 4300 digits, and no other. *)
Lemma py_str_renders (n : Z) : renders n -> py_str n = Ok (numeral n).
Proof.
  unfold renders, int_limit, py_str. intros H.
  apply (dec_of_nonneg_length (Z.abs n) max_str_digits (Z.abs_nonneg n)
           max_str_digits_pos) in H.
  destruct (Nat.ltb_spec max_str_digits (length (dec_of_nonneg (Z.abs n))));
    [lia | reflexivity].
Qed.

Lemma py_str_refuses (n : Z) : ~ renders n -> py_str n = Raise ValueError.
Proof.
  unfold renders, int_limit, py_str. intros H.
  rewrite <- (dec_of_nonneg_length (Z.abs n) max_str_digits (Z.abs_nonneg n)
                max_str_digits_pos) in H.
  destruct (Nat.ltb_spec max_str_digits (length (dec_of_nonneg (Z.abs n))));
    [reflexivity | lia].
Qed.

Lemma fmt_02d_renders (n : Z) :
  renders n -> Text.fmt_02d n = Ok (Unbounded.fmt_02d n).
Proof. intros H. unfold Text.fmt_02d. now rewrite py_str_renders. Qed.

Lemma small_renders (n : Z) : 0 <= n < 100 -> renders n.
Proof.
  intros H. unfold renders, int_limit.
  assert (100 <= 10 ^ Z.of_nat max_str_digits).
  { change 100 with (10 ^ 2). apply Z.pow_le_mono_r; [lia|].
    pose proof max_str_digits_pos. unfold max_str_digits. lia. }
  lia.
Qed.

(** The numeral of an integer that [str] renders is short. *)
Lemma numeral_short (n : Z) : 0 <= n -> renders n -> short (numeral n).
Proof.
  intros Hn H. unfold renders, int_limit in H. rewrite Z.abs_eq in H by exact Hn.
  rewrite numeral_nonneg by exact Hn. unfold short.
  now apply dec_of_nonneg_length; [| apply max_str_digits_pos |].
Qed.


End MoreTextFacts.

(** ** The codec within the interpreter's limit *)
Section CodecFacts.
Import Text Py Duration.

Lemma match_hms_elim (t h mn sec : str) :
  Duration.match_hms t = Some (h, mn, sec) ->
  exists tail, t = h ++ ":"%char :: mn ++ ":"%char :: sec ++ tail /\
               digits h /\ digits mn /\ digits sec /\
               (tail = [] \/ tail = ["010"%char]).
Proof.
  unfold Duration.match_hms. intros H.
  pose proof (span_fst_snd is_digit t) as E1.
  pose proof (span_fst_all is_digit t) as F1.
  destruct (span is_digit t) as [h' r1]; cbn [fst snd] in *.
  destruct h' as [|x h']; [discriminate|]. destruct r1 as [|c1 r2]; [discriminate|].
  destruct (eqc c1 ":") eqn:C1; [|discriminate].
  pose proof (span_fst_snd is_digit r2) as E2.
  pose proof (span_fst_all is_digit r2) as F2.
  destruct (span is_digit r2) as [mn' r3]; cbn [fst snd] in *.
  destruct mn' as [|y mn']; [discriminate|]. destruct r3 as [|c2 r4]; [discriminate|].
  destruct (eqc c2 ":") eqn:C2; [|discriminate].
  pose proof (span_fst_snd is_digit r4) as E3.
  pose proof (span_fst_all is_digit r4) as F3.
  destruct (span is_digit r4) as [sec' r5]; cbn [fst snd] in *.
  destruct (truthy sec' && at_dollar r5) eqn:T; [|discriminate].
  apply andb_true_iff in T as [T1 T2].
  injection H as <- <- <-.
  unfold eqc in C1, C2. apply Ascii.eqb_eq in C1, C2. subst c1 c2.
  exists r5. repeat split.
  - rewrite <- E1, <- E2, <- E3. now norm_app.
  - discriminate.
  - exact F1.
  - discriminate.
  - exact F2.
  - destruct sec'; [discriminate | discriminate].
  - exact F3.
  - destruct r5 as [|c [|c' r]]; try discriminate; [now left|].
    right. unfold at_dollar, eqc in T2. apply Ascii.eqb_eq in T2. now subst.
Qed.

Lemma findall_from_digits (f : nat) :
  forall s val u, In (val, u) (findall_from f s) -> digits val.
Proof.
  induction f as [|f IH]; intros s val u; simpl; [tauto|].
  destruct s as [|c s]; [simpl; tauto|].
  destruct (match_token (c :: s)) as [[[v w] rest]|] eqn:M.
  - intros [E|I]; [|now apply (IH rest _ u)].
    injection E as -> ->.
    apply match_token_elim in M as (ws & _ & NE & F & _ & U). now split.
  - apply IH.
Qed.

Lemma findall_digits (s : str) :
  Forall (fun tok => digits (fst tok)) (findall s).
Proof.
  apply Forall_forall. intros [v u] I. now apply findall_from_digits in I.
Qed.

(** The loop over the tokens, as long as every number is short. *)
Lemma add_tokens_short (toks : list (str * ascii)) :
  Forall (fun tok => digits (fst tok)) toks ->
  Forall (fun tok => short (fst tok)) toks ->
  forall total,
  add_tokens total toks = Ok (fold_left Unbounded.add_token toks total).
Proof.
  induction toks as [|[val u] toks IH]; intros D S total; [reflexivity|].
  inversion D as [|? ? Dv D']; inversion S as [|? ? Sv S']; subst.
  cbn [fst] in Dv, Sv. cbn [add_tokens add_token fold_left].
  rewrite int_short by assumption. cbn [bind].
  unfold Unbounded.add_token. rewrite py_int_digits by apply Dv.
  destruct (eqc u "d"); [|destruct (eqc u "h")]; cbn [bind]; now apply IH.
Qed.

Lemma add_tokens_long (toks : list (str * ascii)) :
  Forall (fun tok => digits (fst tok)) toks ->
  Exists (fun tok => ~ short (fst tok)) toks ->
  forall total, add_tokens total toks = Raise ValueError.
Proof.
  induction toks as [|[val u] toks IH]; intros D L total; [inversion L|].
  inversion D as [|? ? Dv D']; subst. cbn [fst] in Dv.
  cbn [add_tokens add_token].
  destruct (short_dec val) as [Sv|Lv].
  - rewrite int_short by assumption. cbn [bind].
    inversion L as [? ? Lv|? ? L']; subst; [now elim Lv|].
    destruct (eqc u "d"); [|destruct (eqc u "h")]; cbn [bind]; now apply IH.
  - now rewrite int_long.
Qed.

(** The text that is parsed keeps no white space at its end. *)
Lemma lower_strip_last (text r : str) (c : ascii) :
  lower (strip text) = r ++ [c] -> is_space c = false.
Proof.
  intros E.
  destruct (exists_last (l := strip text)) as (r' & c' & E').
  { intros Z. rewrite Z in E. now destruct r. }
  rewrite E' in E. unfold lower in E. rewrite map_app in E. cbn [map] in E.
  apply app_inj_tail in E as [_ <-]. rewrite lower_space.
  now apply (strip_result_last text r').
Qed.

Lemma bare_digits (text : str) :
  match_all_digits (lower (strip text)) = true -> digits (lower (strip text)).
Proof.
  unfold match_all_digits. intros H.
  pose proof (span_fst_snd is_digit (lower (strip text))) as E.
  pose proof (span_fst_all is_digit (lower (strip text))) as F.
  destruct (span is_digit (lower (strip text))) as [ds rest]; cbn [fst snd] in *.
  apply andb_true_iff in H as [T D].
  destruct rest as [|c [|c' rest]]; try discriminate.
  - rewrite app_nil_r in E. rewrite <- E. split; [now destruct ds | exact F].
  - cbn [at_dollar] in D. unfold eqc in D. apply Ascii.eqb_eq in D as ->.
    symmetry in E. apply lower_strip_last in E. discriminate.
Qed.

(** [parse_to_minutes] computes what the codec over unbounded integers
    computes, as long as every run of digits it converts is short; it
    raises [ValueError] as soon as one is not. *)
Lemma parse_to_minutes_within (text : str) :
  Forall short (converted text) ->
  Duration.parse_to_minutes text = Ok (Unbounded.parse_to_minutes text).
Proof.
  unfold converted, Duration.parse_to_minutes, Unbounded.parse_to_minutes.
  set (t := lower (strip text)). intros S.
  destruct (negb (truthy t)); [reflexivity|].
  destruct (match_hms t) as [[[h mn] sec]|] eqn:M.
  - apply match_hms_elim in M as (tail & _ & Dh & Dm & Ds & _).
    inversion S as [|? ? Sh S1]; inversion S1 as [|? ? Sm S2];
      inversion S2 as [|? ? Ss _]; subst.
    rewrite !int_short by assumption. cbn [bind].
    now rewrite !py_int_digits by (apply Dh || apply Dm).
  - pose proof (findall_digits t) as D.
    destruct (findall t) as [|tok toks] eqn:T.
    + cbn [add_tokens bind]. destruct (match_all_digits t) eqn:B; [|reflexivity].
      apply bare_digits in B. fold t in B. inversion S; subst.
      rewrite int_short by assumption. cbn [bind].
      now rewrite py_int_digits by apply B.
    + rewrite add_tokens_short; [reflexivity | exact D |].
      rewrite Forall_map in S. exact S.
Qed.

Lemma parse_to_minutes_beyond (text : str) :
  Exists (fun ds => ~ short ds) (converted text) ->
  Duration.parse_to_minutes text = Raise ValueError.
Proof.
  unfold converted, Duration.parse_to_minutes.
  set (t := lower (strip text)). intros L.
  destruct (negb (truthy t)) eqn:Tr.
  { destruct t; [|discriminate]. inversion L. }
  destruct (match_hms t) as [[[h mn] sec]|] eqn:M.
  - apply match_hms_elim in M as (tail & _ & Dh & Dm & Ds & _).
    destruct (short_dec h) as [Sh|Lh]; [|now rewrite int_long].
    rewrite int_short by assumption. cbn [bind].
    destruct (short_dec mn) as [Sm|Lm]; [|now rewrite int_long].
    rewrite int_short by assumption. cbn [bind].
    destruct (short_dec sec) as [Ss|Ls]; [|now rewrite int_long].
    exfalso. inversion L as [? ? N|? ? L1]; subst; [now apply N|].
    inversion L1 as [? ? N|? ? L2]; subst; [now apply N|].
    inversion L2 as [? ? N|? ? L3]; subst; [now apply N | inversion L3].
  - pose proof (findall_digits t) as D.
    destruct (findall t) as [|tok toks] eqn:T.
    + cbn [add_tokens bind]. destruct (match_all_digits t) eqn:B; [|inversion L].
      apply bare_digits in B. fold t in B.
      inversion L as [? ? N|? ? L1]; subst; [|inversion L1].
      now rewrite int_long.
    + rewrite add_tokens_long; [reflexivity | exact D |].
      rewrite Exists_map in L. exact L.
Qed.

Lemma parse_to_minutes_cases (text : str) :
  Duration.parse_to_minutes text = Ok (Unbounded.parse_to_minutes text) \/
  Duration.parse_to_minutes text = Raise ValueError.
Proof.
  destruct (Forall_Exists_dec short short_dec (converted text)) as [F|E].
  - left. now apply parse_to_minutes_within.
  - right. now apply parse_to_minutes_beyond.
Qed.

Lemma parse_to_minutes_value (text : str) (x : option Z) :
  Duration.parse_to_minutes text = Ok x -> Unbounded.parse_to_minutes text = x.
Proof.
  intros H. destruct (parse_to_minutes_cases text) as [E|E]; rewrite E in H;
    congruence.
Qed.

(** *** The runs of digits of the forms that are rendered *)

Lemma converted_hms_form (h mn sec : str) :
  digits h -> digits mn -> digits sec ->
  converted (h ++ ":"%char :: mn ++ ":"%char :: sec) = [h; mn; sec].
Proof.
  intros Dh Dm Ds. unfold converted.
  destruct (digits_last sec Ds) as (r & c & E & Hc).
  assert (strip (h ++ ":"%char :: mn ++ ":"%char :: sec)
          = h ++ ":"%char :: mn ++ ":"%char :: sec) as St.
  { rewrite E.
    replace (h ++ ":"%char :: mn ++ ":"%char :: r ++ [c])
      with (h ++ (":"%char :: mn ++ ":"%char :: r) ++ [c])
      by (simpl; now rewrite <- app_assoc).
    apply strip_digits_first; [exact Dh | now apply digit_not_space]. }
  rewrite St.
  assert (lower (h ++ ":"%char :: mn ++ ":"%char :: sec)
          = h ++ ":"%char :: mn ++ ":"%char :: sec) as Lo.
  { apply lower_fixed. destruct Dh as [_ Fh], Dm as [_ Fm], Ds as [_ Fs].
    rewrite Forall_app; split; [revert Fh; apply Forall_impl, digit_lower|].
    constructor; [reflexivity|].
    rewrite Forall_app; split; [revert Fm; apply Forall_impl, digit_lower|].
    constructor; [reflexivity|]. revert Fs; apply Forall_impl, digit_lower. }
  now rewrite Lo, match_hms_intro by assumption.
Qed.

Lemma converted_items (its : list item) :
  Forall good_item its -> its <> [] ->
  converted (join (lit " ") (map render_item its)) =
  map (fun it => numeral (fst it)) its.
Proof.
  intros G NE.
  destruct (join_items_shape its G NE) as (ds & rest & u & E & D & Hu & _ & Fl).
  unfold converted.
  assert (strip (join (lit " ") (map render_item its))
          = join (lit " ") (map render_item its)) as St.
  { rewrite E. apply strip_digits_first; [exact D | now apply unit_not_space]. }
  rewrite St.
  assert (lower (join (lit " ") (map render_item its))
          = join (lit " ") (map render_item its)) as Lo.
  { rewrite E. now apply lower_fixed. }
  rewrite Lo.
  assert (match_hms (join (lit " ") (map render_item its)) = None) as Hm.
  { destruct its as [|[v w] its]; [congruence|].
    inversion G as [|? ? [Hv Hw] G']; subst. simpl in Hv, Hw.
    destruct its as [|it2 its].
    - simpl. unfold render_item; simpl.
      apply match_hms_not_colon; [now apply digits_numeral|].
      split; [now apply unit_not_digit | now apply unit_not_colon].
    - cbn [map]. rewrite join_cons_cons.
      set (J := join _ (render_item it2 :: _)).
      unfold render_item; cbn [fst snd]. rewrite <- app_assoc.
      apply match_hms_not_colon; [now apply digits_numeral|].
      split; [now apply unit_not_digit | now apply unit_not_colon]. }
  rewrite Hm, findall_items by exact G.
  destruct its as [|it its]; [congruence|].
  cbn [map]. f_equal. rewrite map_map. reflexivity.
Qed.

Lemma converted_day_form (d h mn sec : str) :
  digits d -> digits h -> digits mn -> digits sec ->
  converted (d ++ "-"%char :: h ++ ":"%char :: mn ++ ":"%char :: sec) = [].
Proof.
  intros Dd Dh Dm Ds. unfold converted.
  set (t := d ++ "-"%char :: h ++ ":"%char :: mn ++ ":"%char :: sec).
  assert (Forall (fun c => is_digit c = true \/ c = "-"%char \/ c = ":"%char) t) as Ft.
  { destruct Dd as [_ Fd], Dh as [_ Fh], Dm as [_ Fm], Ds as [_ Fs]. unfold t.
    repeat (first [ apply Forall_app; split | constructor; [tauto|] ]);
      (eapply Forall_impl; [|eassumption]); simpl; tauto. }
  assert (strip t = t) as St.
  { destruct (digits_last sec Ds) as (r & c & E & Hc). unfold t. rewrite E.
    replace (d ++ "-"%char :: h ++ ":"%char :: mn ++ ":"%char :: r ++ [c])
      with (d ++ ("-"%char :: h ++ ":"%char :: mn ++ ":"%char :: r) ++ [c])
      by (norm_app; reflexivity).
    apply strip_digits_first; [exact Dd | now apply digit_not_space]. }
  assert (lower t = t) as Lo.
  { apply lower_fixed. revert Ft. apply Forall_impl.
    intros c [H|[->| ->]]; [now apply digit_lower | reflexivity | reflexivity]. }
  rewrite St, Lo.
  assert (match_hms t = None) as ->.
  { apply match_hms_not_colon; [exact Dd | split; reflexivity]. }
  assert (findall t = []) as ->.
  { apply findall_no_unit. revert Ft. apply Forall_impl.
    intros c [H|[->| ->]]; [|reflexivity|reflexivity].
    destruct (is_unit c) eqn:U; [|reflexivity].
    apply unit_not_digit in U. congruence. }
  assert (match_all_digits t = false) as ->; [|reflexivity].
  unfold match_all_digits, t. destruct Dd as [Nd Fd].
  rewrite (span_app is_digit d _ Fd) by reflexivity.
  destruct (digits_head h Dh) as (x & r & -> & _).
  destruct d; [congruence | reflexivity].
Qed.

Lemma short_pad_02 (n : Z) : 0 <= n < 100 -> short (Unbounded.fmt_02d n).
Proof.
  intros H. pose proof (numeral_short n ltac:(lia) (small_renders n H)) as S.
  unfold Unbounded.fmt_02d, pad_02, short in *.
  destruct (Nat.ltb_spec (length (numeral n)) 2); [|exact S].
  cbn [length]. unfold max_str_digits. lia.
Qed.

Lemma short_lit_00 : short (lit "00") /\ short (lit "0").
Proof. unfold short, max_str_digits. cbn. lia. Qed.

(** *** The renderers *)

Lemma minutes_to_hms_renders (m : Z) :
  renders (m / 60) ->
  Duration.minutes_to_hms m = Ok (Unbounded.minutes_to_hms m).
Proof.
  intros R. unfold Duration.minutes_to_hms.
  rewrite (py_str_renders _ R). cbn [bind].
  rewrite py_str_renders
    by (apply small_renders; pose proof (Z.mod_pos_bound m 60); lia).
  reflexivity.
Qed.

Lemma minutes_to_hms_refuses (m : Z) :
  ~ renders (m / 60) -> Duration.minutes_to_hms m = Raise ValueError.
Proof.
  intros R. unfold Duration.minutes_to_hms. now rewrite (py_str_refuses _ R).
Qed.

Lemma div_60_24 (m : Z) : m / 60 / 24 = m / 1440.
Proof. rewrite Z.div_div by lia. reflexivity. Qed.

Lemma minutes_to_slurm_renders (m : Z) :
  0 <= m -> renders (m / 1440) ->
  Duration.minutes_to_slurm m = Ok (Unbounded.minutes_to_slurm m).
Proof.
  intros Hm R. unfold Duration.minutes_to_slurm, Unbounded.minutes_to_slurm.
  pose proof (Z.mod_pos_bound m 60). pose proof (Z.mod_pos_bound (m / 60) 24).
  assert (0 <= m / 60) by (apply Z.div_pos; lia).
  destruct (Z.geb_spec (m / 60) 24).
  - rewrite div_60_24, (py_str_renders _ R). cbn [bind].
    rewrite !fmt_02d_renders by (apply small_renders; lia). reflexivity.
  - rewrite !fmt_02d_renders by (apply small_renders; lia). reflexivity.
Qed.

Lemma minutes_to_slurm_refuses (m : Z) :
  0 <= m -> ~ renders (m / 1440) ->
  Duration.minutes_to_slurm m = Raise ValueError.
Proof.
  intros Hm R. unfold Duration.minutes_to_slurm.
  assert (0 <= m / 60) by (apply Z.div_pos; lia).
  destruct (Z.geb_spec (m / 60) 24) as [G|G].
  - rewrite div_60_24. now rewrite (py_str_refuses _ R).
  - elim R. apply small_renders. rewrite <- div_60_24.
    split; [apply Z.div_pos; lia|]. apply Z.div_lt_upper_bound; lia.
Qed.

Lemma part_renders (n : Z) (unit : str) :
  renders n ->
  Duration.part n unit = Ok (if n =? 0 then [] else [numeral n ++ unit]).
Proof.
  intros R. unfold Duration.part. destruct (n =? 0); [reflexivity|].
  now rewrite (py_str_renders _ R).
Qed.

Lemma minutes_to_human_renders (m : Z) :
  renders (m / 1440) ->
  Duration.minutes_to_human m = Ok (Unbounded.minutes_to_human m).
Proof.
  intros R. unfold Duration.minutes_to_human, Unbounded.minutes_to_human.
  destruct (m <=? 0); [reflexivity|].
  pose proof (Z.mod_pos_bound m 60). pose proof (Z.mod_pos_bound m 1440).
  assert (0 <= m mod 1440 / 60 < 100).
  { split; [apply Z.div_pos; lia | apply Z.div_lt_upper_bound; lia]. }
  rewrite (part_renders _ _ R). cbn [bind].
  rewrite !part_renders by (apply small_renders; lia). cbn [bind].
  destruct (m / 1440 =? 0), (m mod 1440 / 60 =? 0), (m mod 60 =? 0); reflexivity.
Qed.

Lemma minutes_to_human_refuses (m : Z) :
  0 < m -> ~ renders (m / 1440) ->
  Duration.minutes_to_human m = Raise ValueError.
Proof.
  intros Hm R. unfold Duration.minutes_to_human.
  destruct (Z.leb_spec m 0); [lia|]. unfold Duration.part.
  destruct (Z.eqb_spec (m / 1440) 0) as [E|E].
  - elim R. rewrite E. apply small_renders. lia.
  - now rewrite (py_str_refuses _ R).
Qed.

(** *** Parsing what was rendered *)

Lemma parse_human_rendered (m : Z) :
  0 <= m -> renders (m / 1440) ->
  Duration.parse_to_minutes (Unbounded.minutes_to_human m) = Ok (Some m).
Proof.
  intros Hm R. rewrite parse_to_minutes_within; [now rewrite parse_human|].
  destruct (Z.eq_dec m 0) as [->|NZ].
  { change (converted (Unbounded.minutes_to_human 0)) with (converted (lit "0m")).
    replace (converted (lit "0m")) with [lit "0"] by (vm_compute; reflexivity).
    constructor; [apply short_lit_00 | constructor]. }
  rewrite minutes_to_human_items by lia.
  rewrite converted_items
    by (try (apply human_items_good; lia); apply human_items_nonempty; lia).
  apply Forall_map. unfold human_items.
  pose proof (Z.mod_pos_bound m 60). pose proof (Z.mod_pos_bound m 1440).
  assert (0 <= m / 1440) by (apply Z.div_pos; lia).
  assert (0 <= m mod 1440 / 60 < 100).
  { split; [apply Z.div_pos; lia | apply Z.div_lt_upper_bound; lia]. }
  apply Forall_forall. intros it I. apply filter_In in I as [I _].
  cbn [In] in I. destruct I as [<-|[<-|[<-|[]]]]; cbn [fst];
    apply numeral_short; try lia; try exact R; apply small_renders; lia.
Qed.

Lemma parse_hms_rendered (m : Z) :
  0 <= m -> renders (m / 60) ->
  Duration.parse_to_minutes (Unbounded.minutes_to_hms m) = Ok (Some m).
Proof.
  intros Hm R. rewrite parse_to_minutes_within; [now rewrite parse_hms|].
  unfold Unbounded.minutes_to_hms.
  pose proof (Z.mod_pos_bound m 60).
  assert (0 <= m / 60) as Hh by (apply Z.div_pos; lia).
  change (numeral (m / 60) ++ lit ":" ++ numeral (m mod 60) ++ lit ":0")
    with (numeral (m / 60) ++ ":"%char :: numeral (m mod 60) ++ ":"%char :: lit "0").
  rewrite converted_hms_form;
    [| apply digits_numeral; lia | apply digits_numeral; lia
     | split; [discriminate | repeat constructor]].
  apply Forall_cons; [now apply numeral_short|].
  apply Forall_cons; [apply numeral_short; [lia | apply small_renders; lia]|].
  apply Forall_cons; [apply short_lit_00 | apply Forall_nil].
Qed.

Lemma parse_slurm_rendered (m : Z) :
  0 <= m ->
  Duration.parse_to_minutes (Unbounded.minutes_to_slurm m)
  = Ok (if m <? 1440 then Some m else None).
Proof.
  intros Hm.
  pose proof (Z.mod_pos_bound m 60). pose proof (Z.mod_pos_bound (m / 60) 24).
  assert (0 <= m / 60) as Hh by (apply Z.div_pos; lia).
  destruct (Z.ltb_spec m 1440) as [L|L].
  - rewrite parse_to_minutes_within; [rewrite parse_slurm_short by lia; reflexivity|].
    unfold Unbounded.minutes_to_slurm.
    assert (m / 60 < 24) by (apply Z.div_lt_upper_bound; lia).
    destruct (Z.geb_spec (m / 60) 24); [lia|].
    change (Unbounded.fmt_02d (m / 60) ++ lit ":" ++
            Unbounded.fmt_02d (m mod 60) ++ lit ":00")
      with (Unbounded.fmt_02d (m / 60) ++ ":"%char ::
            Unbounded.fmt_02d (m mod 60) ++ ":"%char :: lit "00").
    rewrite converted_hms_form;
      [| apply digits_fmt_02d; lia | apply digits_fmt_02d; lia
       | split; [discriminate | repeat constructor]].
    apply Forall_cons; [apply short_pad_02; lia|].
    apply Forall_cons; [apply short_pad_02; lia|].
    apply Forall_cons; [apply short_lit_00 | apply Forall_nil].
  - rewrite parse_to_minutes_within; [rewrite parse_slurm_long by lia; reflexivity|].
    unfold Unbounded.minutes_to_slurm.
    assert (24 <= m / 60) by (apply Z.div_le_lower_bound; lia).
    destruct (Z.geb_spec (m / 60) 24); [|lia].
    assert (0 <= m / 60 / 24) by (apply Z.div_pos; lia).
    change (numeral (m / 60 / 24) ++ lit "-" ++ Unbounded.fmt_02d ((m / 60) mod 24) ++
            lit ":" ++ Unbounded.fmt_02d (m mod 60) ++ lit ":00")
      with (numeral (m / 60 / 24) ++ "-"%char ::
            Unbounded.fmt_02d ((m / 60) mod 24) ++ ":"%char ::
            Unbounded.fmt_02d (m mod 60) ++ ":"%char :: lit "00").
    rewrite converted_day_form; [constructor | | | |].
    + apply digits_numeral; lia.
    + apply digits_fmt_02d; lia.
    + apply digits_fmt_02d; lia.
    + split; [discriminate | repeat constructor].
Qed.

Lemma renders_below (n : Z) : 0 <= n -> n < int_limit -> renders n.
Proof. intros H L. unfold renders. now rewrite Z.abs_eq. Qed.

Lemma not_renders_above (n : Z) : int_limit <= n -> ~ renders n.
Proof. unfold renders. intros H R. lia. Qed.

End CodecFacts.

(** ** Duration Codec: the claims *)

(** Text around a single token, for the unbounded codec and for the runs
    of digits that are converted. *)
Lemma noise_around_token (p q val : str) (u : ascii) :
  Forall (fun c => is_digit c = false) p ->
  Forall (fun c => is_digit c = false) q ->
  digits val ->
  Duration.is_unit (lower_char u) = true ->
  Unbounded.parse_to_minutes (p ++ val ++ u :: q)
    = Some (int_of_digits val * weight (lower_char u)) /\
  converted (p ++ val ++ u :: q) = [val].
Proof.
  intros Hp Hq D Hu. unfold Unbounded.parse_to_minutes, converted.
  rewrite strip_around_token by (exact D || now apply lower_unit_not_space).
  rewrite !lower_app. cbn [lower map]. fold (lower (rstrip q)).
  rewrite (lower_digits val) by apply D.
  set (lp := lower (lstrip p)). set (lq := lower (rstrip q)).
  assert (Forall (fun c => is_digit c = false) lp) as Flp
    by now apply no_digit_lower, no_digit_lstrip.
  assert (Forall (fun c => is_digit c = false) lq) as Flq
    by now apply no_digit_lower, no_digit_rstrip.
  assert (truthy (lp ++ val ++ lower_char u :: lq) = true) as ->.
  { destruct lp; [|reflexivity]. destruct (digits_head val D) as (c & r & -> & _).
    reflexivity. }
  cbn [negb].
  assert (Duration.match_hms (lp ++ val ++ lower_char u :: lq) = None) as ->.
  { destruct lp as [|c lp].
    - cbn [app]. apply match_hms_not_colon; [exact D|].
      split; [now apply unit_not_digit | now apply unit_not_colon].
    - unfold Duration.match_hms. cbn [app span].
      inversion Flp as [|? ? Hc _]; subst. now rewrite Hc. }
  rewrite findall_skip_prefix by exact Flp.
  rewrite findall_token by (apply D || exact Hu).
  rewrite findall_no_digit by exact Flq.
  cbn [fold_left]. rewrite add_token_weight by apply D.
  split; reflexivity.
Qed.

(** C1 (counterexample).  The spec's worked example
    [parse_to_minutes("1d 6h 30m") = 1890] does not hold: one day, six hours
    and thirty minutes are 1440 + 360 + 30 = 1830 minutes, and that is what
    the code returns. *)
Lemma parse_1d_6h_30m_is_not_1890 :
  Duration.parse_to_minutes (lit "1d 6h 30m") <> Py.Ok (Some 1890).
Proof. vm_compute. discriminate. Qed.

(** C1 (amended).  The worked examples of the Duration Codec, with the
    composite example at its true value 1830: a bare "90" is ninety hours,
    the empty text and "abc" are invalid, 1500 minutes are "1-01:00:00" on
    the SLURM wire ([minutes_to_wire_a] is [minutes_to_slurm]) and 90
    minutes are "1:30:0" on the OAR wire ([minutes_to_wire_b] is
    [minutes_to_hms]); none of the six calls raises. *)
Theorem duration_worked_examples :
  Duration.parse_to_minutes (lit "90") = Py.Ok (Some 5400) /\
  Duration.parse_to_minutes (lit "1d 6h 30m") = Py.Ok (Some 1830) /\
  Duration.parse_to_minutes (lit "") = Py.Ok None /\
  Duration.parse_to_minutes (lit "abc") = Py.Ok None /\
  Duration.minutes_to_slurm 1500 = Py.Ok (lit "1-01:00:00") /\
  Duration.minutes_to_hms 90 = Py.Ok (lit "1:30:0").
Proof. repeat split; vm_compute; reflexivity. Qed.

(** C2 (counterexample).  The SLURM rendering of 1500 minutes,
    "1-01:00:00", is not accepted back by [parse_to_minutes]. *)
Lemma slurm_day_form_does_not_round_trip :
  Duration.minutes_to_slurm 1500 = Py.Ok (lit "1-01:00:00") /\
  Duration.parse_to_minutes (lit "1-01:00:00") <> Py.Ok (Some 1500).
Proof. split; vm_compute; [reflexivity | discriminate]. Qed.

(** C2 (amended).  For every non-negative number of minutes [m] whose
    fields the interpreter renders (an integer of more than 4300 digits is
    refused with [ValueError]): parsing the human rendering and parsing the
    OAR wire form ([H:M:0]) give [m] back; parsing the SLURM wire form
    gives [m] back when [m] is below one day (the form [HH:MM:00]) and is
    invalid from one day on (the form [D-HH:MM:00]).  The human and the
    SLURM rendering exist exactly when the number of days, [m // 1440], is
    below [10 ^ 4300], and the OAR form exactly when the number of hours,
    [m // 60], is.  In particular whatever [parse_to_minutes] returns for a
    text is not negative, and is returned again after human rendering and
    re-parsing whenever it can be rendered. *)
Theorem duration_round_trip (m : Z) :
  0 <= m ->
  (m / 1440 < int_limit ->
     exists t, Duration.minutes_to_human m = Py.Ok t /\
               Duration.parse_to_minutes t = Py.Ok (Some m)) /\
  (m / 60 < int_limit ->
     exists t, Duration.minutes_to_hms m = Py.Ok t /\
               Duration.parse_to_minutes t = Py.Ok (Some m)) /\
  (m / 1440 < int_limit ->
     exists t, Duration.minutes_to_slurm m = Py.Ok t /\
               Duration.parse_to_minutes t
               = Py.Ok (if m <? 1440 then Some m else None)) /\
  (int_limit <= m / 1440 ->
     Duration.minutes_to_human m = Py.Raise Py.ValueError /\
     Duration.minutes_to_slurm m = Py.Raise Py.ValueError) /\
  (int_limit <= m / 60 ->
     Duration.minutes_to_hms m = Py.Raise Py.ValueError) /\
  (forall text n,
     Duration.parse_to_minutes text = Py.Ok (Some n) ->
     0 <= n /\
     (n / 1440 < int_limit ->
      exists t, Duration.minutes_to_human n = Py.Ok t /\
                Duration.parse_to_minutes t = Py.Ok (Some n))).
Proof.
  intros Hm.
  assert (forall n, 0 <= n -> n / 1440 < int_limit ->
          exists t, Duration.minutes_to_human n = Py.Ok t /\
                    Duration.parse_to_minutes t = Py.Ok (Some n)) as Human.
  { intros n Hn L.
    assert (renders (n / 1440)) as R
      by (apply renders_below; [apply Z.div_pos; lia | exact L]).
    exists (Unbounded.minutes_to_human n).
    split; [now apply minutes_to_human_renders | now apply parse_human_rendered]. }
  assert (0 <= m / 1440) as Hd by (apply Z.div_pos; lia).
  assert (0 <= m / 60) as Hh by (apply Z.div_pos; lia).
  split; [now apply Human|]. split; [|split; [|split; [|split]]].
  - intros L. assert (renders (m / 60)) as R by now apply renders_below.
    exists (Unbounded.minutes_to_hms m).
    split; [now apply minutes_to_hms_renders | now apply parse_hms_rendered].
  - intros L. assert (renders (m / 1440)) as R by now apply renders_below.
    exists (Unbounded.minutes_to_slurm m).
    split; [now apply minutes_to_slurm_renders | now apply parse_slurm_rendered].
  - intros L. pose proof (not_renders_above _ L) as R.
    assert (0 < int_limit) by (unfold int_limit; apply Z.pow_pos_nonneg; lia).
    assert (0 < m).
    { destruct (Z.eq_dec m 0) as [->|]; [|lia]. change (0 / 1440) with 0 in L. lia. }
    split; [now apply minutes_to_human_refuses | now apply minutes_to_slurm_refuses].
  - intros L. now apply minutes_to_hms_refuses, not_renders_above.
  - intros text n H. apply parse_to_minutes_value in H.
    apply parse_to_minutes_nonneg in H. split; [exact H|]. now apply Human.
Qed.

(** The round trip at 1500 minutes, one day and an hour. *)
Lemma duration_round_trip_witness :
  0 <= 1500 /\
  (exists t, Duration.minutes_to_human 1500 = Py.Ok t /\
             Duration.parse_to_minutes t = Py.Ok (Some 1500)) /\
  (exists t, Duration.minutes_to_hms 1500 = Py.Ok t /\
             Duration.parse_to_minutes t = Py.Ok (Some 1500)) /\
  (exists t, Duration.minutes_to_slurm 1500 = Py.Ok t /\
             Duration.parse_to_minutes t = Py.Ok None).
Proof.
  assert (0 <= 1500) as H by (vm_compute; discriminate).
  assert (1500 / 1440 < int_limit) as A by (vm_compute; reflexivity).
  assert (1500 / 60 < int_limit) as B by (vm_compute; reflexivity).
  destruct (duration_round_trip 1500 H) as (P1 & P2 & P3 & _).
  exact (conj H (conj (P1 A) (conj (P2 B) (P3 A)))).
Defined.




(** X1 (beyond C10).  A single token inside text that holds no digit:
    whatever stands before and after the token is ignored, and the unit
    letter counts in either case; a number of more than 4300 digits is not
    converted, and the call raises [ValueError]. *)
Theorem parse_to_minutes_ignores_noise (p q val : str) (u : ascii) :
  Forall (fun c => is_digit c = false) p ->
  Forall (fun c => is_digit c = false) q ->
  digits val ->
  Duration.is_unit (lower_char u) = true ->
  Duration.parse_to_minutes (p ++ val ++ u :: q)
    = if (length val <=? max_str_digits)%nat
      then Py.Ok (Some (int_of_digits val * weight (lower_char u)))
      else Py.Raise Py.ValueError.
Proof.
  intros Hp Hq D Hu.
  destruct (noise_around_token p q val u Hp Hq D Hu) as [V C].
  destruct (Nat.leb_spec (length val) max_str_digits) as [S|L].
  - rewrite parse_to_minutes_within, V; [reflexivity|].
    rewrite C. apply Forall_cons; [exact S | apply Forall_nil].
  - apply parse_to_minutes_beyond. rewrite C. apply Exists_cons_hd.
    unfold short. lia.
Qed.

(** The same text, with the unit in upper case. *)
Lemma parse_to_minutes_ignores_noise_witness :
  Duration.parse_to_minutes (lit "abc " ++ lit "5" ++ "H"%char :: lit " xyz")
  = Py.Ok (Some 300).
Proof.
  refine (parse_to_minutes_ignores_noise (lit "abc ") (lit " xyz") (lit "5") "H" _ _ _ _).
  - repeat constructor.
  - repeat constructor.
  - split; [discriminate | repeat constructor].
  - reflexivity.
Defined.


(** ** conv/commands.py: the job listing *)
Section ConvFacts.
Import Text Py Conv.

(** No index of [parse_line] is ever out of range. *)
Lemma parse_line_ok (line : str) : parse_line line = Ok (line_jobs line).
Proof.
  unfold parse_line, line_jobs, fields.
  destruct (split "|" (strip line))
    as [|p0 [|p1 [|p2 [|p3 [|p4 [|p5 [|p6 [|p7 rest]]]]]]]]; reflexivity.
Qed.

Lemma parse_lines_ok (lines : list str) :
  forall jobs, parse_lines jobs lines = Ok (jobs ++ flat_map line_jobs lines).
Proof.
  induction lines as [|line rest IH]; intros jobs; simpl.
  - now rewrite app_nil_r.
  - rewrite parse_line_ok. simpl. rewrite IH. now rewrite <- app_assoc.
Qed.

Lemma parse_squeue_ok (stdout stderr : str) (rc : Z) :
  parse_squeue (stdout, stderr, rc) =
  Ok (if negb (rc =? 0) || negb (truthy (strip stdout)) then []
      else flat_map line_jobs (splitlines (strip stdout))).
Proof.
  unfold parse_squeue.
  destruct (negb (rc =? 0) || negb (truthy (strip stdout))); [reflexivity|].
  apply parse_lines_ok.
Qed.

Lemma split_length_pos (sep : ascii) (s : str) : (1 <= length (split sep s))%nat.
Proof.
  induction s as [|c s IH]; simpl; [lia|].
  destruct (eqc c sep); simpl; [lia|].
  destruct (split sep s); simpl in *; lia.
Qed.

Lemma split_nil (sep : ascii) : split sep [] = [[]].
Proof. reflexivity. Qed.

Lemma fields_lstrip (l : str) : fields (lstrip l) = fields l.
Proof. unfold fields. now rewrite strip_lstrip. Qed.

Lemma fields_rstrip (l : str) : fields (rstrip l) = fields l.
Proof. unfold fields. now rewrite strip_rstrip. Qed.

Lemma fields_strip (l : str) : fields (strip l) = fields l.
Proof. unfold fields. now rewrite strip_idem. Qed.

Lemma line_jobs_lstrip (l : str) : line_jobs (lstrip l) = line_jobs l.
Proof. unfold line_jobs. now rewrite fields_lstrip. Qed.

Lemma line_jobs_rstrip (l : str) : line_jobs (rstrip l) = line_jobs l.
Proof. unfold line_jobs. now rewrite fields_rstrip. Qed.

Lemma line_jobs_strip (l : str) : line_jobs (strip l) = line_jobs l.
Proof. unfold line_jobs. now rewrite fields_strip. Qed.

Lemma line_jobs_blank (l : str) : strip l = [] -> line_jobs l = [].
Proof. unfold line_jobs, fields. now intros ->. Qed.

(** A listing of two lines, the first with at least two fields: the
    records are those of the first line, then those of the second. *)
Lemma two_line_listing (l1 l2 : str) :
  one_line l1 -> one_line l2 -> (2 <= length (fields l1))%nat ->
  flat_map line_jobs (splitlines (strip (l1 ++ "010"%char :: l2))) =
  line_jobs l1 ++ line_jobs l2.
Proof.
  intros H1 H2 F1.
  assert (strip l1 <> []) as NE.
  { intros E. unfold fields in F1. rewrite E in F1. simpl in F1. lia. }
  rewrite strip_two_lines by exact NE.
  destruct (rstrip l2) as [|x t] eqn:R.
  - rewrite splitlines_one_line; [|now apply one_line_rstrip, one_line_lstrip|exact NE].
    simpl. rewrite line_jobs_strip, app_nil_r.
    rewrite (line_jobs_blank l2); [now rewrite app_nil_r|].
    apply strip_nil_iff. now apply rstrip_nil_iff.
  - rewrite splitlines_two_lines.
    + simpl. rewrite app_nil_r, line_jobs_lstrip.
      rewrite <- R, line_jobs_rstrip. reflexivity.
    + now apply one_line_lstrip.
    + rewrite <- R. now apply one_line_rstrip.
    + discriminate.
Qed.

Lemma truthy_strip_two_lines (l1 l2 : str) :
  (2 <= length (fields l1))%nat ->
  truthy (strip (l1 ++ "010"%char :: l2)) = true.
Proof.
  intros F1.
  assert (strip l1 <> []) as NE.
  { intros E. unfold fields in F1. rewrite E in F1. simpl in F1. lia. }
  rewrite strip_two_lines by exact NE.
  destruct (rstrip l2).
  - destruct (strip l1); [congruence | reflexivity].
  - assert (lstrip l1 <> []) as La.
    { intros A. apply NE. apply strip_nil_iff. now apply lstrip_nil_iff. }
    destruct (lstrip l1); [congruence | reflexivity].
Qed.

End ConvFacts.

(** ** Scheduler Adapters: the job listing of SLURM *)

(** C5 (counterexample).  A well-formed line followed by a line cut short
    after five fields: the short line is not dropped, the listing has two
    records. *)
Lemma line_with_five_fields_is_kept :
  fst (Conv.fetch_jobs
         (always (lit "101|train|RUNNING|node01|0:05|1:00:00|55:00|None" ++
                  Conv.nl ++ lit "102|eval|PENDING|node02|0:00", [], 0))
         (lit "alice") tt)
  = Py.Ok [ Conv.mkSLURMJob (lit "101") (lit "train") (lit "RUNNING") (lit "node01")
              (lit "0:05") (lit "1:00:00") (lit "55:00") (lit "None");
            Conv.mkSLURMJob (lit "102") (lit "eval") (lit "PENDING") (lit "node02")
              [] [] [] [] ].
Proof. vm_compute. reflexivity. Qed.

(** C5 (amended).  [fetch_jobs] never fails, whatever the executor returns.
    When the listing is one well-formed line (eight or more fields) and a
    second line, the second line is dropped exactly when it has fewer than
    four fields, and the result is then the single record of the first
    line; a second line of four to seven fields adds a record holding its
    id, name, state and node only. *)
Theorem squeue_short_lines (W : Type)
  (run : str -> Z -> Py.M W RemoteCommandResult) (username : str) (w : W) :
  (exists jobs, fst (Conv.fetch_jobs run username w) = Py.Ok jobs) /\
  (forall l1 l2 err,
     fst (run (Conv.fetch_jobs_command username) 30 w)
       = (l1 ++ "010"%char :: l2, err, 0) ->
     one_line l1 -> one_line l2 ->
     (8 <= length (fields l1))%nat ->
     ((length (fields l2) < 4)%nat ->
        fst (Conv.fetch_jobs run username w) = Py.Ok [full_record (fields l1)]) /\
     ((4 <= length (fields l2) < 8)%nat ->
        fst (Conv.fetch_jobs run username w)
          = Py.Ok [full_record (fields l1); partial_record (fields l2)])).
Proof.
  unfold Conv.fetch_jobs, Py.mbind, Py.ret.
  destruct (run (Conv.fetch_jobs_command username) 30 w) as [[[stdout stderr] rc] w'].
  cbn [fst]. rewrite parse_squeue_ok. split; [eauto|].
  intros l1 l2 err [= -> -> ->] H1 H2 F1.
  rewrite truthy_strip_two_lines by lia. cbn [negb orb Z.eqb].
  rewrite two_line_listing by (assumption || lia).
  unfold line_jobs.
  destruct (Nat.leb_spec 8 (length (fields l1))); [|lia].
  split; intros F2.
  - destruct (Nat.leb_spec 8 (length (fields l2))); [lia|].
    destruct (Nat.leb_spec 4 (length (fields l2))); [lia|]. reflexivity.
  - destruct (Nat.leb_spec 8 (length (fields l2))); [lia|].
    destruct (Nat.leb_spec 4 (length (fields l2))); [|lia]. reflexivity.
Qed.

(** A listing whose second line has two fields: one record. *)
Lemma squeue_short_lines_witness :
  fst (Conv.fetch_jobs
         (always (lit "101|train|RUNNING|node01|0:05|1:00:00|55:00|None" ++
                  Conv.nl ++ lit "102|eval", [], 0))
         (lit "alice") tt)
  = Py.Ok [ Conv.mkSLURMJob (lit "101") (lit "train") (lit "RUNNING") (lit "node01")
              (lit "0:05") (lit "1:00:00") (lit "55:00") (lit "None") ].
Proof.
  pose (l1 := lit "101|train|RUNNING|node01|0:05|1:00:00|55:00|None").
  pose (l2 := lit "102|eval").
  pose (run := always (l1 ++ Conv.nl ++ l2, [], 0)).
  destruct (squeue_short_lines unit run (lit "alice") tt) as [_ H].
  assert (one_line l1) as O1 by (repeat constructor).
  assert (one_line l2) as O2 by (repeat constructor).
  assert (8 <= length (fields l1))%nat as F1 by (vm_compute; repeat constructor).
  assert (length (fields l2) < 4)%nat as F2 by (vm_compute; repeat constructor).
  exact (proj1 (H l1 l2 [] eq_refl O1 O2 F1) F2).
Defined.

(** ** hpc/commands.py: the block-structured listing *)
Section HPCFacts.
Import Text Py HPC.

Lemma strip_prefix_app (p s r : str) : strip_prefix p s = Some r -> s = p ++ r.
Proof.
  revert s. induction p as [|a p IH]; intros s; simpl.
  - now intros [= ->].
  - destruct s as [|b s]; [discriminate|].
    destruct (eqc a b) eqn:E; [|discriminate].
    apply Ascii.eqb_eq in E as <-. intros H. now rewrite (IH s H).
Qed.

Lemma contains_In (needle hay : str) (c : ascii) :
  contains needle hay = true -> In c needle -> In c hay.
Proof.
  intros H I. induction hay as [|x hay IH]; simpl in H.
  - destruct (strip_prefix needle []) eqn:P; [|discriminate].
    apply strip_prefix_app in P. destruct needle; [destruct I | discriminate].
  - destruct (strip_prefix needle (x :: hay)) eqn:P.
    + apply strip_prefix_app in P. rewrite P. apply in_or_app. now left.
    + right. now apply IH.
Qed.

Lemma split1_In (sep : ascii) (s : str) :
  In sep s -> exists a b, split1 sep s = [a; b].
Proof.
  induction s as [|c s IH]; simpl; [tauto|]. intros H.
  destruct (eqc c sep) eqn:E; [eauto|].
  destruct H as [->|H]; [unfold eqc in E; now rewrite Ascii.eqb_refl in E|].
  destruct (IH H) as (a & b & ->). eauto.
Qed.

Lemma value_of_ok (key line : str) :
  contains key line = true -> In "="%char key ->
  exists v, value_of line = Ok v.
Proof.
  intros C I. destruct (split1_In "=" line (contains_In _ _ _ C I)) as (a & b & E).
  unfold value_of. rewrite E. simpl. eauto.
Qed.

(** Storing a line never fails, and never touches the job id. *)
Lemma store_line_ok (current : OARJob) (line : str) :
  exists c, store_line current line = Ok c /\ job_id c = job_id current.
Proof.
  unfold store_line.
  repeat match goal with
  | |- context [if contains ?k line then _ else _] =>
      let C := fresh "C" in
      destruct (contains k line) eqn:C;
      [ let I := fresh in
        assert (In "="%char k) as I by (vm_compute; tauto);
        first [ destruct (value_of_ok k line C I) as (v & ->); simpl; eauto
              | destruct (search_core line); eauto ] | ]
  end.
  eauto.
Qed.

Lemma store_line_apply (current : OARJob) (line : str) :
  store_line current line = Ok (apply_line current line).
Proof.
  unfold apply_line. now destruct (store_line_ok current line) as (c & -> & _).
Qed.

Lemma apply_line_job_id (current : OARJob) (line : str) :
  job_id (apply_line current line) = job_id current.
Proof.
  unfold apply_line. now destruct (store_line_ok current line) as (c & -> & E).
Qed.

Lemma apply_lines_job_id (lines : list str) :
  forall current, job_id (fold_left apply_line lines current) = job_id current.
Proof.
  induction lines as [|l lines IH]; intros current; simpl; [reflexivity|].
  now rewrite IH, apply_line_job_id.
Qed.

Lemma strip_prefix_intro (p r : str) : strip_prefix p (p ++ r) = Some r.
Proof.
  induction p as [|a p IH]; simpl; [reflexivity|].
  unfold eqc. now rewrite Ascii.eqb_refl.
Qed.

(** What the regular expression [Job_Id\s*:\s*(\d+)] asks of a header line;
    [match_job_id] finds it and returns the digits. *)
Lemma match_job_id_intro (ws1 ws2 id rest : str) :
  all_space ws1 -> all_space ws2 -> digits id ->
  match rest with [] => True | c :: _ => is_digit c = false end ->
  match_job_id (lit "Job_Id" ++ ws1 ++ ":"%char :: ws2 ++ id ++ rest) = Some id.
Proof.
  intros W1 W2 [NE D] R. unfold match_job_id.
  rewrite strip_prefix_intro.
  rewrite (span_app is_space ws1 _ W1) by reflexivity. cbn [snd].
  change (eqc ":" ":") with true. cbv iota.
  destruct id as [|d id]; [congruence|].
  rewrite (span_app is_space ws2 _ W2)
    by (cbn [app]; inversion D; now apply digit_not_space).
  cbn [snd]. rewrite (span_app is_digit (d :: id) rest D R). reflexivity.
Qed.

Lemma match_job_id_nonempty (line id : str) :
  match_job_id line = Some id -> id <> [].
Proof.
  unfold match_job_id. intros H.
  destruct (strip_prefix (lit "Job_Id") line) as [r1|]; [|discriminate].
  destruct (snd (span is_space r1)) as [|c r2]; [discriminate|].
  destruct (eqc c ":"); [|discriminate].
  destruct (span is_digit (snd (span is_space r2))) as [ds r3].
  destruct ds; [discriminate|]. injection H as <-. discriminate.
Qed.

Lemma flush_named (jobs : list OARJob) (c : OARJob) :
  job_id c <> [] -> flush jobs (Some c) = jobs ++ [c].
Proof. intros H. unfold flush. destruct (job_id c); [congruence | reflexivity]. Qed.

Lemma body_header (line : str) (rest : list str) (id : str) :
  match_job_id line = Some id -> body (line :: rest) = [].
Proof. intros H. simpl. now rewrite H. Qed.

Lemma body_other (line : str) (rest : list str) :
  match_job_id line = None -> body (line :: rest) = line :: body rest.
Proof. intros H. simpl. now rewrite H. Qed.

Lemma blocks_header (line : str) (rest : list str) (id : str) :
  match_job_id line = Some id ->
  blocks (line :: rest) = (id, body rest) :: blocks rest.
Proof. intros H. simpl. now rewrite H. Qed.

Lemma blocks_other (line : str) (rest : list str) :
  match_job_id line = None -> blocks (line :: rest) = blocks rest.
Proof. intros H. simpl. now rewrite H. Qed.

(** The loop invariant: what the loop returns from any of its states. *)
Lemma loop_spec (lines : list str) :
  forall jobs current,
  (forall c, current = Some c -> job_id c <> []) ->
  (st <- loop (jobs, current) lines;; Ok (flush (fst st) (snd st)))%py
  = Ok (jobs ++ open_block current lines ++ map record_of_block (blocks lines)).
Proof.
  induction lines as [|line rest IH]; intros jobs current Hid.
  - cbn [loop bind fst snd blocks map body]. rewrite app_nil_r.
    destruct current as [c|]; cbn [open_block fold_left].
    + f_equal. now apply flush_named, Hid.
    + cbn [flush]. now rewrite app_nil_r.
  - cbn [loop loop_body].
    destruct (match_job_id line) as [id|] eqn:Hm.
    + cbn [bind]. rewrite IH.
      * f_equal. rewrite (blocks_header line rest id Hm). cbn [map].
        change (record_of_block (id, body rest))
          with (fold_left apply_line (body rest) (new_job id)).
        destruct current as [c|]; cbn [open_block].
        -- rewrite (body_header line rest id Hm). cbn [fold_left].
           rewrite flush_named by now apply Hid. now rewrite <- app_assoc.
        -- reflexivity.
      * intros c [= <-]. simpl. now apply match_job_id_nonempty in Hm.
    + rewrite (blocks_other line rest Hm).
      destruct current as [c|].
      * rewrite store_line_apply. cbn [bind]. rewrite IH.
        -- cbn [open_block]. now rewrite (body_other line rest Hm).
        -- intros c' [= <-]. rewrite apply_line_job_id. now apply Hid.
      * cbn [bind]. now rewrite IH.
Qed.

Lemma blocks_ids (lines : list str) :
  map job_id (map record_of_block (blocks lines)) = header_ids lines.
Proof.
  induction lines as [|line rest IH]; simpl; [reflexivity|].
  destruct (match_job_id line) as [id|]; simpl; [|exact IH].
  unfold record_of_block at 1; simpl. now rewrite apply_lines_job_id, IH.
Qed.

Lemma blocks_no_header (lines : list str) :
  (forall line, In line lines -> match_job_id line = None) -> blocks lines = [].
Proof.
  induction lines as [|line rest IH]; intros H; simpl; [reflexivity|].
  rewrite (H line) by now left. apply IH. intros l I. apply H. now right.
Qed.

(** *** What the lines of a block store *)

Lemma split1_after_first (sep : ascii) (s : str) :
  In sep s -> exists a, split1 sep s = [a; after_first sep s].
Proof.
  induction s as [|c s IH]; cbn [In split1 after_first]; [tauto|]. intros H.
  destruct (eqc c sep) eqn:E; [eauto|].
  destruct H as [->|H]; [unfold eqc in E; now rewrite Ascii.eqb_refl in E|].
  destruct (IH H) as (a & ->). eauto.
Qed.

Lemma value_of_after_first (k line : str) :
  contains k line = true -> In "="%char k ->
  value_of line = Ok (strip (after_first "=" line)).
Proof.
  intros C I.
  destruct (split1_after_first "=" line (contains_In _ _ _ C I)) as (a & E).
  unfold value_of. now rewrite E.
Qed.

Lemma apply_line_fields (c : OARJob) (line : str) :
  apply_line c line
  = mkOARJob (job_id c) (told Name line (name c)) (told State line (state c))
             (told Walltime line (walltime c)) (told StartTime line (start_time c))
             (told Node line (node c)) (told Cores line (cores c)).
Proof.
  unfold apply_line, store_line, told, text_for, field_of. cbn [find key].
  repeat match goal with
  | |- context [if contains ?k line then _ else _] =>
      let C := fresh "C" in
      destruct (contains k line) eqn:C;
      [ first [ rewrite (value_of_after_first k line C) by (vm_compute; tauto);
                cbn [bind]; now destruct c
              | destruct (search_core line); now destruct c ] | ]
  end.
  now destruct c.
Qed.

Lemma fold_apply_line_fields (lines : list str) :
  forall c,
  fold_left apply_line lines c
  = mkOARJob (job_id c)
      (fold_left (fun v l => told Name l v) lines (name c))
      (fold_left (fun v l => told State l v) lines (state c))
      (fold_left (fun v l => told Walltime l v) lines (walltime c))
      (fold_left (fun v l => told StartTime l v) lines (start_time c))
      (fold_left (fun v l => told Node l v) lines (node c))
      (fold_left (fun v l => told Cores l v) lines (cores c)).
Proof.
  induction lines as [|line lines IH]; intros c; cbn [fold_left].
  - now destruct c.
  - rewrite IH, apply_line_fields. reflexivity.
Qed.

Lemma record_of_block_described (b : str * list str) :
  record_of_block b = described b.
Proof.
  unfold record_of_block, described. now rewrite fold_apply_line_fields.
Qed.

End HPCFacts.

(** C6.  [parse_oarstat_full] never fails and returns, in order, one record
    per header line ([Job_Id : <digits>]); the record carries the id of its
    header and is filled from the lines between that header and the next
    one (or the end of the text) and from nothing else: each of its six
    other fields holds what the last line of the block that speaks of it
    gives (the text after the first equals sign, stripped; for the cores
    the digits of [core=<digits>]), and is empty when no line does.  Lines
    before the first header are ignored, and a text with no header line
    yields the empty sequence. *)
Theorem oarstat_one_record_per_header (text : str) :
  HPC.parse_oarstat_full text
    = Py.Ok (map described (blocks (splitlines text))) /\
  map HPC.job_id (map described (blocks (splitlines text)))
    = header_ids (splitlines text) /\
  length (blocks (splitlines text)) = length (header_ids (splitlines text)) /\
  ((forall line, In line (splitlines text) -> HPC.match_job_id line = None) ->
   HPC.parse_oarstat_full text = Py.Ok []).
Proof.
  assert (map described (blocks (splitlines text))
          = map record_of_block (blocks (splitlines text))) as D
    by (apply map_ext; intros b; now rewrite record_of_block_described).
  rewrite D.
  assert (HPC.parse_oarstat_full text
          = Py.Ok (map record_of_block (blocks (splitlines text)))) as E.
  { unfold HPC.parse_oarstat_full.
    rewrite (loop_spec (splitlines text) [] None) by discriminate. reflexivity. }
  repeat split.
  - exact E.
  - apply blocks_ids.
  - rewrite <- blocks_ids, !length_map. reflexivity.
  - intros H. rewrite E, blocks_no_header by exact H. reflexivity.
Qed.

(** A dump with no header, and a dump of two jobs: the name is given twice
    in the first block, and the second block gives no name. *)
Lemma oarstat_one_record_per_header_witness :
  HPC.parse_oarstat_full (lit "name = lost" ++ HPC.nl ++ lit "state = Running")
    = Py.Ok [] /\
  HPC.parse_oarstat_full
    (lit "Job_Id: 41" ++ HPC.nl ++
     lit "    name = first" ++ HPC.nl ++
     lit "    state = Running" ++ HPC.nl ++
     lit "    walltime = 2:0:0" ++ HPC.nl ++
     lit "    startTime = 1700000000" ++ HPC.nl ++
     lit "    assigned_hostnames = big12" ++ HPC.nl ++
     lit "    wanted_resources = -l {host like 'big%'}/nodes=1/core=4,walltime=2:0:0"
     ++ HPC.nl ++
     lit "    name = renamed" ++ HPC.nl ++
     lit "Job_Id: 42" ++ HPC.nl ++
     lit "    state = Waiting")
    = Py.Ok [ HPC.mkOARJob (lit "41") (lit "renamed") (lit "Running") (lit "2:0:0")
                (lit "1700000000") (lit "big12") (lit "4");
              HPC.mkOARJob (lit "42") [] (lit "Waiting") [] [] [] [] ].
Proof.
  split.
  - destruct (oarstat_one_record_per_header
                (lit "name = lost" ++ HPC.nl ++ lit "state = Running"))
      as (_ & _ & _ & H).
    apply H. intros line I. vm_compute in I.
    destruct I as [<-|[<-|[]]]; vm_compute; reflexivity.
  - refine (eq_trans (proj1 (oarstat_one_record_per_header _)) _).
    vm_compute. reflexivity.
Defined.

(** ** Scheduler Adapters: submission *)
Section SubmitFacts.
Import Text Py.

(** On a stripped text the test [^\d+$] means just that: the line feed
    that [$] tolerates cannot be there. *)
Lemma match_all_digits_stripped (s : str) :
  match_all_digits (strip s) = true <-> numeric_id (strip s).
Proof.
  unfold match_all_digits, numeric_id. split.
  - intros H.
    pose proof (span_fst_snd is_digit (strip s)) as E.
    pose proof (span_fst_all is_digit (strip s)) as F.
    destruct (span is_digit (strip s)) as [ds rest]; simpl in *.
    apply andb_true_iff in H as [T D].
    destruct rest as [|c [|c' rest]]; try discriminate.
    + rewrite app_nil_r in E. rewrite <- E. split; [now destruct ds | exact F].
    + simpl in D. apply Ascii.eqb_eq in D as ->.
      symmetry in E. apply strip_result_last in E. discriminate.
  - intros [NE F]. rewrite (span_all is_digit _ F).
    destruct (strip s); [congruence | reflexivity].
Qed.

Lemma numeric_id_test (s : str) :
  negb (truthy (strip s)) || negb (match_all_digits (strip s)) = false
  <-> numeric_id (strip s).
Proof.
  rewrite orb_false_iff, !negb_false_iff, match_all_digits_stripped.
  split; [tauto|]. intros H. split; [|exact H].
  destruct H as [NE _]. destruct (strip s); [congruence | reflexivity].
Qed.

Lemma submission_error_nonempty (stderr : str) : submission_error stderr <> [].
Proof. unfold submission_error. destruct (strip stderr); discriminate. Qed.

Lemma job_id_or_error_outcome (stdout stderr : str) (rc : Z) :
  submission_outcome (stdout, stderr, rc) (job_id_or_error stdout stderr).
Proof.
  unfold submission_outcome, job_id_or_error.
  pose proof (numeric_id_test stdout) as T.
  destruct (negb (truthy (strip stdout)) || negb (match_all_digits (strip stdout))).
  - assert (~ numeric_id (strip stdout)) as N by (intros H; apply T in H; discriminate).
    assert ((if truthy (strip stderr) then strip stderr else lit "Failed to submit job")
            = submission_error stderr) as ->.
    { unfold submission_error. now destruct (strip stderr). }
    split; [tauto|]. split; [reflexivity|]. split; [tauto|].
    intros _. apply submission_error_nonempty.
  - assert (numeric_id (strip stdout)) as N by now apply T.
    split; [reflexivity|]. split; [tauto|]. simpl. split; [congruence | tauto].
Qed.

End SubmitFacts.

(** C7 (counterexample).  A failed submission whose captured stderr is
    ["Permission denied\n"]: the error returned is not the captured text but
    the text without its final line feed. *)
Lemma submission_error_is_not_the_captured_stderr :
  snd (fst (HPC.submit_custom_job
              (always ([], lit "Permission denied" ++ HPC.nl, 255))
              4 (lit "1:0:0") (lit "~/job.sh") tt))
  <> lit "Permission denied" ++ HPC.nl.
Proof. vm_compute. discriminate. Qed.

(** C7 (amended).  Each of the four submissions (notebook job and custom
    script, on OAR and on SLURM) returns a pair and never raises.  It
    reports failure, a non-empty error, exactly when the standard output of
    its remote command, stripped, is not a non-empty run of digits; the id
    is then empty and the error is the captured stderr with the surrounding
    white space removed, or the default message when nothing remains.
    Otherwise it returns the stripped output as the id, with an empty
    error. *)
Theorem submission_returns_id_or_error (W : Type)
  (run : str -> Z -> Py.M W RemoteCommandResult) (w : W)
  (cores num_gpus port : Z) (walltime email script_path gpu_type job_name : str) :
  submission_outcome
    (fst (run (HPC.jupyter_script cores walltime port email) 30 w))
    (fst (HPC.submit_jupyter_job run cores walltime port email w)) /\
  submission_outcome
    (fst (run (HPC.custom_command cores walltime script_path) 30 w))
    (fst (HPC.submit_custom_job run cores walltime script_path w)) /\
  submission_outcome
    (fst (run (Conv.jupyter_script gpu_type num_gpus walltime port job_name email) 30 w))
    (fst (Conv.submit_jupyter_job run gpu_type num_gpus walltime port job_name email w)) /\
  submission_outcome
    (fst (run (Conv.custom_command gpu_type num_gpus walltime job_name email script_path) 30 w))
    (fst (Conv.submit_custom_job run gpu_type num_gpus walltime job_name email script_path w)).
Proof.
  unfold HPC.submit_jupyter_job, HPC.submit_custom_job,
    Conv.submit_jupyter_job, Conv.submit_custom_job, Py.mbind, Py.ret.
  repeat split;
    match goal with
    | |- context [run ?c 30 w] =>
        destruct (run c 30 w) as [[[stdout stderr] rc] w']
    end; apply job_id_or_error_outcome.
Qed.

(** A submission that prints its id, and one that prints nothing and
    leaves only white space on stderr. *)
Lemma submission_returns_id_or_error_witness :
  fst (HPC.submit_jupyter_job (always (lit "4242" ++ HPC.nl, [], 0))
         24 (lit "24:0:0") 8888 (lit "me@lip6.fr") tt) = (lit "4242", []) /\
  fst (Conv.submit_custom_job (always ([], lit "  " ++ Conv.nl, 1))
         (lit "a100") 2 (lit "01:00:00") (lit "train") (lit "me@lip6.fr")
         (lit "~/train.sh") tt) = ([], lit "Failed to submit job").
Proof.
  split.
  - destruct (submission_returns_id_or_error unit
                (always (lit "4242" ++ HPC.nl, [], 0)) tt
                24 0 8888 (lit "24:0:0") (lit "me@lip6.fr") [] [] [])
      as ((H & _) & _).
    refine (eq_trans (H _) _); [|vm_compute; reflexivity].
    split; [vm_compute; discriminate | vm_compute; repeat constructor].
  - destruct (submission_returns_id_or_error unit
                (always ([], lit "  " ++ Conv.nl, 1)) tt
                0 2 0 (lit "01:00:00") (lit "me@lip6.fr") (lit "~/train.sh")
                (lit "a100") (lit "train"))
      as (_ & _ & _ & (_ & H & _)).
    refine (eq_trans (H _) _); [|vm_compute; reflexivity].
    intros [NE _]. now apply NE.
Defined.

(** ** Remote Executor *)
Section SSHFacts.
Import SSH.

Lemma utf8_step_ascii (b0 : byte) (rest : bytes) :
  (Byte.to_N b0 < 128)%N -> utf8_step b0 rest = Scalar (Byte.to_N b0) rest.
Proof.
  intros H. unfold utf8_step.
  destruct (N.ltb_spec (Byte.to_N b0) 128); [reflexivity | lia].
Qed.

(** On ASCII input both error policies decode byte by byte. *)
Lemma decode_from_ascii (data : bytes) :
  forall fuel replace whole pos,
  (length data <= fuel)%nat -> ascii_bytes data ->
  decode_from fuel replace whole pos data = inr (map Byte.to_N data).
Proof.
  induction data as [|b0 rest IH]; intros fuel replace whole pos Hf Ha.
  - now destruct fuel.
  - destruct fuel as [|fuel]; [simpl in Hf; lia|].
    inversion Ha as [|? ? Hb Hr]; subst.
    cbn [decode_from]. rewrite utf8_step_ascii by exact Hb.
    rewrite IH; [reflexivity | simpl in Hf; lia | exact Hr].
Qed.

Lemma replace_crlf_no_cr (t : text) :
  Forall (fun c => c <> 13%N) t -> replace_crlf t = t.
Proof.
  induction 1 as [|c t Hc Ht IH]; [reflexivity|].
  cbn [replace_crlf]. destruct t as [|c2 t2]; [reflexivity|].
  apply N.eqb_neq in Hc. rewrite Hc. cbn [andb]. now rewrite IH.
Qed.

Lemma replace_cr_no_cr (t : text) :
  Forall (fun c => c <> 13%N) t -> replace_cr t = t.
Proof.
  induction 1 as [|c t Hc Ht IH]; [reflexivity|].
  unfold replace_cr in *. cbn [map]. apply N.eqb_neq in Hc. now rewrite Hc, IH.
Qed.

Lemma translate_newlines_plain (data : bytes) :
  ascii_bytes data -> no_cr data ->
  translate_newlines data = inr (decode_replace data).
Proof.
  intros Ha Hc. unfold translate_newlines, decode_strict, decode_replace.
  rewrite !decode_from_ascii by (exact Ha || lia).
  assert (Forall (fun c => c <> 13%N) (map Byte.to_N data)) as F.
  { clear Ha. induction Hc; simpl; constructor; auto. }
  now rewrite replace_crlf_no_cr, replace_cr_no_cr.
Qed.

(** X2 (beside C4).  Where the two variants do agree: on a timeout, on a
    failure to start, and on output that is plain ASCII with no carriage
    return. *)
Lemma run_sync_agrees_on_plain_output
  (ssh : Text.str -> Text.str -> Z -> behaviour) (host command : Text.str)
  (timeout : Z) :
  match ssh host command timeout with
  | Exits out err rc =>
      ascii_bytes out /\ no_cr out /\ ascii_bytes err /\ no_cr err
  | Hangs | FailsToStart _ => True
  end ->
  fst (run_sync ssh host command timeout) = fst (run ssh host command timeout).
Proof.
  unfold run_sync, run.
  destruct (ssh host command timeout) as [out err rc| |msg]; cbn.
  - intros (A1 & C1 & A2 & C2).
    rewrite (translate_newlines_plain out A1 C1), (translate_newlines_plain err A2 C2).
    cbn. f_equal. f_equal. now destruct (Z.eqb_spec rc 0).
  - reflexivity.
  - reflexivity.
Qed.

(** Output "ok" and a line feed. *)
Lemma run_sync_agrees_on_plain_output_witness :
  fst (run_sync (fun _ _ _ => Exits [x6f; x6b; x0a] [] 0) (Text.lit "hpc") (Text.lit "true") 30)
  = fst (run (fun _ _ _ => Exits [x6f; x6b; x0a] [] 0) (Text.lit "hpc") (Text.lit "true") 30).
Proof.
  apply (run_sync_agrees_on_plain_output
           (fun _ _ _ => Exits [x6f; x6b; x0a] [] 0) (Text.lit "hpc") (Text.lit "true") 30).
  cbv beta iota.
  repeat split; repeat constructor; cbv; discriminate.
Defined.

End SSHFacts.

(** C3.  Neither variant of the Remote Executor raises: whatever the ssh
    process does for a host, a command and a timeout, [run_sync] and [run]
    return a triple.  When the process outlives the timeout it is killed
    and the triple is empty output, the message "SSH command timed out" as
    stderr and exit status 1; when it cannot be started the triple is empty
    output, the text of the exception as stderr and exit status 1. *)
Theorem remote_executor_never_raises
  (ssh : str -> str -> Z -> SSH.behaviour) (host command : str) (timeout : Z) :
  (exists r, fst (SSH.run_sync ssh host command timeout) = SSH.Ok r) /\
  (exists r, fst (SSH.run ssh host command timeout) = SSH.Ok r) /\
  (ssh host command timeout = SSH.Hangs ->
     fst (SSH.run_sync ssh host command timeout)
       = SSH.Ok ([], SSH.of_str (lit "SSH command timed out"), 1) /\
     fst (SSH.run ssh host command timeout)
       = SSH.Ok ([], SSH.of_str (lit "SSH command timed out"), 1) /\
     In SSH.Killed (snd (SSH.run_sync ssh host command timeout)) /\
     In SSH.Killed (snd (SSH.run ssh host command timeout))) /\
  (forall msg, ssh host command timeout = SSH.FailsToStart msg ->
     fst (SSH.run_sync ssh host command timeout) = SSH.Ok ([], msg, 1) /\
     fst (SSH.run ssh host command timeout) = SSH.Ok ([], msg, 1)).
Proof.
  unfold SSH.run_sync, SSH.run.
  destruct (ssh host command timeout) as [out err rc| |msg] eqn:B.
  - repeat split; try discriminate.
    + cbn [SSH.subprocess_run].
      destruct (SSH.translate_newlines out) as [e|o]; [cbn; eauto|].
      destruct (SSH.translate_newlines err) as [e|e']; cbn; eauto.
    + cbn. eauto.
  - split; [cbn; eauto|]. split; [cbn; eauto|].
    split; [|discriminate]. intros _. cbn. tauto.
  - split; [cbn; eauto|]. split; [cbn; eauto|].
    split; [discriminate|]. intros msg' [= <-]. cbn. tauto.
Qed.

(** A process that hangs, and an [ssh] binary that is not there. *)
Lemma remote_executor_never_raises_witness :
  fst (SSH.run_sync (fun _ _ _ => SSH.Hangs) (lit "hpc") (lit "oarstat") 30)
    = SSH.Ok ([], SSH.of_str (lit "SSH command timed out"), 1) /\
  fst (SSH.run (fun _ _ _ => SSH.Hangs) (lit "hpc") (lit "oarstat") 30)
    = SSH.Ok ([], SSH.of_str (lit "SSH command timed out"), 1) /\
  fst (SSH.run (fun _ _ _ => SSH.FailsToStart (SSH.of_str (lit "[Errno 2] No such file or directory: 'ssh'")))
         (lit "hpc") (lit "oarstat") 30)
    = SSH.Ok ([], SSH.of_str (lit "[Errno 2] No such file or directory: 'ssh'"), 1).
Proof.
  destruct (remote_executor_never_raises (fun _ _ _ => SSH.Hangs)
              (lit "hpc") (lit "oarstat") 30) as (_ & _ & H & _).
  destruct (H eq_refl) as (A & B & _).
  destruct (remote_executor_never_raises
              (fun _ _ _ => SSH.FailsToStart
                 (SSH.of_str (lit "[Errno 2] No such file or directory: 'ssh'")))
              (lit "hpc") (lit "oarstat") 30) as (_ & _ & _ & F).
  destruct (F _ eq_refl) as (_ & C).
  exact (conj A (conj B C)).
Defined.

(** C4 (the divergence).  The two variants are not interchangeable: [run]
    decodes with [errors="replace"], [run_sync] decodes strictly and in text
    mode.  When ssh writes the single byte 0xFF and exits with status 0,
    [run] returns U+FFFD with status 0 and [run_sync] returns no output, the
    decoder's message as stderr and status 1; when ssh writes "ok" followed
    by CR LF, [run] keeps the carriage return and [run_sync] drops it. *)
Theorem run_sync_decodes_strictly :
  fst (SSH.run (fun _ _ _ => SSH.Exits [xff] [] 0) (lit "hpc") (lit "hostname") 30)
    = SSH.Ok ([65533%N], [], 0) /\
  fst (SSH.run_sync (fun _ _ _ => SSH.Exits [xff] [] 0) (lit "hpc") (lit "hostname") 30)
    = SSH.Ok ([], SSH.of_str (lit "'utf-8' codec can't decode byte 0xff in position 0: invalid start byte"), 1) /\
  fst (SSH.run (fun _ _ _ => SSH.Exits [x6f; x6b; x0d; x0a] [] 0)
         (lit "hpc") (lit "hostname") 30)
    = SSH.Ok ([111%N; 107%N; 13%N; 10%N], [], 0) /\
  fst (SSH.run_sync (fun _ _ _ => SSH.Exits [x6f; x6b; x0d; x0a] [] 0)
         (lit "hpc") (lit "hostname") 30)
    = SSH.Ok ([111%N; 107%N; 10%N], [], 0).
Proof. repeat split; vm_compute; reflexivity. Qed.

(** ** Job Lifecycle Tracker: endpoint resolution *)
Section TrackerFacts.
Import Text Py Tracker.

Lemma truthy_false (s : str) : truthy s = false -> s = [].
Proof. now destruct s. Qed.

Lemma polled_runs (command : str) (n : nat) (evs : list event) (url : str) :
  polled command n evs url ->
  length (filter is_run evs) = n /\
  (length (filter is_sleep evs) <= n)%nat /\
  (length evs <= 2 * n)%nat /\
  (forall e, In e evs ->
     (exists r, e = Ran command 30 r) \/ e = Slept 2).
Proof.
  induction 1 as [|r T|r n evs url T P (IH1 & IH2 & IH3 & IH4)].
  - split; [|split; [|split]]; simpl; [lia | lia | lia | tauto].
  - split; [|split; [|split]]; simpl; [lia | lia | lia |].
    intros e [<-|[]]. eauto.
  - split; [|split; [|split]]; simpl; [lia | lia | lia |].
    intros e [<-|[<-|I]]; eauto.
Qed.

(** A loop in which no attempt produced a URL ends without one. *)
Lemma polled_all_missed (command : str) (n : nat) (evs : list event) (url : str) :
  polled command n evs url ->
  (forall r, In (Ran command 30 r) evs -> strip (stdout_of r) = []) ->
  url = [].
Proof.
  induction 1 as [|r T|r n evs url T P IH]; intros H.
  - reflexivity.
  - rewrite (H r) in T by now left. discriminate.
  - apply IH. intros r' I. apply H. right. right. exact I.
Qed.

Lemma is_query_same (command : str) (t : Z) (r : RemoteCommandResult) :
  is_query command (Ran command t r) = true.
Proof. simpl. now destruct (str_eq_dec command command). Qed.

Lemma polled_queries (command : str) (n : nat) (evs : list event) (url : str) :
  polled command n evs url ->
  queries command evs = n /\ (sleeps evs <= n)%nat.
Proof.
  unfold queries, sleeps.
  induction 1 as [|r T|r n evs url T P [IH1 IH2]].
  - split; simpl; lia.
  - cbn [filter]. rewrite is_query_same. split; simpl; lia.
  - cbn [filter]. rewrite is_query_same. cbn [is_query is_sleep length]. split; lia.
Qed.

Lemma filter_snoc {A} (f : A -> bool) (l : list A) (x : A) :
  filter f (l ++ [x]) = filter f l ++ (if f x then [x] else []).
Proof. now rewrite filter_app. Qed.

Lemma filter_none {A} (f : A -> bool) (l : list A) :
  Forall (fun x => f x = false) l -> filter f l = [].
Proof. induction 1 as [|x l H _ IH]; [reflexivity|]. cbn [filter]. now rewrite H. Qed.

(** An event of the first of two lists, found in their concatenation. *)
Lemma split_in_first {A} (l fin before after : list A) (e : A) :
  l ++ fin = before ++ e :: after -> ~ In e fin ->
  exists post, l = before ++ e :: post /\ after = post ++ fin.
Proof.
  revert before. induction l as [|x l IH]; intros before E N.
  - change ([] ++ fin) with fin in E. elim N. rewrite E. apply in_elt.
  - destruct before as [|b before]; rewrite <- !app_comm_cons in E;
      [rewrite app_nil_l in E|]; injection E as -> E.
    + exists l. now split.
    + destruct (IH before E N) as (post & -> & ->). exists post. now split.
Qed.

(** Within the polling loop a failed attempt is followed at once by a pause
    of two seconds, and a pause follows nothing but a failed attempt. *)
Lemma polled_pause_after (command : str) (n : nat) (evs : list event) (url : str) :
  polled command n evs url ->
  forall pre r post,
    evs = pre ++ Ran command 30 r :: post -> strip (stdout_of r) = [] ->
    exists rest, post = Slept 2 :: rest.
Proof.
  induction 1 as [|r0 T|r0 n evs url T P IH]; intros pre r post E B.
  - destruct pre; discriminate E.
  - destruct pre as [|x pre]; [|destruct pre; discriminate E].
    injection E as -> _. rewrite B in T. discriminate T.
  - destruct pre as [|x [|y pre]].
    + injection E as _ <-. eauto.
    + discriminate E.
    + injection E as _ _ E. now apply (IH pre r).
Qed.

Lemma polled_pause_before (command : str) (n : nat) (evs : list event) (url : str) :
  polled command n evs url ->
  forall pre s post,
    evs = pre ++ Slept s :: post ->
    exists b r, pre = b ++ [Ran command 30 r] /\ strip (stdout_of r) = [].
Proof.
  induction 1 as [|r0 T|r0 n evs url T P IH]; intros pre s post E.
  - destruct pre; discriminate E.
  - destruct pre as [|x pre]; [discriminate E | destruct pre; discriminate E].
  - destruct pre as [|x [|y pre]].
    + discriminate E.
    + injection E as <- _ _. exists [], r0. split; [reflexivity | now apply truthy_false].
    + injection E as <- <- E. destruct (IH pre s post E) as (b & r & -> & B).
      exists (Ran command 30 r0 :: Slept 2 :: b), r. now split.
Qed.

Lemma search_port_digits (url ds : str) :
  search_port url = Some ds -> digits ds.
Proof.
  revert ds. induction url as [|c u IH]; intros ds; cbn [search_port].
  - discriminate.
  - destruct (eqc c ":").
    + pose proof (span_fst_all is_digit u) as F.
      destruct (span is_digit u) as [ds' r']; cbn [fst] in F.
      destruct ds' as [|d ds']; [apply IH|].
      destruct r' as [|c' r']; [apply IH|].
      destruct (eqc c' "/"); [|apply IH]. intros [= <-]. split; [discriminate | exact F].
    + apply IH.
Qed.

(** How [_connect_to] ends after the polling. *)
Lemma finish_cases (sched : scheduler) (job_id node url : str) :
  (url = [] /\
   finish sched job_id node url
   = [Notified (lit "Jupyter didn't start. Check job logs.") Error])
  \/
  (url <> [] /\
   ((exists port,
       port_of sched url = Ok port /\
       finish sched job_id node url
       = [Pushed (mkSessionScreen job_id node url (sub_localhost url) port)])
    \/
    (finish sched job_id node url = [] /\
     exists ds, search_port url = Some ds /\ ~ short ds))).
Proof.
  unfold finish. destruct url as [|c url]; [left; now split|].
  right. split; [discriminate|]. cbn [truthy].
  destruct (port_of sched (c :: url)) as [port|e] eqn:PO; [left; eauto|].
  right. split; [reflexivity|]. unfold port_of in PO.
  destruct (search_port (c :: url)) as [ds|] eqn:S; [|discriminate PO].
  exists ds. split; [reflexivity|]. intros Sh.
  rewrite int_short in PO by (try exact Sh; now apply (search_port_digits (c :: url))).
  discriminate PO.
Qed.


Section WithRemote.
Context {W : Type}.
Variable run : str -> Z -> M W RemoteCommandResult.
Variable sched : scheduler.

Lemma get_job_node_eq (job_id : str) (w : W) (tr : list event) :
  get_job_node run sched job_id (w, tr) =
  let r := fst (run (node_command sched job_id) 30 w) in
  (strip (stdout_of r),
   (snd (run (node_command sched job_id) 30 w),
    tr ++ [Ran (node_command sched job_id) 30 r])).
Proof.
  unfold get_job_node, HPC.get_job_node, Conv.get_job_node, mbind, ret, ssh_run,
    node_command, stdout_of.
  destruct sched; cbn [fst snd];
    match goal with |- context [run ?c 30 w] =>
      destruct (run c 30 w) as [[[o e] rc] w'] end; reflexivity.
Qed.

Lemma get_jupyter_url_eq (job_id : str) (w : W) (tr : list event) :
  get_jupyter_url run sched job_id (w, tr) =
  let r := fst (run (url_command sched job_id) 30 w) in
  (strip (stdout_of r),
   (snd (run (url_command sched job_id) 30 w),
    tr ++ [Ran (url_command sched job_id) 30 r])).
Proof.
  unfold get_jupyter_url, HPC.get_jupyter_url, Conv.get_jupyter_url, mbind, ret,
    ssh_run, url_command, stdout_of.
  destruct sched; cbn [fst snd];
    match goal with |- context [run ?c 30 w] =>
      destruct (run c 30 w) as [[[o e] rc] w'] end; reflexivity.
Qed.

(** The loop makes at most [k] attempts, and all [k] of them when it ends
    without a URL. *)
Lemma poll_url_polled (job_id : str) (k : nat) :
  forall w tr, exists n evs url w',
    poll_url run sched k job_id [] (w, tr) = (url, (w', tr ++ evs)) /\
    polled (url_command sched job_id) n evs url /\
    (n <= k)%nat /\ (url = [] -> n = k).
Proof.
  induction k as [|k IH]; intros w tr.
  - exists 0%nat, [], [], w. cbn. rewrite app_nil_r. repeat split; constructor.
  - cbn [poll_url]. unfold mbind at 1. rewrite get_jupyter_url_eq.
    cbv beta iota zeta.
    set (r := fst (run (url_command sched job_id) 30 w)).
    set (w1 := snd (run (url_command sched job_id) 30 w)).
    destruct (truthy (strip (stdout_of r))) eqn:T.
    + exists 1%nat, [Ran (url_command sched job_id) 30 r], (strip (stdout_of r)), w1.
      repeat split; [now constructor | lia |].
      intros E. rewrite E in T. discriminate.
    + rewrite (truthy_false _ T).
      unfold mbind, emit. cbn [fst snd].
      destruct (IH w1 ((tr ++ [Ran (url_command sched job_id) 30 r]) ++ [Slept 2]))
        as (n & evs & url & w' & E & P & L & Z).
      exists (S n), (Ran (url_command sched job_id) 30 r :: Slept 2 :: evs), url, w'.
      repeat split.
      * rewrite E. now rewrite <- !app_assoc.
      * now constructor.
      * lia.
      * intros U. now rewrite (Z U).
Qed.

Lemma node_command_not_cancel (job_id : str) : ~ cancels (node_command sched job_id).
Proof.
  intros [x H]. unfold node_command in H.
  destruct sched; destruct H as [H|[H|[H|H]]]; discriminate H.
Qed.

Lemma url_command_not_cancel (job_id : str) : ~ cancels (url_command sched job_id).
Proof.
  intros [x H]. unfold url_command in H.
  destruct sched; destruct H as [H|[H|[H|H]]]; discriminate H.
Qed.

(** The whole trace of [_connect_to]. *)
Lemma connect_trace_exact (job_id : str) (w : W) :
  let r0 := fst (run (node_command sched job_id) 30 w) in
  let node := strip (stdout_of r0) in
  (~ node_found node /\
   connect_trace run sched job_id w
     = [Ran (node_command sched job_id) 30 r0;
        Notified (lit "Could not find node for job " ++ job_id) Error])
  \/
  (node_found node /\
   exists n evs url,
     polled (url_command sched job_id) n evs url /\
     (n <= 30)%nat /\ (url = [] -> n = 30%nat) /\
     connect_trace run sched job_id w
       = Ran (node_command sched job_id) 30 r0
         :: Notified (lit "Waiting for Jupyter on " ++ node ++ lit "...") Information
         :: evs ++ finish sched job_id node url).
Proof.
  intros r0 node.
  remember (connect_trace run sched job_id w) as T eqn:ET.
  unfold connect_trace, _connect_to in ET.
  unfold mbind at 1 in ET. rewrite get_job_node_eq in ET.
  cbv beta iota zeta in ET. fold r0 in ET. fold node in ET.
  set (w1 := snd (run (node_command sched job_id) 30 w)) in ET.
  unfold node_found.
  destruct (negb (truthy node) || negb (Validators.is_name node)) eqn:V.
  - left. split; [congruence | subst T; reflexivity].
  - right. split; [reflexivity|].
    unfold mbind at 1 in ET. unfold emit at 1 in ET. cbn [fst snd] in ET.
    unfold mbind at 1 in ET.
    destruct (poll_url_polled job_id 30 w1
                (([] ++ [Ran (node_command sched job_id) 30 r0]) ++
                 [Notified (lit "Waiting for Jupyter on " ++ node ++ lit "...") Information]))
      as (n & evs & url & w' & E & P & L & Z).
    rewrite E in ET. cbv beta iota in ET.
    exists n, evs, url. split; [exact P|]. split; [exact L|]. split; [exact Z|].
    subst T. unfold finish.
    destruct url as [|c url]; cbn [truthy negb].
    + unfold mbind, emit, ret; cbn [fst snd]. rewrite <- !app_assoc. reflexivity.
    + destruct (port_of sched (c :: url)) as [port|e];
        unfold mbind, emit, ret; cbn [fst snd]; rewrite <- !app_assoc;
        [reflexivity | now rewrite app_nil_r].
Qed.

Lemma node_command_not_url (job_id : str) :
  node_command sched job_id <> url_command sched job_id.
Proof. unfold node_command, url_command. destruct sched; discriminate. Qed.

End WithRemote.
End TrackerFacts.

(** C8.  Endpoint resolution, for either scheduler, any remote world and
    any job: the first thing done is the node query, which is made once;
    the service URL is then asked at most 30 times; every pause is one of
    two seconds, so there are at most 30 of them; no command that cancels
    jobs is ever run.  When no attempt produces a URL, all 30 attempts are
    made as soon as the node was found, and after 30 attempts the last
    event is the error notification "Jupyter didn't start. Check job logs."
    (When the node query yields no usable name, resolution stops there with
    its own error and asks for no URL.)  The whole resolution is at most 63
    events long, so it always ends.

    The delay between attempts: every attempt that yields no URL is
    followed at once by a pause of two seconds, and a pause comes only
    right after such an attempt.  When the node was found the trace is
    exactly the node query, the notice, the polling (attempts, each failed
    one with its pause, up to the first URL) and one last event: the error
    after 30 failures, or the session screen; only a URL whose port has
    more than 4300 digits ends the worker before the screen, with the
    [ValueError] of [int]. *)
Theorem endpoint_resolution_is_bounded (W : Type)
  (run : str -> Z -> Py.M W RemoteCommandResult) (sched : Tracker.scheduler)
  (job_id : str) (w : W) :
  (exists tail,
     Tracker.connect_trace run sched job_id w
       = Tracker.Ran (node_command sched job_id) 30
           (fst (run (node_command sched job_id) 30 w)) :: tail /\
     queries (node_command sched job_id) tail = 0%nat) /\
  (queries (url_command sched job_id) (Tracker.connect_trace run sched job_id w)
     <= 30)%nat /\
  (forall s, In (Tracker.Slept s) (Tracker.connect_trace run sched job_id w) -> s = 2) /\
  (sleeps (Tracker.connect_trace run sched job_id w)
     <= queries (url_command sched job_id) (Tracker.connect_trace run sched job_id w))%nat /\
  (forall c t r, In (Tracker.Ran c t r) (Tracker.connect_trace run sched job_id w) ->
     ~ cancels c) /\
  ((forall r, In (Tracker.Ran (url_command sched job_id) 30 r)
                 (Tracker.connect_trace run sched job_id w) ->
              strip (stdout_of r) = []) ->
   (node_found (strip (stdout_of (fst (run (node_command sched job_id) 30 w)))) ->
    queries (url_command sched job_id) (Tracker.connect_trace run sched job_id w)
      = 30%nat) /\
   (queries (url_command sched job_id) (Tracker.connect_trace run sched job_id w)
      = 30%nat ->
    exists before,
      Tracker.connect_trace run sched job_id w
        = before ++ [Tracker.Notified (lit "Jupyter didn't start. Check job logs.")
                       Tracker.Error])) /\
  (~ node_found (strip (stdout_of (fst (run (node_command sched job_id) 30 w)))) ->
   Tracker.connect_trace run sched job_id w
     = [Tracker.Ran (node_command sched job_id) 30
          (fst (run (node_command sched job_id) 30 w));
        Tracker.Notified (lit "Could not find node for job " ++ job_id)
          Tracker.Error]) /\
  (length (Tracker.connect_trace run sched job_id w) <= 63)%nat /\
  (forall before r after,
     Tracker.connect_trace run sched job_id w
       = before ++ Tracker.Ran (url_command sched job_id) 30 r :: after ->
     strip (stdout_of r) = [] ->
     exists rest, after = Tracker.Slept 2 :: rest) /\
  (forall before s after,
     Tracker.connect_trace run sched job_id w = before ++ Tracker.Slept s :: after ->
     exists b r,
       before = b ++ [Tracker.Ran (url_command sched job_id) 30 r] /\
       strip (stdout_of r) = []) /\
  (node_found (strip (stdout_of (fst (run (node_command sched job_id) 30 w)))) ->
   exists n evs url last,
     Tracker.connect_trace run sched job_id w
       = Tracker.Ran (node_command sched job_id) 30
           (fst (run (node_command sched job_id) 30 w))
         :: Tracker.Notified
              (lit "Waiting for Jupyter on " ++
               strip (stdout_of (fst (run (node_command sched job_id) 30 w))) ++
               lit "...") Tracker.Information
         :: evs ++ last /\
     polled (url_command sched job_id) n evs url /\
     (n <= 30)%nat /\
     (url = [] ->
      n = 30%nat /\
      last = [Tracker.Notified (lit "Jupyter didn't start. Check job logs.")
                Tracker.Error]) /\
     (url <> [] ->
      (exists screen, last = [Tracker.Pushed screen]) \/
      (last = [] /\
       exists ds, Tracker.search_port url = Some ds /\ ~ short ds))).
Proof.
  pose proof (node_command_not_url sched job_id) as NU.
  assert (forall t r, is_query (url_command sched job_id)
                        (Tracker.Ran (node_command sched job_id) t r) = false) as Q0.
  { intros t r. simpl. now destruct (str_eq_dec _ _). }
  destruct (connect_trace_exact run sched job_id w)
    as [[NF E] | (NF & n & evs & url & P & L & Hn & E)]; rewrite E.
  - (* no node *)
    unfold queries, sleeps. cbn [filter]. rewrite Q0. cbn [is_query is_sleep filter length].
    split; [eexists; split; [reflexivity | reflexivity]|].
    split; [lia|]. split; [intros s [A|[A|[]]]; discriminate|]. split; [lia|].
    split.
    { intros c t r [A|[A|[]]]; [|discriminate].
      injection A as <- _ _. apply node_command_not_cancel. }
    split; [intros _; split; [tauto | discriminate]|].
    split; [reflexivity|]. split; [simpl; lia|].
    split.
    { intros before r after A B.
      destruct before as [|x [|y [|z before]]]; cbn [app] in A; try discriminate A.
      injection A as A _. now elim NU. }
    split; [|tauto].
    intros before s after A.
    destruct before as [|x [|y [|z before]]]; cbn [app] in A; discriminate A.
  - set (r0 := fst (run (node_command sched job_id) 30 w)) in *.
    set (node := strip (stdout_of r0)) in *.
    set (fin := finish sched job_id node url) in *.
    destruct (polled_queries _ _ _ _ P) as [Qn Sn].
    destruct (polled_runs _ _ _ _ P) as (_ & _ & Len & Each).
    assert (Forall (fun e => is_query (node_command sched job_id) e = false) evs) as Qnode.
    { apply Forall_forall. intros e I. destruct (Each e I) as [[r ->]| ->]; [|reflexivity].
      simpl. destruct (str_eq_dec _ _) as [A|A]; [now elim NU | reflexivity]. }
    assert (Forall (fun e => (forall s, e <> Tracker.Slept s) /\
                             (forall c t r, e <> Tracker.Ran c t r)) fin /\
            (length fin <= 1)%nat) as [Quiet Lfin].
    { destruct (finish_cases sched job_id node url)
        as [[_ F]|[_ [(port & _ & F)|[F _]]]]; fold fin in F; rewrite F;
        (split; [|simpl; lia]); repeat constructor; intros; discriminate. }
    assert (forall f, (forall e, (forall s, e <> Tracker.Slept s) ->
                                 (forall c t r, e <> Tracker.Ran c t r) -> f e = false) ->
                      filter f fin = []) as Ffin.
    { intros f Hf. apply filter_none. revert Quiet. apply Forall_impl.
      intros e [A B]. now apply Hf. }
    assert (forall e, In e fin ->
              (forall s, e <> Tracker.Slept s) /\
              (forall c t r, e <> Tracker.Ran c t r)) as Infin
      by (now apply Forall_forall).
    unfold queries, sleeps in *.
    cbn [filter]. rewrite Q0. cbn [is_query is_sleep].
    rewrite !filter_app.
    rewrite (Ffin (is_query (url_command sched job_id)))
      by (intros [] A B; try reflexivity; now elim (B command timeout r)).
    rewrite (Ffin is_sleep)
      by (intros [] A B; try reflexivity; now elim (A seconds)).
    rewrite !app_nil_r.
    split.
    { eexists; split; [reflexivity|].
      cbn [filter is_query]. rewrite filter_app.
      rewrite (Ffin (is_query (node_command sched job_id)))
        by (intros [] A B; try reflexivity; now elim (B command timeout r)).
      now rewrite (filter_none _ _ Qnode). }
    split; [lia|].
    split.
    { intros s [A|[A|I]]; try discriminate.
      apply in_app_or in I as [I|I]; [|now elim (proj1 (Infin _ I) s)].
      destruct (Each _ I) as [[r A]|A]; [discriminate | now injection A]. }
    split; [lia|].
    split.
    { intros c t r [A|[A|I]];
        [injection A as <- _ _; apply node_command_not_cancel|discriminate|].
      apply in_app_or in I as [I|I]; [|now elim (proj2 (Infin _ I) c t r)].
      destruct (Each _ I) as [[r' A]|A]; [|discriminate].
      injection A as -> _ _. apply url_command_not_cancel. }
    split.
    { intros Hall.
      assert (url = []) as U.
      { apply (polled_all_missed _ _ _ _ P). intros r I. apply Hall.
        right. right. apply in_or_app. now left. }
      split; [intros _; rewrite Qn; now apply Hn|].
      intros _.
      destruct (finish_cases sched job_id node url) as [[_ F]|[NE _]]; [|congruence].
      fold fin in F. rewrite F.
      exists (Tracker.Ran (node_command sched job_id) 30 r0
              :: Tracker.Notified (lit "Waiting for Jupyter on " ++ node ++ lit "...")
                   Tracker.Information :: evs).
      reflexivity. }
    split; [tauto|].
    split; [cbn [length]; rewrite length_app; lia|].
    split.
    { intros [|x [|y before]] r after A B.
      - injection A as A _. now elim NU.
      - discriminate A.
      - rewrite <- !app_comm_cons in A. injection A as _ _ A.
        destruct (split_in_first evs fin before after _ A) as (post & Eevs & ->).
        { intros I. now elim (proj2 (Infin _ I) (url_command sched job_id) 30 r). }
        destruct (polled_pause_after _ _ _ _ P before r post Eevs B) as [rest ->].
        exists (rest ++ fin). reflexivity. }
    split.
    { intros [|x [|y before]] s after A; try discriminate A.
      rewrite <- !app_comm_cons in A. injection A as <- <- A.
      destruct (split_in_first evs fin before after _ A) as (post & Eevs & ->).
      { intros I. now elim (proj1 (Infin _ I) s). }
      destruct (polled_pause_before _ _ _ _ P before s post Eevs) as (b & r & -> & B).
      exists (Tracker.Ran (node_command sched job_id) 30 r0
              :: Tracker.Notified (lit "Waiting for Jupyter on " ++ node ++ lit "...")
                   Tracker.Information :: b), r.
      now split. }
    intros _. exists n, evs, url, fin.
    split; [reflexivity|]. split; [exact P|]. split; [exact L|].
    destruct (finish_cases sched job_id node url)
      as [[U F]|[NE [(port & _ & F)|[F D]]]]; fold fin in F.
    + split; [intros _; split; [now apply Hn | exact F] | congruence].
    + split; [congruence | intros _; left; eauto].
    + split; [congruence | intros _; right; now split].
Qed.

(** A running job whose log never shows a URL: thirty attempts, then the
    error. *)
Lemma endpoint_resolution_is_bounded_witness :
  node_found (strip (stdout_of (fst (silent_service (node_command Tracker.OAR (lit "4242")) 30 tt)))) /\
  queries (url_command Tracker.OAR (lit "4242"))
    (Tracker.connect_trace silent_service Tracker.OAR (lit "4242") tt) = 30%nat /\
  exists before,
    Tracker.connect_trace silent_service Tracker.OAR (lit "4242") tt
      = before ++ [Tracker.Notified (lit "Jupyter didn't start. Check job logs.")
                     Tracker.Error].
Proof.
  assert (node_found (strip (stdout_of
            (fst (silent_service (node_command Tracker.OAR (lit "4242")) 30 tt))))) as N
    by (vm_compute; reflexivity).
  split; [exact N|].
  destruct (endpoint_resolution_is_bounded unit silent_service Tracker.OAR (lit "4242") tt)
    as (_ & _ & _ & _ & _ & H & _).
  assert (forall r, In (Tracker.Ran (url_command Tracker.OAR (lit "4242")) 30 r)
                      (Tracker.connect_trace silent_service Tracker.OAR (lit "4242") tt) ->
                    strip (stdout_of r) = []) as Quiet.
  { intros r I. vm_compute in I.
    repeat (destruct I as [I|I];
            [first [discriminate I | injection I as <-; reflexivity]|]).
    destruct I. }
  destruct (H Quiet) as [All Last].
  exact (conj (All N) (Last (All N))).
Defined.

(** ** Tunnel Manager: closing *)
Section TunnelFacts.
Import Py Tunnel.

Lemma cleanup_live (t : handle) :
  still_running t = true ->
  exists t', _cleanup t = Ok t' /\ signals t' = S (signals t) /\
             still_running t' = true.
Proof.
  destruct t as [[r s [rc|] k]|]; simpl; try discriminate.
  intros ->. unfold _cleanup, handle_poll, poll; simpl. eauto.
Qed.

Lemma cleanup_dead (t : handle) :
  still_running t = false ->
  exists t', _cleanup t = Ok t' /\ signals t' = signals t /\
             still_running t' = false.
Proof.
  destruct t as [[r s [rc|] k]|]; simpl.
  - intros _. unfold _cleanup, handle_poll, poll; simpl. eauto.
  - intros ->. unfold _cleanup, handle_poll, poll; simpl. eauto.
  - intros _. simpl. eauto.
Qed.

Lemma process_exits_dead (status : Z) (t : handle) :
  still_running (process_exits status t) = false /\
  signals (process_exits status t) = signals t.
Proof.
  destruct t as [[[] s [rc|] k]|]; simpl; auto.
Qed.

Lemma run_actions_dead (acts : list action) :
  forall t, still_running t = false ->
  exists t', run_actions acts t = Ok t' /\ signals t' = signals t.
Proof.
  induction acts as [|[|status] acts IH]; intros t D; simpl.
  - eauto.
  - destruct (cleanup_dead t D) as (t1 & -> & S1 & D1). simpl.
    destruct (IH t1 D1) as (t' & -> & S'). exists t'. split; [reflexivity | congruence].
  - destruct (process_exits_dead status t) as [D1 S1].
    destruct (IH _ D1) as (t' & -> & S'). exists t'. split; [reflexivity | congruence].
Qed.

Lemma run_actions_live (acts : list action) :
  forall t, still_running t = true ->
  exists t', run_actions acts t = Ok t' /\
             signals t' = (signals t + closes_before_exit acts)%nat.
Proof.
  induction acts as [|[|status] acts IH]; intros t L; simpl.
  - exists t. split; [reflexivity | lia].
  - destruct (cleanup_live t L) as (t1 & -> & S1 & L1). simpl.
    destruct (IH t1 L1) as (t' & -> & S'). exists t'. split; [reflexivity | lia].
  - destruct (process_exits_dead status t) as [D1 S1].
    destruct (run_actions_dead acts _ D1) as (t' & -> & S').
    exists t'. split; [reflexivity | lia].
Qed.

End TunnelFacts.

(** C9 (counterexample).  Two closes in a row of a tunnel whose process is
    still running when the second one polls it: the process is signalled
    twice. *)
Lemma closing_twice_signals_twice :
  exists t, Tunnel.run_actions [Tunnel.Close; Tunnel.Close] Tunnel.fresh = Py.Ok t /\
            Tunnel.signals t = 2%nat.
Proof. eexists. split; vm_compute; reflexivity. Qed.

(** C9 (amended).  Closing never fails, in any state of the handle and
    however closes and the exit of the process follow one another.  A close
    signals the process exactly when the process has not exited yet: the
    signals sent over a schedule are the closes made before the process
    exits, and none at all for a handle with no process or a dead one.  So
    a second close is a no-op once the process has exited after the first,
    while a second close that finds it still running signals it again. *)
Theorem closing_a_tunnel (acts : list Tunnel.action) (t : Tunnel.handle) :
  exists t',
    Tunnel.run_actions acts t = Py.Ok t' /\
    Tunnel.signals t' =
      (Tunnel.signals t +
       (if still_running t then closes_before_exit acts else 0))%nat.
Proof.
  destruct (still_running t) eqn:L.
  - now apply run_actions_live.
  - destruct (run_actions_dead acts t L) as (t' & E & S).
    exists t'. split; [exact E | lia].
Qed.

(** The same on three schedules: the process exits between two closes (one
    signal), the handle was never opened, and the process was dead before
    the first close (no signal). *)
Example closing_a_tunnel_examples :
  (exists t, Tunnel.run_actions
               [Tunnel.Close; Tunnel.ProcessExits (-15); Tunnel.Close; Tunnel.Close]
               Tunnel.fresh = Py.Ok t /\ Tunnel.signals t = 1%nat) /\
  Tunnel.run_actions [Tunnel.Close; Tunnel.Close] None = Py.Ok None /\
  (exists t, Tunnel.run_actions
               [Tunnel.ProcessExits 255; Tunnel.Close; Tunnel.Close]
               Tunnel.fresh = Py.Ok t /\ Tunnel.signals t = 0%nat).
Proof. repeat split; eexists; split; vm_compute; reflexivity. Qed.

(* ================================================================== *)
(** * Part III, continued: the code around the claims                   *)
(* ================================================================== *)

(** ** duration.py: the elapsed time of a job *)

(** X3.  [format_elapsed] and [parse_to_minutes] fit together: a negative
    number of seconds is shown as "N/A", which is no duration; a
    non-negative one of fewer than [10 ^ 4300] days is shown in the
    composite form, which parses back to the whole minutes in it; from
    [10 ^ 4300] days on the number of days is not rendered and
    [format_elapsed] raises [ValueError]. *)
Theorem format_elapsed_parses_back (seconds : Z) :
  (seconds < 0 ->
   Duration.format_elapsed seconds = Py.Ok (lit "N/A") /\
   Duration.parse_to_minutes (lit "N/A") = Py.Ok None) /\
  (0 <= seconds -> seconds / 86400 < int_limit ->
   exists t, Duration.format_elapsed seconds = Py.Ok t /\
             Duration.parse_to_minutes t = Py.Ok (Some (seconds / 60))) /\
  (int_limit <= seconds / 86400 ->
   Duration.format_elapsed seconds = Py.Raise Py.ValueError).
Proof.
  assert (seconds / 60 / 1440 = seconds / 86400) as D
    by (rewrite Z.div_div by lia; reflexivity).
  assert (0 < int_limit) as P by (unfold int_limit; apply Z.pow_pos_nonneg; lia).
  unfold Duration.format_elapsed. repeat split.
  - destruct (Z.ltb_spec seconds 0); [reflexivity | lia].
  - intros H L. destruct (Z.ltb_spec seconds 0); [lia|].
    assert (0 <= seconds / 60) by (apply Z.div_pos; lia).
    assert (renders (seconds / 60 / 1440)) as R.
    { rewrite D. apply renders_below; [apply Z.div_pos; lia | exact L]. }
    exists (Unbounded.minutes_to_human (seconds / 60)).
    split; [now apply minutes_to_human_renders | now apply parse_human_rendered].
  - intros L.
    assert (0 <= seconds).
    { destruct (Z.lt_ge_cases seconds 0) as [N|N]; [|exact N].
      assert (seconds / 86400 < 0) by (apply Z.div_lt_upper_bound; lia). lia. }
    destruct (Z.ltb_spec seconds 0); [lia|].
    apply minutes_to_human_refuses.
    + destruct (Z.lt_ge_cases 0 (seconds / 60)) as [G|G]; [exact G|].
      assert (seconds / 60 / 1440 <= 0) by (apply Z.div_le_upper_bound; lia). lia.
    + rewrite D. now apply not_renders_above.
Qed.

(** ** validators.py *)
Section ValidatorFacts.
Import Text Validators.

(** A pattern [^[class]+$] on stripped text: the line feed that [$]
    tolerates at the end cannot be there. *)
Lemma class_validator (p : ascii -> bool) (value : str) :
  (let (run, rest) := span p (strip value) in truthy run && at_dollar rest) = true <->
  strip value <> [] /\ Forall (fun c => p c = true) (strip value).
Proof.
  pose proof (span_fst_snd p (strip value)) as E.
  pose proof (span_fst_all p (strip value)) as F.
  split.
  - destruct (span p (strip value)) as [run rest]; cbn [fst snd] in *.
    intros H. apply andb_true_iff in H as [H1 H2].
    destruct run as [|c run]; [discriminate|].
    destruct rest as [|c1 [|c2 rest]]; try discriminate.
    + rewrite app_nil_r in E. rewrite <- E. split; [discriminate | exact F].
    + unfold eqc in H2. apply Ascii.eqb_eq in H2. subst c1.
      symmetry in E. apply strip_result_last in E. discriminate.
  - intros [NE A]. rewrite (span_all p _ A).
    destruct (strip value); [congruence | reflexivity].
Qed.

Lemma name_char_is_path_char (c : ascii) :
  is_name_char c = true -> is_path_char c = true.
Proof.
  destruct c as [[] [] [] [] [] [] [] []]; vm_compute; congruence.
Qed.

Lemma digit_is_name_char (c : ascii) : is_digit c = true -> is_name_char c = true.
Proof.
  destruct c as [[] [] [] [] [] [] [] []]; vm_compute; congruence.
Qed.

Lemma is_int_digits (value : str) : is_int value = true <-> digits (strip value).
Proof. apply (class_validator is_digit). Qed.

Lemma strip_hms_form (h mn sec : str) :
  digits h -> digits mn -> digits sec ->
  strip (h ++ ":"%char :: mn ++ ":"%char :: sec) = h ++ ":"%char :: mn ++ ":"%char :: sec.
Proof.
  intros Dh Dm Ds. destruct (digits_last sec Ds) as (r & c & E & Hc). rewrite E.
  replace (h ++ ":"%char :: mn ++ ":"%char :: r ++ [c])
    with (h ++ (":"%char :: mn ++ ":"%char :: r) ++ [c])
    by (simpl; now rewrite <- app_assoc).
  apply strip_digits_first; [exact Dh | now apply digit_not_space].
Qed.

Lemma is_walltime_form (h mn sec : str) :
  digits h -> digits mn -> digits sec ->
  is_walltime (h ++ ":"%char :: mn ++ ":"%char :: sec) = true.
Proof.
  intros Dh Dm Ds. unfold is_walltime.
  now rewrite strip_hms_form, match_hms_intro.
Qed.

Lemma is_walltime_day_form (d rest : str) :
  digits d -> rest <> [] -> Forall (fun c => is_space c = false) rest ->
  is_walltime (d ++ "-"%char :: rest) = false.
Proof.
  intros Dd NE F. unfold is_walltime.
  assert (strip (d ++ "-"%char :: rest) = d ++ "-"%char :: rest) as ->.
  { apply strip_no_space. apply Forall_app. split.
    - apply digits_no_space, Dd.
    - constructor; [reflexivity | exact F]. }
  rewrite match_hms_not_colon; [reflexivity | exact Dd | split; reflexivity].
Qed.

Lemma minutes_to_hms_is_walltime (m : Z) :
  0 <= m -> is_walltime (Unbounded.minutes_to_hms m) = true.
Proof.
  intros Hm.
  pose proof (Z.mod_pos_bound m 60).
  assert (0 <= m / 60) as Hh by (apply Z.div_pos; lia).
  unfold Unbounded.minutes_to_hms.
  change (numeral (m / 60) ++ lit ":" ++ numeral (m mod 60) ++ lit ":0")
    with (numeral (m / 60) ++ ":"%char :: numeral (m mod 60) ++ ":"%char :: ["0"%char]).
  apply is_walltime_form; try (apply digits_numeral; lia).
  split; [discriminate | repeat constructor].
Qed.

Lemma minutes_to_slurm_is_walltime (m : Z) :
  0 <= m -> is_walltime (Unbounded.minutes_to_slurm m) = (m <? 1440).
Proof.
  intros Hm.
  pose proof (Z.mod_pos_bound m 60).
  assert (0 <= m / 60) as Hh by (apply Z.div_pos; lia).
  unfold Unbounded.minutes_to_slurm.
  destruct (Z.ltb_spec m 1440) as [Lt|Ge].
  - assert (m / 60 < 24) by (apply Z.div_lt_upper_bound; lia).
    destruct (Z.geb_spec (m / 60) 24); [lia|].
    change (Unbounded.fmt_02d (m / 60) ++ lit ":" ++ Unbounded.fmt_02d (m mod 60) ++ lit ":00")
      with (Unbounded.fmt_02d (m / 60) ++ ":"%char :: Unbounded.fmt_02d (m mod 60) ++ ":"%char :: lit "00").
    apply is_walltime_form; try (apply digits_fmt_02d; lia).
    split; [discriminate | repeat constructor].
  - assert (24 <= m / 60) by (apply Z.div_le_lower_bound; lia).
    destruct (Z.geb_spec (m / 60) 24); [|lia].
    pose proof (Z.mod_pos_bound (m / 60) 24).
    assert (0 <= m / 60 / 24) by (apply Z.div_pos; lia).
    change (numeral (m / 60 / 24) ++ lit "-" ++ Unbounded.fmt_02d ((m / 60) mod 24) ++ lit ":" ++
            Unbounded.fmt_02d (m mod 60) ++ lit ":00")
      with (numeral (m / 60 / 24) ++ "-"%char ::
            (Unbounded.fmt_02d ((m / 60) mod 24) ++ ":"%char ::
             Unbounded.fmt_02d (m mod 60) ++ ":"%char :: lit "00")).
    apply is_walltime_day_form.
    + apply digits_numeral; lia.
    + destruct (digits_head _ (digits_fmt_02d ((m / 60) mod 24) ltac:(lia)))
        as (x & r & -> & _). discriminate.
    + apply Forall_app. split; [apply digits_no_space, digits_fmt_02d; lia|].
      constructor; [reflexivity|].
      apply Forall_app. split; [apply digits_no_space, digits_fmt_02d; lia|].
      repeat constructor.
Qed.

End ValidatorFacts.

(** X4.  Each of the three class validators accepts exactly the values
    that, once the white space around them is removed, are non-empty and
    made of characters of its class only.  (The line feed that [$] would
    let through at the end is removed by [strip] beforehand.) *)
Theorem validators_accept_their_class (value : str) :
  (Validators.is_int value = true <->
     strip value <> [] /\ Forall (fun c => is_digit c = true) (strip value)) /\
  (Validators.is_name value = true <->
     strip value <> [] /\
     Forall (fun c => Validators.is_name_char c = true) (strip value)) /\
  (Validators.is_path value = true <->
     strip value <> [] /\
     Forall (fun c => Validators.is_path_char c = true) (strip value)).
Proof.
  split; [|split].
  - apply (class_validator is_digit).
  - apply (class_validator Validators.is_name_char).
  - apply (class_validator Validators.is_path_char).
Qed.

(** X5.  The validators are nested on the classes they spell out: a value
    that is, once stripped, a non-empty run of the digits 0-9 passes as an
    integer and as a name, and what passes as a name passes as a path.
    (Outside the range of this embedding [\d] also matches the decimal
    digits of other scripts, which the class of [is_name] does not
    hold.) *)
Theorem validators_are_nested (value : str) :
  (strip value <> [] ->
   Forall (fun c => between 48 57 c = true) (strip value) ->
   Validators.is_int value = true /\ Validators.is_name value = true) /\
  (Validators.is_name value = true -> Validators.is_path value = true).
Proof.
  split.
  - intros NE F. split.
    + apply (class_validator is_digit). now split.
    + apply (class_validator Validators.is_name_char).
      split; [exact NE|]. revert F. apply Forall_impl, digit_is_name_char.
  - intros H. apply (class_validator Validators.is_path_char).
    apply (class_validator Validators.is_name_char) in H as [NE F].
    split; [exact NE|]. revert F. apply Forall_impl, name_char_is_path_char.
Qed.

Lemma validators_are_nested_witness :
  Validators.is_int (lit " 42 ") = true /\
  Validators.is_name (lit " 42 ") = true /\
  Validators.is_path (lit " 42 ") = true.
Proof.
  assert (strip (lit " 42 ") <> []) as A by (vm_compute; discriminate).
  assert (Forall (fun c => between 48 57 c = true) (strip (lit " 42 "))) as B
    by (vm_compute; repeat constructor).
  destruct (proj1 (validators_are_nested (lit " 42 ")) A B) as [I N].
  exact (conj I (conj N (proj2 (validators_are_nested (lit " 42 ")) N))).
Defined.

(** X6.  The two wire forms against [is_walltime]: whatever
    [minutes_to_hms] renders (the OAR form [H:M:0]) passes; what
    [minutes_to_slurm] renders passes exactly below one day, the day form
    [D-HH:MM:00] being rejected.  The OAR form is rendered when the hours,
    [m // 60], are below [10 ^ 4300], and the SLURM form when the days,
    [m // 1440], are; beyond, the functions raise [ValueError]. *)
Theorem wire_forms_against_is_walltime (m : Z) :
  0 <= m ->
  (forall t, Duration.minutes_to_hms m = Py.Ok t ->
             Validators.is_walltime t = true) /\
  (forall t, Duration.minutes_to_slurm m = Py.Ok t ->
             Validators.is_walltime t = (m <? 1440)) /\
  (if m / 60 <? int_limit
   then exists t, Duration.minutes_to_hms m = Py.Ok t
   else Duration.minutes_to_hms m = Py.Raise Py.ValueError) /\
  (if m / 1440 <? int_limit
   then exists t, Duration.minutes_to_slurm m = Py.Ok t
   else Duration.minutes_to_slurm m = Py.Raise Py.ValueError).
Proof.
  intros Hm.
  assert (0 <= m / 60) by (apply Z.div_pos; lia).
  assert (0 <= m / 1440) by (apply Z.div_pos; lia).
  assert (m / 60 < int_limit -> Duration.minutes_to_hms m
                                = Py.Ok (Unbounded.minutes_to_hms m)) as Hms
    by (intros L; now apply minutes_to_hms_renders, renders_below).
  assert (int_limit <= m / 60 -> Duration.minutes_to_hms m = Py.Raise Py.ValueError)
    as Hms' by (intros L; now apply minutes_to_hms_refuses, not_renders_above).
  assert (m / 1440 < int_limit -> Duration.minutes_to_slurm m
                                  = Py.Ok (Unbounded.minutes_to_slurm m)) as Slurm
    by (intros L; now apply minutes_to_slurm_renders, renders_below).
  assert (int_limit <= m / 1440 ->
          Duration.minutes_to_slurm m = Py.Raise Py.ValueError) as Slurm'
    by (intros L; now apply minutes_to_slurm_refuses, not_renders_above).
  repeat split.
  - intros t E. destruct (Z.lt_ge_cases (m / 60) int_limit) as [L|L].
    + rewrite (Hms L) in E. injection E as <-. now apply minutes_to_hms_is_walltime.
    + rewrite (Hms' L) in E. discriminate E.
  - intros t E. destruct (Z.lt_ge_cases (m / 1440) int_limit) as [L|L].
    + rewrite (Slurm L) in E. injection E as <-. now apply minutes_to_slurm_is_walltime.
    + rewrite (Slurm' L) in E. discriminate E.
  - destruct (Z.ltb_spec (m / 60) int_limit); [eauto | auto].
  - destruct (Z.ltb_spec (m / 1440) int_limit); [eauto | auto].
Qed.

Lemma wire_forms_against_is_walltime_witness :
  Validators.is_walltime (lit "25:0:0") = true /\
  Validators.is_walltime (lit "1-01:00:00") = (1500 <? 1440).
Proof.
  assert (0 <= 1500) as H by (vm_compute; discriminate).
  destruct (wire_forms_against_is_walltime 1500 H) as (A & B & _).
  exact (conj (A (lit "25:0:0") eq_refl) (B (lit "1-01:00:00") eq_refl)).
Defined.

(** X7.  The launch forms convert with [int] what [is_int] accepted, after
    stripping it: on a stripped value that [is_int] accepts, [int] gives
    the value of the digits, which is not negative, as long as there are
    at most 4300 of them; on more digits [int] raises [ValueError], which
    [is_int] does not foresee. *)
Theorem int_after_is_int (value : str) :
  Validators.is_int value = true ->
  py_int (strip value)
  = (if (length (strip value) <=? max_str_digits)%nat
     then Py.Ok (int_of_digits (strip value))
     else Py.Raise Py.ValueError) /\
  0 <= int_of_digits (strip value).
Proof.
  intros H. apply is_int_digits in H. split.
  - destruct (Nat.leb_spec (length (strip value)) max_str_digits) as [S|L].
    + now apply int_short.
    + apply int_long; [exact H | unfold short; lia].
  - apply int_of_digits_nonneg, H.
Qed.

Lemma int_after_is_int_witness :
  py_int (strip (lit " 024 ")) = Py.Ok 24 /\ 0 <= 24.
Proof.
  apply (int_after_is_int (lit " 024 ")). vm_compute. reflexivity.
Defined.

(** Stripping first matters: [int] does not skip all the white space that
    [str.strip] removes.  And [is_int] accepts more digits than [int]
    converts. *)
Example is_int_accepts_what_int_rejects :
  Validators.is_int ("028"%char :: lit "5") = true /\
  py_int ("028"%char :: lit "5") = Py.Raise Py.ValueError /\
  Validators.is_int (repeat "1"%char (S max_str_digits)) = true /\
  py_int (repeat "1"%char (S max_str_digits)) = Py.Raise Py.ValueError.
Proof. repeat split; vm_compute; reflexivity. Qed.

(** ** hpc/commands.py: the times of a job *)
Section JobTimeFacts.
Import Text HPC.

Lemma split_app_sep (sep : ascii) (a b : str) :
  Forall (fun c => eqc c sep = false) a ->
  split sep (a ++ sep :: b) = a :: split sep b.
Proof.
  induction 1 as [|c a Hc F IH].
  - cbn [app split]. unfold eqc. now rewrite Ascii.eqb_refl.
  - cbn [app split]. rewrite Hc, IH. reflexivity.
Qed.

Lemma digit_not_colon (c : ascii) : is_digit c = true -> eqc c ":" = false.
Proof.
  destruct c as [[] [] [] [] [] [] [] []]; vm_compute; congruence.
Qed.

(** What a match of the legacy pattern says about the text. *)
Lemma strip_line_feed (x : str) :
  strip x <> [] -> strip (x ++ ["010"%char]) = strip x.
Proof.
  intros NE. unfold strip in *.
  assert (lstrip x <> []) as NL by (intros E; rewrite E in NE; now apply NE).
  rewrite lstrip_app by exact NL. now apply rstrip_all_space.
Qed.

Lemma parse_to_minutes_strip (a b : str) :
  strip a = strip b -> Duration.parse_to_minutes a = Duration.parse_to_minutes b.
Proof. intros E. unfold Duration.parse_to_minutes. now rewrite E. Qed.

Lemma converted_strip (a b : str) : strip a = strip b -> converted a = converted b.
Proof. intros E. unfold converted. now rewrite E. Qed.

(** The first two fields of a wall time, as [wall_minutes] converts
    them. *)
Lemma wall_minutes_fields (j : OARJob) (h mn rest : str) :
  digits h -> digits mn ->
  walltime j = h ++ ":"%char :: mn ++ ":"%char :: rest ->
  wall_minutes j =
  match py_int h, py_int mn with
  | Py.Ok a, Py.Ok b => Some (a * 60 + b)
  | _, _ => None
  end.
Proof.
  intros Dh Dm E. unfold wall_minutes. rewrite E.
  destruct (digits_head h Dh) as (x & r & Eh & _).
  assert (truthy (h ++ ":"%char :: mn ++ ":"%char :: rest) = true) as ->
    by (rewrite Eh; reflexivity).
  cbn [negb].
  rewrite split_app_sep
    by (destruct Dh as [_ F]; revert F; apply Forall_impl, digit_not_colon).
  rewrite split_app_sep
    by (destruct Dm as [_ F]; revert F; apply Forall_impl, digit_not_colon).
  destruct (py_int h); [|reflexivity]. destruct (py_int mn); reflexivity.
Qed.

Lemma wall_minutes_form (j : OARJob) (h mn rest : str) :
  digits h -> digits mn -> short h -> short mn ->
  walltime j = h ++ ":"%char :: mn ++ ":"%char :: rest ->
  wall_minutes j = Some (int_of_digits h * 60 + int_of_digits mn).
Proof.
  intros Dh Dm Sh Sm E. rewrite (wall_minutes_fields j h mn rest Dh Dm E).
  now rewrite !int_short.
Qed.

(** [int(str(n))] is [n], whenever [str(n)] is rendered. *)
Lemma py_int_py_str (n : Z) (s : str) : py_str n = Py.Ok s -> py_int s = Py.Ok n.
Proof.
  unfold py_str.
  destruct (Nat.ltb_spec max_str_digits (length (dec_of_nonneg (Z.abs n))))
    as [L|S]; [discriminate|].
  intros [= <-]. unfold numeral. destruct (Z.ltb_spec n 0) as [Neg|Pos].
  - assert (0 <= - n) as Hn by lia.
    rewrite Z.abs_neq in S by lia.
    destruct (dec_of_nonneg_spec _ Hn) as (F & NE & V).
    unfold py_int. cbn [drop_int_space].
    change (is_int_space "-") with false. cbv iota.
    destruct (digits_last (dec_of_nonneg (- n)) (conj NE F)) as (r & c & E & Hc).
    assert (rev ("-"%char :: dec_of_nonneg (- n)) = c :: rev r ++ ["-"%char]) as R.
    { rewrite E. cbn [rev]. rewrite rev_app_distr. reflexivity. }
    rewrite R. rewrite drop_int_space_head by now apply digit_not_int_space.
    rewrite <- R, rev_involutive.
    change (eqc "-" "-") with true. cbv iota.
    rewrite literal_digits_all by (exact F || now left).
    rewrite int_of_literal_short by exact S. cbn [Py.bind].
    rewrite V. f_equal. lia.
  - rewrite Z.abs_eq in S by lia.
    rewrite int_short; [| split; apply dec_of_nonneg_spec; exact Pos | exact S].
    f_equal. now apply dec_of_nonneg_spec.
Qed.

End JobTimeFacts.

(** X8.  The dashboard and the Duration Codec read a wall time of the
    legacy form alike, up to the way they take a number that [int]
    refuses.  When the [walltime] of a record matches
    [digits:digits:digits] and hours and minutes have at most 4300 digits
    each, [wall_minutes] is hours * 60 + minutes, and [parse_to_minutes]
    returns the same number if the seconds are that short too.  When the
    hours or the minutes have more digits, [wall_minutes] is [None];
    [parse_to_minutes], which also converts the seconds, raises
    [ValueError] as soon as one of the three has more digits. *)
Theorem wall_minutes_agrees_with_codec (j : HPC.OARJob) (h mn sec : str) :
  Duration.match_hms (HPC.walltime j) = Some (h, mn, sec) ->
  (short h -> short mn ->
   HPC.wall_minutes j = Some (int_of_digits h * 60 + int_of_digits mn)) /\
  (~ short h \/ ~ short mn -> HPC.wall_minutes j = None) /\
  (short h -> short mn -> short sec ->
   Duration.parse_to_minutes (HPC.walltime j) = Py.Ok (HPC.wall_minutes j)) /\
  (~ short h \/ ~ short mn \/ ~ short sec ->
   Duration.parse_to_minutes (HPC.walltime j) = Py.Raise Py.ValueError).
Proof.
  intros H. apply match_hms_elim in H as (tail & E & Dh & Dm & Ds & T).
  pose proof (wall_minutes_fields j h mn (sec ++ tail) Dh Dm E) as F.
  assert (strip (HPC.walltime j) = strip (h ++ ":"%char :: mn ++ ":"%char :: sec))
    as St.
  { rewrite E. destruct T as [-> | ->]; [now rewrite app_nil_r|].
    replace (h ++ ":"%char :: mn ++ ":"%char :: sec ++ ["010"%char])
      with ((h ++ ":"%char :: mn ++ ":"%char :: sec) ++ ["010"%char])
      by (now norm_app).
    apply strip_line_feed. rewrite strip_hms_form by assumption.
    destruct (digits_head h Dh) as (x & r & -> & _). discriminate. }
  assert (converted (HPC.walltime j) = [h; mn; sec]) as C
    by (rewrite (converted_strip _ _ St); now apply converted_hms_form).
  split; [|split; [|split]].
  - intros Sh Sm. rewrite F. now rewrite !int_short.
  - intros [L|L]; rewrite F.
    + now rewrite (int_long h).
    + rewrite (int_long mn) by assumption. now destruct (py_int h).
  - intros Sh Sm Ss. rewrite parse_to_minutes_within
      by (rewrite C; repeat (apply Forall_cons; [assumption|]); apply Forall_nil).
    f_equal. rewrite F, !int_short by assumption.
    unfold Unbounded.parse_to_minutes. rewrite St.
    fold (Unbounded.parse_to_minutes (h ++ ":"%char :: mn ++ ":"%char :: sec)).
    now apply parse_hms_form.
  - intros L. apply parse_to_minutes_beyond. rewrite C.
    destruct L as [L|[L|L]];
      [apply Exists_cons_hd | apply Exists_cons_tl, Exists_cons_hd
       | apply Exists_cons_tl, Exists_cons_tl, Exists_cons_hd]; exact L.
Qed.

Lemma wall_minutes_agrees_with_codec_witness :
  HPC.wall_minutes (HPC.set_walltime (HPC.new_job (lit "7")) (lit "24:30:00"))
    = Some (int_of_digits (lit "24") * 60 + int_of_digits (lit "30")) /\
  Duration.parse_to_minutes (lit "24:30:00")
    = Py.Ok (HPC.wall_minutes
               (HPC.set_walltime (HPC.new_job (lit "7")) (lit "24:30:00"))).
Proof.
  assert (short (lit "24") /\ short (lit "30") /\ short (lit "00")) as (A & B & C)
    by (unfold short, max_str_digits; cbn; lia).
  destruct (wall_minutes_agrees_with_codec
              (HPC.set_walltime (HPC.new_job (lit "7")) (lit "24:30:00"))
              (lit "24") (lit "30") (lit "00") eq_refl) as (W & _ & P & _).
  exact (conj (W A B) (P A B C)).
Defined.

(** X9.  A job launched from the form shows the wall time that was typed:
    on a record whose [walltime] is what [minutes_to_hms] rendered for [m]
    minutes, [wall_minutes] is [m]. *)
Theorem wall_minutes_of_launched_job (j : HPC.OARJob) (m : Z) :
  0 <= m ->
  Duration.minutes_to_hms m = Py.Ok (HPC.walltime j) ->
  HPC.wall_minutes j = Some m.
Proof.
  intros Hm E.
  pose proof (Z.mod_pos_bound m 60). pose proof (Z.div_mod m 60).
  assert (0 <= m / 60) as Hh by (apply Z.div_pos; lia).
  assert (0 <= m mod 60) as Hr by lia.
  assert (renders (m / 60)) as R.
  { destruct (Z.lt_ge_cases (m / 60) int_limit) as [L|L];
      [now apply renders_below|].
    rewrite minutes_to_hms_refuses in E by now apply not_renders_above.
    discriminate E. }
  rewrite minutes_to_hms_renders in E by exact R. injection E as E.
  rewrite (wall_minutes_form j (numeral (m / 60)) (numeral (m mod 60)) ["0"%char]).
  - destruct (numeral_spec _ Hh) as (_ & _ & ->).
    destruct (numeral_spec _ Hr) as (_ & _ & ->). f_equal. lia.
  - now apply digits_numeral.
  - now apply digits_numeral.
  - now apply numeral_short.
  - apply numeral_short; [lia | apply small_renders; lia].
  - now rewrite <- E.
Qed.

Lemma wall_minutes_of_launched_job_witness :
  HPC.wall_minutes (HPC.set_walltime (HPC.new_job (lit "7")) (lit "30:30:0"))
  = Some 1830.
Proof.
  apply (wall_minutes_of_launched_job
           (HPC.set_walltime (HPC.new_job (lit "7")) (lit "30:30:0")) 1830).
  - lia.
  - reflexivity.
Defined.

(** X10.  The elapsed time of a record whose [start_time] is the decimal
    rendering [str(ts)] of a time stamp: unknown when [ts] is not
    positive, otherwise the whole minutes since [ts], and zero when the
    clock is behind [ts]. *)
Theorem elapsed_minutes_of_timestamp (now ts : Z) (j : HPC.OARJob) :
  py_str ts = Py.Ok (HPC.start_time j) ->
  HPC.elapsed_minutes now j =
  if ts <=? 0 then None
  else if now <? ts then Some 0
  else Some ((now - ts) / 60).
Proof.
  intros E. unfold HPC.elapsed_minutes. rewrite (py_int_py_str ts _ E).
  assert (truthy (HPC.start_time j) = true) as ->.
  { unfold py_str in E. destruct (_ <? _)%nat; [discriminate E|].
    injection E as <-. unfold numeral. destruct (ts <? 0) eqn:N; [reflexivity|].
    apply Z.ltb_ge in N. destruct (dec_of_nonneg_spec ts N) as (_ & NE & _).
    destruct (dec_of_nonneg ts); [congruence | reflexivity]. }
  cbn [negb]. destruct (Z.leb_spec ts 0) as [L|G]; [reflexivity|].
  destruct (Z.ltb_spec now ts) as [B|A]; f_equal.
  - assert ((now - ts) / 60 < 0) by (apply Z.div_lt_upper_bound; lia). lia.
  - assert (0 <= (now - ts) / 60) by (apply Z.div_pos; lia). lia.
Qed.

Lemma elapsed_minutes_of_timestamp_witness :
  HPC.elapsed_minutes 1700000300
    (HPC.set_start_time (HPC.new_job (lit "7")) (lit "1700000000")) = Some 5.
Proof.
  apply (elapsed_minutes_of_timestamp 1700000300 1700000000
           (HPC.set_start_time (HPC.new_job (lit "7")) (lit "1700000000"))).
  reflexivity.
Defined.

(** X11.  The remaining time is known exactly when the elapsed time and
    the wall time both are; it is then never negative and never more than
    the wall time, and it is what is left of the wall time as long as the
    job has not overrun it. *)
Theorem remaining_minutes_bounds (now : Z) (j : HPC.OARJob) :
  match HPC.remaining_minutes now j with
  | Some r =>
      exists e w,
        HPC.elapsed_minutes now j = Some e /\ HPC.wall_minutes j = Some w /\
        0 <= e /\ 0 <= r /\ r <= Z.max 0 w /\ (e <= w -> e + r = w)
  | None => HPC.elapsed_minutes now j = None \/ HPC.wall_minutes j = None
  end.
Proof.
  unfold HPC.remaining_minutes.
  destruct (HPC.elapsed_minutes now j) as [e|] eqn:E; [|now left].
  destruct (HPC.wall_minutes j) as [w|] eqn:W; [|now right].
  assert (0 <= e) as He.
  { unfold HPC.elapsed_minutes in E.
    destruct (negb (truthy (HPC.start_time j))); [discriminate|].
    destruct (py_int (HPC.start_time j)) as [ts|]; [|discriminate].
    destruct (ts <=? 0); [discriminate|]. injection E as <-. lia. }
  exists e, w. repeat split; lia.
Qed.

(** ** hpc/app.py and conv/app.py: the dashboard *)
Section DashboardFacts.
Import Text Py Dashboard.














End DashboardFacts.



(** ** hpc/app.py and conv/app.py: the launch forms *)
Section FormFacts.
Import Text Py Forms.

Lemma digit_inert (c : ascii) : is_digit c = true -> inert c = true.
Proof.
  destruct c as [[] [] [] [] [] [] [] []]; vm_compute; congruence.
Qed.

Lemma digits_inert (ds : str) : digits ds -> inert_text ds.
Proof. intros [_ F]. revert F. apply Forall_impl, digit_inert. Qed.

Lemma name_char_inert (c : ascii) : Validators.is_name_char c = true -> inert c = true.
Proof. unfold inert. now intros ->. Qed.

Lemma minutes_to_hms_inert (m : Z) : 0 <= m -> inert_text (Unbounded.minutes_to_hms m).
Proof.
  intros Hm. unfold Unbounded.minutes_to_hms, inert_text.
  pose proof (Z.mod_pos_bound m 60).
  assert (0 <= m / 60) by (apply Z.div_pos; lia).
  rewrite !Forall_app. repeat split.
  - apply digits_inert, digits_numeral; lia.
  - repeat constructor.
  - apply digits_inert, digits_numeral; lia.
  - repeat constructor.
Qed.

Lemma minutes_to_slurm_inert (m : Z) : 0 <= m -> inert_text (Unbounded.minutes_to_slurm m).
Proof.
  intros Hm. unfold Unbounded.minutes_to_slurm, inert_text.
  pose proof (Z.mod_pos_bound m 60).
  pose proof (Z.mod_pos_bound (m / 60) 24).
  assert (0 <= m / 60) by (apply Z.div_pos; lia).
  assert (0 <= m / 60 / 24) by (apply Z.div_pos; lia).
  destruct (m / 60 >=? 24); rewrite !Forall_app; repeat split;
    try (repeat constructor; fail);
    first [ apply digits_inert, digits_numeral; lia
          | apply digits_inert, digits_fmt_02d; lia ].
Qed.

Lemma mode_of_pressed (idx : Z) :
  idx < 3 -> exists mode, mode_of idx = Some mode /\ In mode modes.
Proof.
  intros H. unfold mode_of. destruct (Z.geb_spec idx 0) as [G|L].
  - assert (idx = 0 \/ idx = 1 \/ idx = 2) as [-> | [-> | ->]] by lia;
      eexists; (split; [reflexivity|]); cbn; tauto.
  - eexists. split; [reflexivity|]. cbn; tauto.
Qed.

Lemma gpu_type_of_listed (gpu_idx : Z) :
  exists g, ConvForms.gpu_type_of gpu_idx = Some g /\
            In g (map fst ConvForms.GPU_TYPES).
Proof.
  unfold ConvForms.gpu_type_of.
  destruct ((0 <=? gpu_idx) && (gpu_idx <? Z.of_nat (length ConvForms.GPU_TYPES))) eqn:R.
  - apply andb_true_iff in R as [R1 R2]. apply Z.leb_le in R1. apply Z.ltb_lt in R2.
    cbn in R2.
    assert (gpu_idx = 0 \/ gpu_idx = 1) as [-> | ->] by lia;
      eexists; (split; [reflexivity|]); cbn; tauto.
  - eexists. split; [reflexivity|]. cbn; tauto.
Qed.

Lemma gpu_types_inert (g : str) : In g (map fst ConvForms.GPU_TYPES) -> inert_text g.
Proof.
  cbn. intros [<- | [<- | []]]; unfold inert_text;
    repeat (constructor; [reflexivity|]); constructor.
Qed.

Lemma parse_to_minutes_of_stripped (s : str) :
  Duration.parse_to_minutes (strip s) = Duration.parse_to_minutes s.
Proof. apply parse_to_minutes_strip, strip_idem. Qed.

(** What the forms have in hand once the duration has been read: the three
    ways [parse_to_minutes] can end. *)
Lemma parse_to_minutes_outcome (text : str) :
  (Duration.parse_to_minutes text = Raise ValueError /\
   Exists (fun ds => ~ short ds) (converted text))
  \/
  (Forall short (converted text) /\
   (Duration.parse_to_minutes text = Ok None \/
    exists m, Duration.parse_to_minutes text = Ok (Some m) /\ 0 <= m)).
Proof.
  destruct (Forall_Exists_dec short short_dec (converted text)) as [F|E].
  - right. split; [exact F|]. rewrite (parse_to_minutes_within text F).
    destruct (Unbounded.parse_to_minutes text) as [m|] eqn:U; [|now left].
    right. exists m. split; [reflexivity|]. eapply parse_to_minutes_nonneg, U.
  - left. split; [now apply parse_to_minutes_beyond | exact E].
Qed.

Lemma not_all_short (l : list str) :
  Forall short l -> Exists (fun ds => ~ short ds) l -> False.
Proof.
  intros F E. apply Exists_exists in E as (ds & I & N).
  apply N. exact (proj1 (Forall_forall _ _) F ds I).
Qed.

(** The arguments [int(cores), minutes_to_hms(minutes)] of the HPC form. *)
Lemma hpc_arguments (cores : str) (m : Z) :
  digits cores -> 0 <= m ->
  (short cores /\ m / 60 < int_limit /\
   (n <- py_int cores;; walltime <- Duration.minutes_to_hms m;; Ok (n, walltime))%py
   = Ok (int_of_digits cores, Unbounded.minutes_to_hms m))
  \/
  ((~ short cores \/ int_limit <= m / 60) /\
   (n <- py_int cores;; walltime <- Duration.minutes_to_hms m;; Ok (n, walltime))%py
   = Raise ValueError).
Proof.
  intros D Hm. assert (0 <= m / 60) by (apply Z.div_pos; lia).
  destruct (short_dec cores) as [S|L].
  - rewrite int_short by assumption. cbn [bind].
    destruct (Z.lt_ge_cases (m / 60) int_limit) as [Lm|Gm].
    + left. rewrite minutes_to_hms_renders by now apply renders_below. now repeat split.
    + right. rewrite minutes_to_hms_refuses by now apply not_renders_above.
      split; [now right | reflexivity].
  - right. rewrite int_long by assumption. split; [now left | reflexivity].
Qed.

End FormFacts.

(** X13.  The launch form of the HPC application, whatever is typed into
    it, with the mode index a [RadioSet] of three buttons can give (below
    3).  The handler raises nothing but [ValueError], and that exactly
    when the cores pass [is_int] and a number meets the interpreter's
    limit of 4300 digits: a number of the duration, or the cores, or the
    hours of the duration when they are rendered.  When it raises it has
    made no request; otherwise it either shows one error and requests
    nothing, or makes one request.  A request carries the cores as a
    non-negative number, the value of the digits typed, and a wall time
    that passes [is_walltime], parses back to the minutes of the duration
    typed, and is made of digits and colons only. *)
Theorem hpc_launch_form_requests (cores_value duration_value : str) (idx : Z) :
  idx < 3 ->
  exists acts outcome,
    HPCForms.LaunchScreen_submit cores_value duration_value idx = (acts, outcome) /\
    (outcome = None \/ outcome = Some Py.ValueError) /\
    (outcome = Some Py.ValueError <->
     Validators.is_int cores_value = true /\
     (Exists (fun ds => ~ short ds) (converted duration_value) \/
      exists m, Duration.parse_to_minutes duration_value = Py.Ok (Some m) /\
                (~ short (strip cores_value) \/ int_limit <= m / 60))) /\
    (outcome = None ->
     (exists message, acts = [HPCForms.Notify message Tracker.Error]) \/
     (exists a, In a acts /\ hpc_request a <> None)) /\
    (outcome = Some Py.ValueError -> forall a, In a acts -> hpc_request a = None) /\
    forall a n w, In a acts -> hpc_request a = Some (n, w) ->
      Validators.is_int cores_value = true /\
      n = int_of_digits (strip cores_value) /\ 0 <= n /\
      Validators.is_walltime w = true /\ inert_text w /\
      Duration.parse_to_minutes w = Duration.parse_to_minutes duration_value.
Proof.
  intros Hidx. unfold HPCForms.LaunchScreen_submit.
  rewrite parse_to_minutes_of_stripped.
  assert (Validators.is_int (strip cores_value) = Validators.is_int cores_value) as Ic
    by (unfold Validators.is_int; now rewrite strip_idem).
  rewrite Ic.
  destruct (Validators.is_int cores_value) eqn:I; cbn [negb].
  2:{ eexists _, None. split; [reflexivity|]. split; [now left|].
      split; [split; [discriminate | intros [? _]; discriminate]|].
      split; [intros _; left; eauto|]. split; [discriminate|].
      intros a n w [<-|[]] R. discriminate R. }
  pose proof (proj1 (is_int_digits cores_value) I) as D.
  destruct (parse_to_minutes_outcome duration_value)
    as [[P L]|[S [P|(m & P & Hm)]]]; rewrite P.
  - (* a number of the duration is too long *)
    exists [], (Some Py.ValueError). split; [reflexivity|]. split; [now right|].
    split; [split; [intros _; split; [reflexivity | now left] | reflexivity]|].
    split; [discriminate|]. split; [intros _ a []|]. intros a n w [].
  - (* no duration *)
    eexists _, None. split; [reflexivity|]. split; [now left|].
    split.
    { split; [discriminate|]. intros [_ [L|(m & E & _)]]; [|discriminate E].
      now elim (not_all_short _ S L). }
    split; [intros _; left; eauto|]. split; [discriminate|].
    intros a n w [<-|[]] R. discriminate R.
  - destruct (mode_of_pressed idx Hidx) as (mode & -> & _).
    destruct (hpc_arguments (strip cores_value) m D Hm) as [(Sc & Lm & ->)|[C ->]].
    + (* the request *)
      assert (forall n w,
                (n, w) = (int_of_digits (strip cores_value),
                          Unbounded.minutes_to_hms m) ->
                true = true /\
                n = int_of_digits (strip cores_value) /\ 0 <= n /\
                Validators.is_walltime w = true /\ inert_text w /\
                Duration.parse_to_minutes w = Py.Ok (Some m)) as K.
      { intros n w [= -> ->]. repeat split.
        - apply int_of_digits_nonneg, D.
        - now apply minutes_to_hms_is_walltime.
        - now apply minutes_to_hms_inert.
        - apply parse_hms_rendered; [exact Hm|].
          apply renders_below; [apply Z.div_pos; lia | exact Lm]. }
      assert (~ (true = true /\
                 (Exists (fun ds => ~ short ds) (converted duration_value) \/
                  exists m', Py.Ok (Some m) = Py.Ok (Some m') /\
                             (~ short (strip cores_value) \/ int_limit <= m' / 60))))
        as NoLimit.
      { intros [_ [L|(m' & [= <-] & [N|G])]];
          [now elim (not_all_short _ S L) | now elim N | lia]. }
      destruct (eqs mode (lit "custom")).
      * eexists _, None. split; [reflexivity|]. split; [now left|].
        split; [split; [discriminate | intros X; now elim NoLimit]|].
        split; [intros _; right; eexists; split; [now left | discriminate]|].
        split; [discriminate|].
        intros a n w [<-|[]] R. apply K. now injection R as <- <-.
      * eexists _, None. split; [reflexivity|]. split; [now left|].
        split; [split; [discriminate | intros X; now elim NoLimit]|].
        split; [intros _; right; eexists; split; [right; now left | discriminate]|].
        split; [discriminate|].
        intros a n w [<-|[<-|[]]] R; [discriminate R|].
        apply K. now injection R as <- <-.
    + (* the cores or the hours are too long *)
      assert (true = true /\
              (Exists (fun ds => ~ short ds) (converted duration_value) \/
               exists m', Py.Ok (Some m) = Py.Ok (Some m') /\
                          (~ short (strip cores_value) \/ int_limit <= m' / 60)))
        as Limit by (split; [reflexivity | right; exists m; now split]).
      destruct (eqs mode (lit "custom")).
      * exists [], (Some Py.ValueError). split; [reflexivity|]. split; [now right|].
        split; [split; [intros _; exact Limit | reflexivity]|].
        split; [discriminate|]. split; [intros _ a []|]. intros a n w [].
      * exists [HPCForms.PopScreen], (Some Py.ValueError).
        split; [reflexivity|]. split; [now right|].
        split; [split; [intros _; exact Limit | reflexivity]|].
        split; [discriminate|].
        split; [intros _ a [<-|[]]; reflexivity|].
        intros a n w [<-|[]] R. discriminate R.
Qed.

Lemma hpc_launch_form_requests_witness :
  exists acts,
    HPCForms.LaunchScreen_submit (lit " 24") (lit "1d 6h 30m") 1 = (acts, None) /\
    exists a, In a acts /\ hpc_request a = Some (24, lit "30:30:0").
Proof.
  destruct (hpc_launch_form_requests (lit " 24") (lit "1d 6h 30m") 1 ltac:(lia))
    as (acts & outcome & E & _).
  injection E as <- <-. eexists. split; [reflexivity|].
  eexists. split; [right; left; reflexivity | reflexivity].
Defined.

(** X14.  The launch form of the Convergence application, with a mode
    index below 3 and any GPU index.  The handler raises nothing but
    [ValueError], and that exactly when the GPU count passes [is_int] and a
    number meets the interpreter's limit of 4300 digits: a number of the
    duration, or, once the job name has passed [is_name], the days of the
    duration when they are rendered or the GPU count.  When it raises it
    has made no request; otherwise it either shows one error and requests
    nothing, or makes one request.  A request carries a GPU type of the
    list, the count as a non-negative number, the stripped job name, which
    passes [is_name], and the SLURM rendering of the minutes of the
    duration typed.  The three texts of a request are made of name
    characters and colons only, so none of them can close a quote of the
    command they are put into. *)
Theorem conv_launch_form_requests
  (gpu_idx : Z) (gpu_count_value duration_value name_value : str) (mode_idx : Z) :
  mode_idx < 3 ->
  exists acts outcome,
    ConvForms.LaunchScreen_submit gpu_idx gpu_count_value duration_value name_value
      mode_idx = (acts, outcome) /\
    (outcome = None \/ outcome = Some Py.ValueError) /\
    (outcome = Some Py.ValueError <->
     Validators.is_int gpu_count_value = true /\
     (Exists (fun ds => ~ short ds) (converted duration_value) \/
      exists m, Duration.parse_to_minutes duration_value = Py.Ok (Some m) /\
                Validators.is_name name_value = true /\
                (int_limit <= m / 1440 \/ ~ short (strip gpu_count_value)))) /\
    (outcome = None ->
     (exists message, acts = [ConvForms.Notify message Tracker.Error]) \/
     (exists a, In a acts /\ conv_request a <> None)) /\
    (outcome = Some Py.ValueError -> forall a, In a acts -> conv_request a = None) /\
    forall a g n w name, In a acts -> conv_request a = Some (g, n, w, name) ->
      In g (map fst ConvForms.GPU_TYPES) /\
      Validators.is_int gpu_count_value = true /\
      n = int_of_digits (strip gpu_count_value) /\ 0 <= n /\
      name = strip name_value /\ Validators.is_name name = true /\
      (exists m, Duration.parse_to_minutes duration_value = Py.Ok (Some m) /\
                 Duration.minutes_to_slurm m = Py.Ok w) /\
      inert_text g /\ inert_text w /\ inert_text name.
Proof.
  intros Hidx. unfold ConvForms.LaunchScreen_submit.
  destruct (gpu_type_of_listed gpu_idx) as (g0 & -> & Hg).
  rewrite parse_to_minutes_of_stripped.
  assert (Validators.is_int (strip gpu_count_value)
          = Validators.is_int gpu_count_value) as ->
    by (unfold Validators.is_int; now rewrite strip_idem).
  assert (Validators.is_name (strip name_value) = Validators.is_name name_value) as En
    by (unfold Validators.is_name; now rewrite strip_idem).
  rewrite En.
  destruct (Validators.is_int gpu_count_value) eqn:I; cbn [negb].
  2:{ eexists _, None. split; [reflexivity|]. split; [now left|].
      split; [split; [discriminate | intros [? _]; discriminate]|].
      split; [intros _; left; eauto|]. split; [discriminate|].
      intros a g n w name [<-|[]] R. discriminate R. }
  pose proof (proj1 (is_int_digits gpu_count_value) I) as D.
  destruct (parse_to_minutes_outcome duration_value)
    as [[P L]|[S [P|(m & P & Hm)]]]; rewrite P.
  - exists [], (Some Py.ValueError). split; [reflexivity|]. split; [now right|].
    split; [split; [intros _; split; [reflexivity | now left] | reflexivity]|].
    split; [discriminate|]. split; [intros _ a []|]. intros a g n w name [].
  - eexists _, None. split; [reflexivity|]. split; [now left|].
    split.
    { split; [discriminate|]. intros [_ [L|(m & E & _)]]; [|discriminate E].
      now elim (not_all_short _ S L). }
    split; [intros _; left; eauto|]. split; [discriminate|].
    intros a g n w name [<-|[]] R. discriminate R.
  - destruct (Validators.is_name name_value) eqn:N; cbn [negb].
    2:{ eexists _, None. split; [reflexivity|]. split; [now left|].
        split.
        { split; [discriminate|]. intros [_ [L|(m' & _ & X & _)]]; [|discriminate X].
          now elim (not_all_short _ S L). }
        split; [intros _; left; eauto|]. split; [discriminate|].
        intros a g n w name [<-|[]] R. discriminate R. }
    destruct (mode_of_pressed mode_idx Hidx) as (mode & -> & _).
    assert (0 <= m / 1440) by (apply Z.div_pos; lia).
    assert (forall X : Prop,
              (true = true /\
               (Exists (fun ds => ~ short ds) (converted duration_value) \/
                exists m', Py.Ok (Some m) = Py.Ok (Some m') /\ true = true /\
                           (int_limit <= m' / 1440 \/ ~ short (strip gpu_count_value))))
              <-> (int_limit <= m / 1440 \/ ~ short (strip gpu_count_value))) as Limit.
    { intros _. split.
      - intros [_ [L|(m' & [= <-] & _ & C)]]; [now elim (not_all_short _ S L) | exact C].
      - intros C. split; [reflexivity|]. right. exists m. now repeat split. }
    specialize (Limit True).
    destruct (Z.lt_ge_cases (m / 1440) int_limit) as [Lm|Gm].
    2:{ rewrite minutes_to_slurm_refuses by (try exact Hm; now apply not_renders_above).
        exists [], (Some Py.ValueError). split; [reflexivity|]. split; [now right|].
        split; [split; [intros _; apply Limit; now left | reflexivity]|].
        split; [discriminate|]. split; [intros _ a []|]. intros a g n w name []. }
    assert (Duration.minutes_to_slurm m = Py.Ok (Unbounded.minutes_to_slurm m)) as Sl
      by (apply minutes_to_slurm_renders; [exact Hm | now apply renders_below]).
    rewrite Sl.
    destruct (short_dec (strip gpu_count_value)) as [Sc|Lc].
    2:{ rewrite int_long by assumption.
        destruct (eqs mode (lit "custom")).
        - exists [], (Some Py.ValueError). split; [reflexivity|]. split; [now right|].
          split; [split; [intros _; apply Limit; now right | reflexivity]|].
          split; [discriminate|]. split; [intros _ a []|]. intros a g n w name [].
        - exists [ConvForms.PopScreen], (Some Py.ValueError).
          split; [reflexivity|]. split; [now right|].
          split; [split; [intros _; apply Limit; now right | reflexivity]|].
          split; [discriminate|].
          split; [intros _ a [<-|[]]; reflexivity|].
          intros a g n w name [<-|[]] R. discriminate R. }
    rewrite int_short by assumption.
    assert (forall g n w name,
              (g, n, w, name) = (g0, int_of_digits (strip gpu_count_value),
                                 Unbounded.minutes_to_slurm m, strip name_value) ->
              In g (map fst ConvForms.GPU_TYPES) /\
              true = true /\
              n = int_of_digits (strip gpu_count_value) /\ 0 <= n /\
              name = strip name_value /\ Validators.is_name name = true /\
              (exists m', Py.Ok (Some m) = Py.Ok (Some m') /\
                          Duration.minutes_to_slurm m' = Py.Ok w) /\
              inert_text g /\ inert_text w /\ inert_text name) as K.
    { intros g n w name [= -> -> -> ->].
      repeat match goal with |- _ /\ _ => split end; try assumption; try reflexivity.
      - apply int_of_digits_nonneg, D.
      - exists m. now split.
      - now apply gpu_types_inert.
      - now apply minutes_to_slurm_inert.
      - apply (class_validator Validators.is_name_char) in N as [_ F].
        revert F. apply Forall_impl, name_char_inert. }
    assert (~ (int_limit <= m / 1440 \/ ~ short (strip gpu_count_value))) as NoLimit
      by (intros [G|G]; [lia | now elim G]).
    destruct (eqs mode (lit "custom")).
    + eexists _, None. split; [reflexivity|]. split; [now left|].
      split; [split; [discriminate | intros X; apply Limit in X; now elim NoLimit]|].
      split; [intros _; right; eexists; split; [now left | discriminate]|].
      split; [discriminate|].
      intros a g n w name [<-|[]] R. apply K. now injection R as <- <- <- <-.
    + eexists _, None. split; [reflexivity|]. split; [now left|].
      split; [split; [discriminate | intros X; apply Limit in X; now elim NoLimit]|].
      split; [intros _; right; eexists; split; [right; now left | discriminate]|].
      split; [discriminate|].
      intros a g n w name [<-|[<-|[]]] R; [discriminate R|].
      apply K. now injection R as <- <- <- <-.
Qed.

Lemma conv_launch_form_requests_witness :
  exists acts,
    ConvForms.LaunchScreen_submit 1 (lit "2") (lit "3d") (lit "gpu-session") (-1)
      = (acts, None) /\
    exists a, In a acts /\
              conv_request a
              = Some (lit "a100_3g.40gb", 2, lit "3-00:00:00", lit "gpu-session").
Proof.
  destruct (conv_launch_form_requests 1 (lit "2") (lit "3d") (lit "gpu-session") (-1)
              ltac:(lia)) as (acts & outcome & E & _).
  injection E as <- <-. eexists. split; [reflexivity|].
  eexists. split; [right; left; reflexivity | reflexivity].
Defined.

(** X15.  The script forms of both applications submit exactly the paths
    that pass [is_path]: the path handed on is the typed value without the
    white space around it, it is not empty, and it is made of path
    characters only, so it holds no quote.  Any other value gets the error
    notification and nothing is submitted or closed. *)
Theorem script_forms_submit_clean_paths
  (cores num_gpus : Z) (walltime gpu_type job_name path_value : str) :
  let hpc := HPCForms.CustomScriptScreen_submit cores walltime path_value in
  let conv := ConvForms.CustomScriptScreen_submit gpu_type num_gpus walltime job_name
                path_value in
  if Validators.is_path path_value then
    hpc = [HPCForms.PopScreen; HPCForms.PopScreen;
           HPCForms.SubmitCustom cores walltime (strip path_value)] /\
    conv = [ConvForms.PopScreen; ConvForms.PopScreen;
            ConvForms.SubmitCustom gpu_type num_gpus walltime job_name
              (strip path_value)] /\
    strip path_value <> [] /\
    Forall (fun c => Validators.is_path_char c = true) (strip path_value) /\
    ~ In "'"%char (strip path_value) /\ ~ In "034"%char (strip path_value)
  else
    hpc = [HPCForms.Notify (lit "Invalid script path") Tracker.Error] /\
    conv = [ConvForms.Notify (lit "Invalid script path") Tracker.Error].
Proof.
  cbn zeta. unfold HPCForms.CustomScriptScreen_submit, ConvForms.CustomScriptScreen_submit.
  assert (Validators.is_path (strip path_value) = Validators.is_path path_value) as ->
    by (unfold Validators.is_path; now rewrite strip_idem).
  destruct (Validators.is_path path_value) eqn:P.
  - apply (class_validator Validators.is_path_char) in P as [NE F].
    destruct (strip path_value) as [|c p] eqn:E; [congruence|]. cbn [truthy negb orb].
    repeat split; try congruence; try exact F.
    + intros Q. rewrite Forall_forall in F. apply F in Q. discriminate Q.
    + intros Q. rewrite Forall_forall in F. apply F in Q. discriminate Q.
  - rewrite orb_true_r. split; reflexivity.
Qed.

(** ** hpc/app.py and conv/app.py: the session that opens *)
Section SessionFacts.
Import Text Py Tracker.

Lemma search_port_skip (c : ascii) (r : str) :
  eqc c ":" = false -> search_port (c :: r) = search_port r.
Proof. intros H. cbn [search_port]. now rewrite H. Qed.

Lemma search_port_prefix (p s : str) :
  Forall (fun c => eqc c ":" = false) p -> search_port (p ++ s) = search_port s.
Proof.
  induction 1 as [|c p Hc F IH]; [reflexivity|].
  rewrite <- app_comm_cons. now rewrite search_port_skip.
Qed.

Lemma search_port_colon_no_digit (c : ascii) (r : str) :
  is_digit c = false -> search_port (":"%char :: c :: r) = search_port (c :: r).
Proof.
  intros H. cbn [search_port]. change (eqc ":" ":") with true. cbv iota.
  cbn [span]. now rewrite H.
Qed.

Lemma search_port_hit (port rest : str) :
  digits port -> search_port (":"%char :: port ++ "/"%char :: rest) = Some port.
Proof.
  intros [NE F]. cbn [search_port]. change (eqc ":" ":") with true. cbv iota.
  rewrite (span_app is_digit port _ F) by reflexivity.
  destruct port; [congruence | reflexivity].
Qed.

Lemma search_port_no_colon (s : str) :
  Forall (fun c => eqc c ":" = false) s -> search_port s = None.
Proof.
  intros F. rewrite <- (app_nil_r s). now rewrite search_port_prefix.
Qed.

Lemma sub_localhost_hit (host tail : str) :
  Forall (fun c => eqc c ":" = false) host ->
  sub_localhost (lit "http://" ++ host ++ ":"%char :: tail)
    = lit "http://localhost:" ++ tail.
Proof.
  intros F.
  assert (span (fun c => negb (eqc c ":")) (host ++ ":"%char :: tail)
          = (host, ":"%char :: tail)) as E.
  { apply span_app; [|reflexivity].
    revert F. apply Forall_impl. now intros c ->. }
  change (lit "http://" ++ host ++ ":"%char :: tail)
    with ("h"%char :: lit "ttp://" ++ host ++ ":"%char :: tail).
  cbn [sub_localhost].
  change ("h"%char :: lit "ttp://" ++ host ++ ":"%char :: tail)
    with (lit "http://" ++ (host ++ ":"%char :: tail)).
  rewrite strip_prefix_intro, E. reflexivity.
Qed.

Lemma sub_localhost_no_colon (s : str) :
  Forall (fun c => eqc c ":" = false) s -> sub_localhost s = s.
Proof.
  induction 1 as [|c s Hc F IH]; [reflexivity|].
  cbn [sub_localhost].
  destruct (strip_prefix (lit "http://") (c :: s)) as [r|] eqn:P.
  - apply strip_prefix_app in P.
    assert (In ":"%char (c :: s)) as I by (rewrite P; cbn; tauto).
    assert (Forall (fun c => eqc c ":" = false) (c :: s)) as F' by now constructor.
    rewrite Forall_forall in F'. apply F' in I. discriminate I.
  - now rewrite IH.
Qed.

Lemma polled_found (command : str) (n : nat) (evs : list event) (url : str) :
  polled command n evs url -> url <> [] ->
  exists r, In (Ran command 30 r) evs /\ url = strip (stdout_of r).
Proof.
  induction 1 as [|r T|r n evs url T P IH]; intros NE.
  - congruence.
  - exists r. split; [now left | reflexivity].
  - destruct (IH NE) as (r' & I & E). exists r'. split; [right; right; exact I | exact E].
Qed.

Section WithRemote.
Context {W : Type}.
Variable run : str -> Z -> M W RemoteCommandResult.
Variable sched : scheduler.

(** The session screen [_connect_to] opens, if any. *)
Lemma connect_trace_pushed (job_id : str) (w : W) (screen : session_screen) :
  In (Pushed screen) (connect_trace run sched job_id w) ->
  let node := strip (stdout_of (fst (run (node_command sched job_id) 30 w))) in
  node_found node /\
  exists r port,
    In (Ran (url_command sched job_id) 30 r) (connect_trace run sched job_id w) /\
    strip (stdout_of r) <> [] /\
    port_of sched (strip (stdout_of r)) = Ok port /\
    screen = mkSessionScreen job_id node (strip (stdout_of r))
               (sub_localhost (strip (stdout_of r))) port.
Proof.
  intros I node.
  destruct (connect_trace_exact run sched job_id w)
    as [[_ E]|(NF & n & evs & url & P & _ & _ & E)]; rewrite E in I |- *.
  - destruct I as [I|[I|[]]]; discriminate I.
  - split; [exact NF|].
    destruct (polled_runs _ _ _ _ P) as (_ & _ & _ & Hev).
    destruct I as [I|[I|I]]; try discriminate I.
    apply in_app_iff in I as [I|I].
    + apply Hev in I as [[r I]|I]; discriminate I.
    + destruct (finish_cases sched job_id
                  (strip (stdout_of (fst (run (node_command sched job_id) 30 w)))) url)
        as [[_ F]|[NE [(port & PO & F)|[F _]]]]; rewrite F in I.
      * destruct I as [I|[]]. discriminate I.
      * destruct I as [I|[]].
        destruct (polled_found _ _ _ _ P NE) as (r & Ir & Er).
        exists r, port. rewrite <- Er. split; [|split; [|split]].
        -- right. right. apply in_app_iff. now left.
        -- exact NE.
        -- exact PO.
        -- now injection I as <-.
      * destruct I.
Qed.

End WithRemote.
End SessionFacts.

(** X16.  What [_connect_to] makes of a service URL.  From a URL of the
    form [http://host:port/rest], with no colon in [host], the port read
    is [port] and the local URL is [http://localhost:port/rest].  From
    text with no colon at all no port is read (the scheduler's default
    port is then taken) and the text is left as it is. *)
Theorem session_address_of_url (host port rest plain : str) :
  Forall (fun c => eqc c ":" = false) host ->
  digits port ->
  Forall (fun c => eqc c ":" = false) plain ->
  Tracker.search_port (lit "http://" ++ host ++ ":"%char :: port ++ "/"%char :: rest)
    = Some port /\
  Tracker.sub_localhost (lit "http://" ++ host ++ ":"%char :: port ++ "/"%char :: rest)
    = lit "http://localhost:" ++ port ++ "/"%char :: rest /\
  Tracker.search_port plain = None /\
  Tracker.sub_localhost plain = plain.
Proof.
  intros Fh Dp Fp. split; [|split; [|split]].
  - change (lit "http://" ++ host ++ ":"%char :: port ++ "/"%char :: rest)
      with (lit "http" ++ ":"%char :: "/"%char ::
            ("/"%char :: host ++ ":"%char :: port ++ "/"%char :: rest)).
    rewrite search_port_prefix by (repeat constructor).
    rewrite search_port_colon_no_digit by reflexivity.
    change ("/"%char :: "/"%char :: host ++ ":"%char :: port ++ "/"%char :: rest)
      with (lit "//" ++ host ++ ":"%char :: port ++ "/"%char :: rest).
    rewrite search_port_prefix by (repeat constructor).
    rewrite search_port_prefix by exact Fh.
    now apply search_port_hit.
  - now apply sub_localhost_hit.
  - now apply search_port_no_colon.
  - now apply sub_localhost_no_colon.
Qed.

Lemma session_address_of_url_witness :
  Tracker.search_port (lit "http://" ++ lit "big12" ++ ":"%char :: lit "8888" ++
                       "/"%char :: lit "lab?token=abc")
    = Some (lit "8888") /\
  Tracker.sub_localhost (lit "http://" ++ lit "big12" ++ ":"%char :: lit "8888" ++
                         "/"%char :: lit "lab?token=abc")
    = lit "http://localhost:" ++ lit "8888" ++ "/"%char :: lit "lab?token=abc" /\
  Tracker.search_port (lit "no address yet") = None /\
  Tracker.sub_localhost (lit "no address yet") = lit "no address yet".
Proof.
  apply (session_address_of_url (lit "big12") (lit "8888") (lit "lab?token=abc")
           (lit "no address yet")).
  - repeat constructor.
  - split; [discriminate | repeat constructor].
  - repeat constructor.
Defined.

(** X17.  The session screen that endpoint resolution opens, for either
    scheduler, any remote world and any job: it is for the job asked for;
    its node is the stripped answer of the node query, non-empty and made
    of name characters only; its URL is the stripped, non-empty answer of
    one of the URL queries that were run; the local URL and the port are
    derived from that URL, and the port is never negative. *)
Theorem session_screen_matches_the_job (W : Type)
  (run : str -> Z -> Py.M W RemoteCommandResult) (sched : Tracker.scheduler)
  (job_id : str) (w : W) (screen : Tracker.session_screen) :
  In (Tracker.Pushed screen) (Tracker.connect_trace run sched job_id w) ->
  Tracker.ss_job_id screen = job_id /\
  Tracker.ss_node screen
    = strip (stdout_of (fst (run (node_command sched job_id) 30 w))) /\
  Tracker.ss_node screen <> [] /\
  Forall (fun c => Validators.is_name_char c = true) (Tracker.ss_node screen) /\
  (exists r,
     In (Tracker.Ran (url_command sched job_id) 30 r)
        (Tracker.connect_trace run sched job_id w) /\
     Tracker.ss_url screen = strip (stdout_of r)) /\
  Tracker.ss_url screen <> [] /\
  Tracker.ss_local_url screen = Tracker.sub_localhost (Tracker.ss_url screen) /\
  Tracker.ss_port screen =
    match Tracker.search_port (Tracker.ss_url screen) with
    | Some ds => int_of_digits ds
    | None => Tracker.default_port sched
    end /\
  0 <= Tracker.ss_port screen.
Proof.
  intros I. apply connect_trace_pushed in I as (NF & r & port & Ir & NE & PO & ->).
  unfold Tracker.port_of in PO.
  cbn [Tracker.ss_job_id Tracker.ss_node Tracker.ss_url Tracker.ss_local_url
       Tracker.ss_port].
  unfold node_found in NF. apply orb_false_iff in NF as [N1 N2].
  apply negb_false_iff in N1, N2.
  apply (class_validator Validators.is_name_char) in N2 as [N2 N3].
  rewrite strip_idem in N2, N3.
  assert (forall u ds, Tracker.search_port u = Some ds ->
            Forall (fun c => is_digit c = true) ds) as SP.
  { clear. induction u as [|c u IH]; intros ds; cbn [Tracker.search_port].
    - discriminate.
    - destruct (eqc c ":").
      + pose proof (span_fst_all is_digit u) as F.
        destruct (span is_digit u) as [ds' r']; cbn [fst] in F.
        destruct ds' as [|d ds']; [apply IH|].
        destruct r' as [|c' r']; [apply IH|].
        destruct (eqc c' "/"); [|apply IH]. now intros [= <-].
      + apply IH. }
  repeat match goal with |- _ /\ _ => split end; try reflexivity; try assumption.
  - exists r. now split.
  - destruct (Tracker.search_port (strip (stdout_of r))) as [ds|] eqn:S;
      [|now injection PO].
    rewrite py_int_digits_literal in PO by (eapply search_port_digits, S).
    unfold int_of_literal in PO. destruct (_ <? _)%nat; [discriminate PO|].
    now injection PO.
  - destruct (Tracker.search_port (strip (stdout_of r))) as [ds|] eqn:S.
    + rewrite py_int_digits_literal in PO by (eapply search_port_digits, S).
      unfold int_of_literal in PO. destruct (_ <? _)%nat; [discriminate PO|].
      injection PO as <-. apply int_of_digits_nonneg. eapply SP, S.
    + injection PO as <-. destruct sched; cbn; lia.
Qed.

Lemma session_screen_matches_the_job_witness :
  Tracker.ss_job_id
    (Tracker.mkSessionScreen (lit "7") (lit "big12") (lit "http://big12:8890/lab")
       (lit "http://localhost:8890/lab") 8890) = lit "7".
Proof.
  refine (proj1 (session_screen_matches_the_job unit
           (fun command _ w =>
              if Text.contains (lit "assigned_hostnames") command
              then ((lit "big12" ++ HPC.nl, [], 0), w)
              else ((lit " http://big12:8890/lab" ++ HPC.nl, [], 0), w))
           Tracker.OAR (lit "7") tt
           (Tracker.mkSessionScreen (lit "7") (lit "big12") (lit "http://big12:8890/lab")
              (lit "http://localhost:8890/lab") 8890) _)).
  vm_compute. right. right. right. left. reflexivity.
Defined.

(** ** config.py *)
Section ConfigFacts.
Import Text Py Config.

Lemma step_skipped (st : state) (line : str) :
  skipped line -> step st line = st.
Proof. intros [E | [r E]]; unfold step; rewrite E; reflexivity. Qed.

Lemma fold_step_skipped (lines : list str) (st : state) :
  Forall skipped lines -> fold_left step lines st = st.
Proof.
  induction 1 as [|l lines Hl F IH]; [reflexivity|].
  cbn [fold_left]. now rewrite step_skipped.
Qed.

(** The lines of a text up to one of its line feeds do not depend on what
    comes after it. *)
Lemma splitlines_from_app_lf (n : nat) :
  forall a cur, (length a <= n)%nat ->
  exists L, forall rest,
    splitlines_from cur (a ++ "010"%char :: rest) = L ++ splitlines rest.
Proof.
  induction n as [|n IH]; intros a cur Hn.
  - destruct a; [|cbn in Hn; lia].
    exists [rev cur]. intros rest. cbn [app splitlines_from].
    change (is_linebreak "010") with true. cbv iota.
    destruct rest; reflexivity.
  - destruct a as [|c a].
    + apply (IH [] cur). cbn; lia.
    + cbn [length] in Hn. cbn [app splitlines_from].
      destruct (is_linebreak c) eqn:B.
      * destruct a as [|c2 a].
        -- cbn [app]. destruct (eqc c "013" && eqc "010" "010") eqn:CR.
           ++ exists [rev cur]. intros rest. reflexivity.
           ++ destruct (IH [] [] ltac:(cbn; lia)) as (L & HL).
              exists (rev cur :: L). intros rest.
              specialize (HL rest). cbn [app] in HL. now rewrite HL.
        -- cbn [app]. destruct (eqc c "013" && eqc c2 "010").
           ++ destruct (IH a [] ltac:(cbn in Hn; lia)) as (L & HL).
              exists (rev cur :: L). intros rest. now rewrite HL.
           ++ destruct (IH (c2 :: a) [] ltac:(cbn in Hn |- *; lia)) as (L & HL).
              exists (rev cur :: L). intros rest.
              specialize (HL rest). cbn [app] in HL. now rewrite HL.
      * apply IH. lia.
Qed.

Lemma splitlines_app_lf (a : str) :
  exists L, forall rest, splitlines (a ++ "010"%char :: rest) = L ++ splitlines rest.
Proof. apply (splitlines_from_app_lf (length a)). lia. Qed.

Lemma dict_get_set_same {A : Type} (k : str) (v : A) (d : table A) :
  dict_get k (dict_set k v d) = Some v.
Proof.
  induction d as [|[k' v'] d IH]; cbn [dict_set dict_get].
  - now rewrite eqs_refl.
  - destruct (eqs k' k) eqn:E; cbn [dict_get]; [now rewrite eqs_refl|].
    now rewrite E.
Qed.

(** Characters of the classes at hand. *)
Lemma word_not_space (c : ascii) : is_word c = true -> is_space c = false.
Proof. destruct c as [[] [] [] [] [] [] [] []]; vm_compute; congruence. Qed.

Lemma word_not_bracket (c : ascii) : is_word c = true -> eqc c "[" = false.
Proof. destruct c as [[] [] [] [] [] [] [] []]; vm_compute; congruence. Qed.

Lemma word_not_hash (c : ascii) : is_word c = true -> eqc c "#" = false.
Proof. destruct c as [[] [] [] [] [] [] [] []]; vm_compute; congruence. Qed.

Lemma not_linebreak_not_lf (c : ascii) : is_linebreak c = false -> not_lf c = true.
Proof. destruct c as [[] [] [] [] [] [] [] []]; vm_compute; congruence. Qed.

Lemma forallb_rev_eq {A : Type} (p : A -> bool) (l : list A) :
  forallb p (rev l) = forallb p l.
Proof.
  induction l as [|x l IH]; [reflexivity|].
  cbn [rev forallb]. rewrite forallb_app, IH. cbn [forallb].
  rewrite andb_true_r. apply andb_comm.
Qed.

Lemma one_line_not_lf (s : str) : one_line s -> forallb not_lf s = true.
Proof.
  intros F. apply forallb_forall. intros c I.
  unfold one_line in F. rewrite Forall_forall in F. now apply not_linebreak_not_lf, F.
Qed.

(** A header line opens its section, empty. *)
Lemma match_section_header (name : str) :
  name <> [] -> one_line name -> match_section (header_line name) = Some name.
Proof.
  intros NE F. unfold match_section, header_line.
  change (eqc "[" "[") with true. cbv iota.
  assert (Forall (fun c => not_lf c = true) (name ++ ["]"%char])) as A.
  { apply Forall_app. split; [|repeat constructor].
    revert F. apply Forall_impl. apply not_linebreak_not_lf. }
  rewrite (span_all not_lf _ A). rewrite rev_app_distr. cbn [rev app].
  change (eqc "]" "]") with true.
  destruct (rev name) eqn:R.
  - apply (f_equal (@rev ascii)) in R. rewrite rev_involutive in R. now elim NE.
  - cbn [truthy andb at_dollar]. rewrite <- R. now rewrite rev_involutive.
Qed.

Lemma strip_header_line (name : str) : strip (header_line name) = header_line name.
Proof. unfold header_line. now apply strip_fixed. Qed.

Lemma step_header (st : state) (name : str) :
  name <> [] -> one_line name ->
  step st (header_line name)
    = mkState (dict_set (strip name) (Table []) (result st)) (Some (strip name)).
Proof.
  intros NE F. unfold step. rewrite strip_header_line.
  rewrite match_section_header by assumption. reflexivity.
Qed.

(** The common start of an assignment written [key = ...]. *)
Lemma match_key_intro (key rest : str) (c : ascii) :
  key <> [] -> Forall (fun c => is_word c = true) key ->
  is_space c = false ->
  match_key (key ++ lit " = " ++ c :: rest) = Some (key, c :: rest).
Proof.
  intros NE F Hc. unfold match_key.
  rewrite (span_app is_word key _ F) by reflexivity.
  destruct key; [congruence|].
  cbn [lit list_ascii_of_string app span]. 
  change (is_space " ") with true. cbv iota.
  change (is_space "=") with false. cbv iota. cbn [snd].
  change (eqc "=" "=") with true. cbv iota.
  cbn [span]. change (is_space " ") with true. cbv iota. rewrite Hc.
  destruct (span is_space rest). reflexivity.
Qed.

Lemma assignment_line_start (key rest : str) (c0 : ascii) (key' : str) (last : ascii) :
  key = c0 :: key' -> is_word c0 = true -> is_space last = false ->
  strip (key ++ rest ++ [last]) = key ++ rest ++ [last] /\
  match_section (key ++ rest ++ [last]) = None /\
  (negb (truthy (key ++ rest ++ [last]))
   || match key ++ rest ++ [last] with c :: _ => eqc c "#" | [] => false end) = false.
Proof.
  intros -> W L. split; [|split].
  - rewrite <- app_comm_cons.
    replace (key' ++ rest ++ [last]) with ((key' ++ rest) ++ [last])
      by now rewrite app_assoc.
    apply strip_fixed; [now apply word_not_space | exact L].
  - cbn [app match_section]. now rewrite word_not_bracket.
  - cbn [app truthy negb orb]. now apply word_not_hash.
Qed.

Lemma step_string (st : state) (key v : str) :
  key <> [] -> Forall (fun c => is_word c = true) key -> one_line v ->
  step st (string_line key v) = assign st key (Str v).
Proof.
  intros NE F Fv. unfold step, string_line.
  destruct key as [|c0 key'] eqn:K; [congruence|]. rewrite <- K in *.
  assert (is_word c0 = true) as W by (rewrite K in F; now inversion F).
  replace (key ++ lit " = " ++ "034"%char :: v ++ ["034"%char])
    with (key ++ (lit " = " ++ "034"%char :: v) ++ ["034"%char])
    by (now rewrite <- !app_assoc).
  destruct (assignment_line_start key (lit " = " ++ "034"%char :: v) c0 key' "034" K W
              eq_refl) as (-> & -> & ->).
  replace (key ++ (lit " = " ++ "034"%char :: v) ++ ["034"%char])
    with (key ++ lit " = " ++ "034"%char :: (v ++ ["034"%char]))
    by (now rewrite <- !app_assoc).
  unfold match_string. rewrite match_key_intro by (assumption || reflexivity).
  change (eqc "034" "034") with true. cbv iota.
  rewrite rstrip_last by reflexivity. rewrite rev_app_distr. cbn [rev app].
  change (eqc "034" "034") with true. cbn [andb].
  rewrite forallb_rev_eq, one_line_not_lf by exact Fv.
  now rewrite rev_involutive.
Qed.

Lemma step_bool (st : state) (key : str) (b : bool) :
  key <> [] -> Forall (fun c => is_word c = true) key ->
  step st (bool_line key b) = assign st key (Bool b).
Proof.
  intros NE F. unfold step, bool_line.
  destruct key as [|c0 key'] eqn:K; [congruence|]. rewrite <- K in *.
  assert (is_word c0 = true) as W by (rewrite K in F; now inversion F).
  destruct b.
  - change (key ++ lit " = " ++ lit "true")
      with (key ++ lit " = tru" ++ ["e"%char]).
    destruct (assignment_line_start key (lit " = tru") c0 key' "e" K W eq_refl)
      as (-> & -> & ->).
    change (key ++ lit " = tru" ++ ["e"%char])
      with (key ++ lit " = " ++ "t"%char :: lit "rue").
    unfold match_string, match_bool.
    rewrite match_key_intro by (assumption || reflexivity). reflexivity.
  - change (key ++ lit " = " ++ lit "false")
      with (key ++ lit " = fals" ++ ["e"%char]).
    destruct (assignment_line_start key (lit " = fals") c0 key' "e" K W eq_refl)
      as (-> & -> & ->).
    change (key ++ lit " = fals" ++ ["e"%char])
      with (key ++ lit " = " ++ "f"%char :: lit "alse").
    unfold match_string, match_bool.
    rewrite match_key_intro by (assumption || reflexivity). reflexivity.
Qed.

End ConfigFacts.

Section ConfigLoopFacts.
Import Text Py Config.

(** A line that is no header, met inside a section. *)
Lemma step_in_section (R : table entry) (sec : str) (d : table scalar)
  (line : str) :
  ~ header line ->
  dict_get sec R = Some (Table d) ->
  exists R',
    step (mkState R (Some sec)) line = mkState R' (Some sec) /\
    dict_get sec R' = Some (Table (add_assignment d line)).
Proof.
  intros NH G. unfold header in NH.
  unfold step, add_assignment, assignment_of.
  destruct (negb (truthy (strip line))
            || match strip line with c :: _ => eqc c "#" | [] => false end).
  { exists R. now split. }
  destruct (match_section (strip line)); [now elim NH|].
  assert (forall k v,
            exists R',
              assign (mkState R (Some sec)) k v = mkState R' (Some sec) /\
              dict_get sec R' = Some (Table (dict_set k v d))) as K.
  { intros k v. unfold assign. cbn [current result]. rewrite G.
    eexists. split; [reflexivity|]. apply dict_get_set_same. }
  destruct (match_string (strip line)) as [[k v]|]; [apply K|].
  destruct (match_bool (strip line)) as [[k b]|]; [apply K|].
  destruct (match_int (strip line)) as [[k n]|]; [apply K|].
  exists R. now split.
Qed.

Lemma fold_in_section (lines : list str) :
  forall R sec d,
  Forall (fun line => ~ header line) lines ->
  dict_get sec R = Some (Table d) ->
  exists R',
    fold_left step lines (mkState R (Some sec)) = mkState R' (Some sec) /\
    dict_get sec R' = Some (Table (fold_left add_assignment lines d)).
Proof.
  induction lines as [|line lines IH]; intros R sec d F G.
  - exists R. now split.
  - inversion F as [|? ? NH F']; subst. cbn [fold_left].
    destruct (step_in_section R sec d line NH G) as (R1 & -> & G1).
    now apply IH.
Qed.

Lemma dict_set_sections_only (R : table entry) (k : str) (d : table scalar) :
  sections_only R -> sections_only (dict_set k (Table d) R).
Proof.
  unfold sections_only. induction 1 as [|[k' e] R He F IH]; cbn [dict_set].
  - repeat constructor. now exists d.
  - destruct (eqs k' k); constructor; try assumption. now exists d.
Qed.

Lemma section_of_sections_only (R : table entry) (name : str) :
  sections_only R -> exists d, section_of name R = Ok d.
Proof.
  unfold sections_only, section_of. induction 1 as [|[k' e] R He F IH]; cbn [dict_get].
  - now exists [].
  - destruct (eqs k' name); [|exact IH].
    destruct He as [d He]. cbn [snd] in He. subst e. now exists d.
Qed.

Lemma step_sections_only (st : state) (line : str) :
  sections_only (result st) -> current st <> None ->
  sections_only (result (step st line)) /\ current (step st line) <> None.
Proof.
  intros S C. unfold step.
  destruct (negb (truthy (strip line))
            || match strip line with c :: _ => eqc c "#" | [] => false end);
    [now split|].
  destruct (match_section (strip line)).
  { cbn [result current]. split; [now apply dict_set_sections_only | discriminate]. }
  assert (forall k v, sections_only (result (assign st k v)) /\
                      current (assign st k v) <> None) as K.
  { intros k v. unfold assign. destruct (current st) as [sec|]; [|now elim C].
    cbn [result current]. split; [now apply dict_set_sections_only | discriminate]. }
  destruct (match_string (strip line)) as [[k v]|]; [apply K|].
  destruct (match_bool (strip line)) as [[k b]|]; [apply K|].
  destruct (match_int (strip line)) as [[k n]|]; [apply K|].
  now split.
Qed.

Lemma fold_sections_only (lines : list str) :
  forall st, sections_only (result st) -> current st <> None ->
  sections_only (result (fold_left step lines st)).
Proof.
  induction lines as [|line lines IH]; intros st S C; [exact S|].
  cbn [fold_left]. destruct (step_sections_only st line S C) as [S' C'].
  now apply IH.
Qed.

Lemma header_opens_section (st : state) (line : str) :
  header line -> sections_only (result st) ->
  sections_only (result (step st line)) /\ current (step st line) <> None.
Proof.
  intros H S. unfold header in H. unfold step.
  destruct (strip line) as [|c r] eqn:E; [now elim H|].
  cbn [truthy negb orb].
  destruct (eqc c "#") eqn:Hash.
  { unfold eqc in Hash. apply Ascii.eqb_eq in Hash. subst c. now elim H. }
  destruct (match_section (c :: r)); [|now elim H].
  cbn [result current]. split; [now apply dict_set_sections_only | discriminate].
Qed.

(** The lines of lines joined by line feeds. *)
Lemma splitlines_join (ls : list str) (last : str) :
  Forall one_line ls -> one_line last -> last <> [] ->
  splitlines (join ["010"%char] (ls ++ [last])) = ls ++ [last].
Proof.
  intros F Fl NE. induction F as [|l ls Hl F IH].
  - cbn [app join]. now apply splitlines_one_line.
  - cbn [app]. destruct (ls ++ [last]) as [|l2 rest] eqn:E.
    + now destruct ls.
    + rewrite join_cons_cons. cbn [app]. unfold splitlines.
      rewrite splitlines_from_cut by exact Hl. cbn [rev app]. now rewrite IH.
Qed.

(** The same lines, in the loop itself. *)
Lemma parse_line_skipped (st : state) (line : str) :
  skipped line -> parse_line st line = Ok st.
Proof. intros [E | [r E]]; unfold parse_line; rewrite E; reflexivity. Qed.

Lemma parse_line_header (st : state) (name : str) :
  name <> [] -> one_line name ->
  parse_line st (header_line name)
    = Ok (mkState (dict_set (strip name) (Table []) (result st)) (Some (strip name))).
Proof.
  intros NE F. unfold parse_line. rewrite strip_header_line.
  rewrite match_section_header by assumption. reflexivity.
Qed.

Lemma parse_line_string (st : state) (key v : str) :
  key <> [] -> Forall (fun c => is_word c = true) key -> one_line v ->
  parse_line st (string_line key v) = Ok (assign st key (Str v)).
Proof.
  intros NE F Fv. unfold parse_line, string_line.
  destruct key as [|c0 key'] eqn:K; [congruence|]. rewrite <- K in *.
  assert (is_word c0 = true) as W by (rewrite K in F; now inversion F).
  replace (key ++ lit " = " ++ "034"%char :: v ++ ["034"%char])
    with (key ++ (lit " = " ++ "034"%char :: v) ++ ["034"%char])
    by (now rewrite <- !app_assoc).
  destruct (assignment_line_start key (lit " = " ++ "034"%char :: v) c0 key' "034" K W
              eq_refl) as (-> & -> & ->).
  replace (key ++ (lit " = " ++ "034"%char :: v) ++ ["034"%char])
    with (key ++ lit " = " ++ "034"%char :: (v ++ ["034"%char]))
    by (now rewrite <- !app_assoc).
  unfold match_string. rewrite match_key_intro by (assumption || reflexivity).
  change (eqc "034" "034") with true. cbv iota.
  rewrite rstrip_last by reflexivity. rewrite rev_app_distr. cbn [rev app].
  change (eqc "034" "034") with true. cbn [andb].
  rewrite forallb_rev_eq, one_line_not_lf by exact Fv.
  now rewrite rev_involutive.
Qed.

Lemma parse_line_bool (st : state) (key : str) (b : bool) :
  key <> [] -> Forall (fun c => is_word c = true) key ->
  parse_line st (bool_line key b) = Ok (assign st key (Bool b)).
Proof.
  intros NE F. unfold parse_line, bool_line.
  destruct key as [|c0 key'] eqn:K; [congruence|]. rewrite <- K in *.
  assert (is_word c0 = true) as W by (rewrite K in F; now inversion F).
  destruct b.
  - change (key ++ lit " = " ++ lit "true")
      with (key ++ lit " = tru" ++ ["e"%char]).
    destruct (assignment_line_start key (lit " = tru") c0 key' "e" K W eq_refl)
      as (-> & -> & ->).
    change (key ++ lit " = tru" ++ ["e"%char])
      with (key ++ lit " = " ++ "t"%char :: lit "rue").
    unfold match_string, match_bool.
    rewrite match_key_intro by (assumption || reflexivity). reflexivity.
  - change (key ++ lit " = " ++ lit "false")
      with (key ++ lit " = fals" ++ ["e"%char]).
    destruct (assignment_line_start key (lit " = fals") c0 key' "e" K W eq_refl)
      as (-> & -> & ->).
    change (key ++ lit " = fals" ++ ["e"%char])
      with (key ++ lit " = " ++ "f"%char :: lit "alse").
    unfold match_string, match_bool.
    rewrite match_key_intro by (assumption || reflexivity). reflexivity.
Qed.

(** *** The loop and the interpreter's limit *)

Lemma match_int_digits (line k ds : str) :
  match_int line = Some (k, ds) -> digits ds.
Proof.
  unfold match_int. destruct (match_key line) as [[k' r]|]; [|discriminate].
  pose proof (span_fst_all is_digit r) as F.
  destruct (span is_digit r) as [ds' rest]; cbn [fst] in F.
  destruct (truthy ds' && forallb is_space rest) eqn:T; [|discriminate].
  intros [= <- <-]. apply andb_true_iff in T as [T _].
  split; [now destruct ds' | exact F].
Qed.

Lemma within_limit_dec (raw : str) : {within_limit raw} + {~ within_limit raw}.
Proof.
  unfold within_limit. destruct (integer_of raw) as [ds|]; [apply short_dec | now left].
Qed.

(** A line within the limit is processed as [step] says, and a line beyond
    it ends the loop. *)
Lemma parse_line_step (st : state) (raw : str) :
  within_limit raw -> parse_line st raw = Ok (step st raw).
Proof.
  unfold within_limit, integer_of, parse_line, step.
  destruct (negb (truthy (strip raw))
            || match strip raw with c :: _ => eqc c "#" | [] => false end);
    [reflexivity|].
  destruct (match_section (strip raw)); [reflexivity|].
  destruct (match_string (strip raw)) as [[k v]|]; [reflexivity|].
  destruct (match_bool (strip raw)) as [[k b]|]; [reflexivity|].
  destruct (match_int (strip raw)) as [[k ds]|] eqn:M; [|reflexivity].
  cbn [option_map snd]. intros S.
  now rewrite (int_short ds (match_int_digits _ _ _ M) S).
Qed.

Lemma parse_line_beyond (st : state) (raw : str) :
  ~ within_limit raw -> parse_line st raw = Raise ValueError.
Proof.
  unfold within_limit, integer_of, parse_line.
  destruct (negb (truthy (strip raw))
            || match strip raw with c :: _ => eqc c "#" | [] => false end);
    [intros N; now elim N|].
  destruct (match_section (strip raw)); [intros N; now elim N|].
  destruct (match_string (strip raw)) as [[k v]|]; [intros N; now elim N|].
  destruct (match_bool (strip raw)) as [[k b]|]; [intros N; now elim N|].
  destruct (match_int (strip raw)) as [[k ds]|] eqn:M; [|intros N; now elim N].
  cbn [option_map snd]. intros L.
  now rewrite (int_long ds (match_int_digits _ _ _ M) L).
Qed.

Lemma skipped_within_limit (raw : str) : skipped raw -> within_limit raw.
Proof.
  unfold within_limit, integer_of. intros [E | [r E]]; rewrite E; exact I.
Qed.

Lemma header_within_limit (raw : str) : header raw -> within_limit raw.
Proof.
  unfold header, within_limit, integer_of.
  destruct (negb (truthy (strip raw))
            || match strip raw with c :: _ => eqc c "#" | [] => false end);
    [intros _; exact I|].
  destruct (match_section (strip raw)); [intros _; exact I | intros N; now elim N].
Qed.

Lemma parse_lines_app (a b : list str) :
  forall st,
  parse_lines st (a ++ b) = (st' <- parse_lines st a;; parse_lines st' b)%py.
Proof.
  induction a as [|raw a IH]; intros st; [reflexivity|].
  cbn [app parse_lines]. destruct (parse_line st raw) as [st'|e]; cbn [bind];
    [apply IH | reflexivity].
Qed.

Lemma parse_lines_steps (lines : list str) :
  Forall within_limit lines ->
  forall st, parse_lines st lines = Ok (fold_left step lines st).
Proof.
  induction 1 as [|raw lines Hr F IH]; intros st; [reflexivity|].
  cbn [parse_lines fold_left]. rewrite parse_line_step by exact Hr. cbn [bind].
  apply IH.
Qed.

Lemma parse_lines_beyond (lines : list str) :
  Exists (fun raw => ~ within_limit raw) lines ->
  forall st, parse_lines st lines = Raise ValueError.
Proof.
  induction lines as [|raw lines IH]; intros E st; [inversion E|].
  cbn [parse_lines]. destruct (within_limit_dec raw) as [W|N].
  - rewrite parse_line_step by exact W. cbn [bind]. apply IH.
    inversion E as [? ? N|]; subst; [now elim N | assumption].
  - now rewrite parse_line_beyond.
Qed.

End ConfigLoopFacts.

(** X18.  Comments and blank lines mean nothing to the parser of the
    configuration file: a line that is blank or starts with [#], white
    space around it apart, can be put between any two lines of a text
    without changing what the text parses to. *)
Theorem config_comments_are_ignored (before comment after : str) :
  one_line comment -> skipped comment ->
  Config._parse_toml_simple
    (before ++ "010"%char :: comment ++ "010"%char :: after)
  = Config._parse_toml_simple (before ++ "010"%char :: after).
Proof.
  intros F S. unfold Config._parse_toml_simple.
  destruct (splitlines_app_lf before) as (L & HL). rewrite !HL.
  unfold splitlines at 1. rewrite splitlines_from_cut by exact F. cbn [rev app].
  rewrite !parse_lines_app.
  destruct (Config.parse_lines (Config.mkState [] None) L) as [st|e];
    cbn [Py.bind Config.parse_lines]; [|reflexivity].
  now rewrite parse_line_skipped.
Qed.

Lemma config_comments_are_ignored_witness :
  Config._parse_toml_simple
    (lit "[user]" ++ "010"%char :: lit "  # who I am" ++ "010"%char ::
     string_line (lit "username") (lit "bob"))
  = Config._parse_toml_simple
    (lit "[user]" ++ "010"%char :: string_line (lit "username") (lit "bob")).
Proof.
  apply (config_comments_are_ignored (lit "[user]") (lit "  # who I am")
           (string_line (lit "username") (lit "bob"))).
  - repeat constructor.
  - right. eexists. vm_compute. reflexivity.
Defined.

(** X19.  A section of the configuration file holds what follows its last
    header: in a text none of whose integers has more than 4300 digits,
    whatever stands before a header line [[name]], the dictionary found
    under the stripped name is the one built, from nothing, by the
    assignments of the lines after the header, as long as no further
    header follows.  Keys assigned under an earlier header of the same
    name are gone. *)
Theorem config_section_holds_what_follows_its_header (before name body : str) :
  name <> [] -> one_line name ->
  Forall (fun line => ~ header line) (splitlines body) ->
  Forall within_limit
    (splitlines (before ++ "010"%char :: header_line name ++ "010"%char :: body)) ->
  exists data,
    Config._parse_toml_simple
      (before ++ "010"%char :: header_line name ++ "010"%char :: body)
    = Py.Ok data /\
    Config.dict_get (strip name) data
    = Some (Config.Table (assignments (splitlines body))).
Proof.
  intros NE F NH. unfold Config._parse_toml_simple.
  destruct (splitlines_app_lf before) as (L & HL). rewrite HL.
  unfold splitlines at 1 2. rewrite splitlines_from_cut.
  2:{ unfold header_line. constructor; [reflexivity|].
      apply Forall_app. split; [exact F | repeat constructor]. }
  cbn [rev app]. intros W. rewrite (parse_lines_steps _ W). cbn [Py.bind].
  eexists. split; [reflexivity|].
  rewrite fold_left_app. cbn [fold_left].
  rewrite step_header by assumption.
  destruct (fold_in_section (splitlines body)
              (Config.dict_set (strip name) (Config.Table [])
                 (Config.result (fold_left step L (Config.mkState [] None))))
              (strip name) [] NH (dict_get_set_same _ _ _)) as (R' & -> & G).
  exact G.
Qed.

Lemma config_section_holds_what_follows_its_header_witness :
  exists data,
    Config._parse_toml_simple
      (lit "[user]" ++ "010"%char :: string_line (lit "username") (lit "al")
       ++ "010"%char :: header_line (lit "user") ++ "010"%char ::
       string_line (lit "email") (lit "bob@lip6.fr"))
    = Py.Ok data /\
    Config.dict_get (strip (lit "user")) data
    = Some (Config.Table
              (assignments (splitlines (string_line (lit "email") (lit "bob@lip6.fr"))))).
Proof.
  apply (config_section_holds_what_follows_its_header
           (lit "[user]" ++ "010"%char :: string_line (lit "username") (lit "al"))
           (lit "user") (string_line (lit "email") (lit "bob@lip6.fr"))).
  - discriminate.
  - repeat constructor.
  - vm_compute. repeat constructor; intros H; now apply H.
  - vm_compute. repeat (apply Forall_cons; [exact I|]). apply Forall_nil.
Defined.

(** X20.  Loading a configuration file that starts in a section, that is
    with nothing but blank lines and comments before its first header:
    when no integer of the file has more than 4300 digits nothing is
    raised; when one has, [int] ends the loading with [ValueError]; and a
    file of blank lines and comments only leaves every attribute at its
    default. *)
Theorem load_config_of_sectioned_file (text : str) :
  starts_in_a_section (splitlines text) ->
  (Forall within_limit (splitlines text) ->
   exists c, Config.load_config (Some text) = Py.Ok c) /\
  (Exists (fun line => ~ within_limit line) (splitlines text) ->
   Config.load_config (Some text) = Py.Raise Py.ValueError) /\
  (Forall skipped (splitlines text) ->
   Config.load_config (Some text) = Py.Ok Config.defaults).
Proof.
  intros S. split; [|split].
  - intros W. unfold Config.load_config, Config._load, Config._parse_toml_simple.
    rewrite (parse_lines_steps _ W). cbn [Py.bind].
    assert (sections_only
              (Config.result (fold_left step (splitlines text) (Config.mkState [] None))))
      as SO.
    { destruct S as [F | (pre & hdr & rest & -> & F & H)].
      - rewrite fold_step_skipped by exact F. constructor.
      - rewrite fold_left_app. rewrite (fold_step_skipped pre) by exact F.
        cbn [fold_left].
        destruct (header_opens_section (Config.mkState [] None) hdr H) as [S1 C1];
          [constructor|].
        now apply fold_sections_only. }
    destruct (section_of_sections_only _ (lit "user") SO) as (u & ->).
    destruct (section_of_sections_only _ (lit "clusters") SO) as (c & ->).
    cbn [Py.bind]. eauto.
  - intros E. unfold Config.load_config, Config._load, Config._parse_toml_simple.
    now rewrite (parse_lines_beyond _ E).
  - intros F. unfold Config.load_config, Config._load, Config._parse_toml_simple.
    rewrite parse_lines_steps
      by (revert F; apply Forall_impl, skipped_within_limit).
    rewrite fold_step_skipped by exact F. reflexivity.
Qed.

Lemma load_config_of_sectioned_file_witness :
  exists c,
    Config.load_config
      (Some (lit "# my settings" ++ "010"%char :: header_line (lit "user") ++
             "010"%char :: string_line (lit "username") (lit "bob"))) = Py.Ok c.
Proof.
  refine (proj1 (load_config_of_sectioned_file
           (lit "# my settings" ++ "010"%char :: header_line (lit "user") ++
            "010"%char :: string_line (lit "username") (lit "bob")) _) _).
  - right. exists [lit "# my settings"], (header_line (lit "user")),
      [string_line (lit "username") (lit "bob")].
    split; [vm_compute; reflexivity|]. split.
    + constructor; [|constructor]. right. eexists. vm_compute. reflexivity.
    + unfold header. vm_compute. discriminate.
  - vm_compute. repeat (apply Forall_cons; [exact I|]). apply Forall_nil.
Defined.

(** An assignment before the first header lands in the top-level
    dictionary; when its key is [user], loading fails on it.  An integer
    of 4301 digits, wherever it stands, ends the loading with the
    [ValueError] of [int]. *)
Example load_config_raises_on_top_level_user :
  Config.load_config (Some (string_line (lit "user") (lit "bob")))
  = Py.Raise Py.AttributeError /\
  Config.load_config
    (Some (lit "[user]" ++ "010"%char :: lit "n = " ++
           repeat "1"%char (S max_str_digits)))
  = Py.Raise Py.ValueError.
Proof. split; vm_compute; reflexivity. Qed.

(** X21.  A configuration file with the six settings reads back: written
    with any one-line texts for the four string settings (quotes inside
    them included) and any two booleans, it loads without error to exactly
    these values. *)
Theorem config_round_trip (c_username c_email c_gateway c_storage : str)
  (c_hpc c_conv : bool) :
  one_line c_username -> one_line c_email -> one_line c_gateway ->
  one_line c_storage ->
  Config.load_config
    (Some (render_config c_username c_email c_gateway c_hpc c_conv c_storage))
  = Py.Ok (Config.mkConfig (Config.Str c_username) (Config.Str c_email)
             (Config.Str c_gateway) (Config.Bool c_hpc) (Config.Bool c_conv)
             (Config.Str c_storage)).
Proof.
  intros Fu Fe Fg Fs.
  assert (forall key v, one_line key -> one_line v -> one_line (string_line key v)) as OL.
  { intros key v Fk Fv. unfold string_line, one_line.
    apply Forall_app. split; [exact Fk|].
    apply Forall_app. split; [repeat constructor|].
    constructor; [reflexivity|].
    apply Forall_app. split; [exact Fv | repeat constructor]. }
  unfold Config.load_config, Config._load, Config._parse_toml_simple, render_config.
  change [header_line (lit "user"); string_line (lit "username") c_username;
          string_line (lit "email") c_email; []; header_line (lit "clusters");
          string_line (lit "gateway") c_gateway; bool_line (lit "hpc_enabled") c_hpc;
          bool_line (lit "conv_enabled") c_conv;
          string_line (lit "hpc_storage") c_storage]
    with ([header_line (lit "user"); string_line (lit "username") c_username;
           string_line (lit "email") c_email; []; header_line (lit "clusters");
           string_line (lit "gateway") c_gateway; bool_line (lit "hpc_enabled") c_hpc;
           bool_line (lit "conv_enabled") c_conv]
          ++ [string_line (lit "hpc_storage") c_storage]).
  rewrite splitlines_join.
  - cbn [app Config.parse_lines].
    rewrite (parse_line_header _ (lit "user")) by first [discriminate | repeat constructor].
    cbn [Py.bind].
    rewrite parse_line_string by first [discriminate | assumption | repeat constructor].
    cbn [Py.bind].
    rewrite parse_line_string by first [discriminate | assumption | repeat constructor].
    cbn [Py.bind].
    rewrite (parse_line_skipped _ []) by (now left).
    cbn [Py.bind].
    rewrite (parse_line_header _ (lit "clusters"))
      by first [discriminate | repeat constructor].
    cbn [Py.bind].
    rewrite parse_line_string by first [discriminate | assumption | repeat constructor].
    cbn [Py.bind].
    rewrite parse_line_bool by first [discriminate | repeat constructor].
    cbn [Py.bind].
    rewrite parse_line_bool by first [discriminate | repeat constructor].
    cbn [Py.bind].
    rewrite parse_line_string by first [discriminate | assumption | repeat constructor].
    reflexivity.
  - repeat match goal with
           | |- Forall one_line (_ :: _) => apply Forall_cons
           | |- Forall one_line [] => apply Forall_nil
           end;
      try (apply OL; [repeat constructor | assumption]);
      try (repeat constructor; fail).
    + destruct c_hpc; repeat constructor.
    + destruct c_conv; repeat constructor.
  - apply OL; [repeat constructor | assumption].
  - unfold string_line. discriminate.
Qed.

Lemma config_round_trip_witness :
  Config.load_config
    (Some (render_config (lit "bob") (lit "bob@lip6.fr") (lit "ssh.lip6.fr")
             true false (lit "/scratch/bob")))
  = Py.Ok (Config.mkConfig (Config.Str (lit "bob")) (Config.Str (lit "bob@lip6.fr"))
             (Config.Str (lit "ssh.lip6.fr")) (Config.Bool true) (Config.Bool false)
             (Config.Str (lit "/scratch/bob"))).
Proof.
  apply (config_round_trip (lit "bob") (lit "bob@lip6.fr") (lit "ssh.lip6.fr")
           (lit "/scratch/bob") true false); repeat constructor.
Defined.

(** ** conv/commands.py: the state of the cluster *)
Section ClusterStatusFacts.
Import Text Py ClusterStatus.

Lemma words_from_columns (s : str) :
  forall cur, Forall (fun c => is_space c = false) cur ->
  Forall column (words_from cur s).
Proof.
  induction s as [|c s IH]; intros cur F; cbn [words_from].
  - destruct cur as [|x cur]; constructor; [|constructor].
    split.
    + intros E. apply (f_equal (@length ascii)) in E.
      rewrite length_rev in E. discriminate E.
    + now apply Forall_rev.
  - destruct (is_space c) eqn:S.
    + destruct cur as [|x cur]; [apply IH; constructor|].
      constructor; [|apply IH; constructor].
      split.
      * intros E. apply (f_equal (@length ascii)) in E.
        rewrite length_rev in E. discriminate E.
      * now apply Forall_rev.
    + apply IH. now constructor.
Qed.

Lemma words_columns (s : str) : Forall column (words s).
Proof. apply words_from_columns. constructor. Qed.

Lemma status_parse_line_ok (line : str) : parse_line line = Ok (line_nodes line).
Proof.
  unfold parse_line, line_nodes.
  destruct (words line) as [|p0 [|p1 [|p2 [|p3 [|p4 [|p5 [|p6 rest]]]]]]]; reflexivity.
Qed.

Lemma status_parse_lines_ok (lines : list str) :
  forall nodes, parse_lines nodes lines = Ok (nodes ++ flat_map line_nodes lines).
Proof.
  induction lines as [|line rest IH]; intros nodes; cbn [parse_lines flat_map].
  - now rewrite app_nil_r.
  - rewrite status_parse_line_ok. cbn [bind]. rewrite IH. now rewrite <- app_assoc.
Qed.

Lemma line_nodes_columns (line : str) :
  Forall (fun n => Forall column (node_row n)) (line_nodes line).
Proof.
  unfold line_nodes. pose proof (words_columns line) as F.
  destruct (words line) as [|p0 [|p1 [|p2 [|p3 [|p4 [|p5 [|p6 rest]]]]]]];
    cbn [length Nat.leb]; try constructor; [|constructor].
  unfold node_row, node_record. cbn [nth node cpus_state memory alloc_mem gres
    gres_used state].
  repeat match goal with
         | H : Forall _ (_ :: _) |- _ => inversion H; clear H; subst
         end.
  repeat (constructor; [assumption|]). constructor.
Qed.

End ClusterStatusFacts.

(** X22.  [fetch_cluster_status] never fails, whatever the executor
    returns.  Unless the command succeeded with a listing that is not
    blank it returns nothing; otherwise it passes over the first line of
    the stripped listing and returns, in order, one record for every
    further line that has at least seven columns, made of the first seven
    columns of the line.  No field of a record is empty or holds white
    space. *)
Theorem cluster_status_one_record_per_line (W : Type)
  (run : str -> Z -> Py.M W RemoteCommandResult) (w : W) :
  let r := fst (run ClusterStatus.fetch_cluster_status_command 30 w) in
  let listed :=
    if negb (snd r =? 0) || negb (truthy (strip (stdout_of r))) then []
    else flat_map line_nodes (tl (splitlines (strip (stdout_of r)))) in
  fst (ClusterStatus.fetch_cluster_status run w) = Py.Ok listed /\
  (length listed <= length (splitlines (strip (stdout_of r))) - 1)%nat /\
  Forall (fun n => Forall column (ClusterStatus.node_row n)) listed.
Proof.
  cbn zeta. unfold ClusterStatus.fetch_cluster_status, Py.mbind, Py.ret, stdout_of.
  destruct (run ClusterStatus.fetch_cluster_status_command 30 w)
    as [[[stdout stderr] rc] w'].
  cbn [fst snd]. unfold ClusterStatus.parse_sinfo.
  destruct (negb (rc =? 0) || negb (truthy (strip stdout))).
  - repeat split; [cbn; lia | constructor].
  - rewrite status_parse_lines_ok. cbn [app]. repeat split.
    + destruct (splitlines (strip stdout)) as [|hd lines]; cbn [tl length]; [cbn; lia|].
      assert (length (flat_map line_nodes lines) <= length lines)%nat; [|lia].
      induction lines as [|l lines IH]; cbn [flat_map length]; [lia|].
      rewrite length_app. unfold line_nodes at 1.
      destruct (7 <=? length (words l))%nat; cbn [length]; lia.
    + apply Forall_flat_map. apply Forall_forall. intros l _.
      apply line_nodes_columns.
Qed.

(** X23.  The summary of the cluster status screen: no count exceeds the
    number of nodes, and no node counts both as mixed and as allocated, so
    that mixed and allocated together do not exceed the number of nodes
    either. *)
Theorem cluster_summary_counts (nodes : list ClusterStatus.NodeInfo) :
  let '(total, idle, mixed, alloc, down) := ClusterStatus.summary nodes in
  0 <= idle <= total /\ 0 <= mixed /\ 0 <= alloc /\ 0 <= down <= total /\
  mixed + alloc <= total.
Proof.
  unfold ClusterStatus.summary, ClusterStatus.count.
  assert (forall p, (length (filter p nodes) <= length nodes)%nat) as L
    by (intros p; apply filter_length_le).
  pose proof (L (ClusterStatus.state_has (lit "idle"))).
  pose proof (L (fun n => ClusterStatus.state_has (lit "down") n
                          || ClusterStatus.state_has (lit "drain") n)).
  assert (length (filter (ClusterStatus.state_has (lit "mix")) nodes) +
          length (filter (fun n => ClusterStatus.state_has (lit "alloc") n
                                   && negb (ClusterStatus.state_has (lit "mix") n)) nodes)
          <= length nodes)%nat as D.
  { clear. induction nodes as [|n nodes IH]; cbn [filter length]; [lia|].
    destruct (ClusterStatus.state_has (lit "mix") n);
      destruct (ClusterStatus.state_has (lit "alloc") n); cbn [andb negb length]; lia. }
  repeat split; lia.
Qed.

(** ** hpc/commands.py: the listing of the jobs *)

(** X24.  [fetch_jobs] of the OAR adapter never fails, whatever the
    executor returns, and runs one command.  Unless the command succeeded
    with a listing that is not blank it returns nothing; otherwise it
    returns one record per header line of the listing as it came (not
    stripped), and the id of every record is a non-empty run of digits. *)
Theorem oar_fetch_jobs_lists_numbered_jobs (W : Type)
  (run : str -> Z -> Py.M W RemoteCommandResult) (username : str) (w : W) :
  let r := fst (run (HPC.fetch_jobs_command username) 30 w) in
  let listed :=
    if negb (snd r =? 0) || negb (truthy (strip (stdout_of r))) then []
    else map record_of_block (blocks (splitlines (stdout_of r))) in
  HPC.fetch_jobs run username w
    = (Py.Ok listed, snd (run (HPC.fetch_jobs_command username) 30 w)) /\
  Forall (fun j => digits (HPC.job_id j)) listed.
Proof.
  cbn zeta. unfold HPC.fetch_jobs, Py.mbind, Py.ret, stdout_of.
  destruct (run (HPC.fetch_jobs_command username) 30 w) as [[[stdout stderr] rc] w'].
  cbn [fst snd].
  destruct (negb (rc =? 0) || negb (truthy (strip stdout))).
  - split; [reflexivity | constructor].
  - split.
    + unfold HPC.parse_oarstat_full.
      rewrite (loop_spec (splitlines stdout) [] None) by discriminate. reflexivity.
    + generalize (splitlines stdout). intros lines.
      induction lines as [|line rest IH]; cbn [blocks map]; [constructor|].
      destruct (HPC.match_job_id line) as [id|] eqn:M; [|exact IH].
      cbn [map]. constructor; [|exact IH].
      unfold record_of_block. cbn [fst snd]. rewrite apply_lines_job_id.
      cbn [HPC.job_id HPC.new_job]. split.
      * eapply match_job_id_nonempty, M.
      * clear IH. unfold HPC.match_job_id in M.
        destruct (strip_prefix (lit "Job_Id") line) as [r1|]; [|discriminate].
        destruct (snd (span is_space r1)) as [|c r2]; [discriminate|].
        destruct (eqc c ":"); [|discriminate].
        pose proof (span_fst_all is_digit (snd (span is_space r2))) as F.
        destruct (span is_digit (snd (span is_space r2))) as [ds r3].
        destruct (truthy ds); [|discriminate]. now injection M as <-.
Qed.

(** ** ssh.py: where the two variants agree *)
Section DecodingFacts.
Import SSH.

(** Decoding with [errors="replace"] never raises. *)
Lemma decode_replace_total (fuel : nat) :
  forall whole pos data, exists t, decode_from fuel true whole pos data = inr t.
Proof.
  induction fuel as [|fuel IH]; intros whole pos data; cbn [decode_from]; [eauto|].
  destruct data as [|b0 rest]; [eauto|].
  destruct (utf8_step b0 rest) as [cp rest'|len why].
  - destruct (IH whole (pos + (length (b0 :: rest) - length rest'))%nat rest') as (t & ->).
    eauto.
  - destruct (IH whole (pos + len)%nat (skipn len (b0 :: rest))) as (t & ->). eauto.
Qed.

(** On input that decodes strictly, replacing changes nothing. *)
Lemma decode_strict_then_replace (fuel : nat) :
  forall whole pos data t,
  decode_from fuel false whole pos data = inr t ->
  forall whole' pos', decode_from fuel true whole' pos' data = inr t.
Proof.
  induction fuel as [|fuel IH]; intros whole pos data t H whole' pos';
    cbn [decode_from] in *; [exact H|].
  destruct data as [|b0 rest]; [exact H|].
  destruct (utf8_step b0 rest) as [cp rest'|len why]; [|discriminate].
  destruct (decode_from fuel false whole (pos + (length (b0 :: rest) - length rest'))
              rest') as [e|t'] eqn:E; [discriminate|].
  injection H as <-. now rewrite (IH _ _ _ _ E).
Qed.

(** On input that does not, replacing leaves a replacement character. *)
Lemma decode_error_then_replacement (fuel : nat) :
  forall whole pos data e,
  decode_from fuel false whole pos data = inl e ->
  forall whole' pos',
  exists t, decode_from fuel true whole' pos' data = inr t /\ In 65533%N t.
Proof.
  induction fuel as [|fuel IH]; intros whole pos data e H whole' pos';
    cbn [decode_from] in *; [discriminate|].
  destruct data as [|b0 rest]; [discriminate|].
  destruct (utf8_step b0 rest) as [cp rest'|len why].
  - destruct (decode_from fuel false whole (pos + (length (b0 :: rest) - length rest'))
                rest') as [e'|t'] eqn:E; [|discriminate].
    destruct (IH _ _ _ _ E whole' (pos' + (length (b0 :: rest) - length rest'))%nat)
      as (t & -> & I).
    exists (cp :: t). split; [reflexivity | now right].
  - destruct (decode_replace_total fuel whole' (pos' + len)%nat (skipn len (b0 :: rest)))
      as (t & ->).
    exists (65533%N :: t). split; [reflexivity | now left].
Qed.

Lemma replace_cr_clean (s : text) : Forall (fun c => c <> 13%N) (replace_cr s).
Proof.
  unfold replace_cr. induction s as [|c s IH]; cbn [map]; constructor; [|exact IH].
  destruct (N.eqb_spec c 13); [discriminate | assumption].
Qed.

Lemma translation_fixed_iff (t : text) :
  replace_cr (replace_crlf t) = t <-> Forall (fun c => c <> 13%N) t.
Proof.
  split.
  - intros E. rewrite <- E. apply replace_cr_clean.
  - intros F. now rewrite replace_crlf_no_cr, replace_cr_no_cr.
Qed.

Lemma of_str_no_replacement (s : Text.str) : ~ In 65533%N (of_str s).
Proof.
  unfold of_str. intros I. apply in_map_iff in I as (c & E & _).
  unfold Text.code in E. pose proof (N_ascii_bounded c). lia.
Qed.

Lemma decode_error_str_no_replacement (e : decode_error) :
  ~ In 65533%N (decode_error_str e).
Proof. unfold decode_error_str. apply of_str_no_replacement. Qed.

End DecodingFacts.

(** X25.  When the ssh process exits, the two variants of the Remote
    Executor return the same triple exactly when both captured streams
    are valid UTF-8 and the decoded text of neither holds a carriage
    return.  (On invalid bytes [run] puts U+FFFD where [run_sync] reports
    the decoder's error; a carriage return is kept by [run] and turned
    into a line feed, or dropped before one, by [run_sync].) *)
Theorem executor_variants_agree_exactly
  (ssh : str -> str -> Z -> SSH.behaviour) (host command : str) (timeout : Z)
  (out err : SSH.bytes) (rc : Z) :
  ssh host command timeout = SSH.Exits out err rc ->
  (fst (SSH.run_sync ssh host command timeout) = fst (SSH.run ssh host command timeout)
   <->
   exists o e,
     SSH.decode_strict out = inr o /\ SSH.decode_strict err = inr e /\
     Forall (fun c => c <> 13%N) o /\ Forall (fun c => c <> 13%N) e).
Proof.
  intros B. unfold SSH.run_sync, SSH.run. rewrite B.
  cbn [SSH.subprocess_run SSH.create_subprocess_exec SSH.wait_for_communicate
       SSH.communicate SSH.returncode].
  assert (SSH.or_zero (Some rc) = rc) as ->
    by (unfold SSH.or_zero; now destruct (Z.eqb_spec rc 0)).
  unfold SSH.translate_newlines, SSH.decode_replace, SSH.decode_strict.
  destruct (SSH.decode_from (length out) false out 0 out) as [eo|o] eqn:Do.
  - destruct (decode_error_then_replacement _ _ _ _ _ Do out 0%nat) as (t & -> & I).
    cbn [fst]. split.
    + intros [= E _]. rewrite <- E in I. destruct I.
    + intros (o & e & Ho & _). discriminate Ho.
  - rewrite (decode_strict_then_replace _ _ _ _ _ Do out 0%nat).
    destruct (SSH.decode_from (length err) false err 0 err) as [ee|e] eqn:De.
    + destruct (decode_error_then_replacement _ _ _ _ _ De err 0%nat) as (t & -> & I).
      cbn [fst SSH.exn_str]. split.
      * intros [= _ E _]. rewrite <- E in I.
        now apply decode_error_str_no_replacement in I.
      * intros (o' & e & _ & He & _). discriminate He.
    + rewrite (decode_strict_then_replace _ _ _ _ _ De err 0%nat).
      cbn [fst]. split.
      * intros [= Eo Ee]. exists o, e.
        repeat split; now apply translation_fixed_iff.
      * intros (o' & e' & [= <-] & [= <-] & Fo & Fe).
        apply translation_fixed_iff in Fo, Fe. now rewrite Fo, Fe.
Qed.

Lemma executor_variants_agree_exactly_witness :
  fst (SSH.run_sync (fun _ _ _ => SSH.Exits [xc3; xa9; x0a] [] 0) (lit "hpc")
         (lit "hostname") 30)
  = fst (SSH.run (fun _ _ _ => SSH.Exits [xc3; xa9; x0a] [] 0) (lit "hpc")
           (lit "hostname") 30)
  <-> exists o e,
        SSH.decode_strict [xc3; xa9; x0a] = inr o /\ SSH.decode_strict [] = inr e /\
        Forall (fun c => c <> 13%N) o /\ Forall (fun c => c <> 13%N) e.
Proof.
  apply (executor_variants_agree_exactly
           (fun _ _ _ => SSH.Exits [xc3; xa9; x0a] [] 0) (lit "hpc") (lit "hostname") 30
           [xc3; xa9; x0a] [] 0).
  reflexivity.
Defined.

(** ** hpc/app.py and conv/app.py: launching and cancelling jobs *)
Section JobsFacts.
Import Text Py Jobs.

Lemma commands_run_app (a b : list event) :
  commands_run (a ++ b) = commands_run a ++ commands_run b.
Proof. apply flat_map_app. Qed.

Lemma waiting_for_app (a b : list event) :
  waiting_for (a ++ b) = waiting_for a ++ waiting_for b.
Proof. apply flat_map_app. Qed.

Lemma errors_shown_app (a b : list event) :
  errors_shown (a ++ b) = errors_shown a ++ errors_shown b.
Proof. apply flat_map_app. Qed.

Lemma commands_run_cons (e : event) (tr : list event) :
  commands_run (e :: tr) = commands_run [e] ++ commands_run tr.
Proof. apply (commands_run_app [e] tr). Qed.

Lemma waiting_for_cons (e : event) (tr : list event) :
  waiting_for (e :: tr) = waiting_for [e] ++ waiting_for tr.
Proof. apply (waiting_for_app [e] tr). Qed.

Lemma errors_shown_cons (e : event) (tr : list event) :
  errors_shown (e :: tr) = errors_shown [e] ++ errors_shown tr.
Proof. apply (errors_shown_app [e] tr). Qed.

Lemma job_id_or_error_cases (stdout stderr : str) :
  (numeric_id (strip stdout) /\
   job_id_or_error stdout stderr = (strip stdout, [])) \/
  (~ numeric_id (strip stdout) /\
   job_id_or_error stdout stderr = ([], submission_error stderr)).
Proof.
  unfold job_id_or_error. pose proof (numeric_id_test stdout) as T.
  destruct (negb (truthy (strip stdout)) || negb (match_all_digits (strip stdout))).
  - right. split; [intros N; apply T in N; discriminate|].
    unfold submission_error. now destruct (strip stderr).
  - left. split; [now apply T | reflexivity].
Qed.

Section WithRemote.
Context {W : Type}.
Variable run : str -> Z -> M W RemoteCommandResult.

Lemma submitted_then_reported (script : str) (w : W) (pre post : list event)
  (after : str -> list event) :
  let r := fst (run script 30 w) in
  let out := job_id_or_error (fst (fst r)) (snd (fst r)) in
  commands_run pre = [] -> waiting_for pre = [] -> errors_shown pre = [] ->
  commands_run post = [] -> waiting_for post = [] -> errors_shown post = [] ->
  (forall id, commands_run (after id) = [] /\ errors_shown (after id) = []) ->
  let tr := pre ++ [Ran script 30 r] ++
            (if truthy (snd out)
             then [Notified (lit "Submit failed: " ++ snd out) Tracker.Error]
             else Notified (lit "Job " ++ fst out ++ lit " submitted!")
                    Tracker.Information :: after (fst out)) ++ post in
  submission_reported script (fun id => waiting_for (after id)) tr.
Proof.
  intros r out Hc Hw He Pc Pw Pe Ha tr. unfold submission_reported, stdout_of.
  split.
  - unfold tr. rewrite !commands_run_app, Hc, Pc. cbn [app commands_run flat_map].
    destruct (truthy (snd out)); [reflexivity|].
    rewrite (commands_run_cons _ (after (fst out))). cbn [app].
    now rewrite (proj1 (Ha _)).
  - exists r. split; [unfold tr; apply in_app_iff; right; now left|].
    destruct (job_id_or_error_cases (fst (fst r)) (snd (fst r))) as [[N E]|[N E]];
      fold out in E; unfold tr; rewrite E; cbn [fst snd truthy].
    + left. split; [exact N|].
      rewrite !waiting_for_app, !errors_shown_app, Hw, He, Pw, Pe.
      cbn [app]. rewrite waiting_for_cons, errors_shown_cons.
      rewrite (waiting_for_cons _ (after _)), (errors_shown_cons _ (after _)).
      cbn [app]. rewrite (proj2 (Ha _)). now rewrite !app_nil_r.
    + right. split; [exact N|].
      pose proof (submission_error_nonempty (snd (fst r))) as NE.
      destruct (submission_error (snd (fst r))) as [|c e] eqn:S; [congruence|].
      cbn [truthy].
      rewrite !waiting_for_app, !errors_shown_app, Hw, He, Pw, Pe. split; reflexivity.
Qed.

Variable email : str.

Lemma hpc_launch_trace (cores : Z) (walltime mode : str) (w : W) :
  let script := HPC.jupyter_script cores walltime 8888 email in
  let r := fst (run script 30 w) in
  let out := job_id_or_error (fst (fst r)) (snd (fst r)) in
  trace (hpc_launch_job run email cores walltime mode) w =
  if eqs mode (lit "terminal")
  then [System (hpc_terminal_command cores walltime); Refreshed]
  else [Notified (lit "Submitting job: " ++ numeral cores ++ lit " cores, " ++
                  walltime ++ lit "...") Tracker.Information] ++
       [Ran script 30 r] ++
       (if truthy (snd out)
        then [Notified (lit "Submit failed: " ++ snd out) Tracker.Error]
        else Notified (lit "Job " ++ fst out ++ lit " submitted!")
               Tracker.Information :: [PushedWaiting (fst out) None]) ++ [].
Proof.
  cbn zeta. unfold trace, hpc_launch_job.
  destruct (eqs mode (lit "terminal")); [reflexivity|].
  unfold HPC.submit_jupyter_job, mbind, emit, ssh_run, ret. cbn [fst snd app].
  destruct (run (HPC.jupyter_script cores walltime 8888 email) 30 w)
    as [[[o e] rc] w'].
  cbn [fst snd]. destruct (job_id_or_error o e) as [id err]. cbn [fst snd].
  destruct (truthy err); reflexivity.
Qed.

Lemma conv_launch_trace (gpu_type : str) (num_gpus : Z)
  (walltime job_name mode : str) (w : W) :
  let script := Conv.jupyter_script gpu_type num_gpus walltime 9888 job_name email in
  let r := fst (run script 30 w) in
  let out := job_id_or_error (fst (fst r)) (snd (fst r)) in
  trace (conv_launch_job run email gpu_type num_gpus walltime job_name mode) w =
  if eqs mode (lit "terminal")
  then [System (conv_terminal_command gpu_type num_gpus walltime job_name); Refreshed]
  else [Notified (lit "Submitting " ++ numeral num_gpus ++ lit "x " ++ gpu_type ++
                  lit ", " ++ walltime ++ lit "...") Tracker.Information] ++
       [Ran script 30 r] ++
       (if truthy (snd out)
        then [Notified (lit "Submit failed: " ++ snd out) Tracker.Error]
        else Notified (lit "Job " ++ fst out ++ lit " submitted!")
               Tracker.Information :: [PushedWaiting (fst out) (Some job_name)]) ++ [].
Proof.
  cbn zeta. unfold trace, conv_launch_job.
  destruct (eqs mode (lit "terminal")); [reflexivity|].
  unfold Conv.submit_jupyter_job, mbind, emit, ssh_run, ret. cbn [fst snd app].
  destruct (run (Conv.jupyter_script gpu_type num_gpus walltime 9888 job_name email) 30 w)
    as [[[o e] rc] w'].
  cbn [fst snd]. destruct (job_id_or_error o e) as [id err]. cbn [fst snd].
  destruct (truthy err); reflexivity.
Qed.

Lemma report_custom_trace (script script_path : str) (w : W)
  (submit : M (@app W) (str * str)) :
  let r := fst (run script 30 w) in
  let out := job_id_or_error (fst (fst r)) (snd (fst r)) in
  (forall tr, submit (w, tr)
              = (out, (snd (run script 30 w), tr ++ [Ran script 30 r]))) ->
  trace (report_custom script_path submit) w =
  [Notified (lit "Submitting " ++ script_path ++ lit "...") Tracker.Information] ++
  [Ran script 30 r] ++
  (if truthy (snd out)
   then [Notified (lit "Submit failed: " ++ snd out) Tracker.Error]
   else Notified (lit "Job " ++ fst out ++ lit " submitted!")
          Tracker.Information :: []) ++ [Refreshed].
Proof.
  cbn zeta. intros Hs. unfold trace, report_custom, mbind, emit. cbn [fst snd app].
  rewrite Hs.
  destruct (job_id_or_error (fst (fst (fst (run script 30 w))))
              (snd (fst (fst (run script 30 w))))) as [id err].
  cbn [fst snd]. destruct (truthy err); reflexivity.
Qed.

Lemma hpc_submit_custom_eq (cores : Z) (walltime script_path : str) (w : W)
  (tr : list event) :
  let script := HPC.custom_command cores walltime script_path in
  let r := fst (run script 30 w) in
  HPC.submit_custom_job (ssh_run run) cores walltime script_path (w, tr)
  = (job_id_or_error (fst (fst r)) (snd (fst r)),
     (snd (run script 30 w), tr ++ [Ran script 30 r])).
Proof.
  cbn zeta. unfold HPC.submit_custom_job, mbind, ssh_run, ret. cbn [fst snd].
  destruct (run (HPC.custom_command cores walltime script_path) 30 w)
    as [[[o e] rc] w']. reflexivity.
Qed.

Lemma conv_submit_custom_eq (gpu_type : str) (num_gpus : Z)
  (walltime job_name script_path : str) (w : W) (tr : list event) :
  let script := Conv.custom_command gpu_type num_gpus walltime job_name email
                  script_path in
  let r := fst (run script 30 w) in
  Conv.submit_custom_job (ssh_run run) gpu_type num_gpus walltime job_name email
    script_path (w, tr)
  = (job_id_or_error (fst (fst r)) (snd (fst r)),
     (snd (run script 30 w), tr ++ [Ran script 30 r])).
Proof.
  cbn zeta. unfold Conv.submit_custom_job, mbind, ssh_run, ret. cbn [fst snd].
  destruct (run (Conv.custom_command gpu_type num_gpus walltime job_name email
                   script_path) 30 w) as [[[o e] rc] w']. reflexivity.
Qed.

Lemma report_cancel_trace (command done : str) (w : W) (cancel : M (@app W) str) :
  (forall tr,
     cancel (w, tr)
     = (error_unless_zero (snd (fst (fst (run command 30 w))))
                          (snd (fst (run command 30 w))),
        (snd (run command 30 w), tr ++ [Ran command 30 (fst (run command 30 w))]))) ->
  cancellation_reported command done (trace (report_cancel done cancel) w).
Proof.
  intros Hc.
  unfold cancellation_reported, trace, report_cancel, mbind, emit.
  cbn [fst snd app]. rewrite Hc.
  destruct (run command 30 w) as [[[o e] rc] w'] eqn:R.
  exists (o, e, rc). cbn [fst snd]. unfold error_unless_zero.
  destruct (rc =? 0); cbn [negb orb truthy]; [reflexivity|].
  destruct (strip e); reflexivity.
Qed.

Lemma cancel_job_eq (sched : Tracker.scheduler) (job_id : str) (w : W)
  (tr : list event) :
  let command := cancel_command sched job_id in
  match sched with
  | Tracker.OAR => HPC.cancel_job (ssh_run run) job_id
  | Tracker.SLURM => Conv.cancel_job (ssh_run run) job_id
  end (w, tr)
  = (error_unless_zero (snd (fst (fst (run command 30 w))))
                       (snd (fst (run command 30 w))),
     (snd (run command 30 w), tr ++ [Ran command 30 (fst (run command 30 w))])).
Proof.
  cbn zeta. unfold cancel_command, HPC.cancel_job, Conv.cancel_job, mbind, ssh_run, ret.
  destruct sched; cbn [fst snd];
    match goal with |- context [run ?c 30 w] =>
      destruct (run c 30 w) as [[[o e] rc] w'] end; reflexivity.
Qed.

Lemma cancel_all_jobs_eq (sched : Tracker.scheduler) (username : str) (w : W)
  (tr : list event) :
  let command := cancel_all_command sched username in
  match sched with
  | Tracker.OAR => HPC.cancel_all_jobs (ssh_run run) username
  | Tracker.SLURM => Conv.cancel_all_jobs (ssh_run run) username
  end (w, tr)
  = (error_unless_zero (snd (fst (fst (run command 30 w))))
                       (snd (fst (run command 30 w))),
     (snd (run command 30 w), tr ++ [Ran command 30 (fst (run command 30 w))])).
Proof.
  cbn zeta. unfold cancel_all_command, HPC.cancel_all_jobs, Conv.cancel_all_jobs,
    mbind, ssh_run, ret.
  destruct sched; cbn [fst snd];
    match goal with |- context [run ?c 30 w] =>
      destruct (run c 30 w) as [[[o e] rc] w'] end; reflexivity.
Qed.

End WithRemote.
End JobsFacts.

(** X26.  [launch_job] of both applications.  In terminal mode it runs
    one local command and refreshes, and asks nothing of the Remote
    Executor.  In every other mode it submits the notebook script, once:
    when the stripped output of the submission is a job id (a non-empty
    run of digits) it opens the waiting screen of that id and shows no
    error; otherwise it opens no waiting screen and shows "Submit failed:"
    with the error of the submission.  So a waiting screen is only ever
    opened for a job id made of digits. *)
Theorem launch_job_reports (W : Type)
  (run : str -> Z -> Py.M W RemoteCommandResult) (email : str)
  (cores : Z) (walltime mode : str)
  (gpu_type : str) (num_gpus : Z) (slurm_walltime job_name slurm_mode : str)
  (w : W) :
  let hpc := Jobs.trace (Jobs.hpc_launch_job run email cores walltime mode) w in
  let conv :=
    Jobs.trace (Jobs.conv_launch_job run email gpu_type num_gpus slurm_walltime
                  job_name slurm_mode) w in
  (if eqs mode (lit "terminal")
   then terminal_opened (Jobs.hpc_terminal_command cores walltime) hpc
   else submission_reported (HPC.jupyter_script cores walltime 8888 email)
          (fun id => [(id, None)]) hpc) /\
  (if eqs slurm_mode (lit "terminal")
   then terminal_opened
          (Jobs.conv_terminal_command gpu_type num_gpus slurm_walltime job_name) conv
   else submission_reported
          (Conv.jupyter_script gpu_type num_gpus slurm_walltime 9888 job_name email)
          (fun id => [(id, Some job_name)]) conv) /\
  (forall id name, In (id, name) (waiting_for hpc ++ waiting_for conv) ->
     numeric_id id).
Proof.
  cbn zeta.
  assert (if eqs mode (lit "terminal")
          then terminal_opened (Jobs.hpc_terminal_command cores walltime)
                 (Jobs.trace (Jobs.hpc_launch_job run email cores walltime mode) w)
          else submission_reported (HPC.jupyter_script cores walltime 8888 email)
                 (fun id => [(id, None)])
                 (Jobs.trace (Jobs.hpc_launch_job run email cores walltime mode) w))
    as H.
  { pose proof (hpc_launch_trace run email cores walltime mode w) as T.
    cbn zeta in T. rewrite T. clear T.
    destruct (eqs mode (lit "terminal")); [reflexivity|].
    apply (submitted_then_reported run (HPC.jupyter_script cores walltime 8888 email) w
             [_] [] (fun id => [Jobs.PushedWaiting id None])); try reflexivity.
    intros id. split; reflexivity. }
  assert (if eqs slurm_mode (lit "terminal")
          then terminal_opened
                 (Jobs.conv_terminal_command gpu_type num_gpus slurm_walltime job_name)
                 (Jobs.trace (Jobs.conv_launch_job run email gpu_type num_gpus
                                slurm_walltime job_name slurm_mode) w)
          else submission_reported
                 (Conv.jupyter_script gpu_type num_gpus slurm_walltime 9888 job_name
                    email)
                 (fun id => [(id, Some job_name)])
                 (Jobs.trace (Jobs.conv_launch_job run email gpu_type num_gpus
                                slurm_walltime job_name slurm_mode) w))
    as C.
  { pose proof (conv_launch_trace run email gpu_type num_gpus slurm_walltime job_name
                  slurm_mode w) as T.
    cbn zeta in T. rewrite T. clear T.
    destruct (eqs slurm_mode (lit "terminal")); [reflexivity|].
    apply (submitted_then_reported run
             (Conv.jupyter_script gpu_type num_gpus slurm_walltime 9888 job_name email) w
             [_] [] (fun id => [Jobs.PushedWaiting id (Some job_name)]));
      try reflexivity.
    intros id. split; reflexivity. }
  split; [exact H|]. split; [exact C|].
  intros id name I. apply in_app_iff in I as [I|I].
  - destruct (eqs mode (lit "terminal")).
    + unfold terminal_opened in H. rewrite H in I. destruct I.
    + destruct H as (_ & r & _ & [(N & Wf & _)|(_ & Wf & _)]); rewrite Wf in I.
      * destruct I as [[= <- _]|[]]. exact N.
      * destruct I.
  - destruct (eqs slurm_mode (lit "terminal")).
    + unfold terminal_opened in C. rewrite C in I. destruct I.
    + destruct C as (_ & r & _ & [(N & Wf & _)|(_ & Wf & _)]); rewrite Wf in I.
      * destruct I as [[= <- _]|[]]. exact N.
      * destruct I.
Qed.

(** X27.  [submit_custom] of both applications submits the script once,
    shows "Submit failed:" with the error of the submission exactly when
    the stripped output is no job id, opens no waiting screen either way,
    and ends by refreshing the listing. *)
Theorem submit_custom_reports (W : Type)
  (run : str -> Z -> Py.M W RemoteCommandResult) (email : str)
  (cores : Z) (walltime script_path : str)
  (gpu_type : str) (num_gpus : Z) (slurm_walltime job_name : str) (w : W) :
  let hpc := Jobs.trace (Jobs.hpc_submit_custom run cores walltime script_path) w in
  let conv :=
    Jobs.trace (Jobs.conv_submit_custom run email gpu_type num_gpus slurm_walltime
                  job_name script_path) w in
  submission_reported (HPC.custom_command cores walltime script_path)
    (fun _ => []) hpc /\
  submission_reported
    (Conv.custom_command gpu_type num_gpus slurm_walltime job_name email script_path)
    (fun _ => []) conv /\
  last hpc Jobs.Refreshed = Jobs.Refreshed /\ length hpc = 4%nat /\
  last conv Jobs.Refreshed = Jobs.Refreshed /\ length conv = 4%nat.
Proof.
  cbn zeta. unfold Jobs.hpc_submit_custom, Jobs.conv_submit_custom.
  pose proof (report_custom_trace run (HPC.custom_command cores walltime script_path)
                script_path w
                (HPC.submit_custom_job (Jobs.ssh_run run) cores walltime script_path)) as T.
  cbn zeta in T. rewrite T by (intros tr; apply (hpc_submit_custom_eq run)). clear T.
  pose proof (report_custom_trace run
                (Conv.custom_command gpu_type num_gpus slurm_walltime job_name email
                   script_path) script_path w
                (Conv.submit_custom_job (Jobs.ssh_run run) gpu_type num_gpus
                   slurm_walltime job_name email script_path)) as T.
  cbn zeta in T. rewrite T by (intros tr; apply (conv_submit_custom_eq run)). clear T.
  split; [|split].
  - apply (submitted_then_reported run (HPC.custom_command cores walltime script_path) w
             [_] [Jobs.Refreshed] (fun _ => [])); try reflexivity.
    intros id. split; reflexivity.
  - apply (submitted_then_reported run
             (Conv.custom_command gpu_type num_gpus slurm_walltime job_name email
                script_path) w [_] [Jobs.Refreshed] (fun _ => [])); try reflexivity.
    intros id. split; reflexivity.
  - repeat split;
      match goal with |- context [truthy ?e] => destruct (truthy e) end; reflexivity.
Qed.

(** X28.  [_kill_job] and [_kill_all], for either scheduler: one command
    is run, the one that cancels; "Cancel failed:" with the stripped
    error output is shown exactly when the command ended with a status
    other than 0 and wrote something that is not blank to its error
    output, and success is announced in every other case; the listing is
    refreshed at the end. *)
Theorem cancellation_reports (W : Type)
  (run : str -> Z -> Py.M W RemoteCommandResult) (username : str)
  (sched : Tracker.scheduler) (job_id : str) (w : W) :
  cancellation_reported (cancel_command sched job_id)
    (lit "Job " ++ job_id ++ lit " cancelled")
    (Jobs.trace (Jobs._kill_job run sched job_id) w) /\
  cancellation_reported (cancel_all_command sched username)
    (lit "All jobs cancelled")
    (Jobs.trace (Jobs._kill_all run username sched) w).
Proof.
  split.
  - apply (report_cancel_trace run). intros tr. apply (cancel_job_eq run).
  - apply (report_cancel_trace run). intros tr. apply (cancel_all_jobs_eq run).
Qed.

(** ** hpc/app.py and conv/app.py: the two patterns of [_connect_to] *)
Section UrlPatternFacts.
Import Text Tracker.

Lemma search_port_sound (url : str) :
  forall ds, search_port url = Some ds ->
  digits ds /\ exists pre rest, url = pre ++ ":"%char :: ds ++ "/"%char :: rest.
Proof.
  induction url as [|c url IH]; intros ds; cbn [search_port]; [discriminate|].
  assert (search_port url = Some ds ->
          digits ds /\
          exists pre rest, c :: url = pre ++ ":"%char :: ds ++ "/"%char :: rest) as K.
  { intros H. destruct (IH ds H) as (D & pre & rest & E).
    split; [exact D|]. exists (c :: pre), rest. now rewrite E. }
  destruct (eqc c ":") eqn:C; [|exact K].
  unfold eqc in C. apply Ascii.eqb_eq in C. subst c.
  pose proof (span_fst_snd is_digit url) as E.
  pose proof (span_fst_all is_digit url) as F.
  destruct (span is_digit url) as [ds' r']; cbn [fst snd] in *.
  destruct ds' as [|d ds']; [exact K|].
  destruct r' as [|c' r']; [exact K|].
  destruct (eqc c' "/") eqn:S; [|exact K].
  unfold eqc in S. apply Ascii.eqb_eq in S. subst c'.
  intros [= <-]. split; [split; [discriminate | exact F]|].
  exists [], r'. cbn [app]. now rewrite E.
Qed.

Lemma search_port_finds (pre ds rest : str) :
  digits ds -> search_port (pre ++ ":"%char :: ds ++ "/"%char :: rest) <> None.
Proof.
  intros D. induction pre as [|p pre IH].
  - rewrite app_nil_l. now rewrite search_port_hit.
  - rewrite <- app_comm_cons. cbn [search_port].
    destruct (if eqc p ":" then _ else None); [discriminate | exact IH].
Qed.

Lemma search_port_complete (url : str) :
  search_port url = None ->
  forall pre ds rest, digits ds -> url <> pre ++ ":"%char :: ds ++ "/"%char :: rest.
Proof.
  intros H pre ds rest D E. subst url. now apply (search_port_finds pre ds rest D).
Qed.

Lemma no_colon_span (r : str) :
  let (host, tail) := span (fun c => negb (eqc c ":")) r in
  r = host ++ tail /\ Forall (fun c => eqc c ":" = false) host /\
  match tail with [] => True | t :: _ => t = ":"%char end.
Proof.
  pose proof (span_fst_snd (fun c => negb (eqc c ":")) r) as E.
  pose proof (span_fst_all (fun c => negb (eqc c ":")) r) as F.
  pose proof (span_snd_head (fun c => negb (eqc c ":")) r) as H.
  destruct (span (fun c => negb (eqc c ":")) r) as [host tail]; cbn [fst snd] in *.
  split; [now symmetry|]. split.
  - revert F. apply Forall_impl. intros c Hc. now apply negb_true_iff in Hc.
  - destruct tail as [|t tail]; [exact I|].
    specialize (H t tail eq_refl). apply negb_false_iff in H.
    unfold eqc in H. now apply Ascii.eqb_eq in H.
Qed.

Lemma sub_localhost_cases (url : str) :
  (exists pre host rest,
     url = pre ++ lit "http://" ++ host ++ ":"%char :: rest /\
     Forall (fun c => eqc c ":" = false) host /\
     sub_localhost url = pre ++ lit "http://localhost:" ++ rest)
  \/
  (sub_localhost url = url /\
   forall pre host rest, url <> pre ++ lit "http://" ++ host ++ ":"%char :: rest).
Proof.
  induction url as [|c url IH].
  - right. split; [reflexivity|]. intros pre host rest E. destruct pre; discriminate E.
  - destruct (strip_prefix (lit "http://") (c :: url)) as [r|] eqn:P.
    + pose proof (strip_prefix_app _ _ _ P) as E.
      pose proof (no_colon_span r) as S.
      destruct (span (fun c => negb (eqc c ":")) r) as [host tail] eqn:Sp.
      destruct S as (Er & Fh & Ht).
      destruct tail as [|t r'].
      * (* no colon after the scheme here: the search goes on *)
        rewrite app_nil_r in Er. subst host.
        assert (sub_localhost (c :: url) = c :: sub_localhost url) as Eq.
        { cbn [sub_localhost]. rewrite P, Sp. reflexivity. }
        destruct IH as [(pre & host & rest & E1 & F1 & R1)|(R1 & N1)].
        -- left. exists (c :: pre), host, rest. rewrite Eq, R1, E1. now repeat split.
        -- right. rewrite Eq, R1. split; [reflexivity|].
           intros pre host rest E2. destruct pre as [|p pre].
           ++ rewrite app_nil_l in E2. rewrite E in E2.
              apply app_inv_head in E2.
              assert (In ":"%char r) as I by (rewrite E2; apply in_app_iff; right; now left).
              rewrite Forall_forall in Fh. apply Fh in I. discriminate I.
           ++ rewrite <- app_comm_cons in E2. injection E2 as _ E2.
              exact (N1 pre host rest E2).
      * subst t. left. exists [], host, r'. rewrite !app_nil_l. split; [|split].
        -- rewrite E, Er. reflexivity.
        -- exact Fh.
        -- cbn [sub_localhost]. rewrite P, Sp. reflexivity.
    + assert (sub_localhost (c :: url) = c :: sub_localhost url) as Eq
        by (cbn [sub_localhost]; now rewrite P).
      destruct IH as [(pre & host & rest & E1 & F1 & R1)|(R1 & N1)].
      * left. exists (c :: pre), host, rest. rewrite Eq, R1, E1. now repeat split.
      * right. rewrite Eq, R1. split; [reflexivity|].
        intros pre host rest E2. destruct pre as [|p pre].
        -- rewrite app_nil_l in E2. rewrite E2 in P.
           change (lit "http://" ++ host ++ ":"%char :: rest)
             with (lit "http://" ++ (host ++ ":"%char :: rest)) in P.
           rewrite strip_prefix_intro in P. discriminate P.
        -- rewrite <- app_comm_cons in E2. injection E2 as _ E2.
           exact (N1 pre host rest E2).
Qed.

End UrlPatternFacts.

(** X29.  The two regular expressions of [_connect_to], on any text.  A
    port is read exactly when the text holds a colon, a non-empty run of
    digits and a slash in a row, and what is read is such a run.  The
    local URL is the text with [http://localhost:] in the place of one
    [http://host:], where [host] holds no colon, everything before and
    after it being kept; when the text holds no [http://...:] it is left
    as it is. *)
Theorem url_patterns_are_adequate (url : str) :
  match Tracker.search_port url with
  | Some ds =>
      digits ds /\ exists pre rest, url = pre ++ ":"%char :: ds ++ "/"%char :: rest
  | None =>
      forall pre ds rest, digits ds ->
        url <> pre ++ ":"%char :: ds ++ "/"%char :: rest
  end /\
  ((exists pre host rest,
      url = pre ++ lit "http://" ++ host ++ ":"%char :: rest /\
      Forall (fun c => eqc c ":" = false) host /\
      Tracker.sub_localhost url = pre ++ lit "http://localhost:" ++ rest)
   \/
   (Tracker.sub_localhost url = url /\
    forall pre host rest, url <> pre ++ lit "http://" ++ host ++ ":"%char :: rest)).
Proof.
  split.
  - destruct (Tracker.search_port url) as [ds|] eqn:S.
    + now apply search_port_sound.
    + now apply search_port_complete.
  - apply sub_localhost_cases.
Qed.

(** ** conv/commands.py: the listing of the jobs, in general *)
Section SqueueFacts.
Import Text Py Conv.

Lemma split_fields_clean (sep : ascii) (s : str) :
  Forall (fun f => Forall (fun c => eqc c sep = false) f) (split sep s).
Proof.
  induction s as [|c s IH]; cbn [split]; [repeat constructor|].
  destruct (eqc c sep) eqn:E; [constructor; [constructor | exact IH]|].
  destruct (split sep s) as [|f fs]; [repeat constructor; exact E|].
  inversion IH as [|? ? Hf Hfs]; subst.
  constructor; [|exact Hfs]. now constructor.
Qed.

Lemma nth_fields_clean (sep : ascii) (s : str) (n : nat) :
  Forall (fun c => eqc c sep = false) (nth n (split sep s) []).
Proof.
  pose proof (split_fields_clean sep s) as F. rewrite Forall_forall in F.
  destruct (Nat.ltb_spec n (length (split sep s))) as [L|L].
  - apply F. now apply nth_In.
  - rewrite nth_overflow by exact L. constructor.
Qed.

Lemma line_jobs_clean (line : str) :
  Forall (fun j =>
            Forall (fun c => eqc c "|" = false) (job_id j) /\
            Forall (fun c => eqc c "|" = false) (name j) /\
            Forall (fun c => eqc c "|" = false) (state j) /\
            Forall (fun c => eqc c "|" = false) (node j)) (line_jobs line).
Proof.
  unfold line_jobs, fields.
  destruct (8 <=? length (split "|" (strip line)))%nat;
    [|destruct (4 <=? length (split "|" (strip line)))%nat];
    repeat constructor; apply nth_fields_clean.
Qed.

Lemma line_jobs_at_most_one (line : str) : (length (line_jobs line) <= 1)%nat.
Proof.
  unfold line_jobs.
  destruct (8 <=? length (fields line))%nat; [cbn; lia|].
  destruct (4 <=? length (fields line))%nat; cbn; lia.
Qed.

End SqueueFacts.

(** X30.  [fetch_jobs] of the SLURM adapter on any listing: it never
    fails and runs one command; unless the command succeeded with a
    listing that is not blank it returns nothing; otherwise it returns,
    in order, at most one record per line of the stripped listing: the
    record of its first eight fields when the line has that many, of its
    first four when it has four to seven, and none for a shorter line.
    The id, name, state and node of a record hold no field separator. *)
Theorem slurm_fetch_jobs_one_record_per_line (W : Type)
  (run : str -> Z -> Py.M W RemoteCommandResult) (username : str) (w : W) :
  let r := fst (run (Conv.fetch_jobs_command username) 30 w) in
  let listed :=
    if negb (snd r =? 0) || negb (truthy (strip (stdout_of r))) then []
    else flat_map line_jobs (splitlines (strip (stdout_of r))) in
  Conv.fetch_jobs run username w
    = (Py.Ok listed, snd (run (Conv.fetch_jobs_command username) 30 w)) /\
  (length listed <= length (splitlines (strip (stdout_of r))))%nat /\
  Forall (fun j =>
            Forall (fun c => eqc c "|" = false) (Conv.job_id j) /\
            Forall (fun c => eqc c "|" = false) (Conv.name j) /\
            Forall (fun c => eqc c "|" = false) (Conv.state j) /\
            Forall (fun c => eqc c "|" = false) (Conv.node j)) listed.
Proof.
  cbn zeta. unfold Conv.fetch_jobs, Py.mbind, Py.ret, stdout_of.
  destruct (run (Conv.fetch_jobs_command username) 30 w) as [[[stdout stderr] rc] w'].
  cbn [fst snd]. rewrite parse_squeue_ok.
  split; [reflexivity|].
  destruct (negb (rc =? 0) || negb (truthy (strip stdout))).
  - split; [cbn; lia | constructor].
  - split.
    + generalize (splitlines (strip stdout)). intros lines.
      induction lines as [|l lines IH]; cbn [flat_map length]; [lia|].
      rewrite length_app. pose proof (line_jobs_at_most_one l). lia.
    + apply Forall_flat_map. apply Forall_forall. intros l _. apply line_jobs_clean.
Qed.
